(** * Warehouse inventory forecasting and capacity optimisation

    A shallow embedding of the rolling inventory simulator
    ([warehouse_product_rolling_forecast.py]), the capacity analyser and
    transfer optimiser ([api_warehouse_capacity_optimization.py]), the
    scenario simulator ([api_warehouse_scenario_simulator.py]) and the
    shipping-cost estimate of the allocation engine
    ([api_inventory_allocation_view.py]).

    Conventions of the embedding.
    - Python numbers are exact rationals [Q]: the binary floating point of
      the source is idealised, so equations between computed quantities are
      stated with [==] and hold up to floating-point error in the program.
      Values that the source passes through [round(x)] are integers [Z].
      Rounding is applied to the exact value: where that value lies
      exactly halfway between two results, the binary value that the
      program rounds may lie on either side of it, and the program then
      returns one of the two nearest results. Theorems about a rounded
      product therefore bound it instead of naming the result.
    - Dictionaries that the source fills for a fixed key set before reading
      them (keyed by warehouse and product) are total functions updated
      point-wise; dictionaries keyed by month, and the produced result
      tree, are finite maps.
    - Objects that the source shares and mutates (the nested dictionaries
      of a capacity analysis) live in an explicit heap, see [Heap]. *)

From stdpp Require Import gmap strings list fin_maps.
From Stdlib Require Import QArith Qround Qminmax Qabs Lqa.

Open Scope Q_scope.

(** ** Python numerics *)

Module PyNum.

(** [x > y], [x < y] and [x >= y] as the source tests them. *)
Definition Qgtb (x y : Q) : bool := negb (Qle_bool x y).
Definition Qltb (x y : Q) : bool := Qgtb y x.
Definition Qgeb (x y : Q) : bool := Qle_bool y x.

(** [round(x)]: the nearest integer, ties to the even one. At a tie of
    the exact value the program's binary value decides between the two
    nearest integers, see [PyNumFacts.py_round_within]. *)
Definition py_round (x : Q) : Z :=
  let f := Qfloor x in
  match Qcompare (x - inject_Z f) (1 # 2) with
  | Lt => f
  | Gt => (f + 1)%Z
  | Eq => if Z.even f then f else (f + 1)%Z
  end.

(** [round(x, ndigits)]. *)
Definition pow10 (ndigits : nat) : Q := inject_Z (10 ^ Z.of_nat ndigits).

Definition py_round_nd (x : Q) (ndigits : nat) : Q :=
  inject_Z (py_round (x * pow10 ndigits)) / pow10 ndigits.

(** [sum(l)] and [mean]. *)
Definition py_sum (l : list Q) : Q := fold_left Qplus l 0.

Definition py_mean (l : list Q) : Q := py_sum l / inject_Z (Z.of_nat (length l)).

(** [min(a, b, c, d)]: the first smallest argument. *)
Definition py_min4 (a b c d : Q) : Q := Qmin (Qmin (Qmin a b) c) d.

(** A whole number. *)
Definition is_whole (x : Q) : Prop := exists z : Z, x == inject_Z z.

(** [int(x)]: the integer part of [x], towards zero. Where the exact
    value of a product is whole, the floating-point product of the source
    may fall just below it and [int] then gives the integer below. *)
Definition py_int (x : Q) : Z := if Qle_bool 0 x then Qfloor x else Qceiling x.

End PyNum.

Import PyNum.

(** ** The rolling inventory simulator *)

Module RollingForecast.

(** [self.warehouses] and [self.products], set by [__init__]. *)
Definition warehouses : list string :=
  ["Atlanta"; "Nashville"; "Chicago"; "NY"; "LA"]%string.

Definition products : list string := ["Footwear"; "Apparel"]%string.

Inductive flow_type := inflows | outflows.

#[global] Instance flow_type_eq_dec : EqDecision flow_type.
Proof. solve_decision. Defined.

(** One row of a fitted model's [predict]. *)
Record yhat_row := { yhat : Q; yhat_lower : Q; yhat_upper : Q }.

(** The state of the forecaster that [generate_rolling_forecast] reads.
    A forecast date is the index [i] of its month: the date is
    [start_date + relativedelta(months=i)]. [prophet_models] holds [None]
    where no model was fitted; [training_data] is the ['y'] column of the
    monthly history of a series. Capacities are positive, as the
    configuration requires: the source divides by them. *)
Record forecaster := {
  starting_inventory : string -> string -> Q;
  warehouse_capacities : string -> Q;
  prophet_models : string -> string -> flow_type -> option (nat -> yhat_row);
  training_data : string -> string -> flow_type -> list Q
}.

(** [date.strftime('%Y-%m')] of the [i]-th forecast date, as the pair
    (year, month); the first date is January 2023. *)
Definition month_key : Type := (nat * nat)%type.

Definition month_key_of (i : nat) : month_key :=
  (2023 + i / 12, 1 + i mod 12)%nat.

(** Order of the keys as strings: by year, then by month. *)
Definition month_key_ltb (a b : month_key) : bool :=
  (a.1 <? b.1)%nat || ((a.1 =? b.1)%nat && (a.2 <? b.2)%nat).

Record prediction := { forecast : Q; lower : Q; upper : Q }.

Record forecast_entry := { fe_forecast : Z; fe_lower : Z; fe_upper : Z }.

Inductive flow_status := SURPLUS | DEFICIT.

Record net_flow_entry := { nf_forecast : Z; nf_status : flow_status }.

(** One row of the ledger, [rolling_inventory[month_key]]. *)
Record inventory_position := {
  starting_position : Z;
  inflow : Z;
  outflow : Z;
  net_flow : Z;
  ending_position : Z;
  capacity_utilization : Q
}.

Inductive severity := HIGH | MEDIUM.

#[global] Instance severity_eq_dec : EqDecision severity.
Proof. solve_decision. Defined.

Inductive alert_type := OVER_CAPACITY.

(** The message of an alert is
    [f"{warehouse} will be at {utilization:.1f}% capacity in {month_key}"];
    [alert_message_pct] is the percentage it prints. *)
Record alert := {
  alert_warehouse : string;
  alert_date : month_key;
  type : alert_type;
  alert_message_pct : Q;
  alert_severity : severity
}.

Record monthly_position := {
  mp_date : month_key;
  mp_products : gmap string (Z * Z);
  warehouse_total_before : Q;
  warehouse_total_after : Q;
  mp_capacity_utilization : Q
}.

Record product_result := {
  forecasts_inflows : gmap month_key forecast_entry;
  forecasts_outflows : gmap month_key forecast_entry;
  forecasts_net_flow : gmap month_key net_flow_entry;
  rolling_inventory : gmap month_key inventory_position;
  product_alerts : list alert
}.

(** [overall_alerts] is the entry ['Overall'] of the products dictionary,
    created by the first alert of the warehouse. *)
Record warehouse_result := {
  wr_products : gmap string product_result;
  overall_alerts : option (list alert);
  capacity_info : Q;
  monthly_positions : list monthly_position
}.

Record network_summary_t := {
  total_warehouses : nat;
  total_products : nat;
  network_projected_inflow : Z;
  network_projected_outflow : Z;
  network_net_position : Z;
  final_network_inventory : Z;
  warehouses_at_risk : nat;
  total_alerts : nat
}.

Record results_t := {
  forecast_horizon_months : nat;
  res_warehouses : gmap string warehouse_result;
  network_summary : option network_summary_t;
  alerts : list alert
}.

(** Updates of the result tree. *)
Definition set_products (f : gmap string product_result -> gmap string product_result)
    (wr : warehouse_result) : warehouse_result :=
  {| wr_products := f (wr_products wr);
     overall_alerts := overall_alerts wr;
     capacity_info := capacity_info wr;
     monthly_positions := monthly_positions wr |}.

Definition on_warehouse (w : string) (f : warehouse_result -> warehouse_result)
    (res : results_t) : results_t :=
  {| forecast_horizon_months := forecast_horizon_months res;
     res_warehouses := alter f w (res_warehouses res);
     network_summary := network_summary res;
     alerts := alerts res |}.

Definition on_product (w p : string) (f : product_result -> product_result)
    (res : results_t) : results_t :=
  on_warehouse w (set_products (alter f p)) res.

Definition set_forecast (ft : flow_type) (k : month_key) (e : forecast_entry)
    (pr : product_result) : product_result :=
  {| forecasts_inflows :=
       match ft with inflows => <[k := e]> (forecasts_inflows pr)
                   | outflows => forecasts_inflows pr end;
     forecasts_outflows :=
       match ft with inflows => forecasts_outflows pr
                   | outflows => <[k := e]> (forecasts_outflows pr) end;
     forecasts_net_flow := forecasts_net_flow pr;
     rolling_inventory := rolling_inventory pr;
     product_alerts := product_alerts pr |}.

Definition set_net_flow (k : month_key) (e : net_flow_entry)
    (pr : product_result) : product_result :=
  {| forecasts_inflows := forecasts_inflows pr;
     forecasts_outflows := forecasts_outflows pr;
     forecasts_net_flow := <[k := e]> (forecasts_net_flow pr);
     rolling_inventory := rolling_inventory pr;
     product_alerts := product_alerts pr |}.

Definition set_rolling (k : month_key) (e : inventory_position)
    (pr : product_result) : product_result :=
  {| forecasts_inflows := forecasts_inflows pr;
     forecasts_outflows := forecasts_outflows pr;
     forecasts_net_flow := forecasts_net_flow pr;
     rolling_inventory := <[k := e]> (rolling_inventory pr);
     product_alerts := product_alerts pr |}.

Definition add_alert (w : string) (a : alert) (res : results_t) : results_t :=
  {| forecast_horizon_months := forecast_horizon_months res;
     res_warehouses :=
       alter (fun wr =>
                {| wr_products := wr_products wr;
                   overall_alerts := Some (default [] (overall_alerts wr) ++ [a]);
                   capacity_info := capacity_info wr;
                   monthly_positions := monthly_positions wr |})
             w (res_warehouses res);
     network_summary := network_summary res;
     alerts := alerts res ++ [a] |}.

Definition add_monthly_position (mp : monthly_position)
    (wr : warehouse_result) : warehouse_result :=
  {| wr_products := wr_products wr;
     overall_alerts := overall_alerts wr;
     capacity_info := capacity_info wr;
     monthly_positions := monthly_positions wr ++ [mp] |}.

(** The simulation state: [current_inventory], [monthly_forecasts] and
    [results]. *)
Record sim_state := {
  current_inventory : string -> string -> Q;
  monthly_forecasts : string -> string -> flow_type -> month_key -> prediction;
  results : results_t
}.

Definition upd2 {V} (f : string -> string -> V) (w p : string) (v : V)
    : string -> string -> V :=
  fun w' p' => if decide (w' = w /\ p' = p) then v else f w' p'.

Definition upd_forecast
    (f : string -> string -> flow_type -> month_key -> prediction)
    (w p : string) (ft : flow_type) (k : month_key) (v : prediction)
    : string -> string -> flow_type -> month_key -> prediction :=
  fun w' p' ft' k' =>
    if decide (w' = w /\ p' = p /\ ft' = ft /\ k' = k) then v else f w' p' ft' k'.

(** The forecast of one series for the [i]-th date: the fitted model's
    prediction clamped at zero, else the mean of the history, else zero. *)
Definition predict (self : forecaster) (w p : string) (ft : flow_type)
    (i : nat) : prediction :=
  match prophet_models self w p ft with
  | Some model =>
      let fc := model i in
      {| forecast := Qmax 0 (yhat fc);
         lower := Qmax 0 (yhat_lower fc);
         upper := Qmax 0 (yhat_upper fc) |}
  | None =>
      let hist_data := training_data self w p ft in
      if (0 <? length hist_data)%nat then
        let predicted_value := py_mean hist_data in
        {| forecast := predicted_value;
           lower := predicted_value * 0.8;
           upper := predicted_value * 1.2 |}
      else {| forecast := 0; lower := 0; upper := 0 |}
  end.

(** Body of [for flow_type in ['inflows', 'outflows']]. *)
Definition flow_step (self : forecaster) (i : nat) (w p : string)
    (st : sim_state) (ft : flow_type) : sim_state :=
  let k := month_key_of i in
  let pv := predict self w p ft i in
  {| current_inventory := current_inventory st;
     monthly_forecasts := upd_forecast (monthly_forecasts st) w p ft k pv;
     results :=
       on_product w p
         (set_forecast ft k
            {| fe_forecast := py_round (forecast pv);
               fe_lower := py_round (lower pv);
               fe_upper := py_round (upper pv) |})
         (results st) |}.

(** "Predict flows for this month". *)
Definition predict_flows (self : forecaster) (i : nat) (st : sim_state)
    : sim_state :=
  fold_left
    (fun st w =>
       fold_left
         (fun st p => fold_left (flow_step self i w p) [inflows; outflows] st)
         products st)
    warehouses st.

(** Body of [for product in self.products] of the position update; the
    second component is the local [warehouse_monthly_position]. *)
Definition product_step (self : forecaster) (i : nat) (w : string)
    (acc : sim_state * monthly_position) (p : string)
    : sim_state * monthly_position :=
  let st := acc.1 in
  let wmp := acc.2 in
  let k := month_key_of i in
  let inflow_ := forecast (monthly_forecasts st w p inflows k) in
  let outflow_ := forecast (monthly_forecasts st w p outflows k) in
  let net_flow_ := inflow_ - outflow_ in
  let before_position := current_inventory st w p in
  let after_position := Qmax 0 (before_position + net_flow_) in
  let res :=
    on_product w p
      (set_net_flow k
         {| nf_forecast := py_round net_flow_;
            nf_status := if Qgtb net_flow_ 0 then SURPLUS else DEFICIT |})
      (results st) in
  let res :=
    on_product w p
      (set_rolling k
         {| starting_position := py_round before_position;
            inflow := py_round inflow_;
            outflow := py_round outflow_;
            net_flow := py_round net_flow_;
            ending_position := py_round after_position;
            capacity_utilization :=
              py_round_nd (after_position / warehouse_capacities self w * 100) 1 |})
      res in
  ({| current_inventory := upd2 (current_inventory st) w p after_position;
      monthly_forecasts := monthly_forecasts st;
      results := res |},
   {| mp_date := mp_date wmp;
      mp_products :=
        <[p := (py_round before_position, py_round after_position)]> (mp_products wmp);
      warehouse_total_before := warehouse_total_before wmp + before_position;
      warehouse_total_after := warehouse_total_after wmp + after_position;
      mp_capacity_utilization := mp_capacity_utilization wmp |}).

(** The alert of a warehouse and month at a given utilization. *)
Definition make_alert (w : string) (k : month_key) (utilization : Q) : alert :=
  {| alert_warehouse := w;
     alert_date := k;
     type := OVER_CAPACITY;
     alert_message_pct := py_round_nd utilization 1;
     alert_severity := if Qgtb utilization 95 then HIGH else MEDIUM |}.

(** Body of [for warehouse in self.warehouses] of the position update.
    The local dictionary has no ['capacity_utilization'] until the end of
    the body; the record holds 0 until then. *)
Definition warehouse_step (self : forecaster) (i : nat) (st : sim_state)
    (w : string) : sim_state :=
  let k := month_key_of i in
  let warehouse_monthly_position :=
    {| mp_date := k; mp_products := ∅;
       warehouse_total_before := 0; warehouse_total_after := 0;
       mp_capacity_utilization := 0 |} in
  let acc := fold_left (product_step self i w) products
               (st, warehouse_monthly_position) in
  let st := acc.1 in
  let wmp := acc.2 in
  let total_capacity := warehouse_capacities self w in
  let utilization := warehouse_total_after wmp / total_capacity * 100 in
  let res :=
    if Qgtb utilization 90
    then add_alert w (make_alert w k utilization) (results st)
    else results st in
  let wmp :=
    {| mp_date := mp_date wmp; mp_products := mp_products wmp;
       warehouse_total_before := warehouse_total_before wmp;
       warehouse_total_after := warehouse_total_after wmp;
       mp_capacity_utilization := py_round_nd utilization 1 |} in
  {| current_inventory := current_inventory st;
     monthly_forecasts := monthly_forecasts st;
     results := on_warehouse w (add_monthly_position wmp) res |}.

(** "Update rolling inventory positions". *)
Definition update_positions (self : forecaster) (i : nat) (st : sim_state)
    : sim_state :=
  fold_left (warehouse_step self i) warehouses st.

(** Body of [for date in forecast_dates]. *)
Definition month_step (self : forecaster) (st : sim_state) (i : nat)
    : sim_state :=
  update_positions self i (predict_flows self i st).

Definition empty_product_result : product_result :=
  {| forecasts_inflows := ∅; forecasts_outflows := ∅;
     forecasts_net_flow := ∅; rolling_inventory := ∅; product_alerts := [] |}.

(** The result tree before the first month. *)
Definition init_results (self : forecaster) (horizon_months : nat) : results_t :=
  {| forecast_horizon_months := horizon_months;
     res_warehouses :=
       fold_left
         (fun m w =>
            <[w := {| wr_products :=
                        fold_left (fun mp p => <[p := empty_product_result]> mp)
                          products ∅;
                      overall_alerts := None;
                      capacity_info := warehouse_capacities self w;
                      monthly_positions := [] |}]> m)
         warehouses ∅;
     network_summary := None;
     alerts := [] |}.

Definition init_state (self : forecaster) (horizon_months : nat) : sim_state :=
  {| current_inventory := starting_inventory self;
     monthly_forecasts :=
       fun _ _ _ _ => {| forecast := 0; lower := 0; upper := 0 |};
     results := init_results self horizon_months |}.

(** [for month_data in d.values(): total += month_data['forecast']]. *)
Definition sum_forecasts (d : gmap month_key forecast_entry) (total : Z) : Z :=
  map_fold (fun _ month_data acc => (acc + fe_forecast month_data)%Z) total d.

(** [max(d.keys())]. *)
Definition max_key {V} (d : gmap month_key V) : option month_key :=
  map_fold
    (fun k _ acc =>
       match acc with
       | None => Some k
       | Some k' => Some (if month_key_ltb k' k then k else k')
       end)
    None d.

Definition product_data (res : results_t) (w p : string) : option product_result :=
  res_warehouses res !! w ≫= fun wr => wr_products wr !! p.

(** Body of the two loops of [_generate_network_summary]: the running
    totals of inflow, outflow and final inventory. *)
Definition summary_step (res : results_t) (w : string) (acc : Z * Z * Z)
    (p : string) : Z * Z * Z :=
  match product_data res w p with
  | Some pd =>
      let total_network_inflow := sum_forecasts (forecasts_inflows pd) acc.1.1 in
      let total_network_outflow := sum_forecasts (forecasts_outflows pd) acc.1.2 in
      let inventory_data := rolling_inventory pd in
      let total_network_inventory :=
        match max_key inventory_data ≫= fun k => inventory_data !! k with
        | Some r => (acc.2 + ending_position r)%Z
        | None => acc.2
        end in
      (total_network_inflow, total_network_outflow, total_network_inventory)
  | None => acc
  end.

Definition _generate_network_summary (res : results_t) : network_summary_t :=
  let totals :=
    fold_left (fun acc w => fold_left (summary_step res w) products acc)
      warehouses (0, 0, 0)%Z in
  let total_network_inflow := totals.1.1 in
  let total_network_outflow := totals.1.2 in
  let total_network_inventory := totals.2 in
  let warehouses_at_risk_ :=
    length (filter (fun a => alert_severity a = HIGH) (alerts res)) in
  {| total_warehouses := length warehouses;
     total_products := length products;
     network_projected_inflow := py_round (inject_Z total_network_inflow);
     network_projected_outflow := py_round (inject_Z total_network_outflow);
     network_net_position :=
       py_round (inject_Z total_network_inflow - inject_Z total_network_outflow);
     final_network_inventory := py_round (inject_Z total_network_inventory);
     warehouses_at_risk := warehouses_at_risk_;
     total_alerts := length (alerts res) |}.

Definition generate_rolling_forecast (self : forecaster) (horizon_months : nat)
    : results_t :=
  let forecast_dates := seq 0 horizon_months in
  let st := fold_left (month_step self) forecast_dates
              (init_state self horizon_months) in
  let res := results st in
  {| forecast_horizon_months := forecast_horizon_months res;
     res_warehouses := res_warehouses res;
     network_summary := Some (_generate_network_summary res);
     alerts := alerts res |}.

(** The ledger row of a warehouse, product and month index. *)
Definition ledger (res : results_t) (w p : string) (i : nat)
    : option inventory_position :=
  product_data res w p ≫= fun pd => rolling_inventory pd !! month_key_of i.

(** The ledger of a warehouse and product, the monthly positions of a
    warehouse, and its position of the [t]-th month. *)
Definition rolling_of (res : results_t) (w p : string)
    : option (gmap month_key inventory_position) :=
  rolling_inventory <$> product_data res w p.

Definition positions_of (res : results_t) (w : string)
    : option (list monthly_position) :=
  monthly_positions <$> res_warehouses res !! w.


(** *** The simulation as a fold over the months *)

(** The unrounded position that a warehouse and product carry into month
    [t]: the starting inventory, then month after month the position
    plus the net flow, clamped at zero. *)
Fixpoint position_at (self : forecaster) (w p : string) (t : nat) : Q :=
  match t with
  | O => starting_inventory self w p
  | S t' =>
      Qmax 0 (position_at self w p t'
              + (forecast (predict self w p inflows t')
                 - forecast (predict self w p outflows t')))
  end.

Definition ledger_row (self : forecaster) (w p : string) (t : nat)
    : inventory_position :=
  let inflow_ := forecast (predict self w p inflows t) in
  let outflow_ := forecast (predict self w p outflows t) in
  {| starting_position := py_round (position_at self w p t);
     inflow := py_round inflow_;
     outflow := py_round outflow_;
     net_flow := py_round (inflow_ - outflow_);
     ending_position := py_round (position_at self w p (S t));
     capacity_utilization :=
       py_round_nd (position_at self w p (S t) / warehouse_capacities self w * 100) 1 |}.

Definition total_after_at (self : forecaster) (w : string) (t : nat) : Q :=
  fold_left (fun acc p => acc + position_at self w p (S t)) products 0.

Definition utilization_at (self : forecaster) (w : string) (t : nat) : Q :=
  total_after_at self w t / warehouse_capacities self w * 100.

Definition alerts_at (self : forecaster) (t : nat) (w : string) : list alert :=
  if Qgtb (utilization_at self w t) 90
  then [make_alert w (month_key_of t) (utilization_at self w t)]
  else [].

Definition month_alerts (self : forecaster) (t : nat) : list alert :=
  flat_map (alerts_at self t) warehouses.

(** The rounded forecasts that the results hold for a series after [k]
    months, and the totals of the network summary over a horizon. *)
Definition forecast_entry_at (self : forecaster) (w p : string) (ft : flow_type)
    (t : nat) : forecast_entry :=
  {| fe_forecast := py_round (forecast (predict self w p ft t));
     fe_lower := py_round (lower (predict self w p ft t));
     fe_upper := py_round (upper (predict self w p ft t)) |}.

Fixpoint forecast_map (self : forecaster) (w p : string) (ft : flow_type)
    (k : nat) : gmap month_key forecast_entry :=
  match k with
  | O => ∅
  | S k' =>
      <[month_key_of k' := forecast_entry_at self w p ft k']>
        (forecast_map self w p ft k')
  end.

Definition forecasts_of (res : results_t) (w p : string) (ft : flow_type)
    : option (gmap month_key forecast_entry) :=
  (fun pd => match ft with
             | inflows => forecasts_inflows pd
             | outflows => forecasts_outflows pd
             end) <$> product_data res w p.

(** The sum of the rounded forecasts of a series over the horizon, and of
    all series of a flow type. *)
Definition series_total (self : forecaster) (w p : string) (ft : flow_type)
    (h : nat) : Z :=
  fold_left (fun acc t => (acc + py_round (forecast (predict self w p ft t)))%Z)
    (seq 0 h) 0%Z.

Definition network_total (self : forecaster) (ft : flow_type) (h : nat) : Z :=
  fold_left
    (fun acc w =>
       fold_left (fun acc p => (acc + series_total self w p ft h)%Z) products acc)
    warehouses 0%Z.

(** *** An example run *)

(** Atlanta starts with 1000 units of footwear, for which a fitted model
    predicts an inflow of 100.4 units every month; nothing else moves, and
    every warehouse holds 1200 units. *)
Definition example_forecaster : forecaster :=
  {| starting_inventory := fun w p =>
       if decide (w = "Atlanta"%string /\ p = "Footwear"%string) then 1000 else 0;
     warehouse_capacities := fun _ => 1200;
     prophet_models := fun w p ft =>
       if decide (w = "Atlanta"%string /\ p = "Footwear"%string /\ ft = inflows)
       then Some (fun _ => {| yhat := 100.4; yhat_lower := 90; yhat_upper := 110 |})
       else None;
     training_data := fun _ _ _ => [] |}.

(** A run that depletes a series: Atlanta starts with 1000 units of
    footwear, for which a fitted model predicts an outflow of 600 units
    every month and nothing predicts an inflow. *)
Definition depleting_forecaster : forecaster :=
  {| starting_inventory := fun w p =>
       if decide (w = "Atlanta"%string /\ p = "Footwear"%string) then 1000 else 0;
     warehouse_capacities := fun _ => 1200;
     prophet_models := fun w p ft =>
       if decide (w = "Atlanta"%string /\ p = "Footwear"%string /\ ft = outflows)
       then Some (fun _ => {| yhat := 600; yhat_lower := 500; yhat_upper := 700 |})
       else None;
     training_data := fun _ _ _ => [] |}.

(** A run in which nothing moves: Chicago holds 750.4 units of footwear,
    and no series has a model or a history. *)
Definition idle_forecaster : forecaster :=
  {| starting_inventory := fun w p =>
       if decide (w = "Chicago"%string /\ p = "Footwear"%string) then 750.4 else 0;
     warehouse_capacities := fun _ => 1200;
     prophet_models := fun _ _ _ => None;
     training_data := fun _ _ _ => [] |}.

(** The rows that the ledger of a series holds after [k] months. *)
Fixpoint ledger_map (self : forecaster) (w p : string) (k : nat)
    : gmap month_key inventory_position :=
  match k with
  | O => ∅
  | S k' => <[month_key_of k' := ledger_row self w p k']> (ledger_map self w p k')
  end.



(** The position that a series carries out of the last month of a horizon,
    rounded as the ledger has it; with no month there is no ledger row, and
    the summary counts nothing for the series. *)
Definition final_position (self : forecaster) (w p : string) (h : nat) : Z :=
  match h with
  | O => 0%Z
  | S _ => py_round (position_at self w p h)
  end.



End RollingForecast.

(** ** The capacity analyser and the transfer optimiser *)

Module CapacityOptimizer.

Import RollingForecast(month_key).

(** *** A capacity analysis record, as [analyze_capacity_utilization]
    builds it for one warehouse *)

Record warehouse_info_t := {
  name : string;
  max_capacity : Q;
  current_inventory : Q;
  available_capacity : Q;
  available_capacity_pct : Q
}.

Record utilization_metrics_t := {
  average_utilization : Q;
  max_utilization : Q;
  min_utilization : Q;
  final_utilization : Q;
  utilization_range : Q
}.

Record trend_analysis_t := {
  trend_direction : string;
  trend_slope : Q;
  volatility : Q
}.

Inductive risk_level := HIGH | MEDIUM | LOW | MINIMAL.

Record risk_assessment_t := {
  level : risk_level;
  score : Z;
  factors : list string
}.

Record timeline_data_t := {
  months : list month_key;
  utilization_pct : list Q;
  inventory_levels : list Z
}.

Record warehouse_data := {
  warehouse_info : warehouse_info_t;
  utilization_metrics : utilization_metrics_t;
  trend_analysis : trend_analysis_t;
  risk_assessment : risk_assessment_t;
  timeline_data : timeline_data_t
}.

(** A capacity analysis: the dictionary from warehouse to record, in
    insertion order. *)
Definition capacity_analysis_t : Type := list (string * warehouse_data).

(** [d[k]] on an ordered dictionary. *)
Fixpoint dict_get {V} (k : string) (d : list (string * V)) : option V :=
  match d with
  | [] => None
  | (k', v) :: d' => if decide (k' = k) then Some v else dict_get k d'
  end.

(** *** Risk assessment *)

Definition _assess_capacity_risk (avg_util max_util trend_slope : Q)
    : risk_assessment_t :=
  let risk_score := 0%Z in
  let risk_factors := [] in
  (* High utilization risk *)
  let '(risk_score, risk_factors) :=
    if Qgtb avg_util 80
    then ((risk_score + 3)%Z, risk_factors ++ ["High average utilization"%string])
    else if Qgtb avg_util 60
    then ((risk_score + 1)%Z, risk_factors ++ ["Moderate utilization"%string])
    else (risk_score, risk_factors) in
  (* Peak capacity risk *)
  let '(risk_score, risk_factors) :=
    if Qgtb max_util 95
    then ((risk_score + 3)%Z, risk_factors ++ ["Near capacity peaks"%string])
    else if Qgtb max_util 85
    then ((risk_score + 2)%Z, risk_factors ++ ["High peak utilization"%string])
    else (risk_score, risk_factors) in
  (* Trend risk *)
  let '(risk_score, risk_factors) :=
    if Qgtb trend_slope 1.0
    then ((risk_score + 2)%Z, risk_factors ++ ["Rapidly increasing trend"%string])
    else if Qgtb trend_slope 0.5
    then ((risk_score + 1)%Z, risk_factors ++ ["Increasing trend"%string])
    else (risk_score, risk_factors) in
  (* Determine risk level *)
  let level_ :=
    if (5 <=? risk_score)%Z then HIGH
    else if (3 <=? risk_score)%Z then MEDIUM
    else if (1 <=? risk_score)%Z then LOW
    else MINIMAL in
  {| level := level_;
     score := risk_score;
     factors := match risk_factors with
                | [] => ["Low risk profile"%string]
                | _ => risk_factors
                end |}.

(** The scoring rule as the specification words it. *)
Definition spec_mean_points (mean : Q) : Z :=
  if Qgtb mean 80 then 3 else if Qgtb mean 60 then 1 else 0.

Definition spec_peak_points (peak : Q) : Z :=
  if Qgtb peak 95 then 3 else if Qgtb peak 85 then 2 else 0.

Definition spec_trend_points (slope : Q) : Z :=
  if Qgtb slope 1 then 2 else if Qgtb slope (1 # 2) then 1 else 0.

Definition spec_risk_score (mean peak slope : Q) : Z :=
  (spec_mean_points mean + spec_peak_points peak + spec_trend_points slope)%Z.

(** *** Transfers *)

(** [self.business_rules]: ['capacity_utilization']['optimal_range'] and
    the two entries of ['transfer_recommendations'] that are read. *)
Record business_rules_t := {
  optimal_range : Q * Q;
  max_transfer_percentage : Q;
  minimum_transfer_size : Q
}.

Record current_state_t := {
  cs_source_utilization : Q;
  cs_dest_utilization : Q;
  cs_source_inventory : Q;
  cs_dest_inventory : Q
}.

Record projected_state_t := {
  ps_source_utilization : Q;
  ps_dest_utilization : Q;
  ps_source_inventory : Z;
  ps_dest_inventory : Z
}.

Record impact_metrics_t := {
  utilization_improvement : Q;
  risk_reduction : Z;
  source_util_change : Q;
  dest_util_change : Q
}.

Record cost_analysis_t := {
  estimated_transfer_cost : Q;
  estimated_storage_savings : Q;
  net_benefit : Q;
  roi_percentage : Q
}.

Inductive priority_t := PRIORITY_HIGH | PRIORITY_MEDIUM | PRIORITY_LOW.

Inductive urgency_t := IMMEDIATE | PLANNED.

Record transfer := {
  transfer_id : string;
  source_warehouse : string;
  destination_warehouse : string;
  recommended_transfer : Z;
  current_state : current_state_t;
  projected_state : projected_state_t;
  impact_metrics : impact_metrics_t;
  cost_analysis : cost_analysis_t;
  priority : priority_t;
  urgency : urgency_t
}.

Definition _calculate_risk_reduction (source_data : warehouse_data)
    (new_utilization : Q) : Z :=
  let old_risk_score := score (risk_assessment source_data) in
  let new_risk_score :=
    if Qgtb new_utilization 80 then 3%Z
    else if Qgtb new_utilization 60 then 1%Z
    else 0%Z in
  Z.max 0 (old_risk_score - new_risk_score).

Definition distance_factors : gmap (string * string) Q :=
  list_to_map
    [ (("Atlanta", "Nashville"), 1.0); (("Atlanta", "Chicago"), 1.5);
      (("Atlanta", "NY"), 2.0); (("Atlanta", "LA"), 3.0);
      (("Nashville", "Chicago"), 1.2); (("Nashville", "NY"), 1.8);
      (("Nashville", "LA"), 2.5); (("Chicago", "NY"), 1.5);
      (("Chicago", "LA"), 2.2); (("NY", "LA"), 3.5) ]%string.

Definition _get_distance_factor (source_wh dest_wh : string) : Q :=
  let key := (source_wh, dest_wh) in
  let reverse_key := (dest_wh, source_wh) in
  default (default 2.0 (distance_factors !! reverse_key)) (distance_factors !! key).

(** The target utilization, in percent. *)
Definition target_util (rules : business_rules_t) : Q :=
  (optimal_range rules).2 * 100.

Definition source_excess (rules : business_rules_t) (source_data : warehouse_data) : Q :=
  (final_utilization (utilization_metrics source_data) - target_util rules) / 100
  * max_capacity (warehouse_info source_data).

Definition dest_deficit (rules : business_rules_t) (dest_data : warehouse_data) : Q :=
  (target_util rules - final_utilization (utilization_metrics dest_data)) / 100
  * max_capacity (warehouse_info dest_data).

(** The local [recommended_transfer] of [_calculate_optimal_transfer],
    before it is rounded into the returned record. *)
Definition recommended_amount (rules : business_rules_t)
    (source_data dest_data : warehouse_data) : Q :=
  let source_inventory := current_inventory (warehouse_info source_data) in
  let dest_inventory := current_inventory (warehouse_info dest_data) in
  let dest_capacity := max_capacity (warehouse_info dest_data) in
  let max_transfer_pct := max_transfer_percentage rules in
  let min_transfer_size := minimum_transfer_size rules in
  let max_transferable :=
    py_min4 (source_inventory * max_transfer_pct)
            (dest_capacity - dest_inventory)
            (source_excess rules source_data)
            (dest_deficit rules dest_data) in
  let recommended_transfer :=
    Qmax 0 (Qmin max_transferable (source_excess rules source_data * 0.7)) in
  if Qltb recommended_transfer min_transfer_size then 0 else recommended_transfer.

(** The locals [new_source_util] and [new_dest_util]. *)
Definition new_source_util (rules : business_rules_t)
    (source_data dest_data : warehouse_data) : Q :=
  (current_inventory (warehouse_info source_data)
   - recommended_amount rules source_data dest_data)
  / max_capacity (warehouse_info source_data) * 100.

Definition new_dest_util (rules : business_rules_t)
    (source_data dest_data : warehouse_data) : Q :=
  (current_inventory (warehouse_info dest_data)
   + recommended_amount rules source_data dest_data)
  / max_capacity (warehouse_info dest_data) * 100.

Definition _calculate_optimal_transfer (rules : business_rules_t)
    (source_wh : string) (source_data : warehouse_data)
    (dest_wh : string) (dest_data : warehouse_data) : transfer :=
  (* Current state *)
  let source_util := final_utilization (utilization_metrics source_data) in
  let dest_util := final_utilization (utilization_metrics dest_data) in
  let source_inventory := current_inventory (warehouse_info source_data) in
  let dest_inventory := current_inventory (warehouse_info dest_data) in
  let source_capacity := max_capacity (warehouse_info source_data) in
  let recommended_transfer := recommended_amount rules source_data dest_data in
  (* Post-transfer state *)
  let new_source_inventory := source_inventory - recommended_transfer in
  let new_dest_inventory := dest_inventory + recommended_transfer in
  let new_source_util_ := new_source_util rules source_data dest_data in
  let new_dest_util_ := new_dest_util rules source_data dest_data in
  (* Impact metrics *)
  let utilization_improvement_ :=
    (source_util - new_source_util_) + (new_dest_util_ - dest_util) in
  let risk_reduction_ := _calculate_risk_reduction source_data new_source_util_ in
  (* Cost estimation *)
  let distance_factor := _get_distance_factor source_wh dest_wh in
  let transfer_cost := recommended_transfer * 0.10 * distance_factor in
  let capacity_savings :=
    (source_util - new_source_util_) / 100 * source_capacity * 0.05 in
  {| transfer_id := (source_wh +:+ "_to_" +:+ dest_wh)%string;
     source_warehouse := source_wh;
     destination_warehouse := dest_wh;
     recommended_transfer := py_round recommended_transfer;
     current_state :=
       {| cs_source_utilization := py_round_nd source_util 1;
          cs_dest_utilization := py_round_nd dest_util 1;
          cs_source_inventory := source_inventory;
          cs_dest_inventory := dest_inventory |};
     projected_state :=
       {| ps_source_utilization := py_round_nd new_source_util_ 1;
          ps_dest_utilization := py_round_nd new_dest_util_ 1;
          ps_source_inventory := py_round new_source_inventory;
          ps_dest_inventory := py_round new_dest_inventory |};
     impact_metrics :=
       {| utilization_improvement := py_round_nd utilization_improvement_ 1;
          risk_reduction := risk_reduction_;
          source_util_change := py_round_nd (new_source_util_ - source_util) 1;
          dest_util_change := py_round_nd (new_dest_util_ - dest_util) 1 |};
     cost_analysis :=
       {| estimated_transfer_cost := py_round_nd transfer_cost 2;
          estimated_storage_savings := py_round_nd capacity_savings 2;
          net_benefit := py_round_nd (capacity_savings - transfer_cost) 2;
          roi_percentage :=
            if Qgtb transfer_cost 0
            then py_round_nd ((capacity_savings - transfer_cost) / transfer_cost * 100) 1
            else 0 |};
     priority :=
       if Qgtb utilization_improvement_ 10 then PRIORITY_HIGH
       else if Qgtb utilization_improvement_ 5 then PRIORITY_MEDIUM
       else PRIORITY_LOW;
     urgency := if Qgtb source_util 90 then IMMEDIATE else PLANNED |}.

(** [sorted(l, key=..., reverse=True)] and [l.sort(key=..., reverse=True)]:
    descending and stable. *)
Fixpoint insert_desc {A} (key : A -> Q) (x : A) (l : list A) : list A :=
  match l with
  | [] => [x]
  | y :: l' =>
      if Qgtb (key x) (key y) then x :: y :: l' else y :: insert_desc key x l'
  end.

Definition sorted_desc {A} (key : A -> Q) (l : list A) : list A :=
  fold_left (fun acc x => insert_desc key x acc) l [].

Definition final_util_of (item : string * warehouse_data) : Q :=
  final_utilization (utilization_metrics item.2).

(** Body of [for dest_warehouse in low_util_warehouses]. *)
Definition dest_step (rules : business_rules_t)
    (capacity_analysis : capacity_analysis_t)
    (source_warehouse : string) (source_data : warehouse_data)
    (transfer_opportunities : list transfer) (dest_warehouse : string)
    : list transfer :=
  match dict_get dest_warehouse capacity_analysis with
  | None => transfer_opportunities
  | Some dest_data =>
      if decide (source_warehouse = dest_warehouse) then transfer_opportunities
      else
        let transfer_analysis :=
          _calculate_optimal_transfer rules source_warehouse source_data
            dest_warehouse dest_data in
        if (0 <? recommended_transfer transfer_analysis)%Z
        then transfer_opportunities ++ [transfer_analysis]
        else transfer_opportunities
  end.

(** Body of [for source_warehouse in high_util_warehouses]. *)
Definition source_step (rules : business_rules_t)
    (capacity_analysis : capacity_analysis_t)
    (low_util_warehouses : list string)
    (transfer_opportunities : list transfer) (source_warehouse : string)
    : list transfer :=
  match dict_get source_warehouse capacity_analysis with
  | None => transfer_opportunities
  | Some source_data =>
      fold_left (dest_step rules capacity_analysis source_warehouse source_data)
        low_util_warehouses transfer_opportunities
  end.

Definition high_util_warehouses (capacity_analysis : capacity_analysis_t)
    : list string :=
  let warehouses_by_util := sorted_desc final_util_of capacity_analysis in
  map fst (filter (fun item => Qgtb (final_util_of item) 70 = true)
             (take 3 warehouses_by_util)).

Definition low_util_warehouses (capacity_analysis : capacity_analysis_t)
    : list string :=
  let warehouses_by_util := sorted_desc final_util_of capacity_analysis in
  map fst (filter (fun item => Qltb (final_util_of item) 50 = true)
             (drop (length warehouses_by_util - 3) warehouses_by_util)).

Definition identify_transfer_opportunities (rules : business_rules_t)
    (capacity_analysis : capacity_analysis_t) : list transfer :=
  let transfer_opportunities :=
    fold_left
      (source_step rules capacity_analysis (low_util_warehouses capacity_analysis))
      (high_util_warehouses capacity_analysis) [] in
  sorted_desc (fun t => utilization_improvement (impact_metrics t))
    transfer_opportunities.

(** Utilization and inventory of a record agree. *)
Definition consistent (d : warehouse_data) : Prop :=
  0 < max_capacity (warehouse_info d)
  /\ final_utilization (utilization_metrics d)
     == current_inventory (warehouse_info d) / max_capacity (warehouse_info d) * 100.

(** *** Capacity alerts *)

Inductive capacity_alert_type :=
| OVER_CAPACITY_RISK | HIGH_UTILIZATION | UNDER_UTILIZATION | CAPACITY_TREND_WARNING.

#[global] Instance capacity_alert_type_eq_dec : EqDecision capacity_alert_type.
Proof. solve_decision. Defined.

Inductive alert_severity_t := SEVERITY_HIGH | SEVERITY_MEDIUM | SEVERITY_LOW.

(** An alert of [generate_capacity_alerts]. The messages are
    [f"{warehouse} reached {max_utilization:.1f}% capacity - immediate action required"],
    [f"{warehouse} operating at {final_utilization:.1f}% capacity"],
    [f"{warehouse} only {final_utilization:.1f}% utilized - opportunity for optimization"]
    and [f"{warehouse} showing increasing utilization trend - monitor closely"];
    [ca_message_pct] is the percentage that the message prints, if any. *)
Record capacity_alert := {
  ca_type : capacity_alert_type;
  ca_severity : alert_severity_t;
  ca_warehouse : string;
  ca_message_pct : option Q;
  ca_recommendation : string;
  ca_priority : Z
}.

(** Body of [for warehouse, data in capacity_analysis.items()]. *)
Definition alerts_step (alerts : list capacity_alert)
    (item : string * warehouse_data) : list capacity_alert :=
  let warehouse := item.1 in
  let data := item.2 in
  let util_metrics := utilization_metrics data in
  (* Over-capacity, high-utilization and under-utilization alerts *)
  let alerts :=
    if Qgtb (max_utilization util_metrics) 95
    then alerts ++ [ {| ca_type := OVER_CAPACITY_RISK;
                        ca_severity := SEVERITY_HIGH;
                        ca_warehouse := warehouse;
                        ca_message_pct :=
                          Some (py_round_nd (max_utilization util_metrics) 1);
                        ca_recommendation :=
                          "Initiate emergency transfers or expand storage";
                        ca_priority := 1 |} ]
    else if Qgtb (final_utilization util_metrics) 85
    then alerts ++ [ {| ca_type := HIGH_UTILIZATION;
                        ca_severity := SEVERITY_MEDIUM;
                        ca_warehouse := warehouse;
                        ca_message_pct :=
                          Some (py_round_nd (final_utilization util_metrics) 1);
                        ca_recommendation :=
                          "Plan transfers to optimize capacity utilization";
                        ca_priority := 2 |} ]
    else if Qltb (final_utilization util_metrics) 30
    then alerts ++ [ {| ca_type := UNDER_UTILIZATION;
                        ca_severity := SEVERITY_LOW;
                        ca_warehouse := warehouse;
                        ca_message_pct :=
                          Some (py_round_nd (final_utilization util_metrics) 1);
                        ca_recommendation :=
                          "Consider accepting transfers from high-utilization warehouses";
                        ca_priority := 3 |} ]
    else alerts in
  (* Trend alerts *)
  if bool_decide (trend_direction (trend_analysis data) = "Increasing"%string)
     && Qgtb (final_utilization util_metrics) 70
  then alerts ++ [ {| ca_type := CAPACITY_TREND_WARNING;
                      ca_severity := SEVERITY_MEDIUM;
                      ca_warehouse := warehouse;
                      ca_message_pct := None;
                      ca_recommendation :=
                        "Prepare contingency plans for capacity management";
                      ca_priority := 2 |} ]
  else alerts.

(** [l.sort(key=...)]: ascending and stable. *)
Fixpoint insert_asc {A} (key : A -> Z) (x : A) (l : list A) : list A :=
  match l with
  | [] => [x]
  | y :: l' =>
      if (key x <? key y)%Z then x :: y :: l' else y :: insert_asc key x l'
  end.

Definition sorted_asc {A} (key : A -> Z) (l : list A) : list A :=
  fold_left (fun acc x => insert_asc key x acc) l [].

Definition generate_capacity_alerts (capacity_analysis : capacity_analysis_t)
    : list capacity_alert :=
  let alerts := fold_left alerts_step capacity_analysis [] in
  sorted_asc ca_priority alerts.

End CapacityOptimizer.

(** ** The shipping-cost estimate of the allocation engine *)

Module InventoryAllocation.

Definition distance_matrix : gmap string (gmap string Q) :=
  list_to_map
    [ ("Atlanta", list_to_map
         [("West Africa", 2.5); ("Southeast Asia", 3.5); ("Eastern Europe", 2.8);
          ("Middle East", 3.0); ("Latin America", 1.8)]);
      ("Nashville", list_to_map
         [("West Africa", 2.6); ("Southeast Asia", 3.6); ("Eastern Europe", 2.9);
          ("Middle East", 3.1); ("Latin America", 1.9)]);
      ("Chicago", list_to_map
         [("West Africa", 2.8); ("Southeast Asia", 3.2); ("Eastern Europe", 2.5);
          ("Middle East", 2.9); ("Latin America", 2.2)]);
      ("NY", list_to_map
         [("West Africa", 2.2); ("Southeast Asia", 3.8); ("Eastern Europe", 2.0);
          ("Middle East", 2.8); ("Latin America", 2.5)]);
      ("LA", list_to_map
         [("West Africa", 3.5); ("Southeast Asia", 2.5); ("Eastern Europe", 3.8);
          ("Middle East", 3.5); ("Latin America", 1.5)]) ]%string.

Definition _get_distance_factor (warehouse partner_region : string) : Q :=
  default 2.5 (default ∅ (distance_matrix !! warehouse) !! partner_region).

Definition base_cost_per_unit : Q := 2.50.

(** The "Volume discounts" of [_estimate_shipping_cost]. *)
Definition volume_discount (quantity : Q) : Q :=
  if Qgtb quantity 10000 then 0.85
  else if Qgtb quantity 5000 then 0.90
  else 1.0.

(** The cost is the exact product rounded to cents; where the product ends
    in exactly half a cent, the program, which rounds the binary product,
    may return either of the two nearest cents. *)
Definition _estimate_shipping_cost (quantity : Q) (warehouse partner_region : string)
    : Q :=
  let distance_factor := _get_distance_factor warehouse partner_region in
  let total_cost :=
    quantity * base_cost_per_unit * distance_factor * volume_discount quantity in
  py_round_nd total_cost 2.

End InventoryAllocation.

(** ** Capacity analyses as shared, mutable objects *)

Module Heap.

Import CapacityOptimizer.

Abbreviation loc := positive (only parsing).

(** The dictionaries of a capacity analysis: the five nested ones, and the
    record of a warehouse, which refers to them. *)
Inductive obj :=
| OInfo (v : warehouse_info_t)
| OMetrics (v : utilization_metrics_t)
| OTrend (v : trend_analysis_t)
| ORisk (v : risk_assessment_t)
| OTimeline (v : timeline_data_t)
| OData (info metrics trend risk timeline : loc).

Abbreviation heap := (gmap loc obj) (only parsing).

(** Computations on the heap; [None] is a reference to no object or to an
    object of another shape. *)
Definition M (A : Type) : Type := heap -> option (A * heap).

#[global] Instance M_ret : MRet M := fun A x h => Some (x, h).

#[global] Instance M_bind : MBind M := fun A B f m h =>
  match m h with
  | Some (x, h') => f x h'
  | None => None
  end.

Definition alloc (o : obj) : M loc := fun h =>
  let l := fresh (dom h) in Some (l, <[l := o]> h).

Definition store (l : loc) (o : obj) : M unit := fun h => Some (tt, <[l := o]> h).

Definition load_info (l : loc) : M warehouse_info_t := fun h =>
  match h !! l with Some (OInfo v) => Some (v, h) | _ => None end.

Definition load_metrics (l : loc) : M utilization_metrics_t := fun h =>
  match h !! l with Some (OMetrics v) => Some (v, h) | _ => None end.

Definition load_trend (l : loc) : M trend_analysis_t := fun h =>
  match h !! l with Some (OTrend v) => Some (v, h) | _ => None end.

Definition load_risk (l : loc) : M risk_assessment_t := fun h =>
  match h !! l with Some (ORisk v) => Some (v, h) | _ => None end.

Definition load_timeline (l : loc) : M timeline_data_t := fun h =>
  match h !! l with Some (OTimeline v) => Some (v, h) | _ => None end.

(** The references held by the record of a warehouse. *)
Record data_refs := {
  r_info : loc; r_metrics : loc; r_trend : loc; r_risk : loc; r_timeline : loc
}.

Definition load_data (l : loc) : M data_refs := fun h =>
  match h !! l with
  | Some (OData i m t r tl) =>
      Some ({| r_info := i; r_metrics := m; r_trend := t; r_risk := r;
               r_timeline := tl |}, h)
  | _ => None
  end.

(** [data[field][key] = value] for the three nested dictionaries that the
    scenarios write. *)
Definition modify_info (data : loc) (f : warehouse_info_t -> warehouse_info_t)
    : M unit :=
  d ← load_data data; v ← load_info (r_info d); store (r_info d) (OInfo (f v)).

Definition modify_metrics (data : loc)
    (f : utilization_metrics_t -> utilization_metrics_t) : M unit :=
  d ← load_data data; v ← load_metrics (r_metrics d);
  store (r_metrics d) (OMetrics (f v)).

Definition modify_trend (data : loc) (f : trend_analysis_t -> trend_analysis_t)
    : M unit :=
  d ← load_data data; v ← load_trend (r_trend d); store (r_trend d) (OTrend (f v)).

(** [data['risk_assessment'] = risk]: the record is made to refer to a new
    dictionary. *)
Definition set_risk (data : loc) (risk : risk_assessment_t) : M unit :=
  d ← load_data data; l ← alloc (ORisk risk);
  store data (OData (r_info d) (r_metrics d) (r_trend d) l (r_timeline d)).

Definition get_info (data : loc) : M warehouse_info_t :=
  d ← load_data data; load_info (r_info d).

Definition get_metrics (data : loc) : M utilization_metrics_t :=
  d ← load_data data; load_metrics (r_metrics d).

(** [data.copy()]: a new record that refers to the same nested
    dictionaries. *)
Definition shallow_copy (data : loc) : M loc :=
  d ← load_data data;
  alloc (OData (r_info d) (r_metrics d) (r_trend d) (r_risk d) (r_timeline d)).

(** [copy.deepcopy(data)]: a new record that refers to new copies of the
    nested dictionaries. *)
Definition deep_copy_dict (data : loc) : M loc :=
  d ← load_data data;
  vi ← load_info (r_info d);
  vm ← load_metrics (r_metrics d);
  vt ← load_trend (r_trend d);
  vr ← load_risk (r_risk d);
  vl ← load_timeline (r_timeline d);
  i ← alloc (OInfo vi);
  m ← alloc (OMetrics vm);
  t ← alloc (OTrend vt);
  r ← alloc (ORisk vr);
  tl ← alloc (OTimeline vl);
  alloc (OData i m t r tl).

(** The value of the record at a reference. *)
Definition read_data (h : heap) (l : loc) : option warehouse_data :=
  match h !! l with
  | Some (OData i m t r tl) =>
      match h !! i, h !! m, h !! t, h !! r, h !! tl with
      | Some (OInfo vi), Some (OMetrics vm), Some (OTrend vt), Some (ORisk vr),
        Some (OTimeline vl) =>
          Some {| warehouse_info := vi; utilization_metrics := vm;
                  trend_analysis := vt; risk_assessment := vr;
                  timeline_data := vl |}
      | _, _, _, _, _ => None
      end
  | _ => None
  end.

(** A capacity analysis in the heap: warehouse to reference, in insertion
    order; and its value. *)
Definition analysis_refs : Type := list (string * loc).

Fixpoint read_analysis (h : heap) (a : analysis_refs)
    : option capacity_analysis_t :=
  match a with
  | [] => Some []
  | (w, l) :: a' =>
      match read_data h l, read_analysis h a' with
      | Some d, Some rest => Some ((w, d) :: rest)
      | _, _ => None
      end
  end.

(** The objects of a record built by dictionary displays, as
    [analyze_capacity_utilization] does. *)
Definition new_data (d : warehouse_data) : M loc :=
  i ← alloc (OInfo (warehouse_info d));
  m ← alloc (OMetrics (utilization_metrics d));
  t ← alloc (OTrend (trend_analysis d));
  r ← alloc (ORisk (risk_assessment d));
  tl ← alloc (OTimeline (timeline_data d));
  alloc (OData i m t r tl).

Fixpoint new_analysis (a : capacity_analysis_t) : M analysis_refs :=
  match a with
  | [] => mret []
  | (w, d) :: a' =>
      l ← new_data d; rest ← new_analysis a'; mret ((w, l) :: rest)
  end.

(** [d[k] = v] on an ordered dictionary. *)
Fixpoint dict_set {V} (k : string) (v : V) (d : list (string * V))
    : list (string * V) :=
  match d with
  | [] => [(k, v)]
  | (k', v') :: d' =>
      if decide (k' = k) then (k, v) :: d' else (k', v') :: dict_set k v d'
  end.

(** Field updates of the nested dictionaries. *)
Definition with_current_inventory (x : Q) (v : warehouse_info_t) : warehouse_info_t :=
  {| name := name v; max_capacity := max_capacity v; current_inventory := x;
     available_capacity := available_capacity v;
     available_capacity_pct := available_capacity_pct v |}.

Definition with_available_capacity (x : Q) (v : warehouse_info_t) : warehouse_info_t :=
  {| name := name v; max_capacity := max_capacity v;
     current_inventory := current_inventory v;
     available_capacity := x;
     available_capacity_pct := available_capacity_pct v |}.

Definition with_available_capacity_pct (x : Q) (v : warehouse_info_t)
    : warehouse_info_t :=
  {| name := name v; max_capacity := max_capacity v;
     current_inventory := current_inventory v;
     available_capacity := available_capacity v;
     available_capacity_pct := x |}.

Definition with_final_utilization (x : Q) (v : utilization_metrics_t)
    : utilization_metrics_t :=
  {| average_utilization := average_utilization v;
     max_utilization := max_utilization v;
     min_utilization := min_utilization v;
     final_utilization := x;
     utilization_range := utilization_range v |}.

Definition with_trend_direction (x : string) (v : trend_analysis_t)
    : trend_analysis_t :=
  {| trend_direction := x; trend_slope := trend_slope v; volatility := volatility v |}.

(** "Recalculate available capacity", shared by both scenario builders. *)
Definition recalculate_available_capacity (scenario_data : loc) : M unit :=
  vi ← get_info scenario_data;
  modify_info scenario_data
    (with_available_capacity (max_capacity vi - current_inventory vi));;
  vi ← get_info scenario_data;
  modify_info scenario_data
    (with_available_capacity_pct (available_capacity vi / max_capacity vi * 100)).

(** [for x in l: body], threading the accumulator. *)
Fixpoint for_each {A B} (body : B -> A -> M B) (l : list A) (acc : B) : M B :=
  match l with
  | [] => mret acc
  | x :: l' => acc' ← body acc x; for_each body l' acc'
  end.

End Heap.

(** ** The demonstration scenario of the capacity optimiser *)

Module HighDemandScenario.

Import CapacityOptimizer Heap.

(** The branch of a warehouse in [simulate_high_demand_scenario]: the
    load factor, the utilization and, for the two overloaded warehouses,
    the arguments of the new risk assessment. *)
Definition simulated_load (warehouse : string) : option (Q * Q * option (Q * Q * Q)) :=
  if decide (warehouse = "Atlanta"%string)
  then Some (0.85, 85.0, Some (85.0, 87.0, 1.2))
  else if decide (warehouse = "Nashville"%string)
  then Some (0.90, 90.0, Some (90.0, 92.0, 1.5))
  else if decide (warehouse = "Chicago"%string)
  then Some (0.30, 30.0, None)
  else if decide (warehouse = "LA"%string)
  then Some (0.25, 25.0, None)
  else None.

(** Body of [for warehouse, data in capacity_analysis.items()]. *)
Definition scenario_step (scenario_analysis : analysis_refs)
    (item : string * loc) : M analysis_refs :=
  let warehouse := item.1 in
  let data := item.2 in
  scenario_data ← shallow_copy data;
  match simulated_load warehouse with
  | Some (factor, util, risk_args) =>
      vi ← get_info data;
      let new_inventory := max_capacity vi * factor in
      modify_info scenario_data
        (with_current_inventory (inject_Z (py_round new_inventory)));;
      modify_metrics scenario_data (with_final_utilization util);;
      match risk_args with
      | Some (avg_util, max_util, slope) =>
          modify_trend scenario_data (with_trend_direction "Increasing");;
          set_risk scenario_data (_assess_capacity_risk avg_util max_util slope)
      | None => mret tt
      end
  | None => mret tt
  end;;
  recalculate_available_capacity scenario_data;;
  mret (dict_set warehouse scenario_data scenario_analysis).

Definition simulate_high_demand_scenario (capacity_analysis : analysis_refs)
    : M analysis_refs :=
  for_each scenario_step capacity_analysis [].

End HighDemandScenario.

(** ** The scenario simulator *)

Module ScenarioSimulator.

Import CapacityOptimizer Heap.

(** The entry of a warehouse in [scenario_config['warehouse_changes']]:
    the two keys that are read, and whether the dictionary has others. *)
Record warehouse_changes_t := {
  target_utilization : option Q;
  wc_trend_direction : option string;
  other_keys : bool
}.

Record donation_event_t := { de_warehouse : string; quantity : Q }.

Record scenario_config_t := {
  warehouse_changes : list (string * warehouse_changes_t);
  large_donation_event : option donation_event_t
}.

(** Truth value of a changes dictionary: it is not empty. *)
Definition has_changes (c : warehouse_changes_t) : bool :=
  match target_utilization c, wc_trend_direction c with
  | None, None => other_keys c
  | _, _ => true
  end.

(** The body of [if warehouse_changes:]. The new inventory is the exact
    share of the capacity, rounded; where the share ends in exactly one
    half, the program, which rounds the binary product, may store either
    of the two nearest whole numbers. *)
Definition apply_warehouse_changes (scenario_data : loc)
    (changes : warehouse_changes_t) : M unit :=
  match target_utilization changes with
  | Some target =>
      let target_util := target / 100 in
      vi ← get_info scenario_data;
      let new_inventory := max_capacity vi * target_util in
      modify_info scenario_data
        (with_current_inventory (inject_Z (py_round new_inventory)));;
      modify_metrics scenario_data (with_final_utilization target)
  | None => mret tt
  end;;
  match wc_trend_direction changes with
  | Some direction => modify_trend scenario_data (with_trend_direction direction)
  | None => mret tt
  end;;
  vm ← get_metrics scenario_data;
  let new_util := final_utilization vm in
  set_risk scenario_data
    (_assess_capacity_risk new_util (new_util + 2)
       (if decide (wc_trend_direction changes = Some "Increasing"%string)
        then 1.0 else 0));;
  recalculate_available_capacity scenario_data.

(** Body of [for warehouse, data in base_analysis.items()]. *)
Definition scenario_step (scenario_config : scenario_config_t)
    (scenario_analysis : analysis_refs) (item : string * loc) : M analysis_refs :=
  let warehouse := item.1 in
  let data := item.2 in
  scenario_data ← deep_copy_dict data;
  match dict_get warehouse (warehouse_changes scenario_config) with
  | Some changes =>
      if has_changes changes
      then apply_warehouse_changes scenario_data changes
      else mret tt
  | None => mret tt
  end;;
  mret (dict_set warehouse scenario_data scenario_analysis).

(** "Apply network-wide changes". *)
Definition apply_donation (scenario_analysis : analysis_refs)
    (donation_event : donation_event_t) : M unit :=
  let target_warehouse := de_warehouse donation_event in
  let additional_inventory := quantity donation_event in
  match dict_get target_warehouse scenario_analysis with
  | Some target_data =>
      vi ← get_info target_data;
      let new_inventory := current_inventory vi + additional_inventory in
      let max_capacity_ := max_capacity vi in
      modify_info target_data (with_current_inventory new_inventory);;
      modify_metrics target_data
        (with_final_utilization (new_inventory / max_capacity_ * 100))
  | None => mret tt
  end.

Definition apply_scenario_changes (base_analysis : analysis_refs)
    (scenario_config : scenario_config_t) : M analysis_refs :=
  scenario_analysis ← for_each (scenario_step scenario_config) base_analysis [];
  match large_donation_event scenario_config with
  | Some donation_event => apply_donation scenario_analysis donation_event
  | None => mret tt
  end;;
  mret scenario_analysis.

(** *** The impact summary *)

Record utilization_change_t := { baseline : Q; scenario : Q; change : Q }.

Record cost_impact_t := {
  transfer_costs : Q;
  storage_savings : Q;
  net_impact : Q
}.

Record impact_summary_t := {
  utilization_changes : list (string * utilization_change_t);
  new_alerts_generated : Z;
  transfer_opportunities_created : nat;
  total_utilization_improvement : Q;
  cost_impact : cost_impact_t
}.

(** Body of [for warehouse in base_analysis.keys()]; [None] is the
    [KeyError] of a warehouse that the scenario analysis lacks. *)
Definition impact_step (scenario_analysis : capacity_analysis_t)
    (acc : option (list (string * utilization_change_t) * Q))
    (item : string * warehouse_data)
    : option (list (string * utilization_change_t) * Q) :=
  acc ≫= fun '(changes, total) =>
  let warehouse := item.1 in
  let base_util := final_utilization (utilization_metrics item.2) in
  match dict_get warehouse scenario_analysis with
  | Some scenario_data =>
      let scenario_util := final_utilization (utilization_metrics scenario_data) in
      Some (dict_set warehouse
              {| baseline := base_util; scenario := scenario_util;
                 change := py_round_nd (scenario_util - base_util) 1 |}
              changes,
            total + Qabs (scenario_util - base_util))
  | None => None
  end.

Definition calculate_scenario_impact
    (base_analysis scenario_analysis : capacity_analysis_t)
    (transfers : list transfer) : option impact_summary_t :=
  let cost_impact_ :=
    {| transfer_costs :=
         py_sum (map (fun t => estimated_transfer_cost (cost_analysis t)) transfers);
       storage_savings :=
         py_sum (map (fun t => estimated_storage_savings (cost_analysis t)) transfers);
       net_impact :=
         py_sum (map (fun t => net_benefit (cost_analysis t)) transfers) |} in
  fold_left (impact_step scenario_analysis) base_analysis (Some ([], 0))
  ≫= fun '(changes, total) =>
  Some {| utilization_changes := changes;
          new_alerts_generated := 0;
          transfer_opportunities_created := length transfers;
          total_utilization_improvement := total;
          cost_impact := cost_impact_ |}.

(** The cost figures as the specification words them: the scenario's
    transfer set against the baseline's. *)
Definition spec_cost_delta (field : cost_analysis_t -> Q)
    (scenario_transfers baseline_transfers : list transfer) : Q :=
  py_sum (map (fun t => field (cost_analysis t)) scenario_transfers)
  - py_sum (map (fun t => field (cost_analysis t)) baseline_transfers).

(** The entry that the impact summary records for a warehouse of the
    baseline. *)
Definition records_change (scenario_analysis : capacity_analysis_t)
    (item : string * warehouse_data) (entry : string * utilization_change_t)
    : Prop :=
  entry.1 = item.1
  /\ baseline entry.2 = final_utilization (utilization_metrics item.2)
  /\ (exists scenario_data,
        dict_get item.1 scenario_analysis = Some scenario_data
        /\ scenario entry.2 = final_utilization (utilization_metrics scenario_data))
  /\ change entry.2 = py_round_nd (scenario entry.2 - baseline entry.2) 1.

Definition absolute_change (entry : string * utilization_change_t) : Q :=
  Qabs (scenario entry.2 - baseline entry.2).

(** *** The comparison of a scenario with its baseline *)

(** One side of ['scenario_comparison']. *)
Record comparison_side_t := {
  side_capacity_analysis : capacity_analysis_t;
  side_transfer_opportunities : list transfer;
  side_capacity_alerts : list capacity_alert
}.

(** The entries ['scenario_comparison'] and ['impact_summary'] of the
    results of [run_custom_scenario]; the entry ['metadata'] holds the time
    of the run and the names that the configuration gives. *)
Record scenario_results_t := {
  comparison_baseline : comparison_side_t;
  comparison_scenario : comparison_side_t;
  impact_summary : impact_summary_t
}.

(** [run_custom_scenario] from the base analysis on: the analysis comes
    from the loaded forecasts, [rules] are the optimiser's business rules.
    The results refer to the analyses; their values are read when the
    results are built. [None] is an error of a step. *)
Definition run_custom_scenario (rules : business_rules_t)
    (base_analysis : analysis_refs) (scenario_config : scenario_config_t)
    : M scenario_results_t := fun h =>
  (* Apply scenario modifications *)
  match apply_scenario_changes base_analysis scenario_config h with
  | Some (scenario_analysis, h') =>
      match read_analysis h' scenario_analysis, read_analysis h' base_analysis with
      | Some scenario_value, Some base_value =>
          (* Generate recommendations *)
          let transfer_opportunities :=
            identify_transfer_opportunities rules scenario_value in
          let capacity_alerts := generate_capacity_alerts scenario_value in
          (* Create results *)
          match calculate_scenario_impact base_value scenario_value
                  transfer_opportunities with
          | Some impact =>
              Some ({| comparison_baseline :=
                         {| side_capacity_analysis := base_value;
                            side_transfer_opportunities :=
                              identify_transfer_opportunities rules base_value;
                            side_capacity_alerts :=
                              generate_capacity_alerts base_value |};
                       comparison_scenario :=
                         {| side_capacity_analysis := scenario_value;
                            side_transfer_opportunities := transfer_opportunities;
                            side_capacity_alerts := capacity_alerts |};
                       impact_summary := impact |}, h')
          | None => None
          end
      | _, _ => None
      end
  | None => None
  end.

End ScenarioSimulator.

(** ** The scenario as a function of the baseline's values *)

Module ScenarioValues.

Import CapacityOptimizer Heap ScenarioSimulator.

(** Updates of the fields of a record. *)
Definition on_info (f : warehouse_info_t -> warehouse_info_t) (v : warehouse_data)
    : warehouse_data :=
  {| warehouse_info := f (warehouse_info v);
     utilization_metrics := utilization_metrics v;
     trend_analysis := trend_analysis v;
     risk_assessment := risk_assessment v;
     timeline_data := timeline_data v |}.

Definition on_metrics (f : utilization_metrics_t -> utilization_metrics_t)
    (v : warehouse_data) : warehouse_data :=
  {| warehouse_info := warehouse_info v;
     utilization_metrics := f (utilization_metrics v);
     trend_analysis := trend_analysis v;
     risk_assessment := risk_assessment v;
     timeline_data := timeline_data v |}.

Definition on_trend (f : trend_analysis_t -> trend_analysis_t) (v : warehouse_data)
    : warehouse_data :=
  {| warehouse_info := warehouse_info v;
     utilization_metrics := utilization_metrics v;
     trend_analysis := f (trend_analysis v);
     risk_assessment := risk_assessment v;
     timeline_data := timeline_data v |}.

Definition with_risk (risk : risk_assessment_t) (v : warehouse_data)
    : warehouse_data :=
  {| warehouse_info := warehouse_info v;
     utilization_metrics := utilization_metrics v;
     trend_analysis := trend_analysis v;
     risk_assessment := risk;
     timeline_data := timeline_data v |}.

(** The value that "Recalculate available capacity" leaves. *)
Definition recalculated (v : warehouse_data) : warehouse_data :=
  let v :=
    on_info (with_available_capacity
               (max_capacity (warehouse_info v) - current_inventory (warehouse_info v)))
      v in
  on_info (with_available_capacity_pct
             (available_capacity (warehouse_info v) / max_capacity (warehouse_info v)
              * 100))
    v.

(** The value that the body of [if warehouse_changes:] leaves of a copy
    of the record [v]. The new inventory is the exact share of the
    capacity, rounded; where the share ends in exactly one half, the
    program may store either of the two nearest whole numbers. *)
Definition changed_data (changes : warehouse_changes_t) (v : warehouse_data)
    : warehouse_data :=
  let v :=
    match target_utilization changes with
    | Some target =>
        let target_util := target / 100 in
        let new_inventory := max_capacity (warehouse_info v) * target_util in
        on_metrics (with_final_utilization target)
          (on_info (with_current_inventory (inject_Z (py_round new_inventory))) v)
    | None => v
    end in
  let v :=
    match wc_trend_direction changes with
    | Some direction => on_trend (with_trend_direction direction) v
    | None => v
    end in
  let new_util := final_utilization (utilization_metrics v) in
  let v :=
    with_risk
      (_assess_capacity_risk new_util (new_util + 2)
         (if decide (wc_trend_direction changes = Some "Increasing"%string)
          then 1.0 else 0))
      v in
  recalculated v.

(** The scenario record of a warehouse before the network-wide changes. *)
Definition scenario_data_of (scenario_config : scenario_config_t)
    (warehouse : string) (v : warehouse_data) : warehouse_data :=
  match dict_get warehouse (warehouse_changes scenario_config) with
  | Some changes => if has_changes changes then changed_data changes v else v
  | None => v
  end.

(** The record of the warehouse that receives a donation. *)
Definition donated (additional_inventory : Q) (v : warehouse_data) : warehouse_data :=
  let new_inventory := current_inventory (warehouse_info v) + additional_inventory in
  let max_capacity_ := max_capacity (warehouse_info v) in
  on_metrics (with_final_utilization (new_inventory / max_capacity_ * 100))
    (on_info (with_current_inventory new_inventory) v).

Definition with_donation (donation_event : option donation_event_t)
    (scenario_analysis : capacity_analysis_t) : capacity_analysis_t :=
  match donation_event with
  | Some ev =>
      match dict_get (de_warehouse ev) scenario_analysis with
      | Some v => dict_set (de_warehouse ev) (donated (quantity ev) v) scenario_analysis
      | None => scenario_analysis
      end
  | None => scenario_analysis
  end.

(** The value of the scenario analysis of a baseline. *)
Definition scenario_values (scenario_config : scenario_config_t)
    (base_analysis : capacity_analysis_t) : capacity_analysis_t :=
  with_donation (large_donation_event scenario_config)
    (map (fun item => (item.1, scenario_data_of scenario_config item.1 item.2))
       base_analysis).

End ScenarioValues.

(** ** The product-level recommendations of the optimiser *)

Module ProductRecommendations.

Import PyNum RollingForecast.

Record warehouse_level_t := {
  level_current_inventory : Z;
  utilization_contribution : Q;
  monthly_net_flow : Z
}.

Record transfer_suggestion_t := {
  from_warehouse : string;
  to_warehouse : string;
  recommended_quantity : Z
}.

Record product_recommendation_t := {
  warehouse_levels : list (string * warehouse_level_t);
  transfer_suggestions : list transfer_suggestion_t
}.

(** The keys of the entry [key] of [warehouse_data['products']], if it has
    one: the entry of a product holds its forecasts, its ledger and its
    alerts, the entry ['Overall'] the alerts of the warehouse. *)
Definition products_entry_keys (warehouse_data : warehouse_result) (key : string)
    : option (list string) :=
  match wr_products warehouse_data !! key with
  | Some _ => Some ["forecasts"; "rolling_inventory"; "alerts"]%string
  | None =>
      if decide (key = "Overall"%string)
      then match overall_alerts warehouse_data with
           | Some _ => Some ["alerts"%string]
           | None => None
           end
      else None
  end.

(** Body of [for warehouse in self.warehouses]. The test looks the
    warehouse up among the products of the warehouse, and the product among
    the keys of that entry; where it passes, the body asks the entry for
    its key ['products'], which no entry has: [None] is that [KeyError],
    or the one of a warehouse that the forecasts lack. *)
Definition levels_step (warehouse_forecasts : results_t) (product : string)
    (levels : option (list (string * warehouse_level_t))) (warehouse : string)
    : option (list (string * warehouse_level_t)) :=
  levels ≫= fun levels =>
  match res_warehouses warehouse_forecasts !! warehouse with
  | Some warehouse_data =>
      match products_entry_keys warehouse_data warehouse with
      | Some keys => if bool_decide (product ∈ keys) then None else Some levels
      | None => Some levels
      end
  | None => None
  end.

(** "Generate product-specific transfer suggestions". *)
Definition transfer_suggestions_of (levels : list (string * warehouse_level_t))
    : list transfer_suggestion_t :=
  if (1 <? length levels)%nat then
    let sorted_warehouses :=
      CapacityOptimizer.sorted_desc
        (fun x => inject_Z (level_current_inventory x.2)) levels in
    match head sorted_warehouses, last sorted_warehouses with
    | Some high_inventory_wh, Some low_inventory_wh =>
        let high := level_current_inventory high_inventory_wh.2 in
        let low := level_current_inventory low_inventory_wh.2 in
        if (low * 2 <? high)%Z && (10000 <? high)%Z
        then [ {| from_warehouse := high_inventory_wh.1;
                  to_warehouse := low_inventory_wh.1;
                  recommended_quantity := ((high - low) / 4)%Z |} ]
        else []
    | _, _ => []
    end
  else [].

(** Body of [for product in self.products]. *)
Definition product_recommendation_step (warehouse_forecasts : results_t)
    (acc : option (list (string * product_recommendation_t))) (product : string)
    : option (list (string * product_recommendation_t)) :=
  acc ≫= fun product_recommendations =>
  fold_left (levels_step warehouse_forecasts product) warehouses (Some [])
  ≫= fun levels =>
  Some (product_recommendations
        ++ [(product, {| warehouse_levels := levels;
                         transfer_suggestions := transfer_suggestions_of levels |})]).

Definition generate_product_level_recommendations (warehouse_forecasts : results_t)
    : option (list (string * product_recommendation_t)) :=
  fold_left (product_recommendation_step warehouse_forecasts) products (Some []).

End ProductRecommendations.

(** ** The allocation engine *)

Module AllocationEngine.

Import PyNum InventoryAllocation.

(** [self.partner_preferences]: the region, the percentages of products,
    categories and sizes, and the lead time of a partner; the delivery
    schedule is ['monthly'] for all. *)
Record partner_prefs_t := {
  region : string;
  preferred_products : list (string * Q);
  preferred_categories : list (string * Q);
  size_distribution : list (string * list (string * Q));
  lead_time_days : Z
}.

Definition partner_preferences : list (string * partner_prefs_t) :=
  [ ("Company C",
     {| region := "West Africa";
        preferred_products := [("Footwear", 70); ("Apparel", 30)];
        preferred_categories :=
          [("Sneakers", 45); ("Boots", 25); ("Shirts", 20); ("Coats", 10)];
        size_distribution :=
          [ ("Footwear",
             [("7", 15); ("8", 20); ("9", 18); ("10", 15); ("11", 12); ("6", 10);
              ("12", 5); ("5", 5)]);
            ("Apparel",
             [("M", 25); ("L", 20); ("XL", 15); ("S", 15); ("XXL", 15); ("XS", 10)]) ];
        lead_time_days := 21 |});
    ("Company E",
     {| region := "Southeast Asia";
        preferred_products := [("Footwear", 70); ("Apparel", 30)];
        preferred_categories :=
          [("Sneakers", 40); ("Boots", 30); ("Shirts", 20); ("Coats", 10)];
        size_distribution :=
          [ ("Footwear",
             [("6", 20); ("7", 18); ("8", 15); ("9", 15); ("10", 12); ("5", 10);
              ("11", 6); ("12", 4)]);
            ("Apparel",
             [("S", 30); ("M", 25); ("L", 15); ("XS", 15); ("XL", 10); ("XXL", 5)]) ];
        lead_time_days := 18 |});
    ("Company F",
     {| region := "Eastern Europe";
        preferred_products := [("Footwear", 70); ("Apparel", 30)];
        preferred_categories :=
          [("Boots", 40); ("Sneakers", 30); ("Coats", 20); ("Shirts", 10)];
        size_distribution :=
          [ ("Footwear",
             [("8", 18); ("9", 18); ("10", 16); ("7", 14); ("11", 14); ("6", 10);
              ("12", 6); ("5", 4)]);
            ("Apparel",
             [("L", 25); ("M", 20); ("XL", 20); ("XXL", 15); ("S", 15); ("XS", 5)]) ];
        lead_time_days := 14 |});
    ("Company H",
     {| region := "Middle East";
        preferred_products := [("Footwear", 69); ("Apparel", 31)];
        preferred_categories :=
          [("Sneakers", 35); ("Boots", 34); ("Shirts", 21); ("Coats", 10)];
        size_distribution :=
          [ ("Footwear",
             [("7", 16); ("8", 16); ("9", 16); ("10", 14); ("6", 12); ("11", 12);
              ("5", 8); ("12", 6)]);
            ("Apparel",
             [("M", 22); ("L", 22); ("S", 18); ("XL", 16); ("XXL", 12); ("XS", 10)]) ];
        lead_time_days := 16 |});
    ("Company I",
     {| region := "Latin America";
        preferred_products := [("Footwear", 70); ("Apparel", 30)];
        preferred_categories :=
          [("Sneakers", 40); ("Boots", 30); ("Shirts", 18); ("Coats", 12)];
        size_distribution :=
          [ ("Footwear",
             [("7", 18); ("8", 18); ("6", 16); ("9", 14); ("5", 12); ("10", 12);
              ("11", 6); ("12", 4)]);
            ("Apparel",
             [("S", 25); ("M", 25); ("L", 18); ("XS", 14); ("XL", 12); ("XXL", 6)]) ];
        lead_time_days := 12 |}) ]%string.

(** ['Footwear' if category in ['Sneakers', 'Boots'] else 'Apparel']. *)
Definition product_type_of (category : string) : string :=
  if bool_decide (category ∈ ["Sneakers"; "Boots"]%string)
  then "Footwear"%string else "Apparel"%string.

Record size_entry_t := { size : string; quantity : Z; percentage : Q }.

(** [None] is the [KeyError] of a product type without a distribution. *)
Definition _create_size_breakdown (category : string) (total_quantity : Z)
    (partner_prefs : partner_prefs_t) : option (list size_entry_t) :=
  let product_type := product_type_of category in
  CapacityOptimizer.dict_get product_type (size_distribution partner_prefs)
  ≫= fun size_distribution_ =>
  Some (fold_left
          (fun size_breakdown item =>
             let size_quantity :=
               py_int (inject_Z total_quantity * (item.2 / 100)) in
             if (0 <? size_quantity)%Z
             then size_breakdown
                  ++ [ {| size := item.1; quantity := size_quantity;
                          percentage := item.2 |} ]
             else size_breakdown)
          size_distribution_ []).

Definition _estimate_category_breakdown (total_stock : Z) (product_type : string)
    : list (string * Z) :=
  if decide (product_type = "Footwear"%string)
  then [ ("Sneakers"%string, py_int (inject_Z total_stock * 0.65));
         ("Boots"%string, py_int (inject_Z total_stock * 0.35)) ]
  else [ ("Shirts"%string, py_int (inject_Z total_stock * 0.60));
         ("Coats"%string, py_int (inject_Z total_stock * 0.40)) ].

(** The stock of a product in a warehouse, [current_inventory[warehouse][product]]. *)
Record product_stock_t := { total : Z; categories : list (string * Z) }.

Definition current_inventory_t : Type := list (string * list (string * product_stock_t)).

(** Body of [for product in self.products] of the analysis of the
    inventory levels. *)
Definition stock_step (warehouse_data : RollingForecast.warehouse_result)
    (stocks : list (string * product_stock_t)) (product : string)
    : list (string * product_stock_t) :=
  match RollingForecast.wr_products warehouse_data !! product with
  | Some product_data =>
      let rolling_data := RollingForecast.rolling_inventory product_data in
      let current_stock :=
        match RollingForecast.max_key rolling_data ≫= fun latest_month =>
              rolling_data !! latest_month with
        | Some row => RollingForecast.ending_position row
        | None => 0%Z
        end in
      Heap.dict_set product
        {| total := current_stock;
           categories := _estimate_category_breakdown current_stock product |}
        stocks
  | None => stocks
  end.

Section Inventory.

(** What [_generate_simulated_inventory()] returns, the fallback of an
    engine that loaded no forecast. *)
Variable simulated_inventory : current_inventory_t.

(** [analyze_current_inventory_levels]; [self.warehouse_forecasts] is
    [None] when the forecast file was not found. *)
Definition analyze_current_inventory_levels
    (warehouse_forecasts : option RollingForecast.results_t) : current_inventory_t :=
  match warehouse_forecasts with
  | Some forecasts =>
      fold_left
        (fun current_inventory warehouse =>
           match RollingForecast.res_warehouses forecasts !! warehouse with
           | Some warehouse_data =>
               Heap.dict_set warehouse
                 (fold_left (stock_step warehouse_data) RollingForecast.products [])
                 current_inventory
           | None => current_inventory
           end)
        RollingForecast.warehouses []
  | None => simulated_inventory
  end.

End Inventory.

(** *** The choice of the warehouse of an allocation *)

Record warehouse_option_t := {
  warehouse : string;
  available : Z;
  score : Q;
  confidence : string
}.

(** [current_inventory[warehouse][product_type]['categories'][category]],
    [None] when one of the three keys is missing. *)
Definition category_stock (current_inventory : current_inventory_t)
    (warehouse product_type category : string) : option Z :=
  CapacityOptimizer.dict_get warehouse current_inventory ≫= fun inv =>
  CapacityOptimizer.dict_get product_type inv ≫= fun stock =>
  CapacityOptimizer.dict_get category (categories stock).

(** The list that [stock_ratio] sums, over [current_inventory.values()]. *)
Definition category_stocks (current_inventory : current_inventory_t)
    (product_type category : string) : list Z :=
  omap
    (fun inv =>
       CapacityOptimizer.dict_get product_type inv.2 ≫= fun stock =>
       CapacityOptimizer.dict_get category (categories stock))
    current_inventory.

(** [sum] of a list of integers. *)
Definition py_sum_int (l : list Z) : Z := fold_left Z.add l 0%Z.

Definition combined_score (distance_factor : Q)
    (available_stock demand_quantity stocks_total : Z) : Q :=
  let distance_score := 1.0 / distance_factor in
  let availability_score :=
    Qmin 1.0 (inject_Z available_stock / inject_Z demand_quantity) in
  let stock_ratio := inject_Z available_stock / inject_Z stocks_total in
  distance_score * 0.4 + availability_score * 0.4 + stock_ratio * 0.2.

(** Body of [for warehouse in self.warehouses]; [None] is the
    [ZeroDivisionError] of a demand or of a sum of stocks that is 0. The
    distance factor is never 0. *)
Definition option_step (current_inventory : current_inventory_t)
    (category : string) (demand_quantity : Z) (partner_prefs : partner_prefs_t)
    (warehouse_options : list warehouse_option_t) (warehouse : string)
    : option (list warehouse_option_t) :=
  let product_type := product_type_of category in
  match category_stock current_inventory warehouse product_type category with
  | Some available_stock =>
      if Qle_bool (inject_Z demand_quantity * 0.1) (inject_Z available_stock)
      then
        let stocks_total :=
          py_sum_int (category_stocks current_inventory product_type category) in
        if decide (demand_quantity = 0%Z \/ stocks_total = 0%Z) then None
        else
          Some (warehouse_options
                ++ [ {| warehouse := warehouse;
                        available := available_stock;
                        score :=
                          combined_score
                            (_get_distance_factor warehouse (region partner_prefs))
                            available_stock demand_quantity stocks_total;
                        confidence :=
                          if (demand_quantity <=? available_stock)%Z
                          then "High"%string else "Medium"%string |} ])
      else Some warehouse_options
  | None => Some warehouse_options
  end.

(** [max(l, key=...)]: the first of the items whose key is the largest. *)
Definition py_max_by {A} (key : A -> Q) (l : list A) : option A :=
  match l with
  | [] => None
  | x :: l' =>
      Some (fold_left (fun best y => if Qgtb (key y) (key best) then y else best) l' x)
  end.

(** The outer [None] is an exception, the inner one the [None] that the
    function returns when no warehouse qualifies. *)
Definition _find_optimal_warehouse_allocation (category : string)
    (demand_quantity : Z) (current_inventory : current_inventory_t)
    (partner_prefs : partner_prefs_t) : option (option warehouse_option_t) :=
  fold_left
    (fun acc warehouse =>
       acc ≫= fun warehouse_options =>
       option_step current_inventory category demand_quantity partner_prefs
         warehouse_options warehouse)
    RollingForecast.warehouses (Some [])
  ≫= fun warehouse_options => Some (py_max_by score warehouse_options).

(** *** The recommendations *)

Record delivery_info_t := {
  di_month : string;
  ship_by_date : string;
  deliver_by_date : string;
  di_demand : Z
}.

(** The fields of a partner's requirements that the recommendations
    read. *)
Record requirements_t := {
  total_demand : list (string * Z);
  category_breakdown : list (string * list (string * Z));
  delivery_timeline : list delivery_info_t
}.

Record product_details_t := {
  product_type : string;
  pd_category : string;
  total_quantity : Z;
  size_breakdown : list size_entry_t;
  fulfillment_percentage : Q
}.

Record timeline_t := {
  tl_month : string;
  tl_ship_by_date : string;
  tl_deliver_by_date : string;
  tl_lead_time_days : Z
}.

Record logistics_t := {
  distance_factor : Q;
  shipping_cost_estimate : Q;
  warehouse_utilization_impact : Z
}.

Record recommendation_t := {
  allocation_id : string;
  from_warehouse : string;
  to_partner : string;
  partner_region : string;
  product_details : product_details_t;
  timeline : timeline_t;
  logistics : logistics_t;
  priority : string;
  status : string;
  rec_confidence : string
}.

(** [days_until_ship] is [(ship_date - datetime.now()).days]. *)
Definition _calculate_allocation_priority (partner category : string)
    (quantity : Z) (days_until_ship : Z) : string :=
  if bool_decide (partner ∈ ["Company C"; "Company E"; "Company F"]%string)
  then
    if (days_until_ship <=? 7)%Z then "URGENT"%string
    else if (days_until_ship <=? 14)%Z then "HIGH"%string
    else "MEDIUM"%string
  else
    if (days_until_ship <=? 7)%Z then "HIGH"%string
    else if (days_until_ship <=? 14)%Z then "MEDIUM"%string
    else "LOW"%string.

(** The order of the keys [(priority, ship_by_date)] of the sort: tuples
    of strings, compared item by item. *)
Definition key_ltb (k1 k2 : string * string) : bool :=
  match String.compare k1.1 k2.1 with
  | Lt => true
  | Eq => String.ltb k1.2 k2.2
  | Gt => false
  end.

(** [list.sort(key=...)]: stable, ascending. *)
Fixpoint insert_by {A} (lt : A -> A -> bool) (x : A) (l : list A) : list A :=
  match l with
  | [] => [x]
  | y :: l' => if lt x y then x :: y :: l' else y :: insert_by lt x l'
  end.

Definition sort_by {A} (lt : A -> A -> bool) (l : list A) : list A :=
  fold_left (fun sorted x => insert_by lt x sorted) l [].

Definition sort_key (x : recommendation_t) : string * string :=
  (priority x, tl_ship_by_date (timeline x)).

Section Clock.

(** The whole days from the reading of the clock, in the priority of the
    recommendation of a partner and category, to its ship-by date; [None]
    when the date does not parse. *)
Variable days_until_ship : string -> string -> option Z.

(** Body of [for category, demand_quantity in category_demands.items()]. *)
Definition category_step (current_inventory : current_inventory_t)
    (partner : string) (partner_prefs : partner_prefs_t) (next_month : string)
    (delivery_info : delivery_info_t)
    (recommendations : list recommendation_t) (item : string * Z)
    : option (list recommendation_t) :=
  let category := item.1 in
  let demand_quantity := item.2 in
  if (demand_quantity <? 1000)%Z then Some recommendations
  else
    _find_optimal_warehouse_allocation category demand_quantity current_inventory
      partner_prefs
    ≫= fun best_allocation =>
    match best_allocation with
    | Some best_allocation =>
        _create_size_breakdown category demand_quantity partner_prefs
        ≫= fun size_recommendations =>
        days_until_ship partner category ≫= fun days =>
        Some (recommendations
              ++ [ {| allocation_id :=
                        warehouse best_allocation +:+ "_" +:+ partner +:+ "_"
                        +:+ category +:+ "_" +:+ next_month;
                      from_warehouse := warehouse best_allocation;
                      to_partner := partner;
                      partner_region := region partner_prefs;
                      product_details :=
                        {| product_type := product_type_of category;
                           pd_category := category;
                           total_quantity := demand_quantity;
                           size_breakdown := size_recommendations;
                           fulfillment_percentage :=
                             Qmin 100
                               (inject_Z (available best_allocation)
                                / inject_Z demand_quantity * 100) |};
                      timeline :=
                        {| tl_month := next_month;
                           tl_ship_by_date := ship_by_date delivery_info;
                           tl_deliver_by_date := deliver_by_date delivery_info;
                           tl_lead_time_days := lead_time_days partner_prefs |};
                      logistics :=
                        {| distance_factor :=
                             _get_distance_factor (warehouse best_allocation)
                               (region partner_prefs);
                           shipping_cost_estimate :=
                             _estimate_shipping_cost (inject_Z demand_quantity)
                               (warehouse best_allocation) (region partner_prefs);
                           warehouse_utilization_impact := 0 |};
                      priority :=
                        _calculate_allocation_priority partner category
                          demand_quantity days;
                      status := "RECOMMENDED";
                      rec_confidence := confidence best_allocation |} ])
    | None => Some recommendations
    end.

(** Body of [for partner, requirements in partner_requirements.items()];
    [None] is a [KeyError] or an [IndexError]. *)
Definition partner_step (current_inventory : current_inventory_t)
    (recommendations : list recommendation_t) (item : string * requirements_t)
    : option (list recommendation_t) :=
  let partner := item.1 in
  let requirements := item.2 in
  CapacityOptimizer.dict_get partner partner_preferences ≫= fun partner_prefs =>
  head (map fst (total_demand requirements)) ≫= fun next_month =>
  head (delivery_timeline requirements) ≫= fun delivery_info =>
  CapacityOptimizer.dict_get next_month (category_breakdown requirements)
  ≫= fun category_demands =>
  fold_left
    (fun acc item =>
       acc ≫= fun recommendations =>
       category_step current_inventory partner partner_prefs next_month
         delivery_info recommendations item)
    category_demands (Some recommendations).

Definition generate_allocation_recommendations
    (current_inventory : current_inventory_t)
    (partner_requirements : list (string * requirements_t))
    : option (list recommendation_t) :=
  fold_left
    (fun acc item =>
       acc ≫= fun recommendations =>
       partner_step current_inventory recommendations item)
    partner_requirements (Some [])
  ≫= fun recommendations =>
  Some (sort_by (fun x y => key_ltb (sort_key x) (sort_key y)) recommendations).

End Clock.

End AllocationEngine.

(** ** The capacity analysis of the optimiser *)

Module CapacityAnalysis.

Import PyNum CapacityOptimizer.



Section Numpy.

(** [np.polyfit(range(len(ys)), ys, 1)[0]], the slope of the line fitted
    to a timeline, and [np.std], its standard deviation. *)
Variable np_polyfit_slope : list Q -> Q.
Variable np_std : list Q -> Q.

(** The ['capacity'] of [self.warehouse_capacities]. *)
Variable warehouse_capacities : list (string * Q).




End Numpy.

End CapacityAnalysis.

(** ** The demonstration scenario as a function of the baseline's values *)

Module HighDemandValues.

Import PyNum CapacityOptimizer Heap HighDemandScenario ScenarioValues.

(** What the demonstration scenario writes into the dictionaries that the
    record [v] of a warehouse refers to: the load of the warehouse, if it
    has one, and the available capacity. *)
Definition loaded_data (warehouse : string) (v : warehouse_data) : warehouse_data :=
  let v :=
    match simulated_load warehouse with
    | Some (factor, util, risk_args) =>
        let new_inventory := max_capacity (warehouse_info v) * factor in
        let v :=
          on_metrics (with_final_utilization util)
            (on_info (with_current_inventory (inject_Z (py_round new_inventory))) v) in
        match risk_args with
        | Some _ => on_trend (with_trend_direction "Increasing") v
        | None => v
        end
    | None => v
    end in
  recalculated v.

(** The record of the scenario: the same dictionaries, and a risk
    assessment of its own for the two overloaded warehouses. *)
Definition high_demand_record (warehouse : string) (v : warehouse_data)
    : warehouse_data :=
  match simulated_load warehouse with
  | Some (_, _, Some (avg_util, max_util, slope)) =>
      with_risk (_assess_capacity_risk avg_util max_util slope)
        (loaded_data warehouse v)
  | _ => loaded_data warehouse v
  end.

End HighDemandValues.

(** ** Example networks *)

Module Examples.

Import CapacityOptimizer Heap.

(** A record with one utilization figure and no timeline. *)
Definition example_data (n : string) (capacity inventory utilization : Q)
    : warehouse_data :=
  {| warehouse_info :=
       {| name := n; max_capacity := capacity; current_inventory := inventory;
          available_capacity := capacity - inventory;
          available_capacity_pct :=
            py_round_nd ((capacity - inventory) / capacity * 100) 1 |};
     utilization_metrics :=
       {| average_utilization := utilization; max_utilization := utilization;
          min_utilization := utilization; final_utilization := utilization;
          utilization_range := 0 |};
     trend_analysis :=
       {| trend_direction := "Stable"; trend_slope := 0; volatility := 0 |};
     risk_assessment := _assess_capacity_risk utilization utilization 0;
     timeline_data :=
       {| months := []; utilization_pct := []; inventory_levels := [] |} |}.

Definition rules_of (min_size : Q) : business_rules_t :=
  {| optimal_range := (0.6, 0.8); max_transfer_percentage := 0.5;
     minimum_transfer_size := min_size |}.

(** The two-warehouse network of the specification's end-to-end scenario:
    Atlanta at 90% and Chicago at 20% of 100,000 units. *)
Definition example_analysis : capacity_analysis_t :=
  [ ("Atlanta"%string, example_data "Atlanta" 100000 90000 90);
    ("Chicago"%string, example_data "Chicago" 100000 20000 20) ].




(** A small destination whose figures are the roundings of a total of 60.6
    units in 200: an inventory of 61 and a utilization of 30.3. *)
Definition rounded_analysis : capacity_analysis_t :=
  [ ("Atlanta"%string, example_data "Atlanta" 10000 9500 95);
    ("Chicago"%string, example_data "Chicago" 200 61 30.3) ].

(** The recommendation of the end-to-end scenario with a minimum transfer
    size of 5000: 7000 units from Atlanta to Chicago. *)
Definition example_transfer : transfer :=
  _calculate_optimal_transfer (rules_of 5000)
    "Atlanta" (example_data "Atlanta" 100000 90000 90)
    "Chicago" (example_data "Chicago" 100000 20000 20).

(** The baseline of the example in a heap of its own, and the run of the
    demonstration scenario on it. *)
Definition example_baseline : option (analysis_refs * heap) :=
  new_analysis example_analysis ∅.

Definition example_high_demand_run : option (analysis_refs * heap) :=
  example_baseline ≫= fun '(base, h) =>
  HighDemandScenario.simulate_high_demand_scenario base h.

(** The value of the baseline before and after the run. *)
Definition baseline_before : option capacity_analysis_t :=
  example_baseline ≫= fun '(base, h) => read_analysis h base.

Definition baseline_after : option capacity_analysis_t :=
  example_baseline ≫= fun '(base, h) =>
  HighDemandScenario.simulate_high_demand_scenario base h ≫= fun '(_, h') =>
  read_analysis h' base.

(** A scenario for the example baseline: Atlanta is set to 85% with an
    increasing trend, and Chicago receives a donation of 5000 units. *)
Definition example_config : ScenarioSimulator.scenario_config_t :=
  {| ScenarioSimulator.warehouse_changes :=
       [ ("Atlanta"%string,
          {| ScenarioSimulator.target_utilization := Some 85;
             ScenarioSimulator.wc_trend_direction := Some "Increasing"%string;
             ScenarioSimulator.other_keys := false |}) ];
     ScenarioSimulator.large_donation_event :=
       Some {| ScenarioSimulator.de_warehouse := "Chicago";
               ScenarioSimulator.quantity := 5000 |} |}.

(** A network of five warehouses: two of them above 70%, two below 50%. *)
Definition network_analysis : capacity_analysis_t :=
  [ ("Atlanta"%string, example_data "Atlanta" 100000 96000 96);
    ("Nashville"%string, example_data "Nashville" 100000 88000 88);
    ("Chicago"%string, example_data "Chicago" 100000 60000 60);
    ("NY"%string, example_data "NY" 100000 40000 40);
    ("LA"%string, example_data "LA" 100000 20000 20) ].

(** The references and the heap of the example baseline. *)
Definition example_refs : analysis_refs := default [] (fst <$> example_baseline).

Definition example_heap : gmap positive obj := default ∅ (snd <$> example_baseline).

(** The requirements of a large and of a small partner for one month,
    and a clock that is 5 days from the ship-by date of the first and 20
    days from that of the second. *)
Definition example_requirements : list (string * AllocationEngine.requirements_t) :=
  [ ("Company C"%string,
     {| AllocationEngine.total_demand := [("2025-07"%string, 50000%Z)];
        AllocationEngine.category_breakdown :=
          [ ("2025-07"%string,
             [ ("Sneakers"%string, 22500%Z); ("Boots"%string, 12500%Z);
               ("Shirts"%string, 10000%Z); ("Coats"%string, 5000%Z) ]) ];
        AllocationEngine.delivery_timeline :=
          [ {| AllocationEngine.di_month := "2025-07";
               AllocationEngine.ship_by_date := "2025-06-10";
               AllocationEngine.deliver_by_date := "2025-07-01";
               AllocationEngine.di_demand := 50000 |} ] |});
    ("Company H"%string,
     {| AllocationEngine.total_demand := [("2025-07"%string, 3000%Z)];
        AllocationEngine.category_breakdown :=
          [ ("2025-07"%string,
             [ ("Sneakers"%string, 1050%Z); ("Boots"%string, 1020%Z);
               ("Shirts"%string, 630%Z); ("Coats"%string, 300%Z) ]) ];
        AllocationEngine.delivery_timeline :=
          [ {| AllocationEngine.di_month := "2025-07";
               AllocationEngine.ship_by_date := "2025-06-15";
               AllocationEngine.deliver_by_date := "2025-07-01";
               AllocationEngine.di_demand := 3000 |} ] |}) ].

Definition stock_of_categories (c1 : string) (q1 : Z) (c2 : string) (q2 : Z)
    : AllocationEngine.product_stock_t :=
  {| AllocationEngine.total := (q1 + q2)%Z;
     AllocationEngine.categories := [(c1, q1); (c2, q2)] |}.

Definition example_inventory : AllocationEngine.current_inventory_t :=
  [ ("Atlanta", [ ("Footwear", stock_of_categories "Sneakers" 68250 "Boots" 36750);
                  ("Apparel", stock_of_categories "Shirts" 27000 "Coats" 18000) ]);
    ("Nashville", [ ("Footwear", stock_of_categories "Sneakers" 77349 "Boots" 41649);
                    ("Apparel", stock_of_categories "Shirts" 30600 "Coats" 20400) ]);
    ("Chicago", [ ("Footwear", stock_of_categories "Sneakers" 70525 "Boots" 37975);
                  ("Apparel", stock_of_categories "Shirts" 27900 "Coats" 18600) ]);
    ("NY", [ ("Footwear", stock_of_categories "Sneakers" 72800 "Boots" 39200);
             ("Apparel", stock_of_categories "Shirts" 28800 "Coats" 19200) ]);
    ("LA", [ ("Footwear", stock_of_categories "Sneakers" 81899 "Boots" 44099);
             ("Apparel", stock_of_categories "Shirts" 32400 "Coats" 21600) ]) ]%string.

Definition example_clock (partner category : string) : option Z :=
  Some (if decide (partner = "Company C"%string) then 5%Z else 20%Z).

Definition example_recommendations : list AllocationEngine.recommendation_t :=
  default []
    (AllocationEngine.generate_allocation_recommendations example_clock
       example_inventory example_requirements).


End Examples.

(** * Properties *)

(** ** Facts about the numerics *)

Module PyNumFacts.

Lemma Qgtb_true (x y : Q) : Qgtb x y = true <-> y < x.
Proof.
  unfold Qgtb. rewrite negb_true_iff, <- not_true_iff_false, Qle_bool_iff.
  split; [apply Qnot_le_lt | apply Qlt_not_le].
Qed.

Lemma Qgtb_false (x y : Q) : Qgtb x y = false <-> x <= y.
Proof. unfold Qgtb. rewrite negb_false_iff. apply Qle_bool_iff. Qed.

Lemma Qltb_true (x y : Q) : Qltb x y = true <-> x < y.
Proof. apply Qgtb_true. Qed.

Lemma Qltb_false (x y : Q) : Qltb x y = false <-> y <= x.
Proof. apply Qgtb_false. Qed.

#[global] Instance Qgtb_proper : Proper (Qeq ==> Qeq ==> eq) Qgtb.
Proof. intros x x' Hx y y' Hy. unfold Qgtb. by rewrite Hx, Hy. Qed.

(** [round] does not depend on the representation of the fraction. *)
#[global] Instance py_round_proper : Proper (Qeq ==> eq) py_round.
Proof.
  intros x y Hxy. unfold py_round.
  rewrite (Qfloor_comp _ _ Hxy).
  assert (Hc : Qcompare (x - inject_Z (Qfloor y)) (1 # 2)
               = Qcompare (y - inject_Z (Qfloor y)) (1 # 2))
    by (apply Qcompare_comp; [by rewrite Hxy | reflexivity]).
  by rewrite Hc.
Qed.

Lemma py_round_inject_Z (z : Z) : py_round (inject_Z z) = z.
Proof.
  unfold py_round. rewrite Qfloor_Z.
  destruct (Qcompare (inject_Z z - inject_Z z) (1 # 2)) eqn:Hc; [| done |].
  - apply Qeq_alt in Hc. lra.
  - apply Qgt_alt in Hc. lra.
Qed.

(** The rounded value is within one half of the argument. *)
Lemma py_round_bounds (x : Q) :
  x - (1 # 2) <= inject_Z (py_round x) <= x + (1 # 2).
Proof.
  unfold py_round.
  pose proof (Qfloor_le x) as Hlo. pose proof (Qlt_floor x) as Hhi.
  rewrite inject_Z_plus in Hhi. change (inject_Z 1) with 1 in Hhi.
  destruct (Qcompare (x - inject_Z (Qfloor x)) (1 # 2)) eqn:Hc.
  - apply Qeq_alt in Hc.
    destruct (Z.even (Qfloor x)); rewrite ?inject_Z_plus;
      change (inject_Z 1) with 1; lra.
  - apply Qlt_alt in Hc. lra.
  - apply Qgt_alt in Hc. rewrite inject_Z_plus. change (inject_Z 1) with 1. lra.
Qed.

Lemma inject_Z_lt_succ (a b : Z) : (a < b)%Z -> inject_Z a + 1 <= inject_Z b.
Proof.
  intros H. change 1 with (inject_Z 1). rewrite <- inject_Z_plus, <- Zle_Qle. lia.
Qed.

(** Rounding is monotone. *)
Lemma py_round_mono (x y : Q) : x <= y -> (py_round x <= py_round y)%Z.
Proof.
  intros Hxy.
  destruct (Z_lt_le_dec (py_round y) (py_round x)) as [Hlt|]; [|done].
  pose proof (py_round_bounds x) as [_ Hx].
  pose proof (py_round_bounds y) as [Hy _].
  apply inject_Z_lt_succ in Hlt.
  assert (Heq : x == y) by lra.
  rewrite Heq in Hlt. lra.
Qed.

Lemma py_round_nonneg (x : Q) : 0 <= x -> (0 <= py_round x)%Z.
Proof.
  intros H. rewrite <- (py_round_inject_Z 0). by apply py_round_mono.
Qed.

Lemma py_round_pos_inv (x : Q) : (0 < py_round x)%Z -> 0 < x.
Proof.
  intros H. apply Qnot_le_lt. intros Hx.
  apply py_round_mono in Hx. change 0 with (inject_Z 0) in Hx.
  rewrite py_round_inject_Z in Hx. lia.
Qed.



Lemma pow10_pos (n : nat) : 0 < pow10 n.
Proof.
  unfold pow10. change 0 with (inject_Z 0). rewrite <- Zlt_Qlt.
  apply Z.pow_pos_nonneg; lia.
Qed.

Lemma py_round_nd_mono (x y : Q) (n : nat) :
  x <= y -> py_round_nd x n <= py_round_nd y n.
Proof.
  intros H. unfold py_round_nd. pose proof (pow10_pos n) as Hp.
  apply Qmult_le_compat_r; [|apply Qinv_le_0_compat; lra].
  rewrite <- Zle_Qle. apply py_round_mono.
  apply Qmult_le_compat_r; lra.
Qed.

(** A rounded value is a nearest one: whichever way a tie goes, it is
    within half a unit, or half a cent, of the exact value. *)
Lemma py_round_within (x : Q) : Qabs (inject_Z (py_round x) - x) <= 1 # 2.
Proof. apply Qabs_Qle_condition. pose proof (py_round_bounds x). lra. Qed.



Lemma py_sum_from (l : list Q) (a : Q) : fold_left Qplus l a == a + py_sum l.
Proof.
  unfold py_sum. revert a.
  induction l as [|x l IH]; intros a; simpl; [lra|].
  rewrite (IH (a + x)), (IH (0 + x)). lra.
Qed.

End PyNumFacts.

(** ** The risk score *)

Module RiskFacts.

Import CapacityOptimizer PyNumFacts.

Lemma trend_thresholds (slope : Q) :
  Qgtb slope 1.0 = Qgtb slope 1 /\ Qgtb slope 0.5 = Qgtb slope (1 # 2).
Proof. split; apply Qgtb_proper; reflexivity. Qed.

(** The assessment depends on the numbers only, not on how the fractions
    are written. *)
Lemma assess_capacity_risk_proper (a a' m m' s s' : Q) :
  a == a' -> m == m' -> s == s' ->
  _assess_capacity_risk a m s = _assess_capacity_risk a' m' s'.
Proof.
  intros Ha Hm Hs. unfold _assess_capacity_risk.
  by rewrite !(Qgtb_proper _ _ Ha _ _ (Qeq_refl _)),
             !(Qgtb_proper _ _ Hm _ _ (Qeq_refl _)),
             !(Qgtb_proper _ _ Hs _ _ (Qeq_refl _)).
Qed.

(** C4. The risk score of (mean, peak, slope) is the sum of the points of
    the three rules (+3 if mean > 80 else +1 if mean > 60; +3 if peak > 95
    else +2 if peak > 85; +2 if slope > 1.0 else +1 if slope > 0.5), and
    the level is HIGH iff the score is at least 5, MEDIUM iff it is 3 or 4,
    LOW iff it is 1 or 2, and MINIMAL iff it is below 1. The assessment is a
    function of its three inputs, so identical inputs give identical score
    and level. *)
Theorem assess_capacity_risk_score_level (mean peak slope : Q) :
  let r := _assess_capacity_risk mean peak slope in
  score r = spec_risk_score mean peak slope
  /\ (level r = HIGH <-> (5 <= score r)%Z)
  /\ (level r = MEDIUM <-> (3 <= score r < 5)%Z)
  /\ (level r = LOW <-> (1 <= score r < 3)%Z)
  /\ (level r = MINIMAL <-> (score r < 1)%Z).
Proof.
  unfold _assess_capacity_risk, spec_risk_score, spec_mean_points,
    spec_peak_points, spec_trend_points.
  destruct (trend_thresholds slope) as [-> ->].
  destruct (Qgtb mean 80), (Qgtb mean 60), (Qgtb peak 95), (Qgtb peak 85),
    (Qgtb slope 1), (Qgtb slope (1 # 2));
    cbn; repeat split; intros; try done; try lia.
Qed.

End RiskFacts.

(** ** The rolling inventory simulator: ledger, alerts and summary *)

Module RollingForecastFacts.

Import RollingForecast PyNumFacts.

(** *** Views of the result tree *)

Lemma product_data_on_product res w p f w' p' :
  product_data (on_product w p f res) w' p'
  = if decide (w' = w /\ p' = p) then f <$> product_data res w p
    else product_data res w' p'.
Proof.
  unfold product_data, on_product, on_warehouse; simpl.
  destruct (decide (w' = w)) as [->|Hw].
  - rewrite lookup_alter_eq.
    destruct (res_warehouses res !! w) as [wr|]; simpl.
    + destruct (decide (p' = p)) as [->|Hp].
      * rewrite lookup_alter_eq. by rewrite decide_True.
      * rewrite lookup_alter_ne by done. rewrite decide_False; [done | tauto].
    + by case_decide.
  - rewrite lookup_alter_ne by done. rewrite decide_False; [done | tauto].
Qed.

Lemma positions_of_on_product res w p f w' :
  positions_of (on_product w p f res) w' = positions_of res w'.
Proof.
  unfold positions_of, on_product, on_warehouse; simpl.
  destruct (decide (w' = w)) as [->|Hw].
  - rewrite lookup_alter_eq. by destruct (res_warehouses res !! w).
  - by rewrite lookup_alter_ne.
Qed.

Lemma product_data_add_alert res w a w' p' :
  product_data (add_alert w a res) w' p' = product_data res w' p'.
Proof.
  unfold product_data, add_alert; simpl.
  destruct (decide (w' = w)) as [->|Hw].
  - rewrite lookup_alter_eq. by destruct (res_warehouses res !! w).
  - by rewrite lookup_alter_ne.
Qed.

Lemma positions_of_add_alert res w a w' :
  positions_of (add_alert w a res) w' = positions_of res w'.
Proof.
  unfold positions_of, add_alert; simpl.
  destruct (decide (w' = w)) as [->|Hw].
  - rewrite lookup_alter_eq. by destruct (res_warehouses res !! w).
  - by rewrite lookup_alter_ne.
Qed.

Lemma product_data_add_position res w mp w' p' :
  product_data (on_warehouse w (add_monthly_position mp) res) w' p'
  = product_data res w' p'.
Proof.
  unfold product_data, on_warehouse; simpl.
  destruct (decide (w' = w)) as [->|Hw].
  - rewrite lookup_alter_eq. by destruct (res_warehouses res !! w).
  - by rewrite lookup_alter_ne.
Qed.

Lemma positions_of_add_position res w mp w' :
  positions_of (on_warehouse w (add_monthly_position mp) res) w'
  = if decide (w' = w) then (fun l => l ++ [mp]) <$> positions_of res w
    else positions_of res w'.
Proof.
  unfold positions_of, on_warehouse; simpl.
  destruct (decide (w' = w)) as [->|Hw].
  - rewrite lookup_alter_eq. by destruct (res_warehouses res !! w).
  - by rewrite lookup_alter_ne.
Qed.

(** *** Month keys *)

Lemma month_key_of_inj (i j : nat) : month_key_of i = month_key_of j -> i = j.
Proof.
  unfold month_key_of. intros H.
  assert (Hd : (2023 + i / 12 = 2023 + j / 12)%nat) by exact (f_equal fst H).
  assert (Hm : (1 + i mod 12 = 1 + j mod 12)%nat) by exact (f_equal snd H).
  apply Nat.add_cancel_l in Hd, Hm.
  rewrite (Nat.div_mod_eq i 12), (Nat.div_mod_eq j 12). lia.
Qed.

(** *** One month of position updates *)

Section PositionUpdate.

Variable self : forecaster.
Variable i : nat.

(** What the code computes for a product from the state at the start of
    the month: the position after the flows and the ledger row. *)
Definition after_of (st : sim_state) (w p : string) : Q :=
  Qmax 0 (current_inventory st w p
          + (forecast (monthly_forecasts st w p inflows (month_key_of i))
             - forecast (monthly_forecasts st w p outflows (month_key_of i)))).

Definition row_of (st : sim_state) (w p : string) : inventory_position :=
  let inflow_ := forecast (monthly_forecasts st w p inflows (month_key_of i)) in
  let outflow_ := forecast (monthly_forecasts st w p outflows (month_key_of i)) in
  {| starting_position := py_round (current_inventory st w p);
     inflow := py_round inflow_;
     outflow := py_round outflow_;
     net_flow := py_round (inflow_ - outflow_);
     ending_position := py_round (after_of st w p);
     capacity_utilization :=
       py_round_nd (after_of st w p / warehouse_capacities self w * 100) 1 |}.

Definition total_after_of (st : sim_state) (w : string) (ps : list string)
    (total : Q) : Q :=
  fold_left (fun acc p => acc + after_of st w p) ps total.

(** Two states that agree on what a warehouse's update reads. *)
Definition same_inputs (w : string) (ps : list string) (st st' : sim_state)
    : Prop :=
  forall p, p ∈ ps ->
    current_inventory st' w p = current_inventory st w p
    /\ forall ft, monthly_forecasts st' w p ft (month_key_of i)
                  = monthly_forecasts st w p ft (month_key_of i).

Lemma after_of_same w ps st st' p :
  same_inputs w ps st st' -> p ∈ ps -> after_of st' w p = after_of st w p.
Proof.
  intros H Hp. destruct (H p Hp) as [Hc Hf]. unfold after_of.
  by rewrite Hc, !Hf.
Qed.

Lemma row_of_same w ps st st' p :
  same_inputs w ps st st' -> p ∈ ps -> row_of st' w p = row_of st w p.
Proof.
  intros H Hp. unfold row_of.
  rewrite (after_of_same w ps st st' p H Hp).
  destruct (H p Hp) as [Hc Hf]. by rewrite Hc, !Hf.
Qed.

Lemma total_after_of_same w ps st st' total :
  same_inputs w ps st st' ->
  total_after_of st' w ps total = total_after_of st w ps total.
Proof.
  unfold total_after_of. revert total.
  induction ps as [|p ps IH]; intros total H; [done|]. simpl.
  rewrite (after_of_same w (p :: ps) st st' p H) by left.
  apply IH. intros q Hq. apply H. by right.
Qed.

Lemma rolling_of_product_step w st wmp p w' p' :
  rolling_of (results (product_step self i w (st, wmp) p).1) w' p'
  = if decide (w' = w /\ p' = p)
    then <[month_key_of i := row_of st w p]> <$> rolling_of (results st) w p
    else rolling_of (results st) w' p'.
Proof.
  unfold rolling_of; simpl. rewrite !product_data_on_product.
  destruct (decide (w' = w /\ p' = p)) as [[-> ->]|Hn]; [|done].
  rewrite decide_True by done.
  by destruct (product_data (results st) w p).
Qed.

(** The effect of the product loop of one warehouse. *)
Lemma product_loop w ps st wmp :
  NoDup ps ->
  let r := fold_left (product_step self i w) ps (st, wmp) in
  (forall w' p', current_inventory r.1 w' p'
                 = if decide (w' = w /\ p' ∈ ps) then after_of st w p'
                   else current_inventory st w' p')
  /\ monthly_forecasts r.1 = monthly_forecasts st
  /\ (forall w' p', rolling_of (results r.1) w' p'
                    = if decide (w' = w /\ p' ∈ ps)
                      then <[month_key_of i := row_of st w p']>
                             <$> rolling_of (results st) w p'
                      else rolling_of (results st) w' p')
  /\ (forall w', positions_of (results r.1) w' = positions_of (results st) w')
  /\ alerts (results r.1) = alerts (results st)
  /\ mp_date r.2 = mp_date wmp
  /\ warehouse_total_after r.2
     = total_after_of st w ps (warehouse_total_after wmp).
Proof.
  revert st wmp. induction ps as [|p ps IH]; intros st wmp Hnd; simpl.
  - repeat split; try done.
    + intros w' p'. rewrite decide_False; [done|]. intros [_ H]. by apply elem_of_nil in H.
    + intros w' p'. rewrite decide_False; [done|]. intros [_ H]. by apply elem_of_nil in H.
  - apply NoDup_cons in Hnd as [Hp Hnd].
    set (st1 := (product_step self i w (st, wmp) p).1).
    set (wmp1 := (product_step self i w (st, wmp) p).2).
    assert (Hsame : same_inputs w ps st st1).
    { intros q Hq. split; [|done]. unfold st1; simpl. unfold upd2.
      rewrite decide_False; [done|]. intros [_ ->]. done. }
    replace (product_step self i w (st, wmp) p) with (st1, wmp1)
      by (unfold st1, wmp1; by destruct (product_step self i w (st, wmp) p)).
    destruct (IH st1 wmp1 Hnd) as (Hc & Hf & Hr & Hpos & Ha & Hd & Ht).
    repeat split.
    + intros w' p'. rewrite Hc.
      destruct (decide (w' = w /\ p' ∈ ps)) as [[-> Hin]|Hn].
      * rewrite decide_True by (split; [done | by right]).
        by apply (after_of_same w ps).
      * unfold st1; simpl. unfold upd2.
        destruct (decide (w' = w /\ p' = p)) as [[-> ->]|Hn'].
        -- rewrite decide_True by (split; [done | by left]). done.
        -- rewrite decide_False; [done|].
           intros [-> Hin]. apply elem_of_cons in Hin as [->|Hin]; tauto.
    + by rewrite Hf.
    + intros w' p'. rewrite Hr.
      destruct (decide (w' = w /\ p' ∈ ps)) as [[-> Hin]|Hn].
      * rewrite decide_True by (split; [done | by right]).
        rewrite (row_of_same w ps st st1 p' Hsame Hin).
        unfold st1. rewrite rolling_of_product_step.
        rewrite decide_False; [done|]. intros [_ ->]. done.
      * unfold st1. rewrite rolling_of_product_step.
        destruct (decide (w' = w /\ p' = p)) as [[-> ->]|Hn'].
        -- rewrite decide_True by (split; [done | by left]). done.
        -- rewrite decide_False; [done|].
           intros [-> Hin]. apply elem_of_cons in Hin as [->|Hin]; tauto.
    + intros w'. rewrite Hpos. unfold st1; simpl.
      by rewrite !positions_of_on_product.
    + by rewrite Ha.
    + by rewrite Hd.
    + rewrite Ht. rewrite (total_after_of_same w ps st st1 _ Hsame). done.
Qed.

(** The utilization that [warehouse_step] tests, the alerts it adds and
    what it records of the month. *)
Definition utilization_of (st : sim_state) (w : string) : Q :=
  total_after_of st w products 0 / warehouse_capacities self w * 100.

Definition alerts_of (st : sim_state) (w : string) : list alert :=
  if Qgtb (utilization_of st w) 90
  then [make_alert w (month_key_of i) (utilization_of st w)]
  else [].

Definition records_month (st : sim_state) (w : string) (mp : monthly_position)
    : Prop :=
  mp_date mp = month_key_of i
  /\ warehouse_total_after mp = total_after_of st w products 0
  /\ mp_capacity_utilization mp = py_round_nd (utilization_of st w) 1.

Lemma NoDup_products : NoDup products.
Proof. apply (bool_decide_unpack _). by vm_compute. Qed.

Lemma NoDup_warehouses : NoDup warehouses.
Proof. apply (bool_decide_unpack _). by vm_compute. Qed.

Lemma warehouse_step_spec w st :
  let st' := warehouse_step self i st w in
  (forall w' p', current_inventory st' w' p'
                 = if decide (w' = w /\ p' ∈ products) then after_of st w p'
                   else current_inventory st w' p')
  /\ monthly_forecasts st' = monthly_forecasts st
  /\ (forall w' p', rolling_of (results st') w' p'
                    = if decide (w' = w /\ p' ∈ products)
                      then <[month_key_of i := row_of st w p']>
                             <$> rolling_of (results st) w p'
                      else rolling_of (results st) w' p')
  /\ (exists mp, records_month st w mp
       /\ forall w', positions_of (results st') w'
                     = if decide (w' = w)
                       then (fun l => l ++ [mp]) <$> positions_of (results st) w
                       else positions_of (results st) w')
  /\ alerts (results st') = alerts (results st) ++ alerts_of st w.
Proof.
  unfold warehouse_step.
  set (wmp0 := {| mp_date := month_key_of i; mp_products := ∅;
                  warehouse_total_before := 0; warehouse_total_after := 0;
                  mp_capacity_utilization := 0 |}).
  destruct (product_loop w products st wmp0 NoDup_products)
    as (Hc & Hf & Hr & Hpos & Ha & Hd & Ht).
  set (r := fold_left (product_step self i w) products (st, wmp0)) in *.
  cbn zeta. cbn [current_inventory monthly_forecasts results].
  assert (Hu : warehouse_total_after r.2 / warehouse_capacities self w * 100
               = utilization_of st w)
    by (unfold utilization_of; by rewrite Ht).
  rewrite Hu.
  split; [done|]. split; [done|]. split; [|split].
  - intros w' p'. rewrite <- Hr. unfold rolling_of.
    rewrite product_data_add_position.
    destruct (Qgtb (utilization_of st w) 90); [|done].
    by rewrite product_data_add_alert.
  - exists {| mp_date := mp_date r.2; mp_products := mp_products r.2;
              warehouse_total_before := warehouse_total_before r.2;
              warehouse_total_after := warehouse_total_after r.2;
              mp_capacity_utilization := py_round_nd (utilization_of st w) 1 |}.
    split; [|intros w'; rewrite positions_of_add_position].
    + split; [|split]; cbn; [exact Hd | exact Ht | done].
    + rewrite <- !Hpos.
      destruct (Qgtb (utilization_of st w) 90);
        by rewrite ?positions_of_add_alert.
  - unfold alerts_of.
    destruct (Qgtb (utilization_of st w) 90);
      cbn [alerts on_warehouse add_alert]; rewrite Ha; [done|].
    by rewrite app_nil_r.
Qed.

(** The effect of the warehouse loop. *)
Lemma warehouse_loop ws st :
  NoDup ws ->
  let st' := fold_left (warehouse_step self i) ws st in
  (forall w' p', current_inventory st' w' p'
                 = if decide (w' ∈ ws /\ p' ∈ products) then after_of st w' p'
                   else current_inventory st w' p')
  /\ monthly_forecasts st' = monthly_forecasts st
  /\ (forall w' p', rolling_of (results st') w' p'
                    = if decide (w' ∈ ws /\ p' ∈ products)
                      then <[month_key_of i := row_of st w' p']>
                             <$> rolling_of (results st) w' p'
                      else rolling_of (results st) w' p')
  /\ (forall w', w' ∉ ws ->
        positions_of (results st') w' = positions_of (results st) w')
  /\ (forall w', w' ∈ ws ->
        exists mp, records_month st w' mp
          /\ positions_of (results st') w'
             = (fun l => l ++ [mp]) <$> positions_of (results st) w')
  /\ alerts (results st') = alerts (results st) ++ flat_map (alerts_of st) ws.
Proof.
  revert st. induction ws as [|w ws IH]; intros st Hnd; cbn [fold_left flat_map].
  - split; [|split; [|split; [|split; [|split]]]].
    + intros w' p'. rewrite decide_False; [done|].
      intros [H _]. by apply elem_of_nil in H.
    + done.
    + intros w' p'. rewrite decide_False; [done|].
      intros [H _]. by apply elem_of_nil in H.
    + done.
    + intros w' H. by apply elem_of_nil in H.
    + by rewrite app_nil_r.
  - apply NoDup_cons in Hnd as [Hw Hnd].
    destruct (warehouse_step_spec w st) as (Hc1 & Hf1 & Hr1 & (mp1 & Hm1 & Hp1) & Ha1).
    set (st1 := warehouse_step self i st w) in *.
    assert (Hsame : forall w', w' ∈ ws -> same_inputs w' products st st1).
    { intros w' Hin q Hq. split; [|by rewrite Hf1]. rewrite Hc1.
      rewrite decide_False; [done|]. intros [-> _]. done. }
    destruct (IH st1 Hnd) as (Hc & Hf & Hr & Hpn & Hpi & Ha).
    split; [|split; [|split; [|split; [|split]]]].
    + intros w' p'. rewrite Hc, Hc1.
      destruct (decide (w' ∈ ws /\ p' ∈ products)) as [[Hin Hp]|Hn].
      * rewrite decide_True by (split; [by right | done]).
        apply (after_of_same w' products); [by apply Hsame | done].
      * destruct (decide (w' = w /\ p' ∈ products)) as [[-> Hp]|Hn'].
        -- rewrite decide_True by (split; [by left | done]). done.
        -- rewrite decide_False; [done|].
           intros [Hin Hp]. apply elem_of_cons in Hin as [->|Hin]; tauto.
    + by rewrite Hf.
    + intros w' p'. rewrite Hr, Hr1.
      destruct (decide (w' ∈ ws /\ p' ∈ products)) as [[Hin Hp]|Hn].
      * rewrite (decide_False (P := w' = w /\ p' ∈ products))
          by (intros [-> _]; done).
        rewrite decide_True by (split; [by right | done]).
        by rewrite (row_of_same w' products st st1 p' (Hsame w' Hin) Hp).
      * destruct (decide (w' = w /\ p' ∈ products)) as [[-> Hp]|Hn'].
        -- rewrite decide_True by (split; [by left | done]). done.
        -- rewrite decide_False; [done|].
           intros [Hin Hp]. apply elem_of_cons in Hin as [->|Hin]; tauto.
    + intros w' Hn. apply not_elem_of_cons in Hn as [Hne Hn].
      rewrite (Hpn w' Hn), Hp1. by rewrite decide_False.
    + intros w' Hin. apply elem_of_cons in Hin as [->|Hin].
      * exists mp1. split; [done|]. rewrite (Hpn w Hw), Hp1. by rewrite decide_True.
      * destruct (Hpi w' Hin) as (mp & Hm & Hp). exists mp. split.
        -- destruct Hm as (Hm1' & Hm2 & Hm3). unfold records_month, utilization_of in *.
           rewrite <- (total_after_of_same w' products st st1 0 (Hsame w' Hin)).
           done.
        -- rewrite Hp, Hp1. rewrite decide_False; [done|]. by intros ->.
    + rewrite Ha, Ha1, <- app_assoc. f_equal. f_equal.
      clear -Hsame. induction ws as [|w' ws IH]; [done|]. simpl.
      rewrite IH by (intros; apply Hsame; by right). f_equal.
      unfold alerts_of, utilization_of.
      by rewrite (total_after_of_same w' products st st1 0 (Hsame w' ltac:(left))).
Qed.


(** *** The prediction phase of the month *)

(** A state that differs from another in forecasts only. *)
Definition same_ledger (st st' : sim_state) : Prop :=
  current_inventory st' = current_inventory st
  /\ (forall w p, rolling_of (results st') w p = rolling_of (results st) w p)
  /\ (forall w, positions_of (results st') w = positions_of (results st) w)
  /\ alerts (results st') = alerts (results st).

Definition predicted (st : sim_state) (w p : string) (ft : flow_type) : Prop :=
  monthly_forecasts st w p ft (month_key_of i) = predict self w p ft i.

Lemma same_ledger_refl st : same_ledger st st.
Proof. by repeat split. Qed.

Lemma same_ledger_trans st1 st2 st3 :
  same_ledger st1 st2 -> same_ledger st2 st3 -> same_ledger st1 st3.
Proof.
  intros (Hc & Hr & Hp & Ha) (Hc' & Hr' & Hp' & Ha').
  split; [by rewrite Hc'|]. split; [intros; by rewrite Hr'|].
  split; [intros; by rewrite Hp'|]. by rewrite Ha'.
Qed.

Lemma flow_step_same w p ft st : same_ledger st (flow_step self i w p st ft).
Proof.
  split; [done|]. split; [|split; [|done]].
  - intros w' p'. unfold rolling_of; simpl.
    rewrite product_data_on_product. case_decide as H; [|done].
    destruct H as [-> ->]. by destruct (product_data (results st) w p).
  - intros w'. simpl. apply positions_of_on_product.
Qed.

Lemma flow_step_predicted w p ft st :
  predicted (flow_step self i w p st ft) w p ft.
Proof. unfold predicted; simpl. unfold upd_forecast. by rewrite decide_True. Qed.

Lemma flow_step_keeps w p ft st w' p' ft' :
  predicted st w' p' ft' -> predicted (flow_step self i w p st ft) w' p' ft'.
Proof.
  unfold predicted; simpl. unfold upd_forecast. intros H.
  case_decide as Heq; [|done]. by destruct Heq as (-> & -> & -> & _).
Qed.

Lemma flows_loop w p st :
  let st' := fold_left (flow_step self i w p) [inflows; outflows] st in
  same_ledger st st'
  /\ (forall w' p' ft', predicted st w' p' ft' -> predicted st' w' p' ft')
  /\ forall ft, predicted st' w p ft.
Proof.
  cbn [fold_left]. split; [|split].
  - eapply same_ledger_trans; apply flow_step_same.
  - intros w' p' ft' H. by do 2 apply flow_step_keeps.
  - intros [|]; [apply flow_step_keeps|]; apply flow_step_predicted.
Qed.

Lemma flows_product_loop w ps st :
  let st' :=
    fold_left
      (fun st p => fold_left (flow_step self i w p) [inflows; outflows] st)
      ps st in
  same_ledger st st'
  /\ (forall w' p' ft', predicted st w' p' ft' -> predicted st' w' p' ft')
  /\ forall p ft, p ∈ ps -> predicted st' w p ft.
Proof.
  revert st. induction ps as [|p ps IH]; intros st; cbn [fold_left].
  - split; [apply same_ledger_refl|]. split; [done|].
    intros p ft H. by apply elem_of_nil in H.
  - destruct (flows_loop w p st) as (Hs1 & Hk1 & He1).
    destruct (IH (fold_left (flow_step self i w p) [inflows; outflows] st))
      as (Hs & Hk & He).
    split; [by eapply same_ledger_trans|]. split; [by auto|].
    intros q ft Hq. apply elem_of_cons in Hq as [->|Hq]; [|by apply He].
    apply Hk, He1.
Qed.

Lemma flows_warehouse_loop ws st :
  let st' :=
    fold_left
      (fun st w =>
         fold_left
           (fun st p => fold_left (flow_step self i w p) [inflows; outflows] st)
           products st)
      ws st in
  same_ledger st st'
  /\ (forall w' p' ft', predicted st w' p' ft' -> predicted st' w' p' ft')
  /\ forall w p ft, w ∈ ws -> p ∈ products -> predicted st' w p ft.
Proof.
  revert st. induction ws as [|w ws IH]; intros st; cbn [fold_left].
  - split; [apply same_ledger_refl|]. split; [done|].
    intros w p ft H. by apply elem_of_nil in H.
  - destruct (flows_product_loop w products st) as (Hs1 & Hk1 & He1).
    destruct (IH (fold_left
                    (fun st p =>
                       fold_left (flow_step self i w p) [inflows; outflows] st)
                    products st))
      as (Hs & Hk & He).
    split; [by eapply same_ledger_trans|]. split; [by auto|].
    intros w' p ft Hw Hp. apply elem_of_cons in Hw as [->|Hw]; [|by apply He].
    by apply Hk, He1.
Qed.

Lemma predict_flows_spec st :
  let st' := predict_flows self i st in
  same_ledger st st'
  /\ forall w p ft, w ∈ warehouses -> p ∈ products -> predicted st' w p ft.
Proof.
  destruct (flows_warehouse_loop warehouses st) as (Hs & _ & He). by split.
Qed.

End PositionUpdate.

(** *** The simulation as a fold over the months *)

Section Simulation.

Variable self : forecaster.

Definition recorded_month (w : string) (t : nat) (mp : monthly_position)
    : Prop :=
  mp_date mp = month_key_of t
  /\ warehouse_total_after mp = total_after_at self w t
  /\ mp_capacity_utilization mp = py_round_nd (utilization_at self w t) 1.

(** The state after [k] months. *)
Record simulated (k : nat) (st : sim_state) : Prop := {
  sim_inventory : forall w p, w ∈ warehouses -> p ∈ products ->
    current_inventory st w p = position_at self w p k;
  sim_ledger : forall w p, w ∈ warehouses -> p ∈ products ->
    exists m, rolling_of (results st) w p = Some m
      /\ forall t, (t < k)%nat -> m !! month_key_of t = Some (ledger_row self w p t);
  sim_positions : forall w, w ∈ warehouses ->
    exists l, positions_of (results st) w = Some l
      /\ length l = k
      /\ forall t, (t < k)%nat ->
           exists mp, l !! t = Some mp /\ recorded_month w t mp;
  sim_alerts : alerts (results st) = flat_map (month_alerts self) (seq 0 k)
}.

Lemma fold_left_ext_in {A B} (f g : A -> B -> A) (l : list B) (a : A) :
  (forall a x, x ∈ l -> f a x = g a x) -> fold_left f l a = fold_left g l a.
Proof.
  revert a. induction l as [|x l IH]; intros a H; [done|]. simpl.
  rewrite H by left. apply IH. intros. apply H. by right.
Qed.

Lemma flat_map_ext_in {A B} (f g : A -> list B) (l : list A) :
  (forall x, x ∈ l -> f x = g x) -> flat_map f l = flat_map g l.
Proof.
  induction l as [|x l IH]; intros H; [done|]. simpl.
  rewrite H by left. f_equal. apply IH. intros. apply H. by right.
Qed.

Lemma month_step_simulated k st :
  simulated k st -> simulated (S k) (month_step self st k).
Proof.
  intros [Hinv Hled Hpos Hal]. unfold month_step, update_positions.
  destruct (predict_flows_spec self k st) as ((Hc1 & Hr1 & Hp1 & Ha1) & Hpred).
  set (st1 := predict_flows self k st) in *.
  destruct (warehouse_loop self k warehouses st1 (NoDup_warehouses))
    as (Hc & Hf & Hr & Hpn & Hpi & Ha).
  set (st2 := fold_left (warehouse_step self k) warehouses st1) in *.
  assert (Hafter : forall w p, w ∈ warehouses -> p ∈ products ->
            after_of k st1 w p = position_at self w p (S k)).
  { intros w p Hw Hp. unfold after_of. rewrite Hc1, (Hinv w p Hw Hp).
    by rewrite !(Hpred w p _ Hw Hp). }
  assert (Hrow : forall w p, w ∈ warehouses -> p ∈ products ->
            row_of self k st1 w p = ledger_row self w p k).
  { intros w p Hw Hp. unfold row_of, ledger_row.
    rewrite (Hafter w p Hw Hp), Hc1, (Hinv w p Hw Hp).
    by rewrite !(Hpred w p _ Hw Hp). }
  assert (Htot : forall w, w ∈ warehouses ->
            total_after_of k st1 w products 0 = total_after_at self w k).
  { intros w Hw. unfold total_after_of, total_after_at.
    apply fold_left_ext_in. intros a p Hp. by rewrite (Hafter w p Hw Hp). }
  split.
  - intros w p Hw Hp. rewrite Hc. by rewrite decide_True, Hafter.
  - intros w p Hw Hp. rewrite Hr, decide_True by done.
    destruct (Hled w p Hw Hp) as (m & Hm & Hlook). rewrite Hr1, Hm. simpl.
    eexists. split; [done|]. intros t Ht.
    destruct (decide (t = k)) as [->|Hne].
    + by rewrite lookup_insert_eq, Hrow.
    + rewrite lookup_insert_ne by (intros H; by apply month_key_of_inj in H).
      apply Hlook. lia.
  - intros w Hw. destruct (Hpi w Hw) as (mp & (Hd & Ht & Hu) & Hp).
    destruct (Hpos w Hw) as (l & Hl & Hlen & Hlook).
    rewrite Hp, Hp1, Hl. simpl. eexists. split; [done|].
    split; [rewrite length_app; simpl; lia|].
    intros t Hlt. destruct (decide (t = k)) as [->|Hne].
    + exists mp. split.
      * rewrite lookup_app_r by lia. by rewrite Hlen, Nat.sub_diag.
      * unfold recorded_month, utilization_at. unfold utilization_of in Hu.
        by rewrite <- (Htot w Hw).
    + destruct (Hlook t ltac:(lia)) as (mp' & Hmp' & Hrec).
      exists mp'. split; [|done]. rewrite lookup_app_l by lia. done.
  - rewrite Ha, Ha1, Hal, seq_S, flat_map_app.
    change (flat_map (month_alerts self) [(0 + k)%nat]) with (month_alerts self k ++ []).
    rewrite app_nil_r. f_equal. unfold month_alerts. apply flat_map_ext_in. intros w Hw.
    unfold alerts_of, alerts_at, utilization_of, utilization_at.
    by rewrite (Htot w Hw).
Qed.

End Simulation.

Section Run.

Variable self : forecaster.

Lemma lookup_fold_insert {V} (g : string -> V) (ws : list string)
    (m : gmap string V) (w : string) :
  fold_left (fun m w => <[w := g w]> m) ws m !! w
  = if decide (w ∈ ws) then Some (g w) else m !! w.
Proof.
  revert m. induction ws as [|x ws IH]; intros m; cbn [fold_left].
  - rewrite decide_False; [done|]. intros H. by apply elem_of_nil in H.
  - rewrite IH. destruct (decide (w ∈ ws)) as [Hin|Hn].
    + rewrite decide_True; [done | by right].
    + destruct (decide (w = x)) as [->|Hne].
      * rewrite decide_True by left. by rewrite lookup_insert_eq.
      * rewrite decide_False by (intros H; apply elem_of_cons in H; tauto).
        by rewrite lookup_insert_ne.
Qed.

Lemma init_simulated h : simulated self 0 (init_state self h).
Proof.
  split.
  - done.
  - intros w p Hw Hp. exists ∅. split; [|intros; lia].
    unfold rolling_of, product_data, init_state, init_results.
    cbn [results res_warehouses].
    rewrite lookup_fold_insert, decide_True by done.
    cbn [mbind option_bind wr_products].
    by rewrite (lookup_fold_insert (fun _ => empty_product_result)), decide_True.
  - intros w Hw. exists []. split; [|split; [done | intros; lia]].
    unfold positions_of, init_state, init_results.
    cbn [results res_warehouses].
    by rewrite lookup_fold_insert, decide_True.
  - done.
Qed.

Lemma months_simulated h k :
  simulated self k (fold_left (month_step self) (seq 0 k) (init_state self h)).
Proof.
  induction k as [|k IH]; [apply init_simulated|].
  rewrite seq_S, fold_left_app. cbn [fold_left].
  by apply month_step_simulated.
Qed.

(** Every row of the generated ledger is the row of the fold. *)
Lemma ledger_spec h w p t :
  w ∈ warehouses -> p ∈ products -> (t < h)%nat ->
  ledger (generate_rolling_forecast self h) w p t = Some (ledger_row self w p t).
Proof.
  intros Hw Hp Ht.
  destruct (sim_ledger self _ _ (months_simulated h h) w p Hw Hp)
    as (m & Hm & Hlook).
  unfold ledger, generate_rolling_forecast.
  unfold rolling_of, product_data in *. cbn [res_warehouses].
  destruct (res_warehouses _ !! w ≫= _) as [pd|]; [|done].
  simpl in *. injection Hm as ->. by apply Hlook.
Qed.





End Run.





(** C2. In the generated ledger of a warehouse and product, the starting
    position recorded for month t+1 is the ending position recorded for
    month t. *)
Theorem ledger_chaining (self : forecaster) (h : nat) (w p : string) (t : nat) :
  w ∈ warehouses -> p ∈ products -> (S t < h)%nat ->
  exists r r',
    ledger (generate_rolling_forecast self h) w p t = Some r
    /\ ledger (generate_rolling_forecast self h) w p (S t) = Some r'
    /\ starting_position r' = ending_position r.
Proof.
  intros Hw Hp Ht.
  exists (ledger_row self w p t), (ledger_row self w p (S t)).
  split; [apply ledger_spec; (done || lia)|].
  split; [by apply ledger_spec|]. done.
Qed.

Lemma ledger_chaining_witness :
  ("Atlanta"%string ∈ warehouses /\ "Footwear"%string ∈ products /\ (1 < 2)%nat)
  /\ exists r r',
    ledger (generate_rolling_forecast example_forecaster 2) "Atlanta" "Footwear" 0 = Some r
    /\ ledger (generate_rolling_forecast example_forecaster 2) "Atlanta" "Footwear" 1 = Some r'
    /\ starting_position r' = ending_position r.
Proof.
  assert (Hw : "Atlanta"%string ∈ warehouses) by (apply (bool_decide_unpack _); by vm_compute).
  assert (Hp : "Footwear"%string ∈ products) by (apply (bool_decide_unpack _); by vm_compute).
  split; [split; [exact Hw | split; [exact Hp | lia]]|].
  apply (ledger_chaining example_forecaster 2 "Atlanta" "Footwear" 0 Hw Hp). lia.
Defined.



(** *** The forecasts in the results and the network summary *)

Lemma forecasts_of_on_product res w p f w' p' ft :
  (forall pd, forecasts_inflows (f pd) = forecasts_inflows pd
              /\ forecasts_outflows (f pd) = forecasts_outflows pd) ->
  forecasts_of (on_product w p f res) w' p' ft = forecasts_of res w' p' ft.
Proof.
  intros Hf. unfold forecasts_of. rewrite product_data_on_product.
  case_decide as H; [|done]. destruct H as [-> ->].
  destruct (product_data res w p) as [pd|]; [|done]. simpl.
  destruct (Hf pd) as [-> ->]. done.
Qed.

Lemma forecasts_of_set_forecast res w p ft k e w' p' ft' :
  forecasts_of (on_product w p (set_forecast ft k e) res) w' p' ft'
  = if decide (w' = w /\ p' = p /\ ft' = ft)
    then <[k := e]> <$> forecasts_of res w p ft
    else forecasts_of res w' p' ft'.
Proof.
  unfold forecasts_of. rewrite product_data_on_product.
  destruct (decide (w' = w /\ p' = p)) as [[-> ->]|Hn].
  - destruct (product_data res w p) as [pd|]; simpl.
    + destruct ft, ft'; simpl;
        (rewrite decide_True by done) || (rewrite decide_False by (by intros (_ & _ & ?)));
        done.
    + by case_decide.
  - rewrite decide_False; [done | tauto].
Qed.

Section ForecastsOfMonth.

Variable self : forecaster.
Variable i : nat.
Variable st0 : sim_state.

(** The forecasts of a series hold the entry of the month on top of what
    they held in [st0], or are what they were. *)
Definition entered (st : sim_state) (w p : string) (ft : flow_type) : Prop :=
  forecasts_of (results st) w p ft
  = <[month_key_of i := forecast_entry_at self w p ft i]>
      <$> forecasts_of (results st0) w p ft.

Definition entered_or_not (st : sim_state) : Prop :=
  forall w p ft,
    entered st w p ft
    \/ forecasts_of (results st) w p ft = forecasts_of (results st0) w p ft.

Lemma flow_step_entered w p ft st :
  entered_or_not st ->
  entered_or_not (flow_step self i w p st ft)
  /\ entered (flow_step self i w p st ft) w p ft
  /\ forall w' p' ft', entered st w' p' ft' ->
                       entered (flow_step self i w p st ft) w' p' ft'.
Proof.
  intros Hinv.
  assert (He : entered (flow_step self i w p st ft) w p ft).
  { unfold entered. cbn [flow_step results].
    rewrite forecasts_of_set_forecast, decide_True by done.
    destruct (Hinv w p ft) as [H|H]; rewrite H; [|done].
    destruct (forecasts_of (results st0) w p ft); [|done]. simpl.
    by rewrite insert_insert_eq. }
  assert (Hk : forall w' p' ft', entered st w' p' ft' ->
                                 entered (flow_step self i w p st ft) w' p' ft').
  { intros w' p' ft' H. destruct (decide (w' = w /\ p' = p /\ ft' = ft))
      as [(-> & -> & ->)|Hn]; [done|].
    unfold entered. cbn [flow_step results].
    by rewrite forecasts_of_set_forecast, decide_False. }
  split; [|by split]. intros w' p' ft'.
  destruct (Hinv w' p' ft') as [H|H]; [left; by apply Hk|].
  destruct (decide (w' = w /\ p' = p /\ ft' = ft)) as [(-> & -> & ->)|Hn];
    [by left|].
  right. cbn [flow_step results]. by rewrite forecasts_of_set_forecast, decide_False.
Qed.

Lemma flows_loop_entered w p st :
  entered_or_not st ->
  let st' := fold_left (flow_step self i w p) [inflows; outflows] st in
  entered_or_not st'
  /\ (forall ft, entered st' w p ft)
  /\ forall w' p' ft', entered st w' p' ft' -> entered st' w' p' ft'.
Proof.
  intros Hinv. cbn [fold_left].
  destruct (flow_step_entered w p inflows st Hinv) as (H1 & E1 & K1).
  destruct (flow_step_entered w p outflows _ H1) as (H2 & E2 & K2).
  split; [done|]. split; [|by auto]. intros [|]; [by apply K2 | done].
Qed.

Lemma flows_product_loop_entered w ps st :
  entered_or_not st ->
  let st' :=
    fold_left
      (fun st p => fold_left (flow_step self i w p) [inflows; outflows] st)
      ps st in
  entered_or_not st'
  /\ (forall p ft, p ∈ ps -> entered st' w p ft)
  /\ forall w' p' ft', entered st w' p' ft' -> entered st' w' p' ft'.
Proof.
  revert st. induction ps as [|p ps IH]; intros st Hinv; cbn [fold_left].
  - split; [done|]. split; [|done]. intros p ft H. by apply elem_of_nil in H.
  - destruct (flows_loop_entered w p st Hinv) as (H1 & E1 & K1).
    destruct (IH _ H1) as (H2 & E2 & K2).
    split; [done|]. split; [|by auto].
    intros q ft Hq. apply elem_of_cons in Hq as [->|Hq]; [|by apply E2].
    by apply K2, E1.
Qed.

Lemma predict_flows_entered st :
  entered_or_not st ->
  forall w p ft, w ∈ warehouses -> p ∈ products ->
    entered (predict_flows self i st) w p ft.
Proof.
  unfold predict_flows. generalize warehouses as ws. intros ws Hinv.
  assert (H : entered_or_not
                (fold_left
                   (fun st w =>
                      fold_left
                        (fun st p =>
                           fold_left (flow_step self i w p) [inflows; outflows] st)
                        products st) ws st)
              /\ (forall w p ft, w ∈ ws -> p ∈ products ->
                    entered (fold_left
                               (fun st w =>
                                  fold_left
                                    (fun st p =>
                                       fold_left (flow_step self i w p)
                                         [inflows; outflows] st)
                                    products st) ws st) w p ft)
              /\ forall w' p' ft', entered st w' p' ft' ->
                    entered (fold_left
                               (fun st w =>
                                  fold_left
                                    (fun st p =>
                                       fold_left (flow_step self i w p)
                                         [inflows; outflows] st)
                                    products st) ws st) w' p' ft').
  { revert st Hinv. induction ws as [|w ws IH]; intros st Hinv; cbn [fold_left].
    - split; [done|]. split; [|done]. intros w p ft H. by apply elem_of_nil in H.
    - destruct (flows_product_loop_entered w products st Hinv) as (H1 & E1 & K1).
      destruct (IH _ H1) as (H2 & E2 & K2).
      split; [done|]. split; [|by auto].
      intros w' p ft Hw Hp. apply elem_of_cons in Hw as [->|Hw]; [|by apply E2].
      by apply K2, E1. }
  destruct H as (_ & H & _). intros w p ft Hw Hp. by apply H.
Qed.

End ForecastsOfMonth.

Lemma fold_left_preserves {S A B} (view : S -> B) (f : S -> A -> S) (l : list A)
    (s : S) :
  (forall s x, view (f s x) = view s) -> view (fold_left f l s) = view s.
Proof.
  intros Hf. revert s. induction l as [|x l IH]; intros s; [done|]. simpl.
  by rewrite IH, Hf.
Qed.

Lemma product_step_forecasts self i w acc p w' p' ft :
  forecasts_of (results (product_step self i w acc p).1) w' p' ft
  = forecasts_of (results acc.1) w' p' ft.
Proof.
  cbn [product_step fst results]. by rewrite !forecasts_of_on_product.
Qed.

Lemma warehouse_step_forecasts self i st w w' p' ft :
  forecasts_of (results (warehouse_step self i st w)) w' p' ft
  = forecasts_of (results st) w' p' ft.
Proof.
  unfold warehouse_step. cbn zeta. cbn [results].
  set (r := fold_left (product_step self i w) products _).
  assert (Hr : forecasts_of (results r.1) w' p' ft = forecasts_of (results st) w' p' ft).
  { unfold r.
    apply (fold_left_preserves
             (fun a : sim_state * monthly_position =>
                forecasts_of (results a.1) w' p' ft)).
    intros a x. apply product_step_forecasts. }
  rewrite <- Hr. unfold forecasts_of. rewrite product_data_add_position.
  destruct (Qgtb _ 90); [|done]. by rewrite product_data_add_alert.
Qed.

Lemma update_positions_forecasts self i st w' p' ft :
  forecasts_of (results (update_positions self i st)) w' p' ft
  = forecasts_of (results st) w' p' ft.
Proof.
  unfold update_positions.
  apply (fold_left_preserves (fun s => forecasts_of (results s) w' p' ft)).
  intros s x. apply warehouse_step_forecasts.
Qed.

(** The forecasts that the results hold after [k] months. *)
Lemma months_forecasts self h k w p ft :
  w ∈ warehouses -> p ∈ products ->
  forecasts_of
    (results (fold_left (month_step self) (seq 0 k) (init_state self h))) w p ft
  = Some (forecast_map self w p ft k).
Proof.
  intros Hw Hp. induction k as [|k IH].
  - unfold forecasts_of, product_data, init_state, init_results.
    cbn [fold_left seq results res_warehouses].
    rewrite lookup_fold_insert, decide_True by done.
    cbn [mbind option_bind wr_products].
    rewrite (lookup_fold_insert (fun _ => empty_product_result)), decide_True by done.
    by destruct ft.
  - rewrite seq_S, fold_left_app. cbn [fold_left].
    set (st := fold_left (month_step self) (seq 0 k) (init_state self h)) in *.
    unfold month_step. rewrite update_positions_forecasts.
    rewrite (predict_flows_entered self k st st); [|by right|done..].
    change (0 + k)%nat with k. by rewrite IH.
Qed.

Lemma forecast_map_lookup self w p ft k t :
  forecast_map self w p ft k !! month_key_of t
  = if decide (t < k)%nat then Some (forecast_entry_at self w p ft t) else None.
Proof.
  induction k as [|k IH]; cbn [forecast_map].
  - rewrite lookup_empty. case_decide; [lia | done].
  - destruct (decide (t = k)) as [->|Hne].
    + rewrite lookup_insert_eq, decide_True by lia. done.
    + rewrite lookup_insert_ne by (intros H; by apply month_key_of_inj in H).
      rewrite IH. repeat case_decide; (done || lia).
Qed.

Lemma sum_forecasts_map self w p ft k (total : Z) :
  sum_forecasts (forecast_map self w p ft k) total
  = fold_left (fun acc t => (acc + py_round (forecast (predict self w p ft t)))%Z)
      (seq 0 k) total.
Proof.
  induction k as [|k IH].
  - unfold sum_forecasts. simpl. by rewrite map_fold_empty.
  - rewrite seq_S, fold_left_app. cbn [fold_left forecast_map]. rewrite <- IH.
    unfold sum_forecasts. rewrite map_fold_insert_L.
    + done.
    + intros. lia.
    + rewrite forecast_map_lookup. by rewrite decide_False by lia.
Qed.

Lemma fold_left_add_from {A} (f : A -> Z) (l : list A) (a : Z) :
  fold_left (fun acc x => (acc + f x)%Z) l a
  = (a + fold_left (fun acc x => (acc + f x)%Z) l 0)%Z.
Proof.
  revert a. induction l as [|x l IH]; intros a; simpl; [lia|].
  rewrite (IH (a + f x)%Z), (IH (0 + f x)%Z). lia.
Qed.

Section SummaryTotals.

Variable self : forecaster.
Variable h : nat.
Variable res : results_t.

(** The results hold the forecasts of the horizon for every series. *)
Definition holds_forecasts (w p : string) : Prop :=
  exists pd, product_data res w p = Some pd
    /\ forecasts_inflows pd = forecast_map self w p inflows h
    /\ forecasts_outflows pd = forecast_map self w p outflows h.

Lemma summary_step_totals w p acc :
  holds_forecasts w p ->
  (summary_step res w acc p).1.1 = (acc.1.1 + series_total self w p inflows h)%Z
  /\ (summary_step res w acc p).1.2 = (acc.1.2 + series_total self w p outflows h)%Z.
Proof.
  intros (pd & Hpd & Hin & Hout). unfold summary_step. rewrite Hpd. cbn [fst snd].
  rewrite Hin, Hout, !sum_forecasts_map. unfold series_total.
  split; apply fold_left_add_from.
Qed.

Lemma summary_products_totals w ps acc :
  (forall p, p ∈ ps -> holds_forecasts w p) ->
  (fold_left (summary_step res w) ps acc).1.1
  = fold_left (fun a p => (a + series_total self w p inflows h)%Z) ps acc.1.1
  /\ (fold_left (summary_step res w) ps acc).1.2
     = fold_left (fun a p => (a + series_total self w p outflows h)%Z) ps acc.1.2.
Proof.
  revert acc. induction ps as [|p ps IH]; intros acc Hps; [done|]. cbn [fold_left].
  destruct (summary_step_totals w p acc (Hps p ltac:(left))) as [<- <-].
  apply IH. intros q Hq. apply Hps. by right.
Qed.

Lemma summary_warehouses_totals ws acc :
  (forall w p, w ∈ ws -> p ∈ products -> holds_forecasts w p) ->
  (fold_left (fun acc w => fold_left (summary_step res w) products acc) ws acc).1.1
  = fold_left
      (fun a w =>
         fold_left (fun a p => (a + series_total self w p inflows h)%Z) products a)
      ws acc.1.1
  /\ (fold_left (fun acc w => fold_left (summary_step res w) products acc) ws acc).1.2
     = fold_left
         (fun a w =>
            fold_left (fun a p => (a + series_total self w p outflows h)%Z) products a)
         ws acc.1.2.
Proof.
  revert acc. induction ws as [|w ws IH]; intros acc Hws; [done|]. cbn [fold_left].
  destruct (summary_products_totals w products acc) as [<- <-].
  { intros p Hp. apply Hws; [by left | done]. }
  apply IH. intros w' p Hw' Hp. apply Hws; [by right | done].
Qed.

End SummaryTotals.

(** The running totals of the network summary over the generated results. *)
Lemma summary_totals self h :
  let res := results (fold_left (month_step self) (seq 0 h) (init_state self h)) in
  let totals :=
    fold_left (fun acc w => fold_left (summary_step res w) products acc)
      warehouses (0, 0, 0)%Z in
  totals.1.1 = network_total self inflows h
  /\ totals.1.2 = network_total self outflows h.
Proof.
  cbn zeta. apply (summary_warehouses_totals self h).
  intros w p Hw Hp.
  pose proof (months_forecasts self h h w p inflows Hw Hp) as Hin.
  pose proof (months_forecasts self h h w p outflows Hw Hp) as Hout.
  unfold forecasts_of in Hin, Hout. unfold holds_forecasts.
  destruct (product_data _ w p) as [pd|]; [|done].
  exists pd. simpl in Hin, Hout. split; [done|]. split; congruence.
Qed.

(** C10. The network summary of a run reports as projected inflow and
    outflow the sums of the rounded, integer forecasts of all series over
    the horizon, and as net position exactly the reported inflow minus the
    reported outflow: rounding an integer changes nothing. *)
Theorem network_net_position_exact (self : forecaster) (h : nat) :
  exists s,
    network_summary (generate_rolling_forecast self h) = Some s
    /\ network_projected_inflow s = network_total self inflows h
    /\ network_projected_outflow s = network_total self outflows h
    /\ network_net_position s
       = (network_projected_inflow s - network_projected_outflow s)%Z.
Proof.
  eexists. split; [done|].
  cbn [_generate_network_summary network_net_position network_projected_inflow
       network_projected_outflow].
  destruct (summary_totals self h) as [Hin Hout]. cbn zeta in Hin, Hout.
  unfold Qminus. rewrite <- inject_Z_opp, <- inject_Z_plus.
  rewrite !py_round_inject_Z. rewrite Hin, Hout. done.
Qed.

End RollingForecastFacts.

(** ** The transfer optimiser *)

Module TransferFacts.

Import CapacityOptimizer PyNumFacts Examples.

Lemma insert_desc_elem {A} (key : A -> Q) (x y : A) (l : list A) :
  y ∈ insert_desc key x l <-> y = x \/ y ∈ l.
Proof.
  induction l as [|z l IH]; simpl.
  - rewrite list_elem_of_singleton, elem_of_nil. tauto.
  - destruct (Qgtb (key x) (key z)).
    + by rewrite elem_of_cons.
    + rewrite !elem_of_cons, IH. tauto.
Qed.

Lemma sorted_desc_elem {A} (key : A -> Q) (y : A) (l : list A) :
  y ∈ sorted_desc key l <-> y ∈ l.
Proof.
  unfold sorted_desc.
  assert (H : forall acc, y ∈ fold_left (fun acc x => insert_desc key x acc) l acc
                          <-> y ∈ acc \/ y ∈ l).
  { induction l as [|x l IH]; intros acc; simpl.
    - rewrite elem_of_nil. tauto.
    - rewrite IH, insert_desc_elem, elem_of_cons. tauto. }
  rewrite H, elem_of_nil. tauto.
Qed.

(** What the loops know of a recommendation that they append. *)
Definition emitted_by (rules : business_rules_t) (ca : capacity_analysis_t)
    (t : transfer) : Prop :=
  exists source_data dest_data,
    dict_get (source_warehouse t) ca = Some source_data
    /\ dict_get (destination_warehouse t) ca = Some dest_data
    /\ source_warehouse t <> destination_warehouse t
    /\ t = _calculate_optimal_transfer rules (source_warehouse t) source_data
             (destination_warehouse t) dest_data
    /\ (0 < recommended_transfer t)%Z.

Lemma dest_loop rules ca s sd lows acc t :
  dict_get s ca = Some sd ->
  (forall u, u ∈ acc -> emitted_by rules ca u) ->
  t ∈ fold_left (dest_step rules ca s sd) lows acc -> emitted_by rules ca t.
Proof.
  intros Hs. revert acc. induction lows as [|d lows IH]; intros acc Hacc; simpl.
  - apply Hacc.
  - apply IH. intros u. unfold dest_step.
    destruct (dict_get d ca) as [dd|] eqn:Hd; [|apply Hacc].
    destruct (decide (s = d)) as [|Hne]; [apply Hacc|].
    destruct (0 <? _)%Z eqn:Hpos; [|apply Hacc].
    rewrite elem_of_app, list_elem_of_singleton. intros [Hu| ->]; [by apply Hacc|].
    exists sd, dd. repeat split; try done. by apply Z.ltb_lt.
Qed.

Lemma source_loop rules ca lows highs acc t :
  (forall u, u ∈ acc -> emitted_by rules ca u) ->
  t ∈ fold_left (source_step rules ca lows) highs acc -> emitted_by rules ca t.
Proof.
  revert acc. induction highs as [|s highs IH]; intros acc Hacc; simpl.
  - apply Hacc.
  - apply IH. intros u. unfold source_step.
    destruct (dict_get s ca) as [sd|] eqn:Hs; [|apply Hacc].
    by apply dest_loop.
Qed.

Lemma identify_emitted rules ca t :
  t ∈ identify_transfer_opportunities rules ca -> emitted_by rules ca t.
Proof.
  unfold identify_transfer_opportunities. rewrite sorted_desc_elem.
  apply source_loop. intros u H. by apply elem_of_nil in H.
Qed.

(** The bounds of a recommended amount that is not zero. *)
Lemma recommended_amount_bounds rules sd dd :
  let r := recommended_amount rules sd dd in
  0 < r ->
  minimum_transfer_size rules <= r
  /\ r <= current_inventory (warehouse_info sd) * max_transfer_percentage rules
  /\ r <= max_capacity (warehouse_info dd) - current_inventory (warehouse_info dd)
  /\ r <= source_excess rules sd
  /\ r <= dest_deficit rules dd
  /\ r <= source_excess rules sd * 0.7.
Proof.
  unfold recommended_amount, py_min4.
  set (a := current_inventory (warehouse_info sd) * max_transfer_percentage rules).
  set (b := max_capacity (warehouse_info dd) - current_inventory (warehouse_info dd)).
  set (c := source_excess rules sd). set (d := dest_deficit rules dd).
  set (m := Qmin (Qmin (Qmin (Qmin a b) c) d) (c * 0.7)).
  destruct (Qltb (Qmax 0 m) (minimum_transfer_size rules)) eqn:Hlt; cbn zeta.
  { intros H. by apply Qlt_irrefl in H. }
  intros Hpos. apply Qltb_false in Hlt.
  assert (Hm : Qmax 0 m == m).
  { apply Q.max_r. apply Q.max_lt_iff in Hpos as [H|H]; [by apply Qlt_irrefl in H|].
    by apply Qlt_le_weak. }
  rewrite Hm in *.
  pose proof (Q.le_min_l (Qmin (Qmin (Qmin a b) c) d) (c * 0.7)) as H1.
  pose proof (Q.le_min_r (Qmin (Qmin (Qmin a b) c) d) (c * 0.7)) as H2.
  pose proof (Q.le_min_l (Qmin (Qmin a b) c) d) as H3.
  pose proof (Q.le_min_r (Qmin (Qmin a b) c) d) as H4.
  pose proof (Q.le_min_l (Qmin a b) c) as H5.
  pose proof (Q.le_min_r (Qmin a b) c) as H6.
  pose proof (Q.le_min_l a b) as H7.
  pose proof (Q.le_min_r a b) as H8.
  fold m in H1, H2. repeat split; lra.
Qed.

Lemma example_transfers :
  identify_transfer_opportunities (rules_of 5000) example_analysis = [example_transfer].
Proof. by vm_compute. Qed.




Lemma div_pct_le (a c u : Q) : 0 < c -> a <= u / 100 * c -> a / c * 100 <= u.
Proof.
  intros Hc H.
  assert (Hd : a / c <= u / 100) by (by apply Qle_shift_div_r).
  assert (Hy : u / 100 * 100 == u) by field.
  set (x := a / c) in *. set (y := u / 100) in *. clearbody x y. lra.
Qed.

Lemma source_stays_above_target rules sd dd :
  consistent sd -> 0 < recommended_amount rules sd dd ->
  target_util rules <= new_source_util rules sd dd.
Proof.
  intros [Hc Hu] Hpos.
  destruct (recommended_amount_bounds rules sd dd Hpos) as (_ & _ & _ & Hex & _).
  unfold new_source_util, source_excess in *.
  set (r := recommended_amount rules sd dd) in *.
  set (inv := current_inventory (warehouse_info sd)) in *.
  set (cap := max_capacity (warehouse_info sd)) in *.
  set (u := final_utilization (utilization_metrics sd)) in *.
  apply div_pct_le in Hex; [|done].
  assert (Hsplit : (inv - r) / cap * 100 == inv / cap * 100 - r / cap * 100)
    by (unfold Qdiv; ring).
  rewrite Hsplit. lra.
Qed.

Lemma dest_stays_below_target rules sd dd :
  consistent dd -> 0 < recommended_amount rules sd dd ->
  new_dest_util rules sd dd <= target_util rules.
Proof.
  intros [Hc Hu] Hpos.
  destruct (recommended_amount_bounds rules sd dd Hpos) as (_ & _ & _ & _ & Hde & _).
  unfold new_dest_util, dest_deficit in *.
  set (r := recommended_amount rules sd dd) in *.
  set (inv := current_inventory (warehouse_info dd)) in *.
  set (cap := max_capacity (warehouse_info dd)) in *.
  set (u := final_utilization (utilization_metrics dd)) in *.
  apply div_pct_le in Hde; [|done].
  assert (Hsplit : (inv + r) / cap * 100 == inv / cap * 100 + r / cap * 100)
    by (unfold Qdiv; ring).
  rewrite Hsplit. lra.
Qed.

(** C9, as the code has it. For every emitted recommendation the unrounded
    recommended amount exceeds neither the source's excess over the target
    nor the destination's deficit below it, and the projected utilizations
    of the record are the roundings to one decimal of the unrounded ones.
    Where the final utilization of a warehouse is its inventory over its
    positive capacity, the unrounded projected utilization of the source
    stays at or above the target and that of the destination at or below
    it, and so do the recorded ones against the rounded target. *)
Theorem transfer_within_target_band (rules : business_rules_t)
    (ca : capacity_analysis_t) (t : transfer) :
  t ∈ identify_transfer_opportunities rules ca ->
  exists source_data dest_data,
    dict_get (source_warehouse t) ca = Some source_data
    /\ dict_get (destination_warehouse t) ca = Some dest_data
    /\ let r := recommended_amount rules source_data dest_data in
       r <= source_excess rules source_data
       /\ r <= dest_deficit rules dest_data
       /\ ps_source_utilization (projected_state t)
          = py_round_nd (new_source_util rules source_data dest_data) 1
       /\ ps_dest_utilization (projected_state t)
          = py_round_nd (new_dest_util rules source_data dest_data) 1
       /\ (consistent source_data ->
           target_util rules <= new_source_util rules source_data dest_data
           /\ py_round_nd (target_util rules) 1
              <= ps_source_utilization (projected_state t))
       /\ (consistent dest_data ->
           new_dest_util rules source_data dest_data <= target_util rules
           /\ ps_dest_utilization (projected_state t)
              <= py_round_nd (target_util rules) 1).
Proof.
  intros Ht. destruct (identify_emitted rules ca t Ht)
    as (sd & dd & Hs & Hd & Hne & Heq & Hpos).
  exists sd, dd. split; [done|]. split; [done|]. cbn zeta.
  assert (Hq : recommended_transfer t = py_round (recommended_amount rules sd dd))
    by (by rewrite Heq).
  assert (Hps : ps_source_utilization (projected_state t)
                = py_round_nd (new_source_util rules sd dd) 1) by (by rewrite Heq).
  assert (Hpd : ps_dest_utilization (projected_state t)
                = py_round_nd (new_dest_util rules sd dd) 1) by (by rewrite Heq).
  rewrite Hq in Hpos. apply py_round_pos_inv in Hpos.
  destruct (recommended_amount_bounds rules sd dd Hpos) as (_ & _ & _ & Hex & Hde & _).
  split; [done|]. split; [done|]. split; [done|]. split; [done|]. split.
  - intros Hc. pose proof (source_stays_above_target rules sd dd Hc Hpos) as H.
    split; [done|]. rewrite Hps. by apply py_round_nd_mono.
  - intros Hc. pose proof (dest_stays_below_target rules sd dd Hc Hpos) as H.
    split; [done|]. rewrite Hpd. by apply py_round_nd_mono.
Qed.

Lemma transfer_within_target_band_witness :
  example_transfer ∈ identify_transfer_opportunities (rules_of 5000) example_analysis
  /\ exists source_data dest_data,
    dict_get (source_warehouse example_transfer) example_analysis = Some source_data
    /\ dict_get (destination_warehouse example_transfer) example_analysis
       = Some dest_data
    /\ let r := recommended_amount (rules_of 5000) source_data dest_data in
       r <= source_excess (rules_of 5000) source_data
       /\ r <= dest_deficit (rules_of 5000) dest_data
       /\ ps_source_utilization (projected_state example_transfer)
          = py_round_nd (new_source_util (rules_of 5000) source_data dest_data) 1
       /\ ps_dest_utilization (projected_state example_transfer)
          = py_round_nd (new_dest_util (rules_of 5000) source_data dest_data) 1
       /\ (consistent source_data ->
           target_util (rules_of 5000)
           <= new_source_util (rules_of 5000) source_data dest_data
           /\ py_round_nd (target_util (rules_of 5000)) 1
              <= ps_source_utilization (projected_state example_transfer))
       /\ (consistent dest_data ->
           new_dest_util (rules_of 5000) source_data dest_data
           <= target_util (rules_of 5000)
           /\ ps_dest_utilization (projected_state example_transfer)
              <= py_round_nd (target_util (rules_of 5000)) 1).
Proof.
  assert (H : example_transfer
              ∈ identify_transfer_opportunities (rules_of 5000) example_analysis)
    by (rewrite example_transfers; left).
  split; [exact H|].
  exact (transfer_within_target_band (rules_of 5000) example_analysis
           example_transfer H).
Defined.

(** C9 fails as stated. A destination of 200 units records an inventory of
    61 and a utilization of 30.3, the roundings of 60.6 units; the optimiser
    sends it the deficit below the target of 80%, 99.4 units, and projects a
    utilization of 80.2%. *)
Lemma transfer_within_target_band_counterexample :
  exists t source_data dest_data,
    t ∈ identify_transfer_opportunities (rules_of 50) rounded_analysis
    /\ dict_get (source_warehouse t) rounded_analysis = Some source_data
    /\ dict_get (destination_warehouse t) rounded_analysis = Some dest_data
    /\ target_util (rules_of 50) < ps_dest_utilization (projected_state t)
    /\ target_util (rules_of 50) < new_dest_util (rules_of 50) source_data dest_data.
Proof.
  eexists _, _, _. split; [vm_compute; left|].
  split; [by vm_compute|]. split; [by vm_compute|]. split; by vm_compute.
Qed.




End TransferFacts.

(** ** The impact summary *)

Module ScenarioFacts.

Import CapacityOptimizer PyNumFacts Heap ScenarioSimulator Examples.

Lemma dict_set_fresh {V} (k : string) (v : V) (d : list (string * V)) :
  k ∉ map fst d -> dict_set k v d = d ++ [(k, v)].
Proof.
  induction d as [|[k' v'] d IH]; intros Hk; simpl; [done|].
  simpl in Hk. apply not_elem_of_cons in Hk as [Hne Hk].
  rewrite decide_False by done. by rewrite IH.
Qed.

Lemma py_sum_snoc (l : list Q) (x : Q) : py_sum (l ++ [x]) == py_sum l + x.
Proof. unfold py_sum. rewrite fold_left_app. simpl. lra. Qed.

Lemma impact_loop scen base changes0 total0 changes total :
  NoDup (map fst base) ->
  (forall k, k ∈ map fst base -> k ∉ map fst changes0) ->
  fold_left (impact_step scen) base (Some (changes0, total0)) = Some (changes, total) ->
  exists entries,
    changes = changes0 ++ entries
    /\ Forall2 (records_change scen) base entries
    /\ total == total0 + py_sum (map absolute_change entries).
Proof.
  revert changes0 total0.
  induction base as [|[w bd] base IH]; intros changes0 total0 Hnd Hfresh; simpl.
  - intros [= <- <-]. exists []. split; [by rewrite app_nil_r|].
    split; [constructor|]. unfold py_sum; simpl. lra.
  - simpl in Hnd. apply NoDup_cons in Hnd as [Hw Hnd].
    destruct (dict_get w scen) as [sd|] eqn:Hsd.
    + rewrite dict_set_fresh by (apply Hfresh; left).
      intros Hfold. apply IH in Hfold as (entries & -> & Hall & Htot); [|done|].
      * eexists (_ :: entries). split; [by rewrite <- app_assoc|].
        split.
        -- constructor; [|done]. split; [done|]. split; [done|].
           split; [|done]. exists sd. by split.
        -- rewrite Htot. cbn [map]. unfold py_sum at 2. cbn [fold_left].
           rewrite py_sum_from. unfold absolute_change at 2. simpl. lra.
      * intros k Hk. rewrite map_app. simpl. rewrite elem_of_app.
        intros [Hin|Hin].
        -- eapply Hfresh; [|done]. by right.
        -- apply list_elem_of_singleton in Hin as ->. done.
    + intros Hfold. exfalso. clear -Hfold.
      induction base as [|x base IH]; simpl in Hfold; [done|]. by apply IH.
Qed.

(** C8, as the code has it. The cost figures of the impact summary are the
    totals of the transfer cost, the storage savings and the net benefit
    over the transfers it is given, which are the scenario's; the
    baseline's transfers do not enter. For every warehouse of the baseline
    the summary records the baseline and the scenario utilization and
    their difference, scenario minus baseline, rounded to one decimal; the
    aggregate is the sum of the absolute unrounded differences. *)
Theorem scenario_impact_figures (base_analysis scenario_analysis : capacity_analysis_t)
    (transfers : list transfer) (imp : impact_summary_t) :
  NoDup (map fst base_analysis) ->
  calculate_scenario_impact base_analysis scenario_analysis transfers = Some imp ->
  transfer_costs (cost_impact imp)
  = py_sum (map (fun t => estimated_transfer_cost (cost_analysis t)) transfers)
  /\ storage_savings (cost_impact imp)
     = py_sum (map (fun t => estimated_storage_savings (cost_analysis t)) transfers)
  /\ net_impact (cost_impact imp)
     = py_sum (map (fun t => net_benefit (cost_analysis t)) transfers)
  /\ Forall2 (records_change scenario_analysis) base_analysis (utilization_changes imp)
  /\ total_utilization_improvement imp
     == py_sum (map absolute_change (utilization_changes imp)).
Proof.
  intros Hnd. unfold calculate_scenario_impact.
  destruct (fold_left _ _ _) as [[changes total]|] eqn:Hfold; [|done].
  simpl. intros [= <-]. simpl.
  apply impact_loop in Hfold as (entries & -> & Hall & Htot); [|done|].
  - repeat split; try done. rewrite Htot. simpl. lra.
  - intros k _ H. simpl in H. by apply elem_of_nil in H.
Qed.

(** The summary exists when the scenario analysis has every warehouse of
    the baseline. *)
Lemma scenario_impact_total base scen transfers :
  (forall item, item ∈ base -> is_Some (dict_get item.1 scen)) ->
  is_Some (calculate_scenario_impact base scen transfers).
Proof.
  intros Hkeys. unfold calculate_scenario_impact.
  assert (H : forall acc, is_Some acc -> is_Some (fold_left (impact_step scen) base acc)).
  { induction base as [|item base IH]; intros acc Hacc; [done|]. simpl.
    apply IH; [intros; apply Hkeys; by right|].
    destruct Hacc as [[changes total] ->]. simpl.
    destruct (Hkeys item ltac:(left)) as [sd ->]. done. }
  destruct (H (Some ([], 0)) ltac:(done)) as [[changes total] ->]. done.
Qed.

Lemma scenario_impact_figures_witness :
  NoDup (map fst example_analysis)
  /\ exists imp,
       calculate_scenario_impact example_analysis example_analysis [example_transfer]
       = Some imp
       /\ transfer_costs (cost_impact imp)
          = py_sum (map (fun t => estimated_transfer_cost (cost_analysis t))
                      [example_transfer])
       /\ storage_savings (cost_impact imp)
          = py_sum (map (fun t => estimated_storage_savings (cost_analysis t))
                      [example_transfer])
       /\ net_impact (cost_impact imp)
          = py_sum (map (fun t => net_benefit (cost_analysis t)) [example_transfer])
       /\ Forall2 (records_change example_analysis) example_analysis
            (utilization_changes imp)
       /\ total_utilization_improvement imp
          == py_sum (map absolute_change (utilization_changes imp)).
Proof.
  assert (Hnd : NoDup (map fst example_analysis))
    by (apply (bool_decide_unpack _); by vm_compute).
  split; [exact Hnd|].
  destruct (calculate_scenario_impact example_analysis example_analysis
              [example_transfer]) as [imp|] eqn:Himp.
  - exists imp. split; [reflexivity|].
    exact (scenario_impact_figures example_analysis example_analysis
             [example_transfer] imp Hnd Himp).
  - exfalso. vm_compute in Himp. discriminate Himp.
Defined.

(** C8 fails as stated. For a scenario that changes nothing, the scenario's
    transfer set is the baseline's, so every cost delta is zero; the summary
    reports the cost of the scenario's transfers, 1050.00, their storage
    savings and their net benefit. *)
Lemma scenario_impact_figures_counterexample :
  exists imp,
    calculate_scenario_impact example_analysis example_analysis
      (identify_transfer_opportunities (rules_of 5000) example_analysis)
    = Some imp
    /\ ~ transfer_costs (cost_impact imp)
         == spec_cost_delta estimated_transfer_cost
              (identify_transfer_opportunities (rules_of 5000) example_analysis)
              (identify_transfer_opportunities (rules_of 5000) example_analysis)
    /\ ~ storage_savings (cost_impact imp)
         == spec_cost_delta estimated_storage_savings
              (identify_transfer_opportunities (rules_of 5000) example_analysis)
              (identify_transfer_opportunities (rules_of 5000) example_analysis)
    /\ ~ net_impact (cost_impact imp)
         == spec_cost_delta net_benefit
              (identify_transfer_opportunities (rules_of 5000) example_analysis)
              (identify_transfer_opportunities (rules_of 5000) example_analysis).
Proof.
  eexists. split; [by vm_compute|].
  split; [|split]; intros H; by vm_compute in H.
Qed.

End ScenarioFacts.

(** ** Scenarios and the baseline *)

Module BaselineFacts.

Import CapacityOptimizer PyNumFacts Heap ScenarioSimulator Examples.

(** *** The scenario simulator leaves the baseline alone *)

Section Frame.

Variable h0 : heap.

(** A heap that agrees with the initial one on every object of the initial
    one, and a record allocated since, with its three written dictionaries. *)
Definition extends (h : heap) : Prop :=
  forall l, l ∈ dom h0 -> h !! l = h0 !! l.

Definition fresh_data (h : heap) (l : loc) : Prop :=
  (l ∉ dom h0)
  /\ exists i m t r tl,
       h !! l = Some (OData i m t r tl)
       /\ (i ∉ dom h0) /\ (m ∉ dom h0) /\ (t ∉ dom h0).

(** A step that keeps both. *)
Definition keeps (h h' : heap) : Prop :=
  extends h' /\ forall l, fresh_data h l -> fresh_data h' l.

Lemma keeps_refl h : extends h -> keeps h h.
Proof. by split. Qed.

Lemma keeps_trans h1 h2 h3 : keeps h1 h2 -> keeps h2 h3 -> keeps h1 h3.
Proof. intros [_ H12] [He H23]. split; [done|]. auto. Qed.

Lemma bind_inv {A B} (m : M A) (f : A -> M B) h b h2 :
  (m ≫= f) h = Some (b, h2) ->
  exists a h1, m h = Some (a, h1) /\ f a h1 = Some (b, h2).
Proof.
  unfold mbind, M_bind. destruct (m h) as [[a h1]|]; [|done]. intros H. by exists a, h1.
Qed.

Lemma extends_dom h l : extends h -> l ∈ dom h0 -> l ∈ dom h.
Proof.
  intros He Hl. apply elem_of_dom. rewrite (He l Hl). by apply elem_of_dom.
Qed.

Lemma alloc_keeps o h l h' :
  extends h -> alloc o h = Some (l, h') ->
  keeps h h' /\ (l ∉ dom h0) /\ h' !! l = Some o.
Proof.
  intros He [= <- <-].
  assert (Hfresh : fresh (dom h) ∉ dom h) by apply is_fresh.
  assert (Hl0 : fresh (dom h) ∉ dom h0)
    by (intros H; by apply Hfresh, extends_dom).
  split; [split|split; [done | by rewrite lookup_insert_eq]].
  - intros l Hl. rewrite lookup_insert_ne; [by apply He|]. by intros <-.
  - intros l (Hl & i & m & t & r & tl & Hlook & Hi).
    split; [done|]. exists i, m, t, r, tl. split; [|done].
    rewrite lookup_insert_ne; [done|]. intros <-.
    apply Hfresh, elem_of_dom. by rewrite Hlook.
Qed.

(** A write of a nested dictionary of a fresh record. *)
Lemma store_nested_keeps h l o o' :
  extends h -> l ∉ dom h0 -> h !! l = Some o' ->
  (forall i m t r tl, o' <> OData i m t r tl) ->
  keeps h (<[l := o]> h).
Proof.
  intros He Hl Hlook Hshape. split.
  - intros l' Hl'. rewrite lookup_insert_ne; [by apply He|]. by intros <-.
  - intros l' (Hl' & i & m & t & r & tl & Hlook' & Hi).
    split; [done|]. exists i, m, t, r, tl. split; [|done].
    rewrite lookup_insert_ne; [done|]. intros <-.
    rewrite Hlook in Hlook'. injection Hlook' as ->. by eapply Hshape.
Qed.

Lemma load_data_inv l h d h' :
  load_data l h = Some (d, h') ->
  h' = h /\ h !! l = Some (OData (r_info d) (r_metrics d) (r_trend d) (r_risk d)
                             (r_timeline d)).
Proof.
  unfold load_data. destruct (h !! l) as [[]|]; try done. by intros [= <- <-].
Qed.

Lemma fresh_data_refs h l d :
  fresh_data h l -> load_data l h = Some (d, h) ->
  (r_info d ∉ dom h0) /\ (r_metrics d ∉ dom h0) /\ (r_trend d ∉ dom h0).
Proof.
  intros (_ & i & m & t & r & tl & Hlook & Hi) Hd.
  apply load_data_inv in Hd as [_ Hd]. rewrite Hlook in Hd. by injection Hd as -> -> -> -> ->.
Qed.

Lemma modify_info_keeps data f h u h' :
  extends h -> fresh_data h data ->
  modify_info data f h = Some (u, h') -> keeps h h'.
Proof.
  intros He Hf H. unfold modify_info in H.
  apply bind_inv in H as (d & h1 & Hd & H).
  pose proof Hd as Hd'. apply load_data_inv in Hd' as [-> _].
  apply bind_inv in H as (v & h2 & Hv & H).
  destruct (fresh_data_refs h data d Hf Hd) as (Hi & _).
  unfold load_info in Hv. destruct (h !! r_info d) as [[]|] eqn:Hlook; try done.
  injection Hv as <- <-. injection H as <- <-.
  by eapply store_nested_keeps.
Qed.

Lemma modify_metrics_keeps data f h u h' :
  extends h -> fresh_data h data ->
  modify_metrics data f h = Some (u, h') -> keeps h h'.
Proof.
  intros He Hf H. unfold modify_metrics in H.
  apply bind_inv in H as (d & h1 & Hd & H).
  pose proof Hd as Hd'. apply load_data_inv in Hd' as [-> _].
  apply bind_inv in H as (v & h2 & Hv & H).
  destruct (fresh_data_refs h data d Hf Hd) as (_ & Hm & _).
  unfold load_metrics in Hv. destruct (h !! r_metrics d) as [[]|] eqn:Hlook; try done.
  injection Hv as <- <-. injection H as <- <-.
  by eapply store_nested_keeps.
Qed.

Lemma modify_trend_keeps data f h u h' :
  extends h -> fresh_data h data ->
  modify_trend data f h = Some (u, h') -> keeps h h'.
Proof.
  intros He Hf H. unfold modify_trend in H.
  apply bind_inv in H as (d & h1 & Hd & H).
  pose proof Hd as Hd'. apply load_data_inv in Hd' as [-> _].
  apply bind_inv in H as (v & h2 & Hv & H).
  destruct (fresh_data_refs h data d Hf Hd) as (_ & _ & Ht).
  unfold load_trend in Hv. destruct (h !! r_trend d) as [[]|] eqn:Hlook; try done.
  injection Hv as <- <-. injection H as <- <-.
  by eapply store_nested_keeps.
Qed.

Lemma get_info_inv data h v h' : get_info data h = Some (v, h') -> h' = h.
Proof.
  unfold get_info. intros H. apply bind_inv in H as (d & h1 & Hd & H).
  apply load_data_inv in Hd as [-> _].
  unfold load_info in H. destruct (h !! r_info d) as [[]|]; try done. by injection H.
Qed.

Lemma get_metrics_inv data h v h' : get_metrics data h = Some (v, h') -> h' = h.
Proof.
  unfold get_metrics. intros H. apply bind_inv in H as (d & h1 & Hd & H).
  apply load_data_inv in Hd as [-> _].
  unfold load_metrics in H. destruct (h !! r_metrics d) as [[]|]; try done.
  by injection H.
Qed.

Lemma set_risk_keeps data risk h u h' :
  extends h -> fresh_data h data ->
  set_risk data risk h = Some (u, h') -> keeps h h'.
Proof.
  intros He Hf H. unfold set_risk in H.
  apply bind_inv in H as (d & h1 & Hd & H).
  pose proof Hd as Hd'. apply load_data_inv in Hd' as [-> Hlook].
  apply bind_inv in H as (l & h2 & Hl & H).
  destruct (fresh_data_refs h data d Hf Hd) as (Hi & Hm & Ht).
  destruct (alloc_keeps _ _ _ _ He Hl) as ([He2 Hk2] & Hl0 & _).
  injection H as <- <-. split.
  - intros l' Hl'. rewrite lookup_insert_ne; [by apply He2|].
    intros <-. by destruct Hf.
  - intros l' Hf'. apply Hk2 in Hf'.
    destruct Hf' as (Hl' & i & m & t & r & tl & Hlook' & Hi').
    split; [done|]. destruct (decide (l' = data)) as [->|Hne].
    + rewrite lookup_insert_eq. by eexists _, _, _, _, _.
    + rewrite lookup_insert_ne by done. by exists i, m, t, r, tl.
Qed.


Lemma recalculate_keeps data h u h' :
  extends h -> fresh_data h data ->
  recalculate_available_capacity data h = Some (u, h') -> keeps h h'.
Proof.
  intros He Hf H. unfold recalculate_available_capacity in H.
  apply bind_inv in H as (v1 & h1 & Hg1 & H). apply get_info_inv in Hg1 as ->.
  apply bind_inv in H as (u1 & h2 & Hm1 & H).
  apply modify_info_keeps in Hm1 as K1; [|done..].
  apply bind_inv in H as (v2 & h3 & Hg2 & H). apply get_info_inv in Hg2 as ->.
  apply modify_info_keeps in H as K2; [|apply K1 | by apply K1].
  by eapply keeps_trans.
Qed.

Lemma apply_warehouse_changes_keeps data changes h u h' :
  extends h -> fresh_data h data ->
  apply_warehouse_changes data changes h = Some (u, h') -> keeps h h'.
Proof.
  intros He Hf H. unfold apply_warehouse_changes in H.
  apply bind_inv in H as (u1 & h1 & H1 & H).
  assert (K1 : keeps h h1).
  { destruct (target_utilization changes) as [target|].
    - apply bind_inv in H1 as (v & hg & Hg & H1). apply get_info_inv in Hg as ->.
      apply bind_inv in H1 as (u2 & h2 & Hm & H1).
      apply modify_info_keeps in Hm as K; [|done..].
      apply modify_metrics_keeps in H1 as K'; [|apply K | by apply K].
      by eapply keeps_trans.
    - injection H1 as <- <-. by apply keeps_refl. }
  apply bind_inv in H as (u2 & h2 & H2 & H).
  assert (K2 : keeps h1 h2).
  { destruct (wc_trend_direction changes) as [direction|].
    - apply modify_trend_keeps in H2; [done | apply K1 | by apply K1].
    - injection H2 as <- <-. apply keeps_refl, K1. }
  pose proof (keeps_trans _ _ _ K1 K2) as K12.
  apply bind_inv in H as (vm & h3 & Hg & H). apply get_metrics_inv in Hg as ->.
  apply bind_inv in H as (u3 & h4 & H3 & H).
  apply set_risk_keeps in H3 as K3; [|apply K12 | by apply K12].
  pose proof (keeps_trans _ _ _ K12 K3) as K123.
  apply recalculate_keeps in H as K4; [|apply K123 | by apply K123].
  by eapply keeps_trans.
Qed.

Lemma deep_copy_dict_keeps data h l h' :
  extends h -> deep_copy_dict data h = Some (l, h') ->
  keeps h h' /\ fresh_data h' l.
Proof.
  intros He H. unfold deep_copy_dict in H.
  apply bind_inv in H as (d & h1 & Hd & H). apply load_data_inv in Hd as [-> _].
  apply bind_inv in H as (vi & h1 & Hl & H).
  unfold load_info in Hl. destruct (h !! r_info d) as [[]|]; try done.
  injection Hl as <- <-.
  apply bind_inv in H as (vm & h1 & Hl & H).
  unfold load_metrics in Hl. destruct (h !! r_metrics d) as [[]|]; try done.
  injection Hl as <- <-.
  apply bind_inv in H as (vt & h1 & Hl & H).
  unfold load_trend in Hl. destruct (h !! r_trend d) as [[]|]; try done.
  injection Hl as <- <-.
  apply bind_inv in H as (vr & h1 & Hl & H).
  unfold load_risk in Hl. destruct (h !! r_risk d) as [[]|]; try done.
  injection Hl as <- <-.
  apply bind_inv in H as (vl & h1 & Hl & H).
  unfold load_timeline in Hl. destruct (h !! r_timeline d) as [[]|]; try done.
  injection Hl as <- <-.
  apply bind_inv in H as (i & h1 & Ha1 & H).
  destruct (alloc_keeps _ _ _ _ He Ha1) as (K1 & Hi & _).
  apply bind_inv in H as (m & h2 & Ha2 & H).
  destruct (alloc_keeps _ _ _ _ (proj1 K1) Ha2) as (K2 & Hm & _).
  apply bind_inv in H as (t & h3 & Ha3 & H).
  destruct (alloc_keeps _ _ _ _ (proj1 K2) Ha3) as (K3 & Ht & _).
  apply bind_inv in H as (r & h4 & Ha4 & H).
  destruct (alloc_keeps _ _ _ _ (proj1 K3) Ha4) as (K4 & Hr & _).
  apply bind_inv in H as (tl & h5 & Ha5 & H).
  destruct (alloc_keeps _ _ _ _ (proj1 K4) Ha5) as (K5 & Htl & _).
  destruct (alloc_keeps _ _ _ _ (proj1 K5) H) as (K6 & Hl & Hlook).
  split.
  - repeat (eapply keeps_trans; [eassumption|]). by apply keeps_refl, K6.
  - split; [done|]. by exists i, m, t, r, tl.
Qed.

(** Every record of a scenario analysis is fresh. *)
Definition fresh_analysis (h : heap) (a : analysis_refs) : Prop :=
  forall w l, dict_get w a = Some l -> fresh_data h l.

Lemma dict_get_set {V} (k k' : string) (v : V) (d : list (string * V)) :
  dict_get k' (dict_set k v d) = if decide (k' = k) then Some v else dict_get k' d.
Proof.
  induction d as [|[k0 v0] d IH]; simpl.
  - destruct (decide (k = k')) as [->|]; [by rewrite decide_True|].
    by rewrite decide_False.
  - destruct (decide (k0 = k)) as [->|Hne]; simpl.
    + destruct (decide (k = k')) as [->|]; [by rewrite decide_True|].
      by rewrite decide_False.
    + destruct (decide (k0 = k')) as [->|]; [by rewrite decide_False|]. done.
Qed.

Lemma scenario_step_keeps cfg a item h a' h' :
  extends h -> fresh_analysis h a ->
  scenario_step cfg a item h = Some (a', h') ->
  keeps h h' /\ fresh_analysis h' a'.
Proof.
  intros He Hfa H. unfold scenario_step in H.
  apply bind_inv in H as (sd & h1 & Hc & H).
  destruct (deep_copy_dict_keeps _ _ _ _ He Hc) as (K1 & Hsd).
  apply bind_inv in H as (u & h2 & Hch & H). injection H as <- <-.
  assert (K2 : keeps h1 h2).
  { destruct (dict_get item.1 (warehouse_changes cfg)) as [changes|].
    - destruct (has_changes changes).
      + by eapply apply_warehouse_changes_keeps; [apply K1|..].
      + injection Hch as <- <-. apply keeps_refl, K1.
    - injection Hch as <- <-. apply keeps_refl, K1. }
  split; [by eapply keeps_trans|].
  intros w l. rewrite dict_get_set. case_decide as Hw.
  - intros [= <-]. by apply K2.
  - intros Hl. by apply K2, K1, (Hfa w).
Qed.

Lemma for_each_scenario_keeps cfg items a h a' h' :
  extends h -> fresh_analysis h a ->
  for_each (scenario_step cfg) items a h = Some (a', h') ->
  keeps h h' /\ fresh_analysis h' a'.
Proof.
  revert a h. induction items as [|item items IH]; intros a h He Hfa H; simpl in H.
  - injection H as <- <-. split; [by apply keeps_refl | done].
  - apply bind_inv in H as (a1 & h1 & Hs & H).
    destruct (scenario_step_keeps _ _ _ _ _ _ He Hfa Hs) as (K1 & Hfa1).
    destruct (IH _ _ (proj1 K1) Hfa1 H) as (K2 & Hfa2).
    split; [by eapply keeps_trans | done].
Qed.

Lemma apply_donation_keeps a ev h u h' :
  extends h -> fresh_analysis h a ->
  apply_donation a ev h = Some (u, h') -> keeps h h'.
Proof.
  intros He Hfa H. unfold apply_donation in H.
  destruct (dict_get (de_warehouse ev) a) as [l|] eqn:Hl.
  - apply bind_inv in H as (vi & h1 & Hg & H). apply get_info_inv in Hg as ->.
    apply bind_inv in H as (u1 & h2 & Hm & H).
    apply modify_info_keeps in Hm as K1; [|done | by eapply Hfa].
    apply modify_metrics_keeps in H as K2; [|apply K1 | eapply K1, Hfa; done].
    by eapply keeps_trans.
  - injection H as <- <-. by apply keeps_refl.
Qed.

End Frame.

(** The scenario simulator writes to no object of the heap it starts from. *)
Lemma apply_scenario_changes_frame base cfg h scenario h' l :
  apply_scenario_changes base cfg h = Some (scenario, h') ->
  l ∈ dom h -> h' !! l = h !! l.
Proof.
  intros H Hl. unfold apply_scenario_changes in H.
  apply bind_inv in H as (a & h1 & Hfor & H).
  assert (He : extends h h) by done.
  destruct (for_each_scenario_keeps h cfg base [] h a h1 He) as (K1 & Hfa); [|done|].
  { intros w l'. done. }
  apply bind_inv in H as (u & h2 & Hd & H). injection H as <- <-.
  destruct (large_donation_event cfg) as [ev|].
  - apply apply_donation_keeps with (h0 := h) in Hd; [|apply K1 | done].
    by apply Hd.
  - injection Hd as <- <-. by apply K1.
Qed.

Lemma read_data_frame (h h' : heap) l d :
  (forall l', l' ∈ dom h -> h' !! l' = h !! l') ->
  read_data h l = Some d -> read_data h' l = Some d.
Proof.
  intros Hfr. unfold read_data.
  destruct (h !! l) as [[| | | | |i m t r tl]|] eqn:Hl; try done.
  destruct (h !! i) as [[vi| | | | |]|] eqn:Hi; try done.
  destruct (h !! m) as [[|vm| | | |]|] eqn:Hm; try done.
  destruct (h !! t) as [[| |vt| | |]|] eqn:Ht; try done.
  destruct (h !! r) as [[| | |vr| |]|] eqn:Hr; try done.
  destruct (h !! tl) as [[| | | |vl|]|] eqn:Htl; try done.
  intros [= <-].
  rewrite (Hfr l), Hl by (apply elem_of_dom; by rewrite Hl).
  rewrite (Hfr i), Hi by (apply elem_of_dom; by rewrite Hi).
  rewrite (Hfr m), Hm by (apply elem_of_dom; by rewrite Hm).
  rewrite (Hfr t), Ht by (apply elem_of_dom; by rewrite Ht).
  rewrite (Hfr r), Hr by (apply elem_of_dom; by rewrite Hr).
  by rewrite (Hfr tl), Htl by (apply elem_of_dom; by rewrite Htl).
Qed.

(** The value of the baseline after a run of the scenario simulator is its
    value before the run. *)
Lemma apply_scenario_changes_baseline base cfg h scenario h' v :
  apply_scenario_changes base cfg h = Some (scenario, h') ->
  read_analysis h base = Some v -> read_analysis h' base = Some v.
Proof.
  intros H. pose proof (fun l => apply_scenario_changes_frame _ _ _ _ _ l H) as Hfr.
  clear H. revert v. induction base as [|[w l] base IH]; intros v; simpl; [done|].
  destruct (read_data h l) as [d|] eqn:Hd; [|done].
  destruct (read_analysis h base) as [rest|]; [|done].
  intros [= <-]. by rewrite (read_data_frame h h' l d Hfr Hd), (IH rest).
Qed.

(** On the example baseline the scenario simulator produces a scenario
    whose Atlanta holds 85,000 units and whose Chicago holds 25,000, and the
    baseline reads as before. *)
Lemma apply_scenario_changes_example :
  exists base h scenario h',
    example_baseline = Some (base, h)
    /\ apply_scenario_changes base example_config h = Some (scenario, h')
    /\ read_analysis h' base = Some example_analysis
    /\ exists atlanta chicago,
         read_analysis h' scenario ≫= dict_get "Atlanta" = Some atlanta
         /\ read_analysis h' scenario ≫= dict_get "Chicago" = Some chicago
         /\ current_inventory (warehouse_info atlanta) == 85000
         /\ current_inventory (warehouse_info chicago) == 25000
         /\ final_utilization (utilization_metrics chicago) == 25.
Proof.
  eexists _, _, _, _. split; [by vm_compute|]. split; [by vm_compute|].
  split; [by vm_compute|]. eexists _, _.
  split; [by vm_compute|]. split; [by vm_compute|]. split; [|split]; by vm_compute.
Qed.

(** C3 at a failing input. The demonstration scenario of the optimiser
    copies the record of a warehouse with [data.copy()], so its writes reach
    the nested dictionaries of the baseline: on the example baseline, whose
    Atlanta holds 90,000 units at 90%, the run leaves a baseline whose
    Atlanta holds 85,000 units at 85% with an increasing trend. *)
Theorem high_demand_scenario_mutates_baseline :
  baseline_before = Some example_analysis
  /\ is_Some example_high_demand_run
  /\ baseline_after <> baseline_before
  /\ exists d,
       baseline_after ≫= dict_get "Atlanta" = Some d
       /\ current_inventory (warehouse_info d) == 85000
       /\ final_utilization (utilization_metrics d) == 85
       /\ trend_direction (trend_analysis d) = "Increasing"%string.
Proof.
  split; [by vm_compute|]. split; [eexists; by vm_compute|]. split.
  - intros H. vm_compute in H. discriminate H.
  - eexists. split; [by vm_compute|]. split; [by vm_compute|]. split; by vm_compute.
Qed.

End BaselineFacts.

(** ** The run of the simulator over a horizon *)

Module RunFacts.

Import RollingForecast PyNumFacts RollingForecastFacts.

Lemma Qmax_0_nonpos (x : Q) : x <= 0 -> Qmax 0 x = 0.
Proof.
  intros Hx. unfold Qmax, GenericMinMax.gmax.
  destruct (0 ?= x) eqn:Hc; try done.
  apply Qlt_alt in Hc. lra.
Qed.

Lemma position_at_stays_zero self w p t u :
  (t <= u)%nat ->
  position_at self w p t + forecast (predict self w p inflows t)
  <= forecast (predict self w p outflows t) ->
  (forall j, (t < j <= u)%nat ->
     forecast (predict self w p inflows j) <= forecast (predict self w p outflows j)) ->
  position_at self w p (S u) = 0.
Proof.
  intros Htu H0 Hflows. induction u as [|u IH].
  - assert (t = 0)%nat as -> by lia. cbn [position_at] in *.
    apply Qmax_0_nonpos. lra.
  - destruct (decide (t = S u)) as [->|Hne].
    + cbn [position_at] in *. apply Qmax_0_nonpos. lra.
    + cbn [position_at]. cbn [position_at] in IH. rewrite IH; [|lia|intros; apply Hflows; lia].
      apply Qmax_0_nonpos. pose proof (Hflows (S u) ltac:(lia)). lra.
Qed.

(** X1. A stock-out persists. When the outflow forecast of a month is at
    least the position carried into it plus the inflow forecast, the ledger
    records an ending position of 0 for that month, and for every later
    month up to which the inflow forecasts do not exceed the outflow
    forecasts the ledger records a starting and an ending position of 0:
    the position never goes negative and never recovers without inflow. *)
Theorem stockout_persists (self : forecaster) (h : nat) (w p : string) (t u : nat) :
  w ∈ warehouses -> p ∈ products -> (t <= u < h)%nat ->
  position_at self w p t + forecast (predict self w p inflows t)
  <= forecast (predict self w p outflows t) ->
  (forall j, (t < j <= u)%nat ->
     forecast (predict self w p inflows j) <= forecast (predict self w p outflows j)) ->
  exists r,
    ledger (generate_rolling_forecast self h) w p u = Some r
    /\ ending_position r = 0%Z
    /\ ((t < u)%nat -> starting_position r = 0%Z).
Proof.
  intros Hw Hp Htu H0 Hflows. exists (ledger_row self w p u).
  split; [apply ledger_spec; (done || lia)|]. split.
  - cbn [ledger_row ending_position].
    by rewrite (position_at_stays_zero self w p t u ltac:(lia) H0 Hflows).
  - intros Hlt. cbn [ledger_row starting_position].
    destruct u as [|u]; [lia|].
    rewrite (position_at_stays_zero self w p t u ltac:(lia) H0); [done|].
    intros j Hj. apply Hflows. lia.
Qed.

Lemma Atlanta_in_warehouses : "Atlanta"%string ∈ warehouses.
Proof. apply (bool_decide_unpack _). by vm_compute. Qed.

Lemma Footwear_in_products : "Footwear"%string ∈ products.
Proof. apply (bool_decide_unpack _). by vm_compute. Qed.

Lemma stockout_persists_witness :
  exists r,
    ledger (generate_rolling_forecast depleting_forecaster 4) "Atlanta" "Footwear" 3
    = Some r
    /\ ending_position r = 0%Z
    /\ ((1 < 3)%nat -> starting_position r = 0%Z).
Proof.
  apply (stockout_persists depleting_forecaster 4 "Atlanta" "Footwear" 1 3
           Atlanta_in_warehouses Footwear_in_products).
  - lia.
  - by vm_compute.
  - intros j _. by vm_compute.
Defined.

(** ** The ledger of a series, row for row *)

Lemma month_step_ledger self k st w p m :
  simulated self k st -> w ∈ warehouses -> p ∈ products ->
  rolling_of (results st) w p = Some m ->
  rolling_of (results (month_step self st k)) w p
  = Some (<[month_key_of k := ledger_row self w p k]> m).
Proof.
  intros [Hinv _ _ _] Hw Hp Hm. unfold month_step, update_positions.
  destruct (predict_flows_spec self k st) as ((Hc1 & Hr1 & _ & _) & Hpred).
  set (st1 := predict_flows self k st) in *.
  destruct (warehouse_loop self k warehouses st1 (NoDup_warehouses))
    as (_ & _ & Hr & _).
  rewrite Hr, decide_True by done. rewrite Hr1, Hm. cbn [fmap option_fmap option_map].
  do 2 f_equal. unfold row_of, ledger_row, after_of.
  rewrite Hc1, (Hinv w p Hw Hp). rewrite !(Hpred w p _ Hw Hp). done.
Qed.

Lemma months_ledger self h k w p :
  w ∈ warehouses -> p ∈ products ->
  rolling_of (results (fold_left (month_step self) (seq 0 k) (init_state self h))) w p
  = Some (ledger_map self w p k).
Proof.
  intros Hw Hp. induction k as [|k IH].
  - destruct (sim_ledger self _ _ (init_simulated self h) w p Hw Hp) as (m & Hm & _).
    cbn [seq fold_left ledger_map].
    unfold rolling_of, product_data, init_state, init_results.
    cbn [results res_warehouses].
    rewrite lookup_fold_insert, decide_True by done.
    cbn [mbind option_bind wr_products].
    by rewrite (lookup_fold_insert (fun _ => empty_product_result)), decide_True.
  - rewrite seq_S, fold_left_app. cbn [fold_left ledger_map].
    apply month_step_ledger; [apply months_simulated|done..].
Qed.

Lemma ledger_map_lookup self w p k t :
  ledger_map self w p k !! month_key_of t
  = if decide (t < k)%nat then Some (ledger_row self w p t) else None.
Proof.
  induction k as [|k IH]; cbn [ledger_map].
  - rewrite decide_False by lia. done.
  - destruct (decide (t = k)) as [->|Hne].
    + rewrite lookup_insert_eq, decide_True by lia. done.
    + rewrite lookup_insert_ne by (intros H; by apply month_key_of_inj in H).
      rewrite IH. destruct (decide (t < k)%nat).
      * rewrite decide_True by lia. done.
      * rewrite decide_False by lia. done.
Qed.

Lemma ledger_map_dom self w p k key :
  is_Some (ledger_map self w p k !! key) ->
  exists t, (t < k)%nat /\ key = month_key_of t.
Proof.
  induction k as [|k IH]; cbn [ledger_map].
  - rewrite lookup_empty. by intros [? ?].
  - destruct (decide (key = month_key_of k)) as [->|Hne].
    + intros _. exists k. split; [lia|done].
    + rewrite lookup_insert_ne by done. intros H.
      destruct (IH H) as (t & Ht & ->). exists t. split; [lia|done].
Qed.

Lemma ledger_map_size self w p k : size (ledger_map self w p k) = k.
Proof.
  induction k as [|k IH]; cbn [ledger_map]; [apply map_size_empty|].
  rewrite map_size_insert_None, IH; [done|].
  rewrite ledger_map_lookup, decide_False by lia. done.
Qed.

Lemma generated_rolling self h w p :
  rolling_of (generate_rolling_forecast self h) w p
  = rolling_of (results (fold_left (month_step self) (seq 0 h) (init_state self h))) w p.
Proof. done. Qed.

(** X2. The ledger covers the horizon and nothing else. For a warehouse
    and product of the network, the ledger of a run over [h] months has
    exactly [h] rows, one for each forecast month: it has a row for the
    [t]-th month exactly when [t < h], and every key of the ledger is the
    key of such a month. *)
Theorem ledger_covers_horizon (self : forecaster) (h : nat) (w p : string) :
  w ∈ warehouses -> p ∈ products ->
  exists m,
    rolling_of (generate_rolling_forecast self h) w p = Some m
    /\ size m = h
    /\ (forall t, is_Some (ledger (generate_rolling_forecast self h) w p t)
                  <-> (t < h)%nat)
    /\ forall key, is_Some (m !! key) ->
         exists t, (t < h)%nat /\ key = month_key_of t.
Proof.
  intros Hw Hp. exists (ledger_map self w p h).
  assert (Hm : rolling_of (generate_rolling_forecast self h) w p
               = Some (ledger_map self w p h)).
  { rewrite generated_rolling. by apply months_ledger. }
  split; [done|]. split; [apply ledger_map_size|]. split.
  - intros t. unfold rolling_of in Hm. unfold ledger.
    destruct (product_data _ w p) as [pd|]; [|done].
    cbn in Hm. injection Hm as Hm. cbn [mbind option_bind]. rewrite Hm.
    rewrite ledger_map_lookup. destruct (decide (t < h)%nat).
    + split; [done | by eexists].
    + split; [by intros [? ?] | done].
  - apply ledger_map_dom.
Qed.

Lemma ledger_covers_horizon_witness :
  exists m,
    rolling_of (generate_rolling_forecast example_forecaster 3) "Atlanta" "Footwear"
    = Some m
    /\ size m = 3%nat
    /\ (forall t, is_Some (ledger (generate_rolling_forecast example_forecaster 3)
                             "Atlanta" "Footwear" t)
                  <-> (t < 3)%nat)
    /\ forall key, is_Some (m !! key) ->
         exists t, (t < 3)%nat /\ key = month_key_of t.
Proof.
  exact (ledger_covers_horizon example_forecaster 3 "Atlanta" "Footwear"
           Atlanta_in_warehouses Footwear_in_products).
Defined.

(** ** The latest month of a ledger *)

Lemma month_key_ltb_irrefl (a : month_key) : month_key_ltb a a = false.
Proof.
  unfold month_key_ltb. rewrite !Nat.ltb_irrefl, Nat.eqb_refl. done.
Qed.

Lemma month_key_of_ltb (t u : nat) :
  (t < u)%nat -> month_key_ltb (month_key_of t) (month_key_of u) = true.
Proof.
  intros Htu. unfold month_key_ltb, month_key_of. cbn [fst snd].
  pose proof (Nat.div_mod_eq t 12) as Ht. pose proof (Nat.div_mod_eq u 12) as Hu.
  pose proof (Nat.mod_upper_bound t 12 ltac:(lia)) as Ht'.
  pose proof (Nat.mod_upper_bound u 12 ltac:(lia)) as Hu'.
  destruct (decide (t / 12 < u / 12)%nat) as [Hlt|Hge].
  - apply orb_true_iff. left. apply Nat.ltb_lt. lia.
  - assert (t / 12 = u / 12)%nat as Heq by nia.
    apply orb_true_iff. right. apply andb_true_iff. split.
    + apply Nat.eqb_eq. lia.
    + apply Nat.ltb_lt. lia.
Qed.

Lemma month_key_ltb_trans (a b c : month_key) :
  month_key_ltb a b = true -> month_key_ltb b c = true -> month_key_ltb a c = true.
Proof.
  unfold month_key_ltb. rewrite !orb_true_iff, !andb_true_iff.
  rewrite !Nat.ltb_lt, !Nat.eqb_eq. lia.
Qed.

(** [max(d.keys())] is a key of [d] that no key of [d] exceeds. *)
Lemma max_key_spec {V} (d : gmap month_key V) :
  match max_key d with
  | None => d = ∅
  | Some k =>
      is_Some (d !! k)
      /\ forall k', is_Some (d !! k') -> month_key_ltb k k' = false
  end.
Proof.
  unfold max_key.
  apply (map_fold_weak_ind
           (fun (acc : option month_key) (d : gmap month_key V) =>
              match acc with
              | None => d = ∅
              | Some k =>
                  is_Some (d !! k)
                  /\ forall k', is_Some (d !! k') -> month_key_ltb k k' = false
              end)).
  - done.
  - intros i x m r Hi IH. destruct r as [k|].
    + destruct IH as [Hk Hmax]. destruct (month_key_ltb k i) eqn:Hki.
      * split; [rewrite lookup_insert_eq; by eexists|].
        intros k' Hk'. destruct (decide (k' = i)) as [->|Hne].
        { apply month_key_ltb_irrefl. }
        rewrite lookup_insert_ne in Hk' by done.
        destruct (month_key_ltb i k') eqn:Hik; [|done].
        specialize (Hmax k' Hk').
        by rewrite (month_key_ltb_trans k i k' Hki Hik) in Hmax.
      * split.
        { destruct (decide (k = i)) as [->|Hne].
          - rewrite lookup_insert_eq. by eexists.
          - by rewrite lookup_insert_ne. }
        intros k' Hk'. destruct (decide (k' = i)) as [->|Hne]; [done|].
        rewrite lookup_insert_ne in Hk' by done. by apply Hmax.
    + subst m. split; [rewrite lookup_insert_eq; by eexists|].
      intros k' Hk'. destruct (decide (k' = i)) as [->|Hne].
      * apply month_key_ltb_irrefl.
      * rewrite lookup_insert_ne, lookup_empty in Hk' by done. by destruct Hk'.
Qed.

Lemma max_key_ledger_map self w p k :
  max_key (ledger_map self w p (S k)) = Some (month_key_of k).
Proof.
  pose proof (max_key_spec (ledger_map self w p (S k))) as Hspec.
  destruct (max_key _) as [key|].
  - destruct Hspec as [Hkey Hmax].
    apply ledger_map_dom in Hkey as (t & Ht & ->).
    destruct (decide (t = k)) as [->|Hne]; [done|].
    assert (is_Some (ledger_map self w p (S k) !! month_key_of k)) as Hk.
    { rewrite ledger_map_lookup, decide_True by lia. by eexists. }
    specialize (Hmax _ Hk). rewrite month_key_of_ltb in Hmax by lia. done.
  - assert (ledger_map self w p (S k) !! month_key_of k = None) as Hk
      by (rewrite Hspec; apply lookup_empty).
    rewrite ledger_map_lookup, decide_True in Hk by lia. done.
Qed.

Lemma max_key_empty {V} : max_key (∅ : gmap month_key V) = None.
Proof. unfold max_key. apply map_fold_empty. Qed.

(** ** The final inventory of the network summary *)

Section SummaryInventory.

Variable self : forecaster.
Variable h : nat.
Variable res : results_t.





End SummaryInventory.


(** ** The alerts of a run *)












(** ** Series without a model *)

Lemma predict_no_model_no_history self w p ft t :
  prophet_models self w p ft = None -> training_data self w p ft = [] ->
  predict self w p ft t = {| forecast := 0; lower := 0; upper := 0 |}.
Proof. intros Hm Hd. unfold predict. by rewrite Hm, Hd. Qed.

Lemma position_at_idle self w p t :
  (forall ft, prophet_models self w p ft = None /\ training_data self w p ft = []) ->
  0 <= starting_inventory self w p ->
  position_at self w p t == starting_inventory self w p.
Proof.
  intros Hidle Hstart. induction t as [|t IH]; [done|]. cbn [position_at].
  destruct (Hidle inflows) as [Hm1 Hd1]. destruct (Hidle outflows) as [Hm2 Hd2].
  rewrite !predict_no_model_no_history by done. cbn [forecast].
  rewrite Q.max_r by lra. lra.
Qed.

(** X5. A series that has neither a fitted model nor a history, for inflows
    and for outflows, is carried through the horizon unchanged: every row
    of its ledger records no inflow, no outflow and no net flow, and the
    rounded starting inventory as starting and as ending position. *)
Theorem idle_series_keeps_position (self : forecaster) (h : nat) (w p : string)
    (t : nat) :
  w ∈ warehouses -> p ∈ products -> (t < h)%nat ->
  (forall ft, prophet_models self w p ft = None /\ training_data self w p ft = []) ->
  0 <= starting_inventory self w p ->
  exists r,
    ledger (generate_rolling_forecast self h) w p t = Some r
    /\ inflow r = 0%Z /\ outflow r = 0%Z /\ net_flow r = 0%Z
    /\ starting_position r = py_round (starting_inventory self w p)
    /\ ending_position r = py_round (starting_inventory self w p).
Proof.
  intros Hw Hp Ht Hidle Hstart. exists (ledger_row self w p t).
  split; [by apply ledger_spec|].
  destruct (Hidle inflows) as [Hm1 Hd1]. destruct (Hidle outflows) as [Hm2 Hd2].
  unfold ledger_row. cbn [inflow outflow net_flow starting_position ending_position].
  rewrite !predict_no_model_no_history by done. cbn [forecast].
  split; [done|]. split; [done|]. split; [done|]. split.
  - apply py_round_proper. by apply position_at_idle.
  - apply py_round_proper. by apply position_at_idle.
Qed.

Lemma Chicago_in_warehouses : "Chicago"%string ∈ warehouses.
Proof. apply (bool_decide_unpack _). by vm_compute. Qed.

Lemma idle_series_keeps_position_witness :
  exists r,
    ledger (generate_rolling_forecast idle_forecaster 3) "Chicago" "Footwear" 2 = Some r
    /\ inflow r = 0%Z /\ outflow r = 0%Z /\ net_flow r = 0%Z
    /\ starting_position r = py_round (starting_inventory idle_forecaster "Chicago" "Footwear")
    /\ ending_position r = py_round (starting_inventory idle_forecaster "Chicago" "Footwear").
Proof.
  apply (idle_series_keeps_position idle_forecaster 3 "Chicago" "Footwear" 2
           Chicago_in_warehouses Footwear_in_products).
  - lia.
  - intros ft. by vm_compute.
  - by vm_compute.
Defined.

End RunFacts.

(** ** Further facts about the optimiser *)

Module OptimizerFacts.

Import CapacityOptimizer PyNumFacts RiskFacts TransferFacts Examples.

(** ** The order of the recommendations *)

Lemma insert_desc_perm {A} (key : A -> Q) (x : A) (l : list A) :
  insert_desc key x l ≡ₚ x :: l.
Proof.
  induction l as [|y l IH]; [done|]. cbn [insert_desc].
  destruct (Qgtb (key x) (key y)); [done|].
  rewrite IH. apply Permutation_swap.
Qed.

Lemma sorted_desc_from_perm {A} (key : A -> Q) (l acc : list A) :
  fold_left (fun acc x => insert_desc key x acc) l acc ≡ₚ acc ++ l.
Proof.
  revert acc. induction l as [|x l IH]; intros acc; cbn [fold_left].
  - by rewrite app_nil_r.
  - rewrite IH, insert_desc_perm. cbn [app]. apply Permutation_middle.
Qed.

Lemma sorted_desc_perm {A} (key : A -> Q) (l : list A) : sorted_desc key l ≡ₚ l.
Proof. apply (sorted_desc_from_perm key l []). Qed.

Lemma sorted_desc_length {A} (key : A -> Q) (l : list A) :
  length (sorted_desc key l) = length l.
Proof. by rewrite sorted_desc_perm. Qed.

(** A list in descending order of its keys. *)
Definition descending {A} (key : A -> Q) (l : list A) : Prop :=
  forall i j x y, (i < j)%nat -> l !! i = Some x -> l !! j = Some y -> key y <= key x.

Lemma descending_nil {A} (key : A -> Q) : descending key [].
Proof. intros i j x y _ H. by rewrite lookup_nil in H. Qed.

Lemma descending_cons {A} (key : A -> Q) (x : A) (l : list A) :
  descending key (x :: l)
  <-> (forall y, y ∈ l -> key y <= key x) /\ descending key l.
Proof.
  split.
  - intros H. split.
    + intros y Hy. apply list_elem_of_lookup in Hy as [j Hj].
      apply (H 0%nat (S j) x y); [lia | done | done].
    + intros i j a b Hij Ha Hb. apply (H (S i) (S j) a b); [lia | done | done].
  - intros [Hx Hl] i j a b Hij Ha Hb. destruct j as [|j]; [lia|].
    cbn in Hb. destruct i as [|i].
    + cbn in Ha. injection Ha as <-. apply Hx. by apply list_elem_of_lookup_2 in Hb.
    + cbn in Ha. apply (Hl i j a b); [lia | done | done].
Qed.

Lemma insert_desc_descending {A} (key : A -> Q) (x : A) (l : list A) :
  descending key l -> descending key (insert_desc key x l).
Proof.
  induction l as [|y l IH]; intros Hl; cbn [insert_desc].
  - apply descending_cons. split; [|apply descending_nil].
    intros y Hy. by apply elem_of_nil in Hy.
  - apply descending_cons in Hl as [Hy Hl].
    destruct (Qgtb (key x) (key y)) eqn:Hxy.
    + apply Qgtb_true in Hxy. apply descending_cons. split.
      * intros z Hz. apply elem_of_cons in Hz as [->|Hz]; [lra|].
        specialize (Hy z Hz). lra.
      * apply descending_cons. done.
    + apply Qgtb_false in Hxy. apply descending_cons. split.
      * intros z Hz. apply insert_desc_elem in Hz as [->|Hz]; [done | by apply Hy].
      * by apply IH.
Qed.

Lemma sorted_desc_descending {A} (key : A -> Q) (l : list A) :
  descending key (sorted_desc key l).
Proof.
  unfold sorted_desc. assert (Hnil : descending key []) by apply descending_nil.
  revert Hnil. generalize (@nil A) as acc.
  induction l as [|x l IH]; intros acc Hacc; cbn [fold_left]; [done|].
  apply IH. by apply insert_desc_descending.
Qed.

(** X6. The recommendations are listed in descending order of their
    utilization improvement: a recommendation never has a larger
    improvement than one listed before it, so the first one, which the
    optimiser reports as the top recommendation, has the largest. *)
Theorem transfers_sorted_by_improvement (rules : business_rules_t)
    (ca : capacity_analysis_t) :
  let out := identify_transfer_opportunities rules ca in
  let improvement := fun t => utilization_improvement (impact_metrics t) in
  (forall i j t u, (i < j)%nat -> out !! i = Some t -> out !! j = Some u ->
     improvement u <= improvement t)
  /\ forall top t, out !! 0%nat = Some top -> t ∈ out ->
       improvement t <= improvement top.
Proof.
  cbn zeta. unfold identify_transfer_opportunities.
  set (key := fun t : transfer => utilization_improvement (impact_metrics t)).
  set (l := fold_left _ _ _).
  pose proof (sorted_desc_descending key l) as Hsorted. split.
  - exact Hsorted.
  - intros top t Htop Ht. apply list_elem_of_lookup in Ht as [j Hj].
    destruct j as [|j].
    + rewrite Htop in Hj. injection Hj as <-. apply Qle_refl.
    + apply (Hsorted 0%nat (S j) top t); [lia | done | done].
Qed.

(** ** The warehouses that a recommendation joins *)

Lemma dict_get_elem {V} (k : string) (v : V) (d : list (string * V)) :
  NoDup (map fst d) -> (k, v) ∈ d -> dict_get k d = Some v.
Proof.
  induction d as [|[k' v'] d IH]; intros Hnd Hin; [by apply elem_of_nil in Hin|].
  cbn [map fst] in Hnd. apply NoDup_cons in Hnd as [Hk' Hnd]. cbn [dict_get].
  apply elem_of_cons in Hin as [Heq|Hin].
  - injection Heq as -> ->. by rewrite decide_True.
  - rewrite decide_False; [by apply IH|].
    intros ->. apply Hk'. apply list_elem_of_fmap. by exists (k, v).
Qed.

Lemma high_util_elem (ca : capacity_analysis_t) (s : string) :
  s ∈ high_util_warehouses ca ->
  exists d, (s, d) ∈ ca /\ 70 < final_utilization (utilization_metrics d).
Proof.
  unfold high_util_warehouses. intros Hs.
  apply list_elem_of_fmap in Hs as ([s' d] & -> & Hin).
  apply list_elem_of_filter in Hin as [Hu Hin]. exists d. split.
  - apply sorted_desc_elem with (key := final_util_of).
    rewrite <- (take_drop 3 (sorted_desc final_util_of ca)).
    apply elem_of_app. by left.
  - by apply Qgtb_true in Hu.
Qed.

Lemma low_util_elem (ca : capacity_analysis_t) (s : string) :
  s ∈ low_util_warehouses ca ->
  exists d, (s, d) ∈ ca /\ final_utilization (utilization_metrics d) < 50.
Proof.
  unfold low_util_warehouses. intros Hs.
  apply list_elem_of_fmap in Hs as ([s' d] & -> & Hin).
  apply list_elem_of_filter in Hin as [Hu Hin]. exists d. split.
  - apply sorted_desc_elem with (key := final_util_of).
    set (l := sorted_desc final_util_of ca) in *.
    rewrite <- (take_drop (length l - 3) l). apply elem_of_app. by right.
  - by apply Qltb_true in Hu.
Qed.

(** A transfer of the pair of a source of [highs] and a destination of
    [lows]. *)
Definition joins (highs lows : list string) (t : transfer) : Prop :=
  source_warehouse t ∈ highs /\ destination_warehouse t ∈ lows.

Lemma dest_loop_joins rules ca s sd lows acc t :
  t ∈ fold_left (dest_step rules ca s sd) lows acc ->
  t ∈ acc \/ (source_warehouse t = s /\ destination_warehouse t ∈ lows).
Proof.
  revert acc. induction lows as [|d lows IH]; intros acc; cbn [fold_left].
  - by left.
  - intros Ht. apply IH in Ht as [Ht|[Hs Hd]]; [|right; split; [done | by right]].
    unfold dest_step in Ht.
    destruct (dict_get d ca) as [dd|]; [|by left].
    destruct (decide (s = d)); [by left|].
    destruct (0 <? _)%Z; [|by left].
    apply elem_of_app in Ht as [Ht|Ht]; [by left|].
    apply list_elem_of_singleton in Ht as ->. right. split; [done | by left].
Qed.

Lemma source_loop_joins rules ca lows highs acc t :
  t ∈ fold_left (source_step rules ca lows) highs acc ->
  t ∈ acc \/ joins highs lows t.
Proof.
  revert acc. induction highs as [|s highs IH]; intros acc; cbn [fold_left].
  - by left.
  - intros Ht. apply IH in Ht as [Ht|[Hs Hd]]; [|right; split; [by right | done]].
    unfold source_step in Ht. destruct (dict_get s ca) as [sd|]; [|by left].
    apply dest_loop_joins in Ht as [Ht|[Hs Hd]]; [by left|].
    right. split; [rewrite Hs; by left | done].
Qed.

Lemma identify_joins rules ca t :
  t ∈ identify_transfer_opportunities rules ca ->
  joins (high_util_warehouses ca) (low_util_warehouses ca) t.
Proof.
  unfold identify_transfer_opportunities. rewrite sorted_desc_elem. intros Ht.
  apply source_loop_joins in Ht as [Ht|Ht]; [by apply elem_of_nil in Ht | done].
Qed.

(** X7. Every recommendation moves inventory from a warehouse whose final
    utilization exceeds 70% to a warehouse whose final utilization is
    below 50%, both of them warehouses of the analysis. *)
Theorem transfer_joins_high_and_low (rules : business_rules_t)
    (ca : capacity_analysis_t) (t : transfer) :
  NoDup (map fst ca) ->
  t ∈ identify_transfer_opportunities rules ca ->
  exists source_data dest_data,
    dict_get (source_warehouse t) ca = Some source_data
    /\ dict_get (destination_warehouse t) ca = Some dest_data
    /\ 70 < final_utilization (utilization_metrics source_data)
    /\ final_utilization (utilization_metrics dest_data) < 50.
Proof.
  intros Hnd Ht. destruct (identify_joins rules ca t Ht) as [Hs Hd].
  apply high_util_elem in Hs as (sd & Hsd & Hsu).
  apply low_util_elem in Hd as (dd & Hdd & Hdu).
  exists sd, dd. split; [by apply dict_get_elem|].
  split; [by apply dict_get_elem|]. done.
Qed.

Lemma transfer_joins_high_and_low_witness :
  exists source_data dest_data,
    dict_get (source_warehouse example_transfer) example_analysis = Some source_data
    /\ dict_get (destination_warehouse example_transfer) example_analysis
       = Some dest_data
    /\ 70 < final_utilization (utilization_metrics source_data)
    /\ final_utilization (utilization_metrics dest_data) < 50.
Proof.
  apply (transfer_joins_high_and_low (rules_of 5000) example_analysis example_transfer).
  - apply (bool_decide_unpack _). by vm_compute.
  - rewrite example_transfers. by left.
Defined.

(** ** The number of recommendations *)

Lemma dest_loop_length rules ca s sd lows acc :
  (length (fold_left (dest_step rules ca s sd) lows acc)
   <= length acc + length lows)%nat.
Proof.
  revert acc. induction lows as [|d lows IH]; intros acc; cbn [fold_left length].
  - lia.
  - etrans; [apply IH|]. unfold dest_step.
    destruct (dict_get d ca) as [dd|]; [|lia].
    destruct (decide (s = d)); [lia|].
    destruct (0 <? _)%Z; [|lia]. rewrite length_app. cbn [length]. lia.
Qed.

Lemma source_loop_length rules ca lows highs acc :
  (length (fold_left (source_step rules ca lows) highs acc)
   <= length acc + length highs * length lows)%nat.
Proof.
  revert acc. induction highs as [|s highs IH]; intros acc; cbn [fold_left length].
  - lia.
  - etrans; [apply IH|]. unfold source_step.
    destruct (dict_get s ca) as [sd|]; [|lia].
    pose proof (dest_loop_length rules ca s sd lows acc). lia.
Qed.

Lemma high_util_length ca : (length (high_util_warehouses ca) <= 3)%nat.
Proof.
  unfold high_util_warehouses. rewrite length_map.
  etrans; [apply length_filter|]. rewrite length_take. lia.
Qed.

Lemma low_util_length ca : (length (low_util_warehouses ca) <= 3)%nat.
Proof.
  unfold low_util_warehouses. rewrite length_map.
  etrans; [apply length_filter|]. rewrite length_drop. lia.
Qed.

(** X8. The optimiser lists at most nine recommendations, whatever the
    number of warehouses, and none when no warehouse is above 70% or no
    warehouse is below 50% of its capacity. *)
Theorem transfer_count (rules : business_rules_t) (ca : capacity_analysis_t) :
  (length (identify_transfer_opportunities rules ca) <= 9)%nat
  /\ ((forall w d, (w, d) ∈ ca -> final_utilization (utilization_metrics d) <= 70) ->
      identify_transfer_opportunities rules ca = [])
  /\ ((forall w d, (w, d) ∈ ca -> 50 <= final_utilization (utilization_metrics d)) ->
      identify_transfer_opportunities rules ca = []).
Proof.
  split; [|split].
  - unfold identify_transfer_opportunities. rewrite sorted_desc_length.
    pose proof (source_loop_length rules ca (low_util_warehouses ca)
                  (high_util_warehouses ca) []) as Hlen.
    pose proof (high_util_length ca). pose proof (low_util_length ca).
    cbn [length] in Hlen. nia.
  - intros Hall. destruct (identify_transfer_opportunities rules ca) as [|t l] eqn:Hout;
      [done|].
    assert (Ht : t ∈ identify_transfer_opportunities rules ca)
      by (rewrite Hout; by left).
    destruct (identify_joins rules ca t Ht) as [Hs _].
    apply high_util_elem in Hs as (sd & Hsd & Hsu).
    specialize (Hall _ _ Hsd). lra.
  - intros Hall. destruct (identify_transfer_opportunities rules ca) as [|t l] eqn:Hout;
      [done|].
    assert (Ht : t ∈ identify_transfer_opportunities rules ca)
      by (rewrite Hout; by left).
    destruct (identify_joins rules ca t Ht) as [_ Hd].
    apply low_util_elem in Hd as (dd & Hdd & Hdu).
    specialize (Hall _ _ Hdd). lra.
Qed.

Lemma transfers_sorted_by_improvement_witness :
  exists t u,
    identify_transfer_opportunities (rules_of 5000) network_analysis !! 0%nat = Some t
    /\ identify_transfer_opportunities (rules_of 5000) network_analysis !! 3%nat = Some u
    /\ utilization_improvement (impact_metrics u)
       <= utilization_improvement (impact_metrics t).
Proof.
  destruct (identify_transfer_opportunities (rules_of 5000) network_analysis !! 0%nat)
    as [t|] eqn:Ht; [|by vm_compute in Ht].
  destruct (identify_transfer_opportunities (rules_of 5000) network_analysis !! 3%nat)
    as [u|] eqn:Hu; [|by vm_compute in Hu].
  exists t, u. split; [done|]. split; [done|].
  apply (proj1 (transfers_sorted_by_improvement (rules_of 5000) network_analysis)
           0%nat 3%nat t u); [lia | done | done].
Defined.

(** ** What a recommendation moves, and what it costs *)

Lemma py_round_pos_half (x : Q) : (0 < py_round x)%Z -> 1 # 2 < x.
Proof.
  intros Hpos. apply Qnot_le_lt. intros Hle.
  apply py_round_mono in Hle.
  assert (py_round (1 # 2) = 0%Z) as H0 by (by vm_compute). lia.
Qed.

Lemma distance_factor_table (a b : string) (x : Q) :
  distance_factors !! (a, b) = Some x -> 1 <= x /\ x <= 3.5.
Proof.
  unfold distance_factors. intros H. apply elem_of_list_to_map_2 in H.
  repeat (apply elem_of_cons in H as [H|H];
          [injection H as _ _ ->; split; by vm_compute|]).
  by apply elem_of_nil in H.
Qed.

Lemma distance_factor_bounds (a b : string) :
  1 <= _get_distance_factor a b /\ _get_distance_factor a b <= 3.5.
Proof.
  unfold _get_distance_factor.
  destruct (distance_factors !! (a, b)) as [x|] eqn:Hab; cbn [default].
  - by apply (distance_factor_table a b).
  - destruct (distance_factors !! (b, a)) as [y|] eqn:Hba; cbn [default].
    + by apply (distance_factor_table b a).
    + split; by vm_compute.
Qed.

(** The unrounded net benefit of a transfer out of a consistent source:
    five cents of storage saved and ten cents times the distance factor
    spent for every unit. *)
Lemma net_benefit_per_unit rules s sd d dd :
  consistent sd ->
  let r := recommended_amount rules sd dd in
  let source_util := final_utilization (utilization_metrics sd) in
  let capacity_savings :=
    (source_util - new_source_util rules sd dd) / 100
    * max_capacity (warehouse_info sd) * 0.05 in
  let transfer_cost := r * 0.10 * _get_distance_factor s d in
  capacity_savings == r * 0.05
  /\ capacity_savings - transfer_cost == r * (0.05 - 0.10 * _get_distance_factor s d).
Proof.
  intros [Hcap Hutil]. cbn zeta. unfold new_source_util.
  set (r := recommended_amount rules sd dd).
  set (c := max_capacity (warehouse_info sd)) in *.
  set (i := current_inventory (warehouse_info sd)) in *.
  set (f := _get_distance_factor s d).
  assert (Hs : (final_utilization (utilization_metrics sd) - (i - r) / c * 100) / 100
               * c * 0.05 == r * 0.05).
  { rewrite Hutil. field. lra. }
  split; [done|]. rewrite Hs. ring.
Qed.

(** X9. A recommendation moves at least one unit, and its unrounded
    amount is at most the share [max_transfer_percentage] of the source's
    inventory and at most 70% of the source's excess over the target
    utilization. *)
Theorem transfer_amount_caps (rules : business_rules_t)
    (ca : capacity_analysis_t) (t : transfer) :
  t ∈ identify_transfer_opportunities rules ca ->
  exists source_data dest_data,
    dict_get (source_warehouse t) ca = Some source_data
    /\ dict_get (destination_warehouse t) ca = Some dest_data
    /\ let r := recommended_amount rules source_data dest_data in
       recommended_transfer t = py_round r
       /\ (1 <= recommended_transfer t)%Z
       /\ r <= current_inventory (warehouse_info source_data)
               * max_transfer_percentage rules
       /\ r <= source_excess rules source_data * 0.7.
Proof.
  intros Ht. destruct (identify_emitted rules ca t Ht)
    as (sd & dd & Hs & Hd & Hne & Heq & Hpos).
  exists sd, dd. split; [done|]. split; [done|]. cbn zeta.
  assert (Hq : recommended_transfer t = py_round (recommended_amount rules sd dd))
    by (by rewrite Heq).
  split; [done|]. split; [lia|].
  rewrite Hq in Hpos. apply py_round_pos_inv in Hpos.
  destruct (recommended_amount_bounds rules sd dd Hpos) as (_ & Hpct & _ & _ & _ & H70).
  done.
Qed.

Lemma transfer_amount_caps_witness :
  exists source_data dest_data,
    dict_get (source_warehouse example_transfer) example_analysis = Some source_data
    /\ dict_get (destination_warehouse example_transfer) example_analysis
       = Some dest_data
    /\ let r := recommended_amount (rules_of 5000) source_data dest_data in
       recommended_transfer example_transfer = py_round r
       /\ (1 <= recommended_transfer example_transfer)%Z
       /\ r <= current_inventory (warehouse_info source_data)
               * max_transfer_percentage (rules_of 5000)
       /\ r <= source_excess (rules_of 5000) source_data * 0.7.
Proof.
  apply (transfer_amount_caps (rules_of 5000) example_analysis example_transfer).
  rewrite example_transfers. by left.
Defined.

(** X10. A recommendation never pays for itself. When the source's
    utilization agrees with its inventory, the estimated storage savings
    are five cents per unit moved, the estimated cost is at least ten, and
    so the reported net benefit of every recommendation is negative and
    its reported return on investment is at most -50%. *)
Theorem transfer_never_pays (rules : business_rules_t)
    (ca : capacity_analysis_t) (t : transfer) (source_data : warehouse_data) :
  t ∈ identify_transfer_opportunities rules ca ->
  dict_get (source_warehouse t) ca = Some source_data ->
  consistent source_data ->
  net_benefit (cost_analysis t) < 0
  /\ roi_percentage (cost_analysis t) <= -50.
Proof.
  intros Ht Hsd Hcons. destruct (identify_emitted rules ca t Ht)
    as (sd & dd & Hs & Hd & Hne & Heq & Hpos).
  rewrite Hsd in Hs. injection Hs as <-.
  assert (Hq : recommended_transfer t
               = py_round (recommended_amount rules source_data dd))
    by (by rewrite Heq).
  rewrite Hq in Hpos. apply py_round_pos_half in Hpos.
  destruct (net_benefit_per_unit rules (source_warehouse t) source_data
              (destination_warehouse t) dd Hcons) as [Hsav Hnet].
  cbn zeta in Hsav, Hnet.
  destruct (distance_factor_bounds (source_warehouse t) (destination_warehouse t))
    as [Hf1 Hf2].
  set (r := recommended_amount rules source_data dd) in *.
  set (f := _get_distance_factor (source_warehouse t) (destination_warehouse t)) in *.
  rewrite Heq. cbn [cost_analysis _calculate_optimal_transfer net_benefit roi_percentage].
  fold r f. split.
  - apply Qle_lt_trans with (y := py_round_nd (- (1 # 40)) 2); [|by vm_compute].
    apply py_round_nd_mono. rewrite Hnet. nra.
  - assert (Hcost : 0 < r * 0.10 * f) by nra.
    apply Qgtb_true in Hcost. rewrite Hcost.
    apply Qle_trans with (y := py_round_nd (-50) 1); [|by vm_compute].
    apply py_round_nd_mono. rewrite Hnet.
    apply Qgtb_true in Hcost.
    apply div_pct_le; [done|].
    assert (Hhalf : -50 / 100 == - (1 # 2)) by reflexivity.
    rewrite Hhalf. nra.
Qed.

Lemma transfer_never_pays_witness :
  net_benefit (cost_analysis example_transfer) < 0
  /\ roi_percentage (cost_analysis example_transfer) <= -50.
Proof.
  apply (transfer_never_pays (rules_of 5000) example_analysis example_transfer
           (example_data "Atlanta" 100000 90000 90)).
  - rewrite example_transfers. by left.
  - by vm_compute.
  - split; by vm_compute.
Defined.

(** ** The distance factor *)

Lemma distance_factor_one_way (a b : string) (x : Q) :
  distance_factors !! (a, b) = Some x -> distance_factors !! (b, a) = None.
Proof.
  unfold distance_factors. intros H. apply elem_of_list_to_map_2 in H.
  repeat (apply elem_of_cons in H as [H|H];
          [injection H as -> -> _; by vm_compute|]).
  by apply elem_of_nil in H.
Qed.

(** X11. The distance factor of a transfer does not depend on its
    direction; it lies between 1.0 and 3.5, and it is 2.0 for a pair that
    the table does not list, such as a warehouse and itself. *)
Theorem distance_factor_symmetric (a b : string) :
  _get_distance_factor a b = _get_distance_factor b a
  /\ 1 <= _get_distance_factor a b <= 3.5
  /\ (distance_factors !! (a, b) = None -> distance_factors !! (b, a) = None ->
      _get_distance_factor a b = 2.0)
  /\ _get_distance_factor a a = 2.0.
Proof.
  split; [|split; [|split]].
  - unfold _get_distance_factor.
    destruct (distance_factors !! (a, b)) as [x|] eqn:Hab.
    + by rewrite (distance_factor_one_way a b x Hab).
    + destruct (distance_factors !! (b, a)) as [y|] eqn:Hba; done.
  - apply distance_factor_bounds.
  - unfold _get_distance_factor. by intros -> ->.
  - unfold _get_distance_factor.
    destruct (distance_factors !! (a, a)) as [x|] eqn:Haa; [|done].
    by rewrite (distance_factor_one_way a a x Haa) in Haa.
Qed.

(** ** The risk score *)

Lemma assess_capacity_risk_score (a m s : Q) :
  score (_assess_capacity_risk a m s) = spec_risk_score a m s.
Proof.
  unfold _assess_capacity_risk, spec_risk_score, spec_mean_points,
    spec_peak_points, spec_trend_points.
  destruct (trend_thresholds s) as [-> ->].
  destruct (Qgtb a 80), (Qgtb a 60), (Qgtb m 95), (Qgtb m 85),
    (Qgtb s 1), (Qgtb s (1 # 2)); reflexivity.
Qed.

Lemma Qgtb_mono (x y c : Q) : x <= y -> Qgtb x c = true -> Qgtb y c = true.
Proof. rewrite !Qgtb_true. lra. Qed.

Lemma spec_mean_points_mono (x y : Q) :
  x <= y -> (spec_mean_points x <= spec_mean_points y)%Z.
Proof.
  intros Hxy. unfold spec_mean_points.
  destruct (Qgtb x 80) eqn:H1.
  { by rewrite (Qgtb_mono x y 80 Hxy H1). }
  destruct (Qgtb x 60) eqn:H2.
  { rewrite (Qgtb_mono x y 60 Hxy H2). by destruct (Qgtb y 80). }
  by destruct (Qgtb y 80), (Qgtb y 60).
Qed.

Lemma spec_peak_points_mono (x y : Q) :
  x <= y -> (spec_peak_points x <= spec_peak_points y)%Z.
Proof.
  intros Hxy. unfold spec_peak_points.
  destruct (Qgtb x 95) eqn:H1.
  { by rewrite (Qgtb_mono x y 95 Hxy H1). }
  destruct (Qgtb x 85) eqn:H2.
  { rewrite (Qgtb_mono x y 85 Hxy H2). by destruct (Qgtb y 95). }
  by destruct (Qgtb y 95), (Qgtb y 85).
Qed.

Lemma spec_trend_points_mono (x y : Q) :
  x <= y -> (spec_trend_points x <= spec_trend_points y)%Z.
Proof.
  intros Hxy. unfold spec_trend_points.
  destruct (Qgtb x 1) eqn:H1.
  { by rewrite (Qgtb_mono x y 1 Hxy H1). }
  destruct (Qgtb x (1 # 2)) eqn:H2.
  { rewrite (Qgtb_mono x y (1 # 2) Hxy H2). by destruct (Qgtb y 1). }
  by destruct (Qgtb y 1), (Qgtb y (1 # 2)).
Qed.

(** X12. The risk score lies between 0 and 8 and never falls when the
    average utilization, the peak utilization or the trend slope rises.
    The assessment always names at least one factor, and it names
    ["Low risk profile"] exactly when the score is 0. *)
Theorem risk_score_monotone (avg_util max_util trend_slope : Q)
    (avg_util' max_util' trend_slope' : Q) :
  avg_util <= avg_util' -> max_util <= max_util' -> trend_slope <= trend_slope' ->
  let r := _assess_capacity_risk avg_util max_util trend_slope in
  let r' := _assess_capacity_risk avg_util' max_util' trend_slope' in
  (score r <= score r')%Z
  /\ (0 <= score r <= 8)%Z
  /\ factors r <> []
  /\ (factors r = ["Low risk profile"%string] <-> score r = 0%Z).
Proof.
  intros Ha Hm Hs. cbn zeta. split; [|split; [|split]].
  - rewrite !assess_capacity_risk_score. unfold spec_risk_score.
    pose proof (spec_mean_points_mono _ _ Ha).
    pose proof (spec_peak_points_mono _ _ Hm).
    pose proof (spec_trend_points_mono _ _ Hs). lia.
  - rewrite assess_capacity_risk_score.
    unfold spec_risk_score, spec_mean_points, spec_peak_points, spec_trend_points.
    destruct (Qgtb avg_util 80), (Qgtb avg_util 60), (Qgtb max_util 95),
      (Qgtb max_util 85), (Qgtb trend_slope 1), (Qgtb trend_slope (1 # 2)); lia.
  - unfold _assess_capacity_risk.
    destruct (Qgtb avg_util 80), (Qgtb avg_util 60), (Qgtb max_util 95),
      (Qgtb max_util 85), (Qgtb trend_slope 1.0), (Qgtb trend_slope 0.5); done.
  - unfold _assess_capacity_risk.
    destruct (Qgtb avg_util 80), (Qgtb avg_util 60), (Qgtb max_util 95),
      (Qgtb max_util 85), (Qgtb trend_slope 1.0), (Qgtb trend_slope 0.5);
      cbn; split; (done || lia || congruence).
Qed.

Lemma risk_score_monotone_witness :
  let r := _assess_capacity_risk 70 90 0 in
  let r' := _assess_capacity_risk 85 96 1.2 in
  (score r <= score r')%Z
  /\ (0 <= score r <= 8)%Z
  /\ factors r <> []
  /\ (factors r = ["Low risk profile"%string] <-> score r = 0%Z).
Proof.
  apply (risk_score_monotone 70 90 0 85 96 1.2); by vm_compute.
Defined.

(** ** Capacity alerts *)

Lemma insert_asc_perm {A} (key : A -> Z) (x : A) (l : list A) :
  insert_asc key x l ≡ₚ x :: l.
Proof.
  induction l as [|y l IH]; [done|]. cbn [insert_asc].
  destruct (key x <? key y)%Z; [done|].
  rewrite IH. apply Permutation_swap.
Qed.

Lemma sorted_asc_from_perm {A} (key : A -> Z) (l acc : list A) :
  fold_left (fun acc x => insert_asc key x acc) l acc ≡ₚ acc ++ l.
Proof.
  revert acc. induction l as [|x l IH]; intros acc; cbn [fold_left].
  - by rewrite app_nil_r.
  - rewrite IH, insert_asc_perm. cbn [app]. apply Permutation_middle.
Qed.

Lemma sorted_asc_perm {A} (key : A -> Z) (l : list A) : sorted_asc key l ≡ₚ l.
Proof. apply (sorted_asc_from_perm key l []). Qed.

(** A list in ascending order of its keys. *)
Definition ascending {A} (key : A -> Z) (l : list A) : Prop :=
  forall i j x y, (i < j)%nat -> l !! i = Some x -> l !! j = Some y ->
    (key x <= key y)%Z.

Lemma ascending_cons {A} (key : A -> Z) (x : A) (l : list A) :
  ascending key (x :: l)
  <-> (forall y, y ∈ l -> (key x <= key y)%Z) /\ ascending key l.
Proof.
  split.
  - intros H. split.
    + intros y Hy. apply list_elem_of_lookup in Hy as [j Hj].
      apply (H 0%nat (S j) x y); [lia | done | done].
    + intros i j a b Hij Ha Hb. apply (H (S i) (S j) a b); [lia | done | done].
  - intros [Hx Hl] i j a b Hij Ha Hb. destruct j as [|j]; [lia|].
    cbn in Hb. destruct i as [|i].
    + cbn in Ha. injection Ha as <-. apply Hx. by apply list_elem_of_lookup_2 in Hb.
    + cbn in Ha. apply (Hl i j a b); [lia | done | done].
Qed.

Lemma insert_asc_ascending {A} (key : A -> Z) (x : A) (l : list A) :
  ascending key l -> ascending key (insert_asc key x l).
Proof.
  induction l as [|y l IH]; intros Hl; cbn [insert_asc].
  - apply ascending_cons. split; [|done].
    intros y Hy. by apply elem_of_nil in Hy.
  - apply ascending_cons in Hl as [Hy Hl].
    destruct (key x <? key y)%Z eqn:Hxy.
    + apply Z.ltb_lt in Hxy. apply ascending_cons. split.
      * intros z Hz. apply elem_of_cons in Hz as [->|Hz]; [lia|].
        specialize (Hy z Hz). lia.
      * by apply ascending_cons.
    + apply Z.ltb_ge in Hxy. apply ascending_cons. split.
      * intros z Hz. rewrite insert_asc_perm in Hz.
        apply elem_of_cons in Hz as [->|Hz]; [done | by apply Hy].
      * by apply IH.
Qed.

Lemma sorted_asc_ascending {A} (key : A -> Z) (l : list A) :
  ascending key (sorted_asc key l).
Proof.
  unfold sorted_asc.
  assert (Hnil : ascending key []) by (intros i j x y _ H; by rewrite lookup_nil in H).
  revert Hnil. generalize (@nil A) as acc.
  induction l as [|x l IH]; intros acc Hacc; cbn [fold_left]; [done|].
  apply IH. by apply insert_asc_ascending.
Qed.

(** The alerts that the body of the loop adds for a warehouse. *)
Lemma alerts_step_app (alerts : list capacity_alert) (item : string * warehouse_data) :
  alerts_step alerts item = alerts ++ alerts_step [] item.
Proof.
  unfold alerts_step. set (u := utilization_metrics item.2).
  destruct (Qgtb (max_utilization u) 95); destruct (Qgtb (final_utilization u) 85);
    destruct (Qltb (final_utilization u) 30);
    destruct (bool_decide _ && Qgtb (final_utilization u) 70);
    cbn [app]; rewrite <- ?app_assoc, ?app_nil_r; done.
Qed.

Lemma alerts_loop (ca : capacity_analysis_t) (acc : list capacity_alert) :
  fold_left alerts_step ca acc = acc ++ flat_map (alerts_step []) ca.
Proof.
  revert acc. induction ca as [|item ca IH]; intros acc; cbn [fold_left flat_map].
  - by rewrite app_nil_r.
  - rewrite IH, alerts_step_app, <- app_assoc. done.
Qed.

Lemma capacity_alerts_perm (ca : capacity_analysis_t) :
  generate_capacity_alerts ca ≡ₚ flat_map (alerts_step []) ca.
Proof.
  unfold generate_capacity_alerts. rewrite sorted_asc_perm, alerts_loop. done.
Qed.

(** The readings of a record that decide its alerts. *)
Definition peak_of (d : warehouse_data) : Q := max_utilization (utilization_metrics d).
Definition final_of (d : warehouse_data) : Q := final_utilization (utilization_metrics d).
Definition increasing (d : warehouse_data) : Prop :=
  trend_direction (trend_analysis d) = "Increasing"%string.

Lemma alerts_step_elem (w : string) (d : warehouse_data) (a : capacity_alert) :
  a ∈ alerts_step [] (w, d) ->
  ca_warehouse a = w
  /\ ((ca_type a = OVER_CAPACITY_RISK /\ 95 < peak_of d)
      \/ (ca_type a = HIGH_UTILIZATION /\ peak_of d <= 95 /\ 85 < final_of d)
      \/ (ca_type a = UNDER_UTILIZATION /\ peak_of d <= 95 /\ final_of d < 30)
      \/ (ca_type a = CAPACITY_TREND_WARNING /\ increasing d /\ 70 < final_of d)).
Proof.
  unfold alerts_step, peak_of, final_of, increasing. cbn [fst snd].
  set (u := utilization_metrics d).
  destruct (Qgtb (max_utilization u) 95) eqn:H95;
    destruct (Qgtb (final_utilization u) 85) eqn:H85;
    destruct (Qltb (final_utilization u) 30) eqn:H30;
    destruct (bool_decide _) eqn:Hinc;
    destruct (Qgtb (final_utilization u) 70) eqn:H70;
    cbn [andb app];
    rewrite ?Qgtb_true, ?Qgtb_false, ?Qltb_true, ?Qltb_false in *;
    try apply bool_decide_eq_true_1 in Hinc;
    intros Ha;
    repeat (apply elem_of_cons in Ha as [->|Ha]; [cbn; split; [done|]; tauto|]);
    by apply elem_of_nil in Ha.
Qed.

Ltac pick_alert :=
  first [ by (eexists; split; [apply list_elem_of_here | reflexivity])
        | by (eexists; split;
              [apply list_elem_of_further, list_elem_of_here | reflexivity]) ].

Lemma alerts_step_types (w : string) (d : warehouse_data) :
  let has := fun ty => exists a, a ∈ alerts_step [] (w, d) /\ ca_type a = ty in
  (95 < peak_of d -> has OVER_CAPACITY_RISK)
  /\ (peak_of d <= 95 -> 85 < final_of d -> has HIGH_UTILIZATION)
  /\ (peak_of d <= 95 -> final_of d < 30 -> has UNDER_UTILIZATION)
  /\ (increasing d -> 70 < final_of d -> has CAPACITY_TREND_WARNING).
Proof.
  cbn zeta. unfold alerts_step, peak_of, final_of, increasing. cbn [fst snd].
  set (u := utilization_metrics d).
  split; [|split; [|split]].
  - intros H. apply Qgtb_true in H. rewrite H.
    destruct (bool_decide _ && _); cbn [app]; pick_alert.
  - intros H1 H2. apply Qgtb_false in H1. apply Qgtb_true in H2. rewrite H1, H2.
    destruct (bool_decide _ && _); cbn [app]; pick_alert.
  - intros H1 H2. apply Qgtb_false in H1.
    assert (Qgtb (final_utilization u) 85 = false) as H3
      by (apply Qgtb_false; lra).
    apply Qltb_true in H2. rewrite H1, H2, H3.
    destruct (bool_decide _ && _); cbn [app]; pick_alert.
  - intros H1 H2. apply Qgtb_true in H2. rewrite H2, bool_decide_eq_true_2 by done.
    cbn [andb].
    destruct (Qgtb (max_utilization u) 95); destruct (Qgtb (final_utilization u) 85);
      destruct (Qltb (final_utilization u) 30); cbn [app]; pick_alert.
Qed.

Lemma alerts_step_length (item : string * warehouse_data) :
  (length (alerts_step [] item) <= 2)%nat.
Proof.
  unfold alerts_step. set (u := utilization_metrics item.2).
  destruct (Qgtb (max_utilization u) 95); destruct (Qgtb (final_utilization u) 85);
    destruct (Qltb (final_utilization u) 30);
    destruct (bool_decide _ && Qgtb (final_utilization u) 70); cbn; lia.
Qed.

Lemma capacity_alerts_elem (ca : capacity_analysis_t) (a : capacity_alert) :
  a ∈ generate_capacity_alerts ca
  <-> exists w d, (w, d) ∈ ca /\ a ∈ alerts_step [] (w, d).
Proof.
  rewrite capacity_alerts_perm, list_elem_of_In, in_flat_map. split.
  - intros ([w d] & Hin & Ha). exists w, d. by rewrite !list_elem_of_In.
  - intros (w & d & Hin & Ha). exists (w, d). by rewrite <- !list_elem_of_In.
Qed.

Lemma same_key_same_data {V} (d : list (string * V)) (k : string) (v v' : V) :
  NoDup (map fst d) -> (k, v) ∈ d -> (k, v') ∈ d -> v = v'.
Proof.
  intros Hnd H1 H2. apply (dict_get_elem k v d Hnd) in H1.
  apply (dict_get_elem k v' d Hnd) in H2. congruence.
Qed.

(** X13. The capacity alerts of a warehouse. An over-capacity alert is
    raised exactly when the peak utilization exceeded 95%; otherwise a
    high-utilization alert exactly when the final utilization exceeds 85%,
    and otherwise an under-utilization alert exactly when it is below 30%,
    so a warehouse whose peak exceeded 95% gets neither of the two. A
    trend warning is raised, besides, exactly when the trend is increasing
    and the final utilization exceeds 70%. *)
Theorem capacity_alerts_of_warehouse (ca : capacity_analysis_t) (w : string)
    (d : warehouse_data) :
  NoDup (map fst ca) -> (w, d) ∈ ca ->
  let has := fun ty =>
    exists a, a ∈ generate_capacity_alerts ca /\ ca_warehouse a = w /\ ca_type a = ty in
  (has OVER_CAPACITY_RISK <-> 95 < peak_of d)
  /\ (has HIGH_UTILIZATION <-> peak_of d <= 95 /\ 85 < final_of d)
  /\ (has UNDER_UTILIZATION <-> peak_of d <= 95 /\ final_of d < 30)
  /\ (has CAPACITY_TREND_WARNING <-> increasing d /\ 70 < final_of d).
Proof.
  intros Hnd Hin. cbn zeta.
  assert (Hfrom : forall a, a ∈ generate_capacity_alerts ca -> ca_warehouse a = w ->
            a ∈ alerts_step [] (w, d)).
  { intros a Ha Hw. apply capacity_alerts_elem in Ha as (w' & d' & Hin' & Ha).
    destruct (alerts_step_elem w' d' a Ha) as [Hw' _]. rewrite Hw in Hw'. subst w'.
    by rewrite (same_key_same_data ca w d d' Hnd Hin Hin'). }
  assert (Hto : forall ty, (exists a, a ∈ alerts_step [] (w, d) /\ ca_type a = ty) ->
            exists a, a ∈ generate_capacity_alerts ca /\ ca_warehouse a = w
                      /\ ca_type a = ty).
  { intros ty (a & Ha & Hty). exists a. split; [|split; [|done]].
    - apply capacity_alerts_elem. by exists w, d.
    - by destruct (alerts_step_elem w d a Ha). }
  destruct (alerts_step_types w d) as (T1 & T2 & T3 & T4).
  split; [|split; [|split]]; (split; [intros (a & Ha & Hw & Hty) | intros H]).
  - destruct (alerts_step_elem w d a (Hfrom a Ha Hw)) as [_ Hc].
    rewrite Hty in Hc. destruct Hc as [[_ ?]|[[? _]|[[? _]|[? _]]]]; done.
  - apply Hto. by apply T1.
  - destruct (alerts_step_elem w d a (Hfrom a Ha Hw)) as [_ Hc].
    rewrite Hty in Hc. destruct Hc as [[? _]|[[_ ?]|[[? _]|[? _]]]]; done.
  - apply Hto. destruct H. by apply T2.
  - destruct (alerts_step_elem w d a (Hfrom a Ha Hw)) as [_ Hc].
    rewrite Hty in Hc. destruct Hc as [[? _]|[[? _]|[[_ ?]|[? _]]]]; done.
  - apply Hto. destruct H. by apply T3.
  - destruct (alerts_step_elem w d a (Hfrom a Ha Hw)) as [_ Hc].
    rewrite Hty in Hc. destruct Hc as [[? _]|[[? _]|[[? _]|[_ ?]]]]; done.
  - apply Hto. destruct H. by apply T4.
Qed.

Lemma capacity_alerts_of_warehouse_witness :
  let d := example_data "Atlanta" 100000 96000 96 in
  let has := fun ty =>
    exists a, a ∈ generate_capacity_alerts network_analysis
              /\ ca_warehouse a = "Atlanta"%string /\ ca_type a = ty in
  (has OVER_CAPACITY_RISK <-> 95 < peak_of d)
  /\ (has HIGH_UTILIZATION <-> peak_of d <= 95 /\ 85 < final_of d)
  /\ (has UNDER_UTILIZATION <-> peak_of d <= 95 /\ final_of d < 30)
  /\ (has CAPACITY_TREND_WARNING <-> increasing d /\ 70 < final_of d).
Proof.
  apply (capacity_alerts_of_warehouse network_analysis "Atlanta"
           (example_data "Atlanta" 100000 96000 96)).
  - apply (bool_decide_unpack _). by vm_compute.
  - by left.
Defined.

(** The severity and the priority that go with the type of an alert. *)
Definition graded (a : capacity_alert) : Prop :=
  match ca_type a with
  | OVER_CAPACITY_RISK => ca_priority a = 1%Z /\ ca_severity a = SEVERITY_HIGH
  | HIGH_UTILIZATION => ca_priority a = 2%Z /\ ca_severity a = SEVERITY_MEDIUM
  | UNDER_UTILIZATION => ca_priority a = 3%Z /\ ca_severity a = SEVERITY_LOW
  | CAPACITY_TREND_WARNING => ca_priority a = 2%Z /\ ca_severity a = SEVERITY_MEDIUM
  end.

Lemma alerts_step_graded (item : string * warehouse_data) (a : capacity_alert) :
  a ∈ alerts_step [] item -> graded a.
Proof.
  unfold alerts_step. set (u := utilization_metrics item.2).
  destruct (Qgtb (max_utilization u) 95); destruct (Qgtb (final_utilization u) 85);
    destruct (Qltb (final_utilization u) 30);
    destruct (bool_decide _ && Qgtb (final_utilization u) 70);
    cbn [app]; intros Ha;
    repeat (apply elem_of_cons in Ha as [->|Ha]; [by cbn|]);
    by apply elem_of_nil in Ha.
Qed.

Lemma flat_map_length_le {A B} (f : A -> list B) (n : nat) (l : list A) :
  (forall x, (length (f x) <= n)%nat) ->
  (length (flat_map f l) <= n * length l)%nat.
Proof.
  intros Hf. induction l as [|x l IH]; cbn [flat_map length]; [lia|].
  rewrite length_app. specialize (Hf x). lia.
Qed.

(** X14. The capacity alerts are listed in ascending order of priority:
    the over-capacity alerts (priority 1, severity high) come first, then
    the high-utilization alerts and the trend warnings (priority 2,
    severity medium), then the under-utilization alerts (priority 3,
    severity low). There are at most two alerts for each warehouse of the
    analysis. *)
Theorem capacity_alerts_order (ca : capacity_analysis_t) :
  let out := generate_capacity_alerts ca in
  (forall i j a b, (i < j)%nat -> out !! i = Some a -> out !! j = Some b ->
     (ca_priority a <= ca_priority b)%Z)
  /\ (forall a, a ∈ out -> graded a)
  /\ (length out <= 2 * length ca)%nat.
Proof.
  cbn zeta. split; [|split].
  - apply sorted_asc_ascending.
  - intros a Ha. apply capacity_alerts_elem in Ha as (w & d & _ & Ha).
    by apply (alerts_step_graded (w, d)).
  - rewrite capacity_alerts_perm. apply flat_map_length_le, alerts_step_length.
Qed.

Lemma capacity_alerts_order_witness :
  exists a b,
    generate_capacity_alerts network_analysis !! 0%nat = Some a
    /\ generate_capacity_alerts network_analysis !! 2%nat = Some b
    /\ (ca_priority a <= ca_priority b)%Z
    /\ graded a /\ graded b.
Proof.
  destruct (generate_capacity_alerts network_analysis !! 0%nat) as [a|] eqn:Ha;
    [|by vm_compute in Ha].
  destruct (generate_capacity_alerts network_analysis !! 2%nat) as [b|] eqn:Hb;
    [|by vm_compute in Hb].
  exists a, b. split; [done|]. split; [done|].
  destruct (capacity_alerts_order network_analysis) as (Hord & Hgr & _).
  split; [apply (Hord 0%nat 2%nat a b); (lia || done)|].
  split; apply Hgr; by eapply list_elem_of_lookup_2.
Defined.

End OptimizerFacts.

(** ** The scenario simulator on the heap *)

Module ScenarioRunFacts.

Import CapacityOptimizer PyNumFacts Heap ScenarioSimulator ScenarioValues Examples BaselineFacts OptimizerFacts.

(** ** Records in the heap *)

Section Records.

Variable h0 : heap.

(** The record at [l] refers to the dictionaries [d], which hold the value
    [v]; none of these objects is an object of the initial heap. *)
Definition refs_at (h : heap) (l : loc) (d : data_refs) : Prop :=
  h !! l = Some (OData (r_info d) (r_metrics d) (r_trend d) (r_risk d) (r_timeline d)).

Definition holds (h : heap) (d : data_refs) (v : warehouse_data) : Prop :=
  h !! r_info d = Some (OInfo (warehouse_info v))
  /\ h !! r_metrics d = Some (OMetrics (utilization_metrics v))
  /\ h !! r_trend d = Some (OTrend (trend_analysis v))
  /\ h !! r_risk d = Some (ORisk (risk_assessment v))
  /\ h !! r_timeline d = Some (OTimeline (timeline_data v)).

Definition footprint (l : loc) (d : data_refs) : list loc :=
  [l; r_info d; r_metrics d; r_trend d; r_risk d; r_timeline d].

Definition owned (h : heap) (l : loc) (d : data_refs) (v : warehouse_data) : Prop :=
  refs_at h l d /\ holds h d v /\ forall x, x ∈ footprint l d -> x ∉ dom h0.

Lemma read_data_record h l v :
  read_data h l = Some v <-> exists d, refs_at h l d /\ holds h d v.
Proof.
  unfold read_data, refs_at, holds. split.
  - destruct (h !! l) as [[| | | | |i m t r tl]|] eqn:Hl; try done.
    destruct (h !! i) as [[vi| | | | |]|] eqn:Hi; try done.
    destruct (h !! m) as [[|vm| | | |]|] eqn:Hm; try done.
    destruct (h !! t) as [[| |vt| | |]|] eqn:Ht; try done.
    destruct (h !! r) as [[| | |vr| |]|] eqn:Hr; try done.
    destruct (h !! tl) as [[| | | |vl|]|] eqn:Htl; try done.
    intros [= <-].
    exists {| r_info := i; r_metrics := m; r_trend := t; r_risk := r;
              r_timeline := tl |}. done.
  - intros ([i m t r tl] & Hl & Hi & Hm & Ht & Hr & Htl). cbn in *.
    rewrite Hl, Hi, Hm, Ht, Hr, Htl. by destruct v.
Qed.

Lemma footprint_distinct h l d v :
  refs_at h l d -> holds h d v -> NoDup (footprint l d).
Proof.
  unfold refs_at, holds, footprint. intros Hl (Hi & Hm & Ht & Hr & Htl).
  repeat (apply NoDup_cons; split;
          [rewrite ?elem_of_cons, elem_of_nil; intros H;
           repeat (destruct H as [H|H]; [congruence|]); done|]).
  apply NoDup_nil_2.
Qed.

Lemma footprint_dom h l d v x :
  refs_at h l d -> holds h d v -> x ∈ footprint l d -> x ∈ dom h.
Proof.
  unfold refs_at, holds, footprint. intros Hl (Hi & Hm & Ht & Hr & Htl) Hx.
  apply elem_of_dom.
  repeat (apply elem_of_cons in Hx as [->|Hx]; [by eexists|]).
  by apply elem_of_nil in Hx.
Qed.

(** A write to an object that is none of the initial heap. *)
Lemma extends_insert h x o : extends h0 h -> x ∉ dom h0 -> extends h0 (<[x := o]> h).
Proof.
  intros He Hx l Hl. rewrite lookup_insert_ne; [by apply He|]. by intros <-.
Qed.

Lemma extends_alloc h : extends h0 h -> fresh (dom h) ∉ dom h0.
Proof.
  intros He Hin. apply (is_fresh (dom h)). apply elem_of_dom.
  rewrite (He _ Hin). by apply elem_of_dom.
Qed.

(** *** The operations on a record of one's own *)

Lemma bind_some {A B} (m : M A) (f : A -> M B) (h : heap) (a : A) (h1 : heap) :
  m h = Some (a, h1) -> (m ≫= f) h = f a h1.
Proof. unfold mbind, M_bind. by intros ->. Qed.

Lemma load_data_owned h l d v : owned h l d v -> load_data l h = Some (d, h).
Proof. intros (Hl & _). unfold load_data. rewrite Hl. by destruct d. Qed.

Lemma get_info_owned h l d v :
  owned h l d v -> get_info l h = Some (warehouse_info v, h).
Proof.
  intros Ho. unfold get_info. rewrite (bind_some _ _ _ _ _ (load_data_owned _ _ _ _ Ho)).
  destruct Ho as (_ & (Hi & _) & _). unfold load_info. by rewrite Hi.
Qed.

Lemma get_metrics_owned h l d v :
  owned h l d v -> get_metrics l h = Some (utilization_metrics v, h).
Proof.
  intros Ho. unfold get_metrics.
  rewrite (bind_some _ _ _ _ _ (load_data_owned _ _ _ _ Ho)).
  destruct Ho as (_ & (_ & Hm & _) & _). unfold load_metrics. by rewrite Hm.
Qed.

Ltac differ := let H := fresh in intros H; subst; congruence.

Lemma modify_info_owned h l d v f :
  extends h0 h -> owned h l d v ->
  exists h',
    modify_info l f h = Some (tt, h')
    /\ extends h0 h' /\ owned h' l d (on_info f v)
    /\ forall x, x <> r_info d -> h' !! x = h !! x.
Proof.
  intros He Ho. exists (<[r_info d := OInfo (f (warehouse_info v))]> h).
  split; [|split; [|split]].
  - unfold modify_info. rewrite (bind_some _ _ _ _ _ (load_data_owned _ _ _ _ Ho)).
    destruct Ho as (_ & (Hi & _) & _).
    assert (Hload : load_info (r_info d) h = Some (warehouse_info v, h))
      by (unfold load_info; by rewrite Hi).
    by rewrite (bind_some _ _ _ _ _ Hload).
  - apply extends_insert; [done|]. apply Ho. unfold footprint. set_solver.
  - destruct Ho as (Hl & (Hi & Hm & Ht & Hr & Htl) & Hfresh).
    unfold owned, refs_at, holds in *. destruct d as [i m t r tl]. cbn in *.
    split; [rewrite lookup_insert_ne; [done | differ]|]. split; [|done].
    rewrite lookup_insert_eq.
    rewrite !lookup_insert_ne by differ. done.
  - intros x Hx. by rewrite lookup_insert_ne.
Qed.

Lemma modify_metrics_owned h l d v f :
  extends h0 h -> owned h l d v ->
  exists h',
    modify_metrics l f h = Some (tt, h')
    /\ extends h0 h' /\ owned h' l d (on_metrics f v)
    /\ forall x, x <> r_metrics d -> h' !! x = h !! x.
Proof.
  intros He Ho. exists (<[r_metrics d := OMetrics (f (utilization_metrics v))]> h).
  split; [|split; [|split]].
  - unfold modify_metrics.
    rewrite (bind_some _ _ _ _ _ (load_data_owned _ _ _ _ Ho)).
    destruct Ho as (_ & (_ & Hm & _) & _).
    assert (Hload : load_metrics (r_metrics d) h = Some (utilization_metrics v, h))
      by (unfold load_metrics; by rewrite Hm).
    by rewrite (bind_some _ _ _ _ _ Hload).
  - apply extends_insert; [done|]. apply Ho. unfold footprint. set_solver.
  - destruct Ho as (Hl & (Hi & Hm & Ht & Hr & Htl) & Hfresh).
    unfold owned, refs_at, holds in *. destruct d as [i m t r tl]. cbn in *.
    split; [rewrite lookup_insert_ne; [done | differ]|]. split; [|done].
    rewrite lookup_insert_eq.
    rewrite !lookup_insert_ne by differ. done.
  - intros x Hx. by rewrite lookup_insert_ne.
Qed.

Lemma modify_trend_owned h l d v f :
  extends h0 h -> owned h l d v ->
  exists h',
    modify_trend l f h = Some (tt, h')
    /\ extends h0 h' /\ owned h' l d (on_trend f v).
Proof.
  intros He Ho. exists (<[r_trend d := OTrend (f (trend_analysis v))]> h).
  split; [|split].
  - unfold modify_trend.
    rewrite (bind_some _ _ _ _ _ (load_data_owned _ _ _ _ Ho)).
    destruct Ho as (_ & (_ & _ & Ht & _) & _).
    assert (Hload : load_trend (r_trend d) h = Some (trend_analysis v, h))
      by (unfold load_trend; by rewrite Ht).
    by rewrite (bind_some _ _ _ _ _ Hload).
  - apply extends_insert; [done|]. apply Ho. unfold footprint. set_solver.
  - destruct Ho as (Hl & (Hi & Hm & Ht & Hr & Htl) & Hfresh).
    unfold owned, refs_at, holds in *. destruct d as [i m t r tl]. cbn in *.
    split; [rewrite lookup_insert_ne; [done | differ]|]. split; [|done].
    rewrite lookup_insert_eq.
    rewrite !lookup_insert_ne by differ. done.
Qed.

Lemma set_risk_owned h l d v risk :
  extends h0 h -> owned h l d v ->
  exists h' d',
    set_risk l risk h = Some (tt, h')
    /\ extends h0 h' /\ owned h' l d' (with_risk risk v).
Proof.
  intros He Ho. set (r' := fresh (dom h)).
  exists (<[l := OData (r_info d) (r_metrics d) (r_trend d) r' (r_timeline d)]>
            (<[r' := ORisk risk]> h)),
    {| r_info := r_info d; r_metrics := r_metrics d; r_trend := r_trend d;
       r_risk := r'; r_timeline := r_timeline d |}.
  assert (Hr' : r' ∉ dom h) by apply is_fresh.
  assert (Hr0 : r' ∉ dom h0) by by apply extends_alloc.
  split; [|split].
  - unfold set_risk. rewrite (bind_some _ _ _ _ _ (load_data_owned _ _ _ _ Ho)). done.
  - apply extends_insert; [by apply extends_insert|].
    apply Ho. unfold footprint. set_solver.
  - destruct Ho as (Hl & (Hi & Hm & Ht & Hr & Htl) & Hfresh).
    assert (Hne : forall x o, h !! x = Some o -> x <> r').
    { intros x o Hx ->. apply Hr', elem_of_dom. by eexists. }
    unfold owned, refs_at, holds, footprint in *. destruct d as [i m t r tl]. cbn in *.
    pose proof (Hne _ _ Hl) as Nl. pose proof (Hne _ _ Hi) as Ni.
    pose proof (Hne _ _ Hm) as Nm. pose proof (Hne _ _ Ht) as Nt.
    pose proof (Hne _ _ Htl) as Ntl.
    split; [by rewrite lookup_insert_eq|]. split.
    + split; [|split; [|split; [|split]]].
      * rewrite lookup_insert_ne by differ. by rewrite lookup_insert_ne.
      * rewrite lookup_insert_ne by differ. by rewrite lookup_insert_ne.
      * rewrite lookup_insert_ne by differ. by rewrite lookup_insert_ne.
      * rewrite lookup_insert_ne by done. by rewrite lookup_insert_eq.
      * rewrite lookup_insert_ne by differ. by rewrite lookup_insert_ne.
    + intros x Hx. rewrite !elem_of_cons, elem_of_nil in Hx.
      destruct Hx as [->|[->|[->|[->|[->|[->|[]]]]]]]; try done;
        apply Hfresh; set_solver.
Qed.

Lemma recalculate_owned h l d v :
  extends h0 h -> owned h l d v ->
  exists h',
    recalculate_available_capacity l h = Some (tt, h')
    /\ extends h0 h' /\ owned h' l d (recalculated v).
Proof.
  intros He Ho. unfold recalculate_available_capacity.
  rewrite (bind_some _ _ _ _ _ (get_info_owned _ _ _ _ Ho)).
  destruct (modify_info_owned h l d v
              (with_available_capacity
                 (max_capacity (warehouse_info v) - current_inventory (warehouse_info v)))
              He Ho) as (h1 & H1 & He1 & Ho1 & _).
  rewrite (bind_some _ _ _ _ _ H1).
  rewrite (bind_some _ _ _ _ _ (get_info_owned _ _ _ _ Ho1)).
  destruct (modify_info_owned h1 l d _
              (with_available_capacity_pct
                 (available_capacity (warehouse_info (on_info (with_available_capacity
                   (max_capacity (warehouse_info v) - current_inventory (warehouse_info v))) v))
                  / max_capacity (warehouse_info (on_info (with_available_capacity
                   (max_capacity (warehouse_info v) - current_inventory (warehouse_info v))) v))
                  * 100))
              He1 Ho1) as (h2 & H2 & He2 & Ho2 & _).
  exists h2. split; [exact H2|]. split; [done|]. exact Ho2.
Qed.

Lemma apply_warehouse_changes_owned h l d v changes :
  extends h0 h -> owned h l d v ->
  exists h' d',
    apply_warehouse_changes l changes h = Some (tt, h')
    /\ extends h0 h' /\ owned h' l d' (changed_data changes v).
Proof.
  intros He Ho. unfold apply_warehouse_changes, changed_data.
  (* Update inventory level *)
  set (v1 := match target_utilization changes with
             | Some target =>
                 on_metrics (with_final_utilization target)
                   (on_info (with_current_inventory
                               (inject_Z (py_round (max_capacity (warehouse_info v)
                                                    * (target / 100))))) v)
             | None => v
             end).
  assert (exists h1,
            match target_utilization changes with
            | Some target =>
                vi ← get_info l;
                modify_info l
                  (with_current_inventory
                     (inject_Z (py_round (max_capacity vi * (target / 100)))));;
                modify_metrics l (with_final_utilization target)
            | None => mret tt
            end h = Some (tt, h1)
            /\ extends h0 h1 /\ owned h1 l d v1) as (h1 & H1 & He1 & Ho1).
  { unfold v1. destruct (target_utilization changes) as [target|].
    - rewrite (bind_some _ _ _ _ _ (get_info_owned _ _ _ _ Ho)).
      destruct (modify_info_owned h l d v
                  (with_current_inventory
                     (inject_Z (py_round (max_capacity (warehouse_info v)
                                          * (target / 100))))) He Ho)
        as (ha & Ha & Hea & Hoa & _).
      rewrite (bind_some _ _ _ _ _ Ha).
      destruct (modify_metrics_owned ha l d _ (with_final_utilization target) Hea Hoa)
        as (hb & Hb & Heb & Hob & _).
      by exists hb.
    - by exists h. }
  rewrite (bind_some _ _ _ _ _ H1).
  (* Update trend direction *)
  set (v2 := match wc_trend_direction changes with
             | Some direction => on_trend (with_trend_direction direction) v1
             | None => v1
             end).
  assert (exists h2,
            match wc_trend_direction changes with
            | Some direction => modify_trend l (with_trend_direction direction)
            | None => mret tt
            end h1 = Some (tt, h2)
            /\ extends h0 h2 /\ owned h2 l d v2) as (h2 & H2 & He2 & Ho2).
  { unfold v2. destruct (wc_trend_direction changes) as [direction|].
    - destruct (modify_trend_owned h1 l d v1 (with_trend_direction direction) He1 Ho1)
        as (ha & Ha & Hea & Hoa).
      by exists ha.
    - by exists h1. }
  rewrite (bind_some _ _ _ _ _ H2).
  (* Update risk assessment and recalculate available capacity *)
  rewrite (bind_some _ _ _ _ _ (get_metrics_owned _ _ _ _ Ho2)).
  destruct (set_risk_owned h2 l d v2
              (_assess_capacity_risk (final_utilization (utilization_metrics v2))
                 (final_utilization (utilization_metrics v2) + 2)
                 (if decide (wc_trend_direction changes = Some "Increasing"%string)
                  then 1.0 else 0)) He2 Ho2)
    as (h3 & d3 & H3 & He3 & Ho3).
  rewrite (bind_some _ _ _ _ _ H3).
  destruct (recalculate_owned h3 l d3 _ He3 Ho3) as (h4 & H4 & He4 & Ho4).
  by exists h4, d3.
Qed.

(** *** Deep copies *)

Lemma extends_subseteq (h h' : heap) : extends h0 h -> h ⊆ h' -> extends h0 h'.
Proof.
  intros He Hsub l Hl. pose proof (He l Hl) as Hh.
  apply elem_of_dom in Hl as [o Ho]. rewrite Ho in *.
  by apply (lookup_weaken h).
Qed.

Lemma alloc_subseteq (h : heap) (o : obj) : h ⊆ <[fresh (dom h) := o]> h.
Proof. apply insert_subseteq, not_elem_of_dom, is_fresh. Qed.

Lemma fresh_not_initial (h : heap) : extends h0 h -> fresh (dom h) ∉ dom h0.
Proof. apply extends_alloc. Qed.

Lemma deep_copy_owned h data v :
  extends h0 h -> read_data h data = Some v ->
  exists l' d' h',
    deep_copy_dict data h = Some (l', h')
    /\ h ⊆ h' /\ extends h0 h' /\ owned h' l' d' v
    /\ forall x, x ∈ footprint l' d' -> x ∉ dom h.
Proof.
  intros He Hv. apply read_data_record in Hv as (d & Hl & Hi & Hm & Ht & Hr & Htl).
  set (h1 := <[fresh (dom h) := OInfo (warehouse_info v)]> h).
  set (h2 := <[fresh (dom h1) := OMetrics (utilization_metrics v)]> h1).
  set (h3 := <[fresh (dom h2) := OTrend (trend_analysis v)]> h2).
  set (h4 := <[fresh (dom h3) := ORisk (risk_assessment v)]> h3).
  set (h5 := <[fresh (dom h4) := OTimeline (timeline_data v)]> h4).
  set (d' := {| r_info := fresh (dom h); r_metrics := fresh (dom h1);
                r_trend := fresh (dom h2); r_risk := fresh (dom h3);
                r_timeline := fresh (dom h4) |}).
  set (h6 := <[fresh (dom h5) :=
                 OData (r_info d') (r_metrics d') (r_trend d') (r_risk d')
                   (r_timeline d')]> h5).
  assert (S1 : h ⊆ h1) by apply alloc_subseteq.
  assert (S2 : h1 ⊆ h2) by apply alloc_subseteq.
  assert (S3 : h2 ⊆ h3) by apply alloc_subseteq.
  assert (S4 : h3 ⊆ h4) by apply alloc_subseteq.
  assert (S5 : h4 ⊆ h5) by apply alloc_subseteq.
  assert (S6 : h5 ⊆ h6) by apply alloc_subseteq.
  assert (T2 : h ⊆ h2) by (by etrans).
  assert (T3 : h ⊆ h3) by (by etrans).
  assert (T4 : h ⊆ h4) by (by etrans).
  assert (T5 : h ⊆ h5) by (by etrans).
  assert (T6 : h ⊆ h6) by (by etrans).
  assert (U4 : h4 ⊆ h6) by (by etrans).
  assert (U3 : h3 ⊆ h6) by (by etrans).
  assert (U2 : h2 ⊆ h6) by (by etrans).
  assert (U1 : h1 ⊆ h6) by (by etrans).
  exists (fresh (dom h5)), d', h6.
  split; [|split; [done|split; [by apply extends_subseteq with (h := h)|split]]].
  - unfold deep_copy_dict.
    assert (Hd : load_data data h = Some (d, h))
      by (unfold load_data; rewrite Hl; by destruct d).
    rewrite (bind_some _ _ _ _ _ Hd).
    assert (L1 : load_info (r_info d) h = Some (warehouse_info v, h))
      by (unfold load_info; by rewrite Hi).
    assert (L2 : load_metrics (r_metrics d) h = Some (utilization_metrics v, h))
      by (unfold load_metrics; by rewrite Hm).
    assert (L3 : load_trend (r_trend d) h = Some (trend_analysis v, h))
      by (unfold load_trend; by rewrite Ht).
    assert (L4 : load_risk (r_risk d) h = Some (risk_assessment v, h))
      by (unfold load_risk; by rewrite Hr).
    assert (L5 : load_timeline (r_timeline d) h = Some (timeline_data v, h))
      by (unfold load_timeline; by rewrite Htl).
    rewrite (bind_some _ _ _ _ _ L1), (bind_some _ _ _ _ _ L2),
      (bind_some _ _ _ _ _ L3), (bind_some _ _ _ _ _ L4), (bind_some _ _ _ _ _ L5).
    done.
  - split; [|split].
    + unfold refs_at, h6. by rewrite lookup_insert_eq.
    + unfold holds. cbn [r_info r_metrics r_trend r_risk r_timeline d'].
      split; [|split; [|split; [|split]]].
      * apply (lookup_weaken h1); [apply lookup_insert_eq | done].
      * apply (lookup_weaken h2); [apply lookup_insert_eq | done].
      * apply (lookup_weaken h3); [apply lookup_insert_eq | done].
      * apply (lookup_weaken h4); [apply lookup_insert_eq | done].
      * apply (lookup_weaken h5); [apply lookup_insert_eq | done].
    + intros x Hx. unfold footprint in Hx.
      cbn [r_info r_metrics r_trend r_risk r_timeline d'] in Hx.
      rewrite !elem_of_cons, elem_of_nil in Hx.
      destruct Hx as [->|[->|[->|[->|[->|[->|[]]]]]]];
        apply fresh_not_initial; by eapply extends_subseteq.
  - intros x Hx. unfold footprint in Hx.
    cbn [r_info r_metrics r_trend r_risk r_timeline d'] in Hx.
    rewrite !elem_of_cons, elem_of_nil in Hx.
    assert (Hmono : forall h', h ⊆ h' -> fresh (dom h') ∉ dom h).
    { intros h' Hsub Hin. apply (is_fresh (dom h')).
      apply elem_of_dom in Hin as [o Ho]. apply elem_of_dom. exists o.
      by apply (lookup_weaken h). }
    destruct Hx as [->|[->|[->|[->|[->|[->|[]]]]]]]; by apply Hmono.
Qed.

End Records.

(** ** The scenario of a baseline *)

Lemma extends_refl (h : heap) : extends h h.
Proof. by intros l Hl. Qed.

Lemma extends_trans (h1 h2 h3 : heap) : extends h1 h2 -> extends h2 h3 -> extends h1 h3.
Proof.
  intros H12 H23 l Hl. rewrite <- (H12 l Hl). apply H23.
  apply elem_of_dom. rewrite (H12 l Hl). by apply elem_of_dom.
Qed.

Lemma extends_dom_subseteq (h h' : heap) : extends h h' -> dom h ⊆ dom h'.
Proof.
  intros He l Hl. apply elem_of_dom. rewrite (He l Hl). by apply elem_of_dom.
Qed.

(** The body of the loop makes a record of its own with the value of the
    scenario, and writes to no object that exists before it. *)
Lemma scenario_step_owned cfg a w data h v :
  read_data h data = Some v ->
  exists l' d' h',
    scenario_step cfg a (w, data) h = Some (dict_set w l' a, h')
    /\ extends h h' /\ owned h h' l' d' (scenario_data_of cfg w v).
Proof.
  intros Hv. unfold scenario_step, scenario_data_of. cbn [fst snd].
  destruct (deep_copy_owned h h data v (extends_refl h) Hv)
    as (l1 & d1 & h1 & Hcopy & _ & He1 & Ho1 & _).
  rewrite (bind_some _ _ _ _ _ Hcopy).
  destruct (dict_get w (warehouse_changes cfg)) as [changes|].
  - destruct (has_changes changes).
    + destruct (apply_warehouse_changes_owned h h1 l1 d1 v changes He1 Ho1)
        as (h2 & d2 & Hch & He2 & Ho2).
      rewrite (bind_some _ _ _ _ _ Hch). by exists l1, d2, h2.
    + by exists l1, d1, h1.
  - by exists l1, d1, h1.
Qed.

(** The records of a scenario under construction: key, reference,
    dictionaries and value. *)
Record entry := {
  e_key : string; e_loc : loc; e_refs : data_refs; e_value : warehouse_data
}.

Definition refs_of (es : list entry) : analysis_refs :=
  map (fun e => (e_key e, e_loc e)) es.

Definition values_of (es : list entry) : capacity_analysis_t :=
  map (fun e => (e_key e, e_value e)) es.

Definition footprints (es : list entry) : list loc :=
  flat_map (fun e => footprint (e_loc e) (e_refs e)) es.

(** Records of their own, none of the initial heap [hb], that share no
    object. *)
Definition separate (hb h : heap) (es : list entry) : Prop :=
  Forall (fun e => owned hb h (e_loc e) (e_refs e) (e_value e)) es
  /\ NoDup (footprints es).

Lemma owned_read hb h l d v : owned hb h l d v -> read_data h l = Some v.
Proof. intros (Hl & Hv & _). apply read_data_record. by exists d. Qed.

Lemma separate_read hb h es :
  separate hb h es -> read_analysis h (refs_of es) = Some (values_of es).
Proof.
  intros [Hall _]. induction Hall as [|e es He Hes IH]; [done|].
  cbn [refs_of values_of map read_analysis].
  rewrite (owned_read _ _ _ _ _ He). unfold refs_of, values_of in IH. by rewrite IH.
Qed.

Lemma owned_extends hb h h' l d v :
  owned hb h l d v -> extends h h' -> owned hb h' l d v.
Proof.
  intros (Hl & Hv & Hfresh) He.
  assert (Hk : forall x o, h !! x = Some o -> h' !! x = Some o).
  { intros x o Hx. rewrite He; [done|]. apply elem_of_dom. by eexists. }
  split; [by apply Hk|]. split; [|done].
  destruct Hv as (Hi & Hm & Ht & Hr & Htl).
  split; [|split; [|split; [|split]]]; by apply Hk.
Qed.

Lemma owned_initial hb h h' l d v :
  extends hb h -> owned h h' l d v -> owned hb h' l d v.
Proof.
  intros He (Hl & Hv & Hfresh). split; [done|]. split; [done|].
  intros x Hx Hin. apply (Hfresh x Hx). by apply (extends_dom_subseteq hb h).
Qed.

Lemma footprints_dom hb h es x :
  separate hb h es -> x ∈ footprints es -> x ∈ dom h.
Proof.
  intros [Hall _] Hx. unfold footprints in Hx.
  apply list_elem_of_In, in_flat_map in Hx as (e & He & Hx).
  apply list_elem_of_In in He. apply list_elem_of_In in Hx.
  rewrite Forall_forall in Hall. destruct (Hall e He) as (Hl & Hv & _).
  by eapply footprint_dom.
Qed.

Lemma separate_snoc hb h h' es l d v w :
  extends hb h -> separate hb h es -> extends h h' -> owned h h' l d v ->
  separate hb h'
    (es ++ [ {| e_key := w; e_loc := l; e_refs := d; e_value := v |} ]).
Proof.
  intros Hb Hsep He Ho. pose proof Hsep as [Hall Hnd]. split.
  - apply Forall_app. split.
    + eapply Forall_impl; [exact Hall|]. intros e Hown.
      exact (owned_extends _ _ _ _ _ _ Hown He).
    + apply Forall_singleton. exact (owned_initial _ _ _ _ _ _ Hb Ho).
  - unfold footprints. rewrite flat_map_app. cbn [flat_map]. rewrite app_nil_r.
    apply NoDup_app. split; [done|]. split.
    + intros x Hx Hnew. destruct Ho as (_ & _ & Hfresh).
      apply (Hfresh x Hnew). by eapply footprints_dom.
    + destruct Ho as (Hl & Hv & _). by eapply footprint_distinct.
Qed.

Lemma refs_of_snoc es e : refs_of (es ++ [e]) = refs_of es ++ [(e_key e, e_loc e)].
Proof. unfold refs_of. by rewrite map_app. Qed.

Lemma map_fst_refs_of es : map fst (refs_of es) = map e_key es.
Proof. unfold refs_of. rewrite map_map. done. Qed.

(** The loop over the baseline. *)
Lemma for_each_scenario_owned cfg hb items :
  forall es h vs,
    extends hb h -> separate hb h es ->
    read_analysis hb items = Some vs ->
    NoDup (map e_key es ++ map fst items) ->
    exists es' h',
      for_each (scenario_step cfg) items (refs_of es) h
      = Some (refs_of (es ++ es'), h')
      /\ extends hb h' /\ separate hb h' (es ++ es')
      /\ values_of es'
         = map (fun item => (item.1, scenario_data_of cfg item.1 item.2)) vs.
Proof.
  induction items as [|[w data] items IH]; intros es h vs Hb Hsep Hvs Hnd.
  - cbn in Hvs. injection Hvs as <-. exists [], h. rewrite app_nil_r. done.
  - cbn [read_analysis] in Hvs.
    destruct (read_data hb data) as [v|] eqn:Hv; [|done].
    destruct (read_analysis hb items) as [rest|] eqn:Hrest; [|done].
    injection Hvs as <-.
    pose proof (read_data_frame hb h data v Hb Hv) as Hv'.
    destruct (scenario_step_owned cfg (refs_of es) w data h v Hv')
      as (l' & d' & h1 & Hstep & He1 & Ho1).
    cbn [for_each]. rewrite (bind_some _ _ _ _ _ Hstep).
    cbn [map fst] in Hnd.
    assert (Hw : w ∉ map fst (refs_of es)).
    { rewrite map_fst_refs_of. apply NoDup_app in Hnd as (_ & Hdis & _).
      intros Hin. apply (Hdis w Hin). by left. }
    rewrite (ScenarioFacts.dict_set_fresh w l' (refs_of es) Hw).
    set (e := {| e_key := w; e_loc := l'; e_refs := d';
                 e_value := scenario_data_of cfg w v |}).
    change (refs_of es ++ [(w, l')]) with (refs_of es ++ [(e_key e, e_loc e)]).
    rewrite <- refs_of_snoc.
    destruct (IH (es ++ [e]) h1 rest) as (es' & h' & Hfor & Hb' & Hsep' & Hvals).
    + by apply (extends_trans hb h h1).
    + by apply (separate_snoc hb h h1).
    + done.
    + rewrite map_app. cbn [map e_key e]. rewrite <- app_assoc. done.
    + exists (e :: es'), h'. rewrite <- app_assoc in Hfor, Hsep'. cbn [app] in *.
      split; [done|]. split; [done|]. split; [done|].
      cbn [values_of map]. unfold values_of in Hvals. by rewrite Hvals.
Qed.

(** *** The donation *)

Definition with_value (v : warehouse_data) (e : entry) : entry :=
  {| e_key := e_key e; e_loc := e_loc e; e_refs := e_refs e; e_value := v |}.

Lemma find_entry (k : string) (l : loc) (es : list entry) :
  dict_get k (refs_of es) = Some l ->
  exists es1 e es2,
    es = es1 ++ e :: es2 /\ e_key e = k /\ e_loc e = l /\ k ∉ map e_key es1.
Proof.
  induction es as [|e es IH]; [done|]. cbn [refs_of map dict_get].
  destruct (decide (e_key e = k)) as [Hk|Hk].
  - intros [= <-]. exists [], e, es. split; [done|]. split; [done|]. split; [done|].
    cbn. apply not_elem_of_nil.
  - intros Hl. destruct (IH Hl) as (es1 & e' & es2 & -> & Hk' & Hl' & Hn).
    exists (e :: es1), e', es2. split; [done|]. split; [done|]. split; [done|].
    cbn [map]. apply not_elem_of_cons. split; [by intros -> | done].
Qed.

Lemma dict_get_refs_none (k : string) (es : list entry) :
  dict_get k (refs_of es) = None -> dict_get k (values_of es) = None.
Proof.
  induction es as [|e es IH]; [done|]. cbn [refs_of values_of map dict_get].
  destruct (decide (e_key e = k)); [done | exact IH].
Qed.

Lemma dict_get_values (es1 es2 : list entry) (e : entry) :
  e_key e ∉ map e_key es1 ->
  dict_get (e_key e) (values_of (es1 ++ e :: es2)) = Some (e_value e).
Proof.
  induction es1 as [|e1 es1 IH]; intros Hn; cbn [app values_of map dict_get].
  - by rewrite decide_True.
  - cbn [map] in Hn. apply not_elem_of_cons in Hn as [Hne Hn].
    rewrite decide_False by done. by apply IH.
Qed.

Lemma dict_set_values (es1 es2 : list entry) (e : entry) (v : warehouse_data) :
  e_key e ∉ map e_key es1 ->
  dict_set (e_key e) v (values_of (es1 ++ e :: es2))
  = values_of (es1 ++ with_value v e :: es2).
Proof.
  induction es1 as [|e1 es1 IH]; intros Hn; cbn [app values_of map dict_set].
  - by rewrite decide_True.
  - cbn [map] in Hn. apply not_elem_of_cons in Hn as [Hne Hn].
    rewrite decide_False by done. f_equal. by apply IH.
Qed.

Lemma owned_frame hb h h' l d v (x1 x2 : loc) :
  owned hb h l d v ->
  (forall x, x <> x1 -> x <> x2 -> h' !! x = h !! x) ->
  x1 ∉ footprint l d -> x2 ∉ footprint l d ->
  owned hb h' l d v.
Proof.
  intros (Hl & Hv & Hfresh) Hfr H1 H2.
  assert (Hk : forall x, x ∈ footprint l d -> h' !! x = h !! x).
  { intros x Hx. apply Hfr; by intros ->. }
  unfold footprint in Hk.
  split; [|split; [|done]].
  - unfold refs_at in *. rewrite Hk; [done|]. apply list_elem_of_here.
  - destruct Hv as (Hi & Hm & Ht & Hr & Htl). unfold holds.
    rewrite !Hk by (rewrite !elem_of_cons; tauto). done.
Qed.

Lemma apply_donation_owned hb h es ev :
  extends hb h -> separate hb h es ->
  exists es' h',
    apply_donation (refs_of es) ev h = Some (tt, h')
    /\ extends hb h' /\ separate hb h' es'
    /\ refs_of es' = refs_of es
    /\ values_of es' = with_donation (Some ev) (values_of es).
Proof.
  intros Hb Hsep. unfold apply_donation, with_donation.
  destruct (dict_get (de_warehouse ev) (refs_of es)) as [l|] eqn:Hget.
  2:{ exists es, h. by rewrite (dict_get_refs_none _ _ Hget). }
  destruct (find_entry _ _ _ Hget) as (es1 & e & es2 & -> & Hk & Hl & Hn).
  subst l. rewrite <- Hk in *. rewrite (dict_get_values es1 es2 e Hn).
  rewrite (dict_set_values es1 es2 e _ Hn).
  destruct Hsep as [Hall Hnd].
  apply Forall_app in Hall as [Hall1 Hall2].
  apply Forall_cons in Hall2 as [He Hall2].
  rewrite (bind_some _ _ _ _ _ (get_info_owned _ _ _ _ _ He)).
  destruct (modify_info_owned hb h _ _ _
              (with_current_inventory
                 (current_inventory (warehouse_info (e_value e)) + quantity ev)) Hb He)
    as (h1 & H1 & Hb1 & Ho1 & Hf1).
  rewrite (bind_some _ _ _ _ _ H1).
  destruct (modify_metrics_owned hb h1 _ _ _
              (with_final_utilization
                 ((current_inventory (warehouse_info (e_value e)) + quantity ev)
                  / max_capacity (warehouse_info (e_value e)) * 100)) Hb1 Ho1)
    as (h2 & H2 & Hb2 & Ho2 & Hf2).
  exists (es1 ++ with_value (donated (quantity ev) (e_value e)) e :: es2), h2.
  split; [exact H2|]. split; [done|].
  assert (Hfr : forall x, x <> r_info (e_refs e) -> x <> r_metrics (e_refs e) ->
                  h2 !! x = h !! x).
  { intros x Hx1 Hx2. by rewrite Hf2, Hf1. }
  unfold footprints in Hnd. rewrite flat_map_app in Hnd. cbn [flat_map] in Hnd.
  apply NoDup_app in Hnd as (Hnd1 & Hdis1 & Hnd2).
  apply NoDup_app in Hnd2 as (Hnde & Hdis2 & Hnd2).
  assert (Hin_i : r_info (e_refs e) ∈ footprint (e_loc e) (e_refs e))
    by (unfold footprint; rewrite !elem_of_cons; tauto).
  assert (Hin_m : r_metrics (e_refs e) ∈ footprint (e_loc e) (e_refs e))
    by (unfold footprint; rewrite !elem_of_cons; tauto).
  assert (Hother : forall e', e' ∈ es1 ++ es2 ->
            owned hb h (e_loc e') (e_refs e') (e_value e') ->
            owned hb h2 (e_loc e') (e_refs e') (e_value e')).
  { intros e' Hin Ho'.
    apply (owned_frame hb h h2 _ _ _ _ _ Ho' Hfr).
    - intros Hx. apply elem_of_app in Hin as [Hin|Hin].
      + apply (Hdis1 (r_info (e_refs e))).
        * apply list_elem_of_In, in_flat_map. exists e'.
          split; by apply list_elem_of_In.
        * apply elem_of_app. by left.
      + apply (Hdis2 (r_info (e_refs e)) Hin_i).
        apply list_elem_of_In, in_flat_map. exists e'.
        split; by apply list_elem_of_In.
    - intros Hx. apply elem_of_app in Hin as [Hin|Hin].
      + apply (Hdis1 (r_metrics (e_refs e))).
        * apply list_elem_of_In, in_flat_map. exists e'.
          split; by apply list_elem_of_In.
        * apply elem_of_app. by left.
      + apply (Hdis2 (r_metrics (e_refs e)) Hin_m).
        apply list_elem_of_In, in_flat_map. exists e'.
        split; by apply list_elem_of_In. }
  split; [split|split].
  - apply Forall_app. split.
    + apply Forall_forall. intros e' Hin. apply Hother.
      * apply elem_of_app. by left.
      * rewrite Forall_forall in Hall1. by apply Hall1.
    + apply Forall_cons. split; [exact Ho2|].
      apply Forall_forall. intros e' Hin. apply Hother.
      * apply elem_of_app. by right.
      * rewrite Forall_forall in Hall2. by apply Hall2.
  - unfold footprints. rewrite flat_map_app. cbn [flat_map with_value e_loc e_refs].
    apply NoDup_app. split; [done|]. split; [done|]. apply NoDup_app. done.
  - unfold refs_of. rewrite !map_app. done.
  - done.
Qed.

(** *** The run *)

Lemma read_analysis_keys (h : heap) (a : analysis_refs) (v : capacity_analysis_t) :
  read_analysis h a = Some v -> map fst v = map fst a.
Proof.
  revert v. induction a as [|[w l] a IH]; intros v; cbn [read_analysis].
  - by intros [= <-].
  - destruct (read_data h l) as [d|]; [|done].
    destruct (read_analysis h a) as [rest|]; [|done].
    intros [= <-]. cbn. f_equal. by apply IH.
Qed.

Lemma separate_fresh hb h es w l :
  separate hb h es -> dict_get w (refs_of es) = Some l -> l ∉ dom hb.
Proof.
  intros [Hall _] Hget.
  destruct (find_entry _ _ _ Hget) as (es1 & e & es2 & -> & _ & <- & _).
  apply Forall_app in Hall as [_ Hall]. apply Forall_cons in Hall as [(_ & _ & Hf) _].
  apply Hf. apply list_elem_of_here.
Qed.

(** The scenario simulator, as a function of the value of the baseline. *)
Lemma apply_scenario_changes_values base cfg h v :
  NoDup (map fst base) -> read_analysis h base = Some v ->
  exists scenario h',
    apply_scenario_changes base cfg h = Some (scenario, h')
    /\ extends h h'
    /\ map fst scenario = map fst base
    /\ read_analysis h' scenario = Some (scenario_values cfg v)
    /\ forall w l, dict_get w scenario = Some l -> l ∉ dom h.
Proof.
  intros Hnd Hv. unfold apply_scenario_changes, scenario_values.
  destruct (for_each_scenario_owned cfg h base [] h v (extends_refl h))
    as (es & h1 & Hfor & Hb1 & Hsep1 & Hvals); [|done|done|].
  { split; [apply Forall_nil_2 | apply NoDup_nil_2]. }
  cbn [app refs_of map] in Hfor, Hsep1. change (map _ []) with (refs_of []) in Hfor.
  cbn [refs_of map] in Hfor.
  rewrite (bind_some _ _ _ _ _ Hfor).
  assert (Hkeys : map fst (refs_of es) = map fst base).
  { rewrite map_fst_refs_of, <- (read_analysis_keys h base v Hv).
    transitivity (map fst (values_of es)).
    - unfold values_of. by rewrite map_map.
    - rewrite Hvals, map_map. done. }
  destruct (large_donation_event cfg) as [ev|].
  - destruct (apply_donation_owned h h1 es ev Hb1 Hsep1)
      as (es' & h2 & Hdon & Hb2 & Hsep2 & Hrefs & Hvals').
    rewrite (bind_some _ _ _ _ _ Hdon).
    exists (refs_of es), h2. split; [done|]. split; [done|]. split; [done|]. split.
    + rewrite <- Hrefs, (separate_read h h2 es' Hsep2), Hvals', Hvals. done.
    + intros w l Hl. rewrite <- Hrefs in Hl. by eapply separate_fresh.
  - exists (refs_of es), h1. split; [done|]. split; [done|]. split; [done|]. split.
    + rewrite (separate_read h h1 es Hsep1), Hvals. done.
    + intros w l Hl. by eapply separate_fresh.
Qed.

Lemma read_analysis_extends (h h' : heap) (a : analysis_refs) (v : capacity_analysis_t) :
  extends h h' -> read_analysis h a = Some v -> read_analysis h' a = Some v.
Proof.
  intros He. revert v. induction a as [|[w l] a IH]; intros v; cbn [read_analysis];
    [done|].
  destruct (read_data h l) as [d|] eqn:Hd; [|done].
  destruct (read_analysis h a) as [rest|]; [|done].
  intros [= <-]. by rewrite (read_data_frame h h' l d He Hd), (IH rest).
Qed.

(** X15. The scenario simulator works on copies. On a baseline with
    distinct warehouse keys whose records can be read, it returns a
    scenario analysis for the same warehouses in the same order, made of
    records that did not exist before and that can be read; it changes no
    object that existed before, and so the baseline reads as before. *)
Theorem scenario_is_isolated_copy (base : analysis_refs) (cfg : scenario_config_t)
    (h : gmap positive obj) (v : capacity_analysis_t) :
  NoDup (map fst base) -> read_analysis h base = Some v ->
  exists scenario h',
    apply_scenario_changes base cfg h = Some (scenario, h')
    /\ read_analysis h' base = Some v
    /\ (forall l, l ∈ dom h -> h' !! l = h !! l)
    /\ map fst scenario = map fst base
    /\ (forall w l, dict_get w scenario = Some l -> l ∉ dom h)
    /\ is_Some (read_analysis h' scenario).
Proof.
  intros Hnd Hv.
  destruct (apply_scenario_changes_values base cfg h v Hnd Hv)
    as (scenario & h' & Hrun & He & Hkeys & Hread & Hfresh).
  exists scenario, h'. split; [done|]. split.
  - by apply (read_analysis_extends h h').
  - split; [exact He|]. split; [done|]. split; [done|]. by eexists.
Qed.

Lemma scenario_is_isolated_copy_witness :
  exists scenario h',
    apply_scenario_changes example_refs example_config example_heap
    = Some (scenario, h')
    /\ read_analysis h' example_refs = Some example_analysis
    /\ (forall l, l ∈ dom example_heap -> h' !! l = example_heap !! l)
    /\ map fst scenario = map fst example_refs
    /\ (forall w l, dict_get w scenario = Some l -> l ∉ dom example_heap)
    /\ is_Some (read_analysis h' scenario).
Proof.
  apply (scenario_is_isolated_copy example_refs example_config example_heap
           example_analysis).
  - apply (bool_decide_unpack _). by vm_compute.
  - by vm_compute.
Defined.

(** ** What the scenario holds *)

Lemma dict_get_map_values {V W} (f : string -> V -> W) (k : string)
    (d : list (string * V)) :
  dict_get k (map (fun item => (item.1, f item.1 item.2)) d) = f k <$> dict_get k d.
Proof.
  induction d as [|[k' v'] d IH]; [done|]. cbn [map dict_get fst snd].
  destruct (decide (k' = k)) as [->|]; [done | exact IH].
Qed.

(** The scenario record of a warehouse, from its baseline record. *)
Definition scenario_record (cfg : scenario_config_t) (w : string) (d : warehouse_data)
    : warehouse_data :=
  let d' := scenario_data_of cfg w d in
  match large_donation_event cfg with
  | Some ev => if decide (w = de_warehouse ev) then donated (quantity ev) d' else d'
  | None => d'
  end.

Lemma dict_get_scenario_values cfg v w :
  dict_get w (scenario_values cfg v) = scenario_record cfg w <$> dict_get w v.
Proof.
  unfold scenario_values, scenario_record, with_donation.
  destruct (large_donation_event cfg) as [ev|].
  - destruct (dict_get (de_warehouse ev) (map _ v)) as [dt|] eqn:Ht.
    + rewrite dict_get_set. rewrite dict_get_map_values in Ht.
      destruct (decide (w = de_warehouse ev)) as [->|Hne].
      * destruct (dict_get (de_warehouse ev) v) as [d|]; [|done].
        cbn in Ht. injection Ht as <-. done.
      * by rewrite dict_get_map_values.
    + rewrite dict_get_map_values. rewrite dict_get_map_values in Ht.
      destruct (decide (w = de_warehouse ev)) as [->|Hne].
      * by destruct (dict_get (de_warehouse ev) v).
      * done.
  - by rewrite dict_get_map_values.
Qed.

(** The record that the run leaves for a warehouse of the baseline. *)
Lemma scenario_record_spec base cfg h v w d :
  NoDup (map fst base) -> read_analysis h base = Some v ->
  dict_get w v = Some d ->
  exists scenario h' sv,
    apply_scenario_changes base cfg h = Some (scenario, h')
    /\ read_analysis h' scenario = Some sv
    /\ dict_get w sv = Some (scenario_record cfg w d).
Proof.
  intros Hnd Hv Hd.
  destruct (apply_scenario_changes_values base cfg h v Hnd Hv)
    as (scenario & h' & Hrun & _ & _ & Hread & _).
  exists scenario, h', (scenario_values cfg v). split; [done|]. split; [done|].
  by rewrite dict_get_scenario_values, Hd.
Qed.

(** The changes of a scenario that reach a warehouse: none, when the
    configuration has no entry, or an empty one, for it and it receives no
    donation. *)
Definition untouched (cfg : scenario_config_t) (w : string) : Prop :=
  (dict_get w (warehouse_changes cfg) = None
   \/ exists c, dict_get w (warehouse_changes cfg) = Some c /\ has_changes c = false)
  /\ forall ev, large_donation_event cfg = Some ev -> de_warehouse ev <> w.

(** X16. A warehouse that the scenario does not touch is copied as it is:
    when the configuration has no changes for it, or an empty dictionary
    of changes, and no donation goes to it, its record in the scenario
    analysis has the value of its record in the baseline. *)
Theorem untouched_warehouse_is_copied (base : analysis_refs)
    (cfg : scenario_config_t) (h : gmap positive obj) (v : capacity_analysis_t)
    (w : string) (d : warehouse_data) :
  NoDup (map fst base) -> read_analysis h base = Some v ->
  dict_get w v = Some d -> untouched cfg w ->
  exists scenario h' sv,
    apply_scenario_changes base cfg h = Some (scenario, h')
    /\ read_analysis h' scenario = Some sv
    /\ dict_get w sv = Some d.
Proof.
  intros Hnd Hv Hd [Hch Hdon].
  destruct (scenario_record_spec base cfg h v w d Hnd Hv Hd)
    as (scenario & h' & sv & Hrun & Hread & Hget).
  exists scenario, h', sv. split; [done|]. split; [done|].
  rewrite Hget. f_equal. unfold scenario_record, scenario_data_of.
  assert (Hsame : match dict_get w (warehouse_changes cfg) with
                  | Some changes => if has_changes changes then changed_data changes d
                                    else d
                  | None => d
                  end = d).
  { destruct Hch as [->|(c & -> & ->)]; done. }
  rewrite Hsame. destruct (large_donation_event cfg) as [ev|]; [|done].
  rewrite decide_False; [done|]. intros ->. by apply (Hdon ev).
Qed.

Lemma untouched_warehouse_is_copied_witness :
  exists scenario h' sv,
    apply_scenario_changes example_refs
      {| warehouse_changes := warehouse_changes example_config;
         large_donation_event := None |} example_heap
    = Some (scenario, h')
    /\ read_analysis h' scenario = Some sv
    /\ dict_get "Chicago" sv = Some (example_data "Chicago" 100000 20000 20).
Proof.
  apply (untouched_warehouse_is_copied example_refs _ example_heap example_analysis).
  - apply (bool_decide_unpack _). by vm_compute.
  - by vm_compute.
  - by vm_compute.
  - split; [left; by vm_compute | done].
Defined.

(** X17. A target utilization is written through. When the configuration
    sets a target utilization for a warehouse that receives no donation,
    the scenario record of the warehouse has the target as final
    utilization; as inventory the share of the capacity rounded to a whole
    number, at most half a unit from the share; the rest of the capacity
    as available capacity; and the risk assessment of the target with a
    peak two points above it. Capacity, the other utilization metrics and
    the timeline are those of the baseline. *)
Theorem target_utilization_sets_record (base : analysis_refs)
    (cfg : scenario_config_t) (h : gmap positive obj) (v : capacity_analysis_t)
    (w : string) (d : warehouse_data) (c : warehouse_changes_t) (u : Q) :
  NoDup (map fst base) -> read_analysis h base = Some v ->
  dict_get w v = Some d ->
  dict_get w (warehouse_changes cfg) = Some c -> target_utilization c = Some u ->
  (forall ev, large_donation_event cfg = Some ev -> de_warehouse ev <> w) ->
  exists scenario h' sv sd,
    apply_scenario_changes base cfg h = Some (scenario, h')
    /\ read_analysis h' scenario = Some sv
    /\ dict_get w sv = Some sd
    /\ final_utilization (utilization_metrics sd) = u
    /\ is_whole (current_inventory (warehouse_info sd))
    /\ Qabs (current_inventory (warehouse_info sd)
             - max_capacity (warehouse_info d) * (u / 100)) <= 1 # 2
    /\ max_capacity (warehouse_info sd) = max_capacity (warehouse_info d)
    /\ available_capacity (warehouse_info sd)
       = max_capacity (warehouse_info sd) - current_inventory (warehouse_info sd)
    /\ available_capacity_pct (warehouse_info sd)
       = available_capacity (warehouse_info sd) / max_capacity (warehouse_info sd) * 100
    /\ risk_assessment sd
       = _assess_capacity_risk u (u + 2)
           (if decide (wc_trend_direction c = Some "Increasing"%string)
            then 1.0 else 0)
    /\ average_utilization (utilization_metrics sd)
       = average_utilization (utilization_metrics d)
    /\ max_utilization (utilization_metrics sd)
       = max_utilization (utilization_metrics d)
    /\ timeline_data sd = timeline_data d.
Proof.
  intros Hnd Hv Hd Hc Hu Hdon.
  destruct (scenario_record_spec base cfg h v w d Hnd Hv Hd)
    as (scenario & h' & sv & Hrun & Hread & Hget).
  exists scenario, h', sv, (scenario_record cfg w d).
  split; [done|]. split; [done|]. split; [done|].
  assert (Hrec : scenario_record cfg w d = changed_data c d).
  { unfold scenario_record, scenario_data_of. rewrite Hc.
    assert (has_changes c = true) as -> by (unfold has_changes; by rewrite Hu).
    destruct (large_donation_event cfg) as [ev|]; [|done].
    rewrite decide_False; [done|]. intros ->. by apply (Hdon ev). }
  rewrite Hrec. unfold changed_data. rewrite Hu.
  assert (Hwhole : is_whole
            (inject_Z (py_round (max_capacity (warehouse_info d) * (u / 100)))))
    by (by eexists).
  pose proof (py_round_within (max_capacity (warehouse_info d) * (u / 100))) as Hnear.
  destruct (wc_trend_direction c) as [direction|]; cbn; done.
Qed.

Lemma target_utilization_sets_record_witness :
  exists scenario h' sv sd,
    apply_scenario_changes example_refs example_config example_heap
    = Some (scenario, h')
    /\ read_analysis h' scenario = Some sv
    /\ dict_get "Atlanta" sv = Some sd
    /\ final_utilization (utilization_metrics sd) = 85
    /\ is_whole (current_inventory (warehouse_info sd))
    /\ Qabs (current_inventory (warehouse_info sd)
             - max_capacity (warehouse_info (example_data "Atlanta" 100000 90000 90))
               * (85 / 100)) <= 1 # 2
    /\ max_capacity (warehouse_info sd)
       = max_capacity (warehouse_info (example_data "Atlanta" 100000 90000 90))
    /\ available_capacity (warehouse_info sd)
       = max_capacity (warehouse_info sd) - current_inventory (warehouse_info sd)
    /\ available_capacity_pct (warehouse_info sd)
       = available_capacity (warehouse_info sd) / max_capacity (warehouse_info sd) * 100
    /\ risk_assessment sd
       = _assess_capacity_risk 85 (85 + 2)
           (if decide (Some "Increasing"%string = Some "Increasing"%string)
            then 1.0 else 0)
    /\ average_utilization (utilization_metrics sd)
       = average_utilization
           (utilization_metrics (example_data "Atlanta" 100000 90000 90))
    /\ max_utilization (utilization_metrics sd)
       = max_utilization (utilization_metrics (example_data "Atlanta" 100000 90000 90))
    /\ timeline_data sd = timeline_data (example_data "Atlanta" 100000 90000 90).
Proof.
  apply (target_utilization_sets_record example_refs example_config example_heap
           example_analysis "Atlanta" (example_data "Atlanta" 100000 90000 90)
           {| target_utilization := Some 85;
              wc_trend_direction := Some "Increasing"%string;
              other_keys := false |} 85).
  - apply (bool_decide_unpack _). by vm_compute.
  - by vm_compute.
  - by vm_compute.
  - by vm_compute.
  - done.
  - intros ev [= <-]. by vm_compute.
Defined.

(** X18. A donation reaches the inventory and the utilization only. The
    scenario record of the warehouse that receives a donation has the
    donated quantity added to the inventory it had after the warehouse's
    own changes, and that inventory over the capacity as final
    utilization; its available capacity, in units and in percent, its
    trend and its risk assessment are those from before the donation. *)
Theorem donation_updates_inventory_only (base : analysis_refs)
    (cfg : scenario_config_t) (h : gmap positive obj) (v : capacity_analysis_t)
    (d : warehouse_data) (ev : donation_event_t) :
  NoDup (map fst base) -> read_analysis h base = Some v ->
  large_donation_event cfg = Some ev ->
  dict_get (de_warehouse ev) v = Some d ->
  let before := scenario_data_of cfg (de_warehouse ev) d in
  exists scenario h' sv sd,
    apply_scenario_changes base cfg h = Some (scenario, h')
    /\ read_analysis h' scenario = Some sv
    /\ dict_get (de_warehouse ev) sv = Some sd
    /\ current_inventory (warehouse_info sd)
       = current_inventory (warehouse_info before) + quantity ev
    /\ final_utilization (utilization_metrics sd)
       = current_inventory (warehouse_info sd) / max_capacity (warehouse_info before)
         * 100
    /\ available_capacity (warehouse_info sd) = available_capacity (warehouse_info before)
    /\ available_capacity_pct (warehouse_info sd)
       = available_capacity_pct (warehouse_info before)
    /\ trend_analysis sd = trend_analysis before
    /\ risk_assessment sd = risk_assessment before
    /\ (dict_get (de_warehouse ev) (warehouse_changes cfg) = None -> before = d).
Proof.
  intros Hnd Hv Hev Hd before.
  destruct (scenario_record_spec base cfg h v (de_warehouse ev) d Hnd Hv Hd)
    as (scenario & h' & sv & Hrun & Hread & Hget).
  exists scenario, h', sv, (scenario_record cfg (de_warehouse ev) d).
  split; [done|]. split; [done|]. split; [done|].
  assert (Hrec : scenario_record cfg (de_warehouse ev) d = donated (quantity ev) before).
  { unfold scenario_record. rewrite Hev. by rewrite decide_True. }
  rewrite Hrec. unfold donated. cbn.
  repeat (split; [done|]).
  intros Hnone. unfold before, scenario_data_of. by rewrite Hnone.
Qed.

Lemma donation_updates_inventory_only_witness :
  let d := example_data "Chicago" 100000 20000 20 in
  let ev := {| de_warehouse := "Chicago"; quantity := 5000 |} in
  let before := scenario_data_of example_config (de_warehouse ev) d in
  exists scenario h' sv sd,
    apply_scenario_changes example_refs example_config example_heap
    = Some (scenario, h')
    /\ read_analysis h' scenario = Some sv
    /\ dict_get (de_warehouse ev) sv = Some sd
    /\ current_inventory (warehouse_info sd)
       = current_inventory (warehouse_info before) + quantity ev
    /\ final_utilization (utilization_metrics sd)
       = current_inventory (warehouse_info sd) / max_capacity (warehouse_info before)
         * 100
    /\ available_capacity (warehouse_info sd) = available_capacity (warehouse_info before)
    /\ available_capacity_pct (warehouse_info sd)
       = available_capacity_pct (warehouse_info before)
    /\ trend_analysis sd = trend_analysis before
    /\ risk_assessment sd = risk_assessment before
    /\ (dict_get (de_warehouse ev) (warehouse_changes example_config) = None
        -> before = d).
Proof.
  apply (donation_updates_inventory_only example_refs example_config example_heap
           example_analysis (example_data "Chicago" 100000 20000 20)
           {| de_warehouse := "Chicago"; quantity := 5000 |}).
  - apply (bool_decide_unpack _). by vm_compute.
  - by vm_compute.
  - done.
  - by vm_compute.
Defined.

(** ** The impact summary *)

Lemma impact_fold_none scen base :
  fold_left (impact_step scen) base None = None.
Proof. induction base as [|item base IH]; [done|]. exact IH. Qed.

Lemma impact_fold_missing scen base acc w d :
  (w, d) ∈ base -> dict_get w scen = None ->
  fold_left (impact_step scen) base acc = None.
Proof.
  revert acc. induction base as [|item base IH]; intros acc Hin Hw;
    [by apply elem_of_nil in Hin|].
  cbn [fold_left]. apply elem_of_cons in Hin as [<-|Hin].
  - destruct acc as [[changes total]|]; cbn [impact_step fst mbind option_bind].
    + rewrite Hw. apply impact_fold_none.
    + apply impact_fold_none.
  - by apply IH.
Qed.

Lemma impact_fold_present scen base acc :
  fold_left (impact_step scen) base acc = None ->
  acc = None \/ exists w d, (w, d) ∈ base /\ dict_get w scen = None.
Proof.
  revert acc. induction base as [|[w d] base IH]; intros acc; cbn [fold_left].
  - by left.
  - intros H. apply IH in H as [H|(w' & d' & Hin & Hw')].
    + destruct acc as [[changes total]|]; [|by left]. right.
      cbn [impact_step fst snd mbind option_bind] in H.
      destruct (dict_get w scen) eqn:Hw; [done|].
      exists w, d. split; [by left | done].
    + right. exists w', d'. split; [by right | done].
Qed.

Lemma impact_fold_total scen base changes0 total0 changes total :
  fold_left (impact_step scen) base (Some (changes0, total0)) = Some (changes, total) ->
  total0 <= total.
Proof.
  revert changes0 total0. induction base as [|[w d] base IH]; intros changes0 total0;
    cbn [fold_left].
  - intros [= <- <-]. apply Qle_refl.
  - cbn [impact_step fst snd mbind option_bind].
    destruct (dict_get w scen) as [sd|]; [|by rewrite impact_fold_none].
    intros H. apply IH in H.
    pose proof (Qabs_nonneg (final_utilization (utilization_metrics sd)
                             - final_utilization (utilization_metrics d))).
    lra.
Qed.

Lemma impact_counts base scen transfers imp :
  calculate_scenario_impact base scen transfers = Some imp ->
  0 <= total_utilization_improvement imp
  /\ transfer_opportunities_created imp = length transfers
  /\ new_alerts_generated imp = 0%Z.
Proof.
  unfold calculate_scenario_impact.
  destruct (fold_left _ base _) as [[changes total]|] eqn:Hfold; [|done].
  cbn [mbind option_bind]. intros [= <-]. cbn.
  split; [|done]. by apply impact_fold_total in Hfold.
Qed.

(** X19. The impact summary fails, with the [KeyError] of the source,
    exactly when the scenario analysis lacks a warehouse of the baseline.
    When it succeeds, the total utilization change is not negative, the
    number of transfer opportunities is the length of the given list, and
    the number of new alerts is 0 whatever the analyses are. *)
Theorem scenario_impact_defined (base_analysis scenario_analysis : capacity_analysis_t)
    (transfers : list transfer) :
  (calculate_scenario_impact base_analysis scenario_analysis transfers = None
   <-> exists w d, (w, d) ∈ base_analysis /\ dict_get w scenario_analysis = None)
  /\ forall imp,
       calculate_scenario_impact base_analysis scenario_analysis transfers = Some imp ->
       0 <= total_utilization_improvement imp
       /\ transfer_opportunities_created imp = length transfers
       /\ new_alerts_generated imp = 0%Z.
Proof.
  unfold calculate_scenario_impact. split.
  - split.
    + destruct (fold_left _ base_analysis _) as [[changes total]|] eqn:Hfold; [done|].
      intros _. apply impact_fold_present in Hfold as [H|H]; done.
    + intros (w & d & Hin & Hw). by rewrite (impact_fold_missing _ _ _ w d Hin Hw).
  - intros imp. fold (calculate_scenario_impact base_analysis scenario_analysis transfers).
    apply impact_counts.
Qed.

(** ** The comparison *)

Lemma dict_get_is_Some {V} (k : string) (v : V) (d : list (string * V)) :
  (k, v) ∈ d -> is_Some (dict_get k d).
Proof.
  induction d as [|[k' v'] d IH]; intros Hin; [by apply elem_of_nil in Hin|].
  cbn [dict_get]. destruct (decide (k' = k)); [by eexists|].
  apply IH. apply elem_of_cons in Hin as [[= -> ->]|Hin]; done.
Qed.

Lemma records_change_keys scen base entries :
  Forall2 (records_change scen) base entries -> map fst entries = map fst base.
Proof.
  induction 1 as [|item entry base entries (Hk & _) _ IH]; [done|].
  cbn [map]. by rewrite Hk, IH.
Qed.

Lemma impact_keys base scen transfers imp :
  NoDup (map fst base) ->
  calculate_scenario_impact base scen transfers = Some imp ->
  map fst (utilization_changes imp) = map fst base.
Proof.
  intros Hnd. unfold calculate_scenario_impact.
  destruct (fold_left _ base _) as [[changes total]|] eqn:Hfold; [|done].
  cbn [mbind option_bind]. intros [= <-]. cbn [utilization_changes].
  apply ScenarioFacts.impact_loop in Hfold as (entries & -> & Hall & _); [|done|].
  - cbn [app]. by eapply records_change_keys.
  - intros k _. cbn. apply not_elem_of_nil.
Qed.

(** The run of the comparison on a readable baseline. *)
Lemma run_custom_scenario_spec rules base cfg h v :
  NoDup (map fst base) -> read_analysis h base = Some v ->
  exists imp h',
    calculate_scenario_impact v (scenario_values cfg v)
      (identify_transfer_opportunities rules (scenario_values cfg v)) = Some imp
    /\ extends h h'
    /\ run_custom_scenario rules base cfg h
       = Some ({| comparison_baseline :=
                    {| side_capacity_analysis := v;
                       side_transfer_opportunities :=
                         identify_transfer_opportunities rules v;
                       side_capacity_alerts := generate_capacity_alerts v |};
                  comparison_scenario :=
                    {| side_capacity_analysis := scenario_values cfg v;
                       side_transfer_opportunities :=
                         identify_transfer_opportunities rules (scenario_values cfg v);
                       side_capacity_alerts :=
                         generate_capacity_alerts (scenario_values cfg v) |};
                  impact_summary := imp |}, h').
Proof.
  intros Hnd Hv.
  destruct (apply_scenario_changes_values base cfg h v Hnd Hv)
    as (scenario & h' & Hrun & He & Hkeys & Hread & Hfresh).
  destruct (ScenarioFacts.scenario_impact_total v (scenario_values cfg v)
              (identify_transfer_opportunities rules (scenario_values cfg v)))
    as [imp Himp].
  { intros [w d] Hin. cbn [fst]. rewrite dict_get_scenario_values.
    destruct (dict_get_is_Some w d v Hin) as [d' ->]. by eexists. }
  exists imp, h'. split; [done|]. split; [done|].
  unfold run_custom_scenario.
  rewrite Hrun, Hread, (read_analysis_extends h h' base v He Hv), Himp. done.
Qed.

(** X20. The comparison of a scenario with its baseline. On a baseline
    with distinct warehouse keys whose records can be read, the run does
    not fail: the scenario has every warehouse of the baseline, so the
    impact summary finds each of them. The baseline side of the results is
    the baseline as it was before the run, with its own transfer
    opportunities and alerts; the scenario side lists the opportunities and
    alerts of the scenario analysis; the impact summary counts the
    scenario's opportunities and has one utilization change for each
    warehouse of the baseline, in the baseline's order. *)
Theorem run_custom_scenario_compares (rules : business_rules_t)
    (base : analysis_refs) (cfg : scenario_config_t) (h : gmap positive obj)
    (v : capacity_analysis_t) :
  NoDup (map fst base) -> read_analysis h base = Some v ->
  exists res h',
    run_custom_scenario rules base cfg h = Some (res, h')
    /\ read_analysis h' base = Some v
    /\ side_capacity_analysis (comparison_baseline res) = v
    /\ side_transfer_opportunities (comparison_baseline res)
       = identify_transfer_opportunities rules v
    /\ side_capacity_alerts (comparison_baseline res) = generate_capacity_alerts v
    /\ map fst (side_capacity_analysis (comparison_scenario res)) = map fst v
    /\ side_transfer_opportunities (comparison_scenario res)
       = identify_transfer_opportunities rules
           (side_capacity_analysis (comparison_scenario res))
    /\ side_capacity_alerts (comparison_scenario res)
       = generate_capacity_alerts (side_capacity_analysis (comparison_scenario res))
    /\ transfer_opportunities_created (impact_summary res)
       = length (side_transfer_opportunities (comparison_scenario res))
    /\ map fst (utilization_changes (impact_summary res)) = map fst v.
Proof.
  intros Hnd Hv.
  destruct (run_custom_scenario_spec rules base cfg h v Hnd Hv)
    as (imp & h' & Himp & He & Hrun).
  eexists _, h'. split; [exact Hrun|]. cbn.
  split; [by apply (read_analysis_extends h h')|].
  split; [done|]. split; [done|]. split; [done|]. split.
  { destruct (apply_scenario_changes_values base cfg h v Hnd Hv)
      as (scenario & h2 & _ & _ & Hkeys & Hread & _).
    rewrite (read_analysis_keys _ _ _ Hread), Hkeys.
    symmetry. by apply (read_analysis_keys h). }
  split; [done|]. split; [done|]. split.
  - by destruct (impact_counts _ _ _ _ Himp) as (_ & -> & _).
  - apply (impact_keys v (scenario_values cfg v)
             (identify_transfer_opportunities rules (scenario_values cfg v)) imp);
      [|done].
    by rewrite (read_analysis_keys h base v Hv).
Qed.

Lemma run_custom_scenario_compares_witness :
  exists res h',
    run_custom_scenario (rules_of 5000) example_refs example_config example_heap
    = Some (res, h')
    /\ read_analysis h' example_refs = Some example_analysis
    /\ side_capacity_analysis (comparison_baseline res) = example_analysis
    /\ side_transfer_opportunities (comparison_baseline res)
       = identify_transfer_opportunities (rules_of 5000) example_analysis
    /\ side_capacity_alerts (comparison_baseline res)
       = generate_capacity_alerts example_analysis
    /\ map fst (side_capacity_analysis (comparison_scenario res))
       = map fst example_analysis
    /\ side_transfer_opportunities (comparison_scenario res)
       = identify_transfer_opportunities (rules_of 5000)
           (side_capacity_analysis (comparison_scenario res))
    /\ side_capacity_alerts (comparison_scenario res)
       = generate_capacity_alerts (side_capacity_analysis (comparison_scenario res))
    /\ transfer_opportunities_created (impact_summary res)
       = length (side_transfer_opportunities (comparison_scenario res))
    /\ map fst (utilization_changes (impact_summary res)) = map fst example_analysis.
Proof.
  apply (run_custom_scenario_compares (rules_of 5000) example_refs example_config
           example_heap example_analysis).
  - apply (bool_decide_unpack _). by vm_compute.
  - by vm_compute.
Defined.

(** *** A scenario without changes *)

Lemma scenario_values_untouched cfg v :
  (forall w, w ∈ map fst v -> untouched cfg w) -> scenario_values cfg v = v.
Proof.
  intros Hall. unfold scenario_values.
  assert (Hmap : map (fun item => (item.1, scenario_data_of cfg item.1 item.2)) v = v).
  { induction v as [|[w d] v IH]; [done|]. cbn [map fst snd]. f_equal.
    - f_equal. unfold scenario_data_of.
      destruct (Hall w ltac:(left)) as [[->|(c & -> & ->)] _]; done.
    - apply IH. intros w' Hw'. apply Hall. by right. }
  rewrite Hmap. unfold with_donation.
  destruct (large_donation_event cfg) as [ev|] eqn:Hev; [|done].
  destruct (dict_get (de_warehouse ev) v) as [d|] eqn:Hd; [|done].
  exfalso. assert (Hin : de_warehouse ev ∈ map fst v).
  { clear -Hd. induction v as [|[w' d'] v IH]; [done|]. cbn [dict_get] in Hd.
    cbn [map fst]. destruct (decide (w' = de_warehouse ev)) as [->|]; [by left|].
    right. by apply IH. }
  destruct (Hall _ Hin) as [_ Hdon]. by apply (Hdon ev).
Qed.

Lemma py_sum_zero (l : list Q) : Forall (fun x => x == 0) l -> py_sum l == 0.
Proof.
  induction 1 as [|x l Hx _ IH]; [done|].
  unfold py_sum. cbn [fold_left]. rewrite py_sum_from, IH, Hx. lra.
Qed.

Lemma records_change_same v items entries :
  NoDup (map fst v) -> (forall item, item ∈ items -> item ∈ v) ->
  Forall2 (records_change v) items entries ->
  Forall (fun entry => scenario entry.2 = baseline entry.2) entries.
Proof.
  intros Hnd Hsub Hall.
  induction Hall as [|[w d] entry items entries (_ & Hb & (sd & Hsd & Hs) & _) _ IH];
    [done|].
  apply Forall_cons. split.
  - cbn [fst snd] in *. rewrite Hb, Hs.
    rewrite (dict_get_elem w d v Hnd) in Hsd by (apply Hsub; by left).
    by injection Hsd as <-.
  - apply IH. intros item Hin. apply Hsub. by right.
Qed.

Lemma no_change_no_impact v transfers imp :
  NoDup (map fst v) ->
  calculate_scenario_impact v v transfers = Some imp ->
  total_utilization_improvement imp == 0
  /\ Forall (fun entry => scenario entry.2 = baseline entry.2 /\ change entry.2 == 0)
       (utilization_changes imp).
Proof.
  intros Hnd. unfold calculate_scenario_impact.
  destruct (fold_left _ v _) as [[changes total]|] eqn:Hfold; [|done].
  cbn [mbind option_bind]. intros [= <-].
  cbn [total_utilization_improvement utilization_changes].
  apply ScenarioFacts.impact_loop in Hfold as (entries & -> & Hall & Htot); [|done|].
  2:{ intros k _. cbn. apply not_elem_of_nil. }
  cbn [app].
  pose proof (records_change_same v v entries Hnd (fun _ H => H) Hall) as Hsame.
  split.
  - rewrite Htot, py_sum_zero; [lra|].
    apply Forall_fmap. eapply Forall_impl; [exact Hsame|].
    intros entry Heq. cbn beta in Heq. unfold compose, absolute_change. cbn beta.
    rewrite Heq.
    assert (Hz : baseline entry.2 - baseline entry.2 == 0) by ring.
    by rewrite Hz.
  - clear Htot. induction Hall as [|item entry items entries (_ & _ & _ & Hc) _ IH];
      [done|].
    apply Forall_cons_1 in Hsame as [He Hsame]. apply Forall_cons. split.
    + split; [done|]. rewrite Hc, He.
      unfold py_round_nd.
      assert (Hz : (baseline entry.2 - baseline entry.2) * pow10 1 == 0) by ring.
      rewrite Hz. by vm_compute.
    + by apply IH.
Qed.

(** X21. A scenario that touches no warehouse compares equal. When the
    configuration has no effective changes and no donation for any
    warehouse of the baseline, the scenario side of the results is the
    baseline side, every recorded utilization change is 0 and so is the
    total utilization change. *)
Theorem untouched_scenario_has_no_impact (rules : business_rules_t)
    (base : analysis_refs) (cfg : scenario_config_t) (h : gmap positive obj)
    (v : capacity_analysis_t) :
  NoDup (map fst base) -> read_analysis h base = Some v ->
  (forall w, w ∈ map fst base -> untouched cfg w) ->
  exists res h',
    run_custom_scenario rules base cfg h = Some (res, h')
    /\ comparison_scenario res = comparison_baseline res
    /\ total_utilization_improvement (impact_summary res) == 0
    /\ Forall (fun entry => scenario entry.2 = baseline entry.2 /\ change entry.2 == 0)
         (utilization_changes (impact_summary res)).
Proof.
  intros Hnd Hv Hall.
  destruct (run_custom_scenario_spec rules base cfg h v Hnd Hv)
    as (imp & h' & Himp & He & Hrun).
  pose proof (read_analysis_keys h base v Hv) as Hkeys.
  assert (Hsame : scenario_values cfg v = v).
  { apply scenario_values_untouched. intros w Hw. apply Hall. by rewrite <- Hkeys. }
  rewrite Hsame in *.
  eexists _, h'. split; [exact Hrun|]. cbn. split; [done|].
  apply (no_change_no_impact v (identify_transfer_opportunities rules v)); [|done].
  by rewrite Hkeys.
Qed.

Lemma untouched_scenario_has_no_impact_witness :
  exists res h',
    run_custom_scenario (rules_of 5000) example_refs
      {| warehouse_changes := []; large_donation_event := None |} example_heap
    = Some (res, h')
    /\ comparison_scenario res = comparison_baseline res
    /\ total_utilization_improvement (impact_summary res) == 0
    /\ Forall (fun entry => scenario entry.2 = baseline entry.2 /\ change entry.2 == 0)
         (utilization_changes (impact_summary res)).
Proof.
  apply (untouched_scenario_has_no_impact (rules_of 5000) example_refs
           {| warehouse_changes := []; large_donation_event := None |} example_heap
           example_analysis).
  - apply (bool_decide_unpack _). by vm_compute.
  - by vm_compute.
  - intros w _. split; [by left | done].
Defined.

End ScenarioRunFacts.

Module RecommendationFacts.

Import PyNum RollingForecast ProductRecommendations PyNumFacts RollingForecastFacts RunFacts.

(** ** The product-level recommendations *)

Lemma levels_loop forecasts product ws levels0 levels :
  fold_left (levels_step forecasts product) ws (Some levels0) = Some levels ->
  levels = levels0.
Proof.
  revert levels0. induction ws as [|w ws IH]; intros levels0; cbn [fold_left].
  - by intros [= <-].
  - cbn [levels_step mbind option_bind].
    destruct (res_warehouses forecasts !! w) as [wd|].
    + destruct (products_entry_keys wd w) as [keys|]; [|apply IH].
      destruct (bool_decide (product ∈ keys)); [|apply IH].
      intros H. exfalso. clear -H. induction ws as [|w' ws IH]; [done|]. by apply IH.
    + intros H. exfalso. clear -H. induction ws as [|w' ws IH]; [done|]. by apply IH.
Qed.

Definition no_recommendation : product_recommendation_t :=
  {| warehouse_levels := []; transfer_suggestions := [] |}.

Lemma product_recommendation_loop forecasts ps acc out :
  fold_left (product_recommendation_step forecasts) ps (Some acc) = Some out ->
  out = acc ++ map (fun p => (p, no_recommendation)) ps.
Proof.
  revert acc. induction ps as [|p ps IH]; intros acc; cbn [fold_left map].
  - intros [= <-]. by rewrite app_nil_r.
  - cbn [product_recommendation_step mbind option_bind].
    destruct (fold_left (levels_step forecasts p) warehouses (Some [])) as [levels|]
      eqn:Hlevels.
    + apply levels_loop in Hlevels as ->. cbn [mbind option_bind].
      intros H. apply IH in H as ->. by rewrite <- app_assoc.
    + cbn. intros H. exfalso. clear -H. induction ps as [|p' ps IH]; [done|]. by apply IH.
Qed.

Lemma generated_warehouse self h w :
  w ∈ warehouses -> is_Some (res_warehouses (generate_rolling_forecast self h) !! w).
Proof.
  intros Hw.
  destruct (sim_positions self _ _ (months_simulated self h h) w Hw) as (l & Hl & _).
  unfold positions_of in Hl. cbn [generate_rolling_forecast res_warehouses].
  destruct (res_warehouses _ !! w) as [wr|]; [by eexists | done].
Qed.

Lemma levels_step_skips forecasts product levels w :
  product ∈ products -> is_Some (res_warehouses forecasts !! w) ->
  levels_step forecasts product (Some levels) w = Some levels.
Proof.
  intros Hp [wd Hwd]. cbn [levels_step mbind option_bind]. rewrite Hwd.
  unfold products_entry_keys.
  assert (Hno : forall keys,
            keys = ["forecasts"; "rolling_inventory"; "alerts"]%string
            \/ keys = ["alerts"%string] ->
            bool_decide (product ∈ keys) = false).
  { intros keys Hkeys. unfold products in Hp.
    repeat (apply elem_of_cons in Hp as [->|Hp];
            [destruct Hkeys as [-> | ->]; by vm_compute|]).
    by apply elem_of_nil in Hp. }
  destruct (wr_products wd !! w).
  - rewrite Hno; [done | by left].
  - destruct (decide (w = "Overall"%string)); [|done].
    destruct (overall_alerts wd); [|done]. rewrite Hno; [done | by right].
Qed.

Lemma levels_loop_skips forecasts product ws levels :
  product ∈ products ->
  (forall w, w ∈ ws -> is_Some (res_warehouses forecasts !! w)) ->
  fold_left (levels_step forecasts product) ws (Some levels) = Some levels.
Proof.
  intros Hp. induction ws as [|w ws IH]; intros Hws; [done|]. cbn [fold_left].
  rewrite levels_step_skips; [|done|apply Hws; by left].
  apply IH. intros w' Hw'. apply Hws. by right.
Qed.

Lemma product_recommendation_loop_skips forecasts ps acc :
  (forall p, p ∈ ps -> p ∈ products) ->
  (forall w, w ∈ warehouses -> is_Some (res_warehouses forecasts !! w)) ->
  fold_left (product_recommendation_step forecasts) ps (Some acc)
  = Some (acc ++ map (fun p => (p, no_recommendation)) ps).
Proof.
  intros Hps Hws. revert acc. induction ps as [|p ps IH]; intros acc;
    cbn [fold_left map].
  - by rewrite app_nil_r.
  - cbn [product_recommendation_step mbind option_bind].
    rewrite levels_loop_skips; [|apply Hps; by left|done].
    cbn [mbind option_bind]. rewrite IH by (intros q Hq; apply Hps; by right).
    by rewrite <- app_assoc.
Qed.

(** X22. The product-level recommendations are empty. Whatever the
    forecasts are, if the function returns, it returns for each product no
    warehouse level and no transfer suggestion: the test that guards the
    reading of a ledger looks the warehouse up among the product entries of
    the warehouse, where no warehouse is. On the results of a run of the
    simulator it returns, with that result. *)
Theorem product_level_recommendations_empty :
  (forall forecasts out,
     generate_product_level_recommendations forecasts = Some out ->
     out = map (fun p => (p, no_recommendation)) products)
  /\ forall self h,
       generate_product_level_recommendations (generate_rolling_forecast self h)
       = Some (map (fun p => (p, no_recommendation)) products).
Proof.
  split.
  - intros forecasts out Hout. unfold generate_product_level_recommendations in Hout.
    by apply product_recommendation_loop in Hout.
  - intros self h. unfold generate_product_level_recommendations.
    rewrite product_recommendation_loop_skips; [done | done|].
    intros w Hw. by apply generated_warehouse.
Qed.

End RecommendationFacts.

(** ** The allocation engine: breakdowns, choice of warehouse, recommendations *)

Module AllocationFacts.

Import PyNum RollingForecast InventoryAllocation AllocationEngine Examples PyNumFacts RollingForecastFacts RunFacts.

Import CapacityOptimizer(dict_get).
Import Heap(dict_set).

(** ** The integer part *)

Lemma py_int_nonneg (x : Q) : 0 <= x -> (0 <= py_int x)%Z.
Proof.
  intros Hx. unfold py_int. rewrite (proj2 (Qle_bool_iff 0 x) Hx).
  change 0%Z with (Qfloor 0). by apply Qfloor_resp_le.
Qed.

Lemma py_int_le (x : Q) : 0 <= x -> inject_Z (py_int x) <= x.
Proof.
  intros Hx. unfold py_int. rewrite (proj2 (Qle_bool_iff 0 x) Hx). apply Qfloor_le.
Qed.

Lemma inject_Z_nonneg (z : Z) : (0 <= z)%Z -> 0 <= inject_Z z.
Proof. intros Hz. change 0 with (inject_Z 0). by rewrite <- Zle_Qle. Qed.

(** The sum of the parts of a breakdown. *)
Definition parts_total (l : list Z) : Z := foldr Z.add 0%Z l.

Lemma parts_total_app (l1 l2 : list Z) :
  parts_total (l1 ++ l2) = (parts_total l1 + parts_total l2)%Z.
Proof. induction l1 as [|x l1 IH]; cbn; [done|]. unfold parts_total in *. lia. Qed.

(** ** The size breakdown of an allocation *)

Definition size_row (total_quantity : Z) (item : string * Q) : size_entry_t :=
  {| size := item.1;
     quantity := py_int (inject_Z total_quantity * (item.2 / 100));
     percentage := item.2 |}.

Lemma size_breakdown_loop (total_quantity : Z) (d : list (string * Q)) acc :
  fold_left
    (fun size_breakdown item =>
       let size_quantity := py_int (inject_Z total_quantity * (item.2 / 100)) in
       if (0 <? size_quantity)%Z
       then size_breakdown
            ++ [ {| size := item.1; quantity := size_quantity; percentage := item.2 |} ]
       else size_breakdown)
    d acc
  = acc ++ filter (fun e => (0 < quantity e)%Z) (map (size_row total_quantity) d).
Proof.
  revert acc. induction d as [|item d IH]; intros acc; cbn [fold_left map].
  - by rewrite filter_nil, app_nil_r.
  - rewrite IH. cbn zeta. fold (size_row total_quantity item).
    destruct (Z.ltb_spec 0 (py_int (inject_Z total_quantity * (item.2 / 100)))) as [Hq|Hq].
    + rewrite filter_cons_True by done. by rewrite <- app_assoc.
    + rewrite filter_cons_False by (cbn; lia). done.
Qed.

(** The percentages of a distribution are not negative and sum to at most
    100. *)
Definition valid_distribution (d : list (string * Q)) : bool :=
  forallb (fun item => Qle_bool 0 item.2) d && Qle_bool (py_sum (map snd d)) 100.

Lemma size_rows_total (total_quantity : Z) (d : list (string * Q)) :
  (0 <= total_quantity)%Z ->
  forallb (fun item => Qle_bool 0 item.2) d = true ->
  Forall (fun e => (0 <= quantity e)%Z) (map (size_row total_quantity) d)
  /\ inject_Z (parts_total (map quantity (map (size_row total_quantity) d)))
     <= inject_Z total_quantity * (py_sum (map snd d) / 100).
Proof.
  intros Ht. induction d as [|item d IH]; cbn [forallb map]; intros Hd.
  - split; [constructor|]. unfold parts_total, py_sum. cbn [map foldr fold_left].
    apply Qmult_le_0_compat; [by apply inject_Z_nonneg | done].
  - apply andb_prop in Hd as [Hp Hd]. apply Qle_bool_iff in Hp.
    destruct (IH Hd) as [IH1 IH2].
    assert (0 <= inject_Z total_quantity) as Ht' by (by apply inject_Z_nonneg).
    assert (0 <= inject_Z total_quantity * (item.2 / 100)) as Hx.
    { apply Qmult_le_0_compat; [done|]. apply Qle_shift_div_l; lra. }
    split.
    + constructor; [by apply py_int_nonneg | done].
    + change (parts_total (?x :: ?l)) with (x + parts_total l)%Z.
      rewrite inject_Z_plus. cbn [quantity size_row].
      pose proof (py_int_le _ Hx) as Hle.
      assert (py_sum (map snd (item :: d)) == item.2 + py_sum (map snd d)) as Hs.
      { unfold py_sum at 1. cbn [map fold_left]. rewrite py_sum_from. ring. }
      rewrite Hs.
      assert (inject_Z total_quantity * ((item.2 + py_sum (map snd d)) / 100)
              == inject_Z total_quantity * (item.2 / 100)
                 + inject_Z total_quantity * (py_sum (map snd d) / 100)) as ->
        by field.
      lra.
Qed.

Lemma parts_total_filter (l : list size_entry_t) :
  Forall (fun e => (0 <= quantity e)%Z) l ->
  (parts_total (map quantity (filter (fun e => (0 < quantity e)%Z) l))
   <= parts_total (map quantity l))%Z.
Proof.
  induction 1 as [|e l He _ IH]; [done|].
  destruct (decide (0 < quantity e)%Z) as [Hq|Hq].
  - rewrite filter_cons_True by done. cbn [map]. unfold parts_total in *. cbn. lia.
  - rewrite filter_cons_False by done. cbn [map]. unfold parts_total in *. cbn. lia.
Qed.

Lemma size_breakdown_of_distribution (total_quantity : Z) (d : list (string * Q)) :
  (0 <= total_quantity)%Z -> valid_distribution d = true ->
  let l := filter (fun e => (0 < quantity e)%Z) (map (size_row total_quantity) d) in
  Forall (fun e => (0 < quantity e)%Z) l
  /\ (parts_total (map quantity l) <= total_quantity)%Z
  /\ map size l `sublist_of` map fst d.
Proof.
  intros Ht Hd l. apply andb_prop in Hd as [Hp Hs]. apply Qle_bool_iff in Hs.
  destruct (size_rows_total total_quantity d Ht Hp) as [Hall Hsum].
  split; [|split].
  - apply Forall_forall. intros e He. subst l. by apply list_elem_of_filter in He as [? _].
  - etrans; [by apply parts_total_filter|].
    rewrite Zle_Qle. apply (Qle_trans _ _ _ Hsum).
    pose proof (inject_Z_nonneg _ Ht).
    assert (inject_Z total_quantity * (py_sum (map snd d) / 100)
            == inject_Z total_quantity * py_sum (map snd d) / 100) as -> by field.
    apply Qle_shift_div_r; [done|]. nra.
  - assert (map fst d = map size (map (size_row total_quantity) d)) as ->.
    { rewrite map_map. done. }
    apply (fmap_sublist size), sublist_filter.
Qed.

Definition product_types : list string := ["Footwear"; "Apparel"]%string.

Definition distributions_valid : bool :=
  forallb
    (fun partner =>
       forallb
         (fun product_type =>
            match dict_get product_type (size_distribution partner.2) with
            | Some d => valid_distribution d
            | None => false
            end)
         product_types)
    partner_preferences.

Lemma partner_distribution partner prefs category :
  (partner, prefs) ∈ partner_preferences ->
  exists d,
    dict_get (product_type_of category) (size_distribution prefs) = Some d
    /\ valid_distribution d = true.
Proof.
  intros Hin. assert (distributions_valid = true) as Hok by (by vm_compute).
  unfold distributions_valid in Hok. rewrite forallb_forall in Hok.
  apply list_elem_of_In in Hin. specialize (Hok _ Hin). cbn [snd] in Hok.
  rewrite forallb_forall in Hok.
  assert (In (product_type_of category) product_types) as Hpt.
  { unfold product_type_of. case_bool_decide; cbn; tauto. }
  specialize (Hok _ Hpt).
  destruct (dict_get _ _) as [d|]; [by exists d | done].
Qed.

(** X23. The size breakdown of an allocation never exceeds the quantity
    allocated. For each of the five partners, every category and a
    quantity that is not negative, [_create_size_breakdown] succeeds; it
    lists sizes of the partner's distribution for the product type of the
    category, in the order of the distribution; every entry it lists has
    a positive quantity; and the quantities sum to at most the total
    quantity of the allocation. *)
Theorem size_breakdown_within_quantity
    (partner : string) (prefs : partner_prefs_t) (category : string)
    (total_quantity : Z) :
  (partner, prefs) ∈ partner_preferences ->
  (0 <= total_quantity)%Z ->
  exists dist l,
    dict_get (product_type_of category) (size_distribution prefs) = Some dist
    /\ _create_size_breakdown category total_quantity prefs = Some l
    /\ map size l `sublist_of` map fst dist
    /\ Forall (fun e => (0 < quantity e)%Z) l
    /\ (parts_total (map quantity l) <= total_quantity)%Z.
Proof.
  intros Hin Ht.
  destruct (partner_distribution partner prefs category Hin) as (d & Hd & Hv).
  destruct (size_breakdown_of_distribution total_quantity d Ht Hv) as (Hpos & Hsum & Hsub).
  exists d, (filter (fun e => (0 < quantity e)%Z) (map (size_row total_quantity) d)).
  split; [done|]. split; [|done].
  unfold _create_size_breakdown. rewrite Hd. cbn [mbind option_bind].
  by rewrite size_breakdown_loop.
Qed.

Lemma size_breakdown_within_quantity_witness :
  exists dist l,
    dict_get (product_type_of "Boots") (size_distribution
       {| region := "West Africa";
          preferred_products := [("Footwear", 70); ("Apparel", 30)]%string;
          preferred_categories :=
            [("Sneakers", 45); ("Boots", 25); ("Shirts", 20); ("Coats", 10)]%string;
          size_distribution :=
            [ ("Footwear",
               [("7", 15); ("8", 20); ("9", 18); ("10", 15); ("11", 12); ("6", 10);
                ("12", 5); ("5", 5)]);
              ("Apparel",
               [("M", 25); ("L", 20); ("XL", 15); ("S", 15); ("XXL", 15); ("XS", 10)]) ]%string;
          lead_time_days := 21 |}) = Some dist
    /\ _create_size_breakdown "Boots" 19
         {| region := "West Africa";
            preferred_products := [("Footwear", 70); ("Apparel", 30)]%string;
            preferred_categories :=
              [("Sneakers", 45); ("Boots", 25); ("Shirts", 20); ("Coats", 10)]%string;
            size_distribution :=
              [ ("Footwear",
                 [("7", 15); ("8", 20); ("9", 18); ("10", 15); ("11", 12); ("6", 10);
                  ("12", 5); ("5", 5)]);
                ("Apparel",
                 [("M", 25); ("L", 20); ("XL", 15); ("S", 15); ("XXL", 15); ("XS", 10)]) ]%string;
            lead_time_days := 21 |} = Some l
    /\ map size l `sublist_of` map fst dist
    /\ Forall (fun e => (0 < quantity e)%Z) l
    /\ (parts_total (map quantity l) <= 19)%Z.
Proof.
  apply (size_breakdown_within_quantity "Company C").
  - apply list_elem_of_here.
  - lia.
Defined.

(** ** The inventory levels read from a forecast *)

Lemma dict_fill_loop {V} (f : string -> option V) (g : string -> V)
    (ks : list string) (acc : list (string * V)) :
  NoDup (map fst acc ++ ks) ->
  (forall k, k ∈ ks -> f k = Some (g k)) ->
  fold_left
    (fun d k => match f k with Some v => dict_set k v d | None => d end) ks acc
  = acc ++ map (fun k => (k, g k)) ks.
Proof.
  revert acc. induction ks as [|k ks IH]; intros acc Hnd Hf; cbn [fold_left map].
  - by rewrite app_nil_r.
  - rewrite (Hf k) by apply list_elem_of_here.
    apply NoDup_app in Hnd as (Hacc & Hdis & Hks).
    apply NoDup_cons in Hks as [Hk Hks].
    rewrite ScenarioFacts.dict_set_fresh
      by (intros Hin; by apply (Hdis k Hin), list_elem_of_here).
    rewrite IH.
    + by rewrite <- app_assoc.
    + rewrite map_app. cbn [map fst]. rewrite <- app_assoc. cbn [app].
      apply NoDup_app. split; [done|]. split.
      * intros x Hx Hin. apply (Hdis x Hx). done.
      * by apply NoDup_cons.
    + intros k' Hk'. apply Hf. by apply list_elem_of_further.
Qed.

(** The stock that the analysis reads for a series out of a run of the
    forecast over [h] months. *)
Definition stock_of (self : forecaster) (h : nat) (w p : string) : product_stock_t :=
  {| total := final_position self w p h;
     categories := _estimate_category_breakdown (final_position self w p h) p |}.

Lemma latest_position self w p h :
  match max_key (ledger_map self w p h) ≫= fun latest_month =>
        ledger_map self w p h !! latest_month with
  | Some row => ending_position row
  | None => 0%Z
  end = final_position self w p h.
Proof.
  destruct h as [|t]; cbn [final_position].
  - cbn [ledger_map]. by rewrite max_key_empty.
  - rewrite max_key_ledger_map. cbn [mbind option_bind].
    rewrite ledger_map_lookup, decide_True by lia. done.
Qed.

Lemma generated_product self h w p :
  w ∈ warehouses -> p ∈ products ->
  exists pd,
    product_data (generate_rolling_forecast self h) w p = Some pd
    /\ rolling_inventory pd = ledger_map self w p h.
Proof.
  intros Hw Hp. pose proof (months_ledger self h h w p Hw Hp) as Hled.
  rewrite <- generated_rolling in Hled. unfold rolling_of in Hled.
  destruct (product_data _ w p) as [pd|]; [|done].
  exists pd. split; [done|]. by injection Hled.
Qed.

Lemma stock_loop self h wd w :
  (forall p, p ∈ products ->
     exists pd, wr_products wd !! p = Some pd
       /\ rolling_inventory pd = ledger_map self w p h) ->
  fold_left (stock_step wd) products []
  = map (fun p => (p, stock_of self h w p)) products.
Proof.
  intros Hps.
  set (f := fun p =>
         (fun pd =>
            let current_stock :=
              match max_key (rolling_inventory pd) ≫= fun latest_month =>
                    rolling_inventory pd !! latest_month with
              | Some row => ending_position row
              | None => 0%Z
              end in
            {| total := current_stock;
               categories := _estimate_category_breakdown current_stock p |})
         <$> wr_products wd !! p).
  transitivity
    (fold_left (fun d k => match f k with Some v => dict_set k v d | None => d end)
       products []).
  - apply fold_left_ext_in. intros stocks p _. unfold stock_step, f.
    by destruct (wr_products wd !! p).
  - rewrite (dict_fill_loop f (stock_of self h w)); [done| |].
    + cbn [map app]. apply NoDup_products.
    + intros p Hp. destruct (Hps p Hp) as (pd & Hpd & Hled). unfold f.
      rewrite Hpd. cbn [fmap option_fmap option_map]. rewrite Hled.
      by rewrite latest_position.
Qed.

Lemma inventory_levels_of_run simulated self h :
  analyze_current_inventory_levels simulated (Some (generate_rolling_forecast self h))
  = map (fun w => (w, map (fun p => (p, stock_of self h w p)) products)) warehouses.
Proof.
  unfold analyze_current_inventory_levels.
  set (res := generate_rolling_forecast self h).
  set (f := fun w =>
         (fun wd => fold_left (stock_step wd) products []) <$> res_warehouses res !! w).
  transitivity
    (fold_left (fun d k => match f k with Some v => dict_set k v d | None => d end)
       warehouses []).
  - apply fold_left_ext_in. intros acc w _. unfold f.
    by destruct (res_warehouses res !! w).
  - rewrite (dict_fill_loop f
               (fun w => map (fun p => (p, stock_of self h w p)) products)); [done| |].
    + cbn [map app]. apply NoDup_warehouses.
    + intros w Hw. unfold f.
      assert (exists wd, res_warehouses res !! w = Some wd) as [wd Hwd].
      { destruct (generated_product self h w "Footwear" Hw Footwear_in_products)
          as (pd & Hpd & _).
        unfold product_data in Hpd. fold res in Hpd.
        destruct (res_warehouses res !! w) as [wd|]; [by exists wd | done]. }
      rewrite Hwd. cbn [fmap option_fmap option_map]. f_equal.
      apply stock_loop. intros p Hp.
      destruct (generated_product self h w p Hw Hp) as (pd & Hpd & Hled).
      unfold product_data in Hpd. fold res in Hpd. rewrite Hwd in Hpd.
      by exists pd.
Qed.

Lemma dict_get_fill {V} (g : string -> V) (ks : list string) (k : string) :
  k ∈ ks -> dict_get k (map (fun k => (k, g k)) ks) = Some (g k).
Proof.
  induction ks as [|k' ks IH]; intros Hk; [by apply elem_of_nil in Hk|].
  cbn [map dict_get]. destruct (decide (k' = k)) as [->|Hne]; [done|].
  apply elem_of_cons in Hk as [->|Hk]; [done | by apply IH].
Qed.

Lemma category_breakdown_within (total_stock : Z) (product_type : string) :
  (0 <= total_stock)%Z ->
  Forall (fun c => (0 <= c.2)%Z) (_estimate_category_breakdown total_stock product_type)
  /\ (parts_total (map snd (_estimate_category_breakdown total_stock product_type))
      <= total_stock)%Z.
Proof.
  intros Ht. pose proof (inject_Z_nonneg _ Ht) as Hq.
  unfold _estimate_category_breakdown.
  destruct (decide (product_type = "Footwear"%string)).
  - assert (0 <= inject_Z total_stock * 0.65) as H1 by nra.
    assert (0 <= inject_Z total_stock * 0.35) as H2 by nra.
    split.
    + repeat constructor; by apply py_int_nonneg.
    + unfold parts_total. cbn [map snd foldr]. rewrite Z.add_0_r.
      rewrite Zle_Qle, inject_Z_plus.
      pose proof (py_int_le _ H1). pose proof (py_int_le _ H2). lra.
  - assert (0 <= inject_Z total_stock * 0.60) as H1 by nra.
    assert (0 <= inject_Z total_stock * 0.40) as H2 by nra.
    split.
    + repeat constructor; by apply py_int_nonneg.
    + unfold parts_total. cbn [map snd foldr]. rewrite Z.add_0_r.
      rewrite Zle_Qle, inject_Z_plus.
      pose proof (py_int_le _ H1). pose proof (py_int_le _ H2). lra.
Qed.

Lemma final_position_nonneg self w p h : (0 <= final_position self w p h)%Z.
Proof.
  destruct h as [|t]; cbn [final_position position_at]; [done|].
  apply py_round_nonneg, Q.le_max_l.
Qed.

(** X24. The inventory levels that the allocation engine reads from a
    run of the rolling forecast. The analysis lists the five warehouses
    in order; for a warehouse and product of the network, the total stock
    is the ending position of the last row of the series' ledger, and 0
    over an empty horizon; it is never negative; and the estimated
    categories are not negative and sum to at most that total, so the
    breakdown never shows more stock than the forecast holds. *)
Theorem inventory_levels_from_forecast
    (simulated : current_inventory_t) (self : forecaster) (h : nat) (w p : string) :
  w ∈ warehouses -> p ∈ products ->
  let inventory :=
    analyze_current_inventory_levels simulated
      (Some (generate_rolling_forecast self h)) in
  map fst inventory = warehouses
  /\ exists stocks s,
       dict_get w inventory = Some stocks
       /\ dict_get p stocks = Some s
       /\ match h with
          | O => total s = 0%Z
          | S t =>
              exists r,
                ledger (generate_rolling_forecast self h) w p t = Some r
                /\ total s = ending_position r
          end
       /\ (0 <= total s)%Z
       /\ categories s = _estimate_category_breakdown (total s) p
       /\ Forall (fun c => (0 <= c.2)%Z) (categories s)
       /\ (parts_total (map snd (categories s)) <= total s)%Z.
Proof.
  intros Hw Hp inventory. subst inventory. rewrite inventory_levels_of_run.
  split; [by rewrite map_map, map_id|].
  exists (map (fun p => (p, stock_of self h w p)) products), (stock_of self h w p).
  rewrite (dict_get_fill (fun w => map (fun p => (p, stock_of self h w p)) products))
    by done.
  rewrite (dict_get_fill (stock_of self h w)) by done.
  split; [done|]. split; [done|]. cbn [stock_of total categories].
  pose proof (final_position_nonneg self w p h) as Hnn.
  destruct (category_breakdown_within (final_position self w p h) p Hnn) as [Hc Hs].
  split; [|done].
  destruct h as [|t]; [done|].
  exists (ledger_row self w p t). split; [apply ledger_spec; (done || lia) | done].
Qed.

Lemma inventory_levels_from_forecast_witness :
  let inventory :=
    analyze_current_inventory_levels []
      (Some (generate_rolling_forecast example_forecaster 2)) in
  map fst inventory = warehouses
  /\ exists stocks s,
       dict_get "Atlanta" inventory = Some stocks
       /\ dict_get "Footwear" stocks = Some s
       /\ (exists r,
             ledger (generate_rolling_forecast example_forecaster 2)
               "Atlanta" "Footwear" 1 = Some r
             /\ total s = ending_position r)
       /\ (0 <= total s)%Z
       /\ categories s = _estimate_category_breakdown (total s) "Footwear"
       /\ Forall (fun c => (0 <= c.2)%Z) (categories s)
       /\ (parts_total (map snd (categories s)) <= total s)%Z.
Proof.
  apply (inventory_levels_from_forecast [] example_forecaster 2 "Atlanta" "Footwear").
  - apply Atlanta_in_warehouses.
  - apply Footwear_in_products.
Defined.

(** ** The choice of the warehouse of an allocation *)

Lemma py_max_by_spec {A} (key : A -> Q) (l : list A) (b : A) :
  py_max_by key l = Some b -> b ∈ l /\ forall x, x ∈ l -> key x <= key b.
Proof.
  destruct l as [|x l]; [done|]. cbn [py_max_by]. intros [= <-].
  assert (forall best,
            let b := fold_left
                       (fun best y => if Qgtb (key y) (key best) then y else best)
                       l best in
            (b = best \/ b ∈ l) /\ key best <= key b
            /\ forall y, y ∈ l -> key y <= key b) as Hfold.
  { induction l as [|y l IH]; intros best; cbn [fold_left].
    - split; [by left|]. split; [lra|]. intros y Hy. by apply elem_of_nil in Hy.
    - cbn zeta in IH. destruct (Qgtb (key y) (key best)) eqn:Hgt.
      + apply Qgtb_true in Hgt. destruct (IH y) as (Hin & Hle & Hall).
        split; [|split].
        * right. destruct Hin as [-> | Hin]; [apply list_elem_of_here|].
          by apply list_elem_of_further.
        * lra.
        * intros z Hz. apply elem_of_cons in Hz as [-> | Hz]; [done | by apply Hall].
      + apply Qgtb_false in Hgt. destruct (IH best) as (Hin & Hle & Hall).
        split; [|split].
        * destruct Hin as [-> | Hin]; [by left|]. right. by apply list_elem_of_further.
        * done.
        * intros z Hz. apply elem_of_cons in Hz as [-> | Hz]; [lra | by apply Hall]. }
  destruct (Hfold x) as (Hin & Hle & Hall). split.
  - destruct Hin as [-> | Hin]; [apply list_elem_of_here | by apply list_elem_of_further].
  - intros z Hz. apply elem_of_cons in Hz as [-> | Hz]; [done | by apply Hall].
Qed.

Lemma py_max_by_none {A} (key : A -> Q) (l : list A) :
  py_max_by key l = None <-> l = [].
Proof. by destruct l. Qed.

Lemma dict_get_Some_elem {V} (k : string) (v : V) (d : list (string * V)) :
  dict_get k d = Some v -> (k, v) ∈ d.
Proof.
  induction d as [|[k' v'] d IH]; [done|]. cbn [dict_get].
  destruct (decide (k' = k)) as [->|Hne].
  - intros [= ->]. apply list_elem_of_here.
  - intros H. by apply list_elem_of_further, IH.
Qed.

Lemma category_stock_listed ci w pt cat a :
  category_stock ci w pt cat = Some a -> a ∈ category_stocks ci pt cat.
Proof.
  unfold category_stock, category_stocks. intros H.
  destruct (dict_get w ci) as [inv|] eqn:Hinv; [|done]. cbn [mbind option_bind] in H.
  apply dict_get_Some_elem in Hinv. apply list_elem_of_omap.
  exists (w, inv). split; [done|]. done.
Qed.

Lemma py_sum_int_from (l : list Z) (a : Z) :
  fold_left Z.add l a = (a + py_sum_int l)%Z.
Proof.
  unfold py_sum_int. revert a. induction l as [|x l IH]; intros a; cbn [fold_left].
  - lia.
  - rewrite (IH (a + x)%Z), (IH (0 + x)%Z). lia.
Qed.

Lemma py_sum_int_ge (l : list Z) (a : Z) :
  Forall (fun x => (0 <= x)%Z) l -> a ∈ l -> (a <= py_sum_int l)%Z.
Proof.
  induction 1 as [|x l Hx Hl IH]; intros Ha; [by apply elem_of_nil in Ha|].
  assert (0 <= py_sum_int l)%Z as Hnn.
  { clear IH Ha. induction Hl as [|y l Hy _ IH]; [done|].
    unfold py_sum_int. cbn [fold_left]. rewrite py_sum_int_from. lia. }
  unfold py_sum_int. cbn [fold_left]. rewrite py_sum_int_from.
  apply elem_of_cons in Ha as [-> | Ha]; [lia|]. specialize (IH Ha). lia.
Qed.

Section Choice.

Variable current_inventory : current_inventory_t.
Variable category : string.
Variable demand_quantity : Z.
Variable partner_prefs : partner_prefs_t.

Hypothesis demand_positive : (0 < demand_quantity)%Z.
Hypothesis stocks_nonneg :
  Forall (fun a => (0 <= a)%Z)
    (category_stocks current_inventory (product_type_of category) category).

Definition stock_in (w : string) : option Z :=
  category_stock current_inventory w (product_type_of category) category.

Definition stocks_total : Z :=
  py_sum_int (category_stocks current_inventory (product_type_of category) category).

(** The score of a warehouse that holds [a] units of the category. *)
Definition score_of (w : string) (a : Z) : Q :=
  combined_score (_get_distance_factor w (region partner_prefs)) a demand_quantity
    stocks_total.

Definition option_of (w : string) (a : Z) : warehouse_option_t :=
  {| warehouse := w;
     available := a;
     score := score_of w a;
     confidence :=
       if (demand_quantity <=? a)%Z then "High"%string else "Medium"%string |}.

Definition options_of (ws : list string) : list warehouse_option_t :=
  flat_map
    (fun w =>
       match stock_in w with
       | Some a =>
           if Qle_bool (inject_Z demand_quantity * 0.1) (inject_Z a)
           then [option_of w a] else []
       | None => []
       end)
    ws.

Lemma option_step_spec (opts : list warehouse_option_t) (w : string) :
  option_step current_inventory category demand_quantity partner_prefs opts w
  = Some (opts ++ options_of [w]).
Proof.
  unfold option_step, options_of. cbn [flat_map]. rewrite app_nil_r.
  fold (stock_in w). destruct (stock_in w) as [a|] eqn:Ha; [|by rewrite app_nil_r].
  destruct (Qle_bool _ _) eqn:Hle; [|by rewrite app_nil_r].
  cbn zeta. fold stocks_total.
  rewrite decide_False; [done|].
  apply Qle_bool_iff in Hle.
  assert (0 < inject_Z demand_quantity) as Hd.
  { change 0 with (inject_Z 0). by rewrite <- Zlt_Qlt. }
  assert (0 < inject_Z a) as Hq by nra.
  change 0 with (inject_Z 0) in Hq. rewrite <- Zlt_Qlt in Hq.
  pose proof (py_sum_int_ge _ a stocks_nonneg (category_stock_listed _ _ _ _ _ Ha)).
  unfold stocks_total. lia.
Qed.

Lemma options_of_app ws1 ws2 : options_of (ws1 ++ ws2) = options_of ws1 ++ options_of ws2.
Proof. unfold options_of. by rewrite flat_map_app. Qed.

Lemma option_loop (ws : list string) (opts : list warehouse_option_t) :
  fold_left
    (fun acc w =>
       acc ≫= fun warehouse_options =>
       option_step current_inventory category demand_quantity partner_prefs
         warehouse_options w)
    ws (Some opts)
  = Some (opts ++ options_of ws).
Proof.
  revert opts. induction ws as [|w ws IH]; intros opts; cbn [fold_left].
  - unfold options_of. cbn. by rewrite app_nil_r.
  - cbn [mbind option_bind]. rewrite option_step_spec, IH.
    rewrite <- app_assoc. by rewrite <- options_of_app.
Qed.

Lemma options_of_elem (ws : list string) (o : warehouse_option_t) :
  o ∈ options_of ws
  <-> exists w a,
        w ∈ ws /\ stock_in w = Some a
        /\ inject_Z demand_quantity * 0.1 <= inject_Z a /\ o = option_of w a.
Proof.
  unfold options_of. rewrite list_elem_of_In, in_flat_map. split.
  - intros (w & Hw & Ho). apply list_elem_of_In in Hw.
    destruct (stock_in w) as [a|] eqn:Ha; [|done].
    destruct (Qle_bool _ _) eqn:Hle; [|done].
    apply Qle_bool_iff in Hle. destruct Ho as [<- | []]. by exists w, a.
  - intros (w & a & Hw & Ha & Hle & ->). exists w. split; [by apply list_elem_of_In|].
    rewrite Ha. apply Qle_bool_iff in Hle. rewrite Hle. by left.
Qed.

Lemma find_optimal_spec :
  _find_optimal_warehouse_allocation category demand_quantity current_inventory
    partner_prefs
  = Some (py_max_by score (options_of warehouses)).
Proof.
  unfold _find_optimal_warehouse_allocation. by rewrite option_loop.
Qed.

End Choice.

(** X25. The warehouse that an allocation is sourced from. For a
    positive demand and stocks of the category that are not negative, the
    search raises no error. It returns nothing exactly when no warehouse
    of the network holds at least a tenth of the demand. The warehouse
    it returns is one of the network that holds at least a tenth of the
    demand; the confidence is High exactly when the stock covers the
    whole demand; and no qualifying warehouse has a larger score. *)
Theorem optimal_warehouse_allocation
    (category : string) (demand_quantity : Z)
    (current_inventory : current_inventory_t) (partner_prefs : partner_prefs_t) :
  (0 < demand_quantity)%Z ->
  Forall (fun a => (0 <= a)%Z)
    (category_stocks current_inventory (product_type_of category) category) ->
  exists r,
    _find_optimal_warehouse_allocation category demand_quantity current_inventory
      partner_prefs = Some r
    /\ (r = None
        <-> forall w a,
              w ∈ warehouses ->
              category_stock current_inventory w (product_type_of category) category
              = Some a ->
              inject_Z a < inject_Z demand_quantity * 0.1)
    /\ forall best,
         r = Some best ->
         warehouse best ∈ warehouses
         /\ category_stock current_inventory (warehouse best)
              (product_type_of category) category = Some (available best)
         /\ inject_Z demand_quantity * 0.1 <= inject_Z (available best)
         /\ (confidence best = "High"%string
             <-> (demand_quantity <= available best)%Z)
         /\ score best
            = score_of current_inventory category demand_quantity partner_prefs
                (warehouse best) (available best)
         /\ forall w a,
              w ∈ warehouses ->
              category_stock current_inventory w (product_type_of category) category
              = Some a ->
              inject_Z demand_quantity * 0.1 <= inject_Z a ->
              score_of current_inventory category demand_quantity partner_prefs w a
              <= score best.
Proof.
  intros Hd Hs. eexists. split; [by apply find_optimal_spec|]. split.
  - rewrite py_max_by_none. split.
    + intros Hnil w a Hw Ha. apply Qnot_le_lt. intros Hle.
      assert (option_of current_inventory category demand_quantity partner_prefs w a
              ∈ options_of current_inventory category demand_quantity partner_prefs
                  warehouses) as Hin.
      { apply options_of_elem. by exists w, a. }
      rewrite Hnil in Hin. by apply elem_of_nil in Hin.
    + intros Hall.
      destruct (options_of _ _ _ _ warehouses) as [|o l] eqn:Ho; [done|].
      assert (o ∈ options_of current_inventory category demand_quantity partner_prefs
                    warehouses) as Hin by (rewrite Ho; apply list_elem_of_here).
      apply options_of_elem in Hin as (w & a & Hw & Ha & Hle & _).
      specialize (Hall w a Hw Ha). lra.
  - intros best Hbest. apply py_max_by_spec in Hbest as [Hin Hmax].
    apply options_of_elem in Hin as (w & a & Hw & Ha & Hle & ->).
    cbn [warehouse available score confidence option_of].
    split; [done|]. split; [done|]. split; [done|]. split; [|split; [done|]].
    + destruct (Z.leb_spec demand_quantity a); split; (done || lia).
    + intros w' a' Hw' Ha' Hle'.
      apply (Hmax (option_of current_inventory category demand_quantity partner_prefs
                     w' a')).
      apply options_of_elem. by exists w', a'.
Qed.

Lemma optimal_warehouse_allocation_witness :
  exists r,
    _find_optimal_warehouse_allocation "Boots" 1000 example_inventory
      {| region := "Latin America"; preferred_products := [];
         preferred_categories := []; size_distribution := [];
         lead_time_days := 12 |} = Some r
    /\ (r = None
        <-> forall w a,
              w ∈ warehouses ->
              category_stock example_inventory w (product_type_of "Boots")
                "Boots" = Some a ->
              inject_Z a < inject_Z 1000 * 0.1)
    /\ forall best,
         r = Some best ->
         warehouse best ∈ warehouses
         /\ category_stock example_inventory (warehouse best)
              (product_type_of "Boots") "Boots" = Some (available best)
         /\ inject_Z 1000 * 0.1 <= inject_Z (available best)
         /\ (confidence best = "High"%string <-> (1000 <= available best)%Z)
         /\ score best
            = score_of example_inventory "Boots" 1000
                {| region := "Latin America"; preferred_products := [];
                   preferred_categories := []; size_distribution := [];
                   lead_time_days := 12 |}
                (warehouse best) (available best)
         /\ forall w a,
              w ∈ warehouses ->
              category_stock example_inventory w (product_type_of "Boots")
                "Boots" = Some a ->
              inject_Z 1000 * 0.1 <= inject_Z a ->
              score_of example_inventory "Boots" 1000
                {| region := "Latin America"; preferred_products := [];
                   preferred_categories := []; size_distribution := [];
                   lead_time_days := 12 |} w a
              <= score best.
Proof.
  apply (optimal_warehouse_allocation "Boots" 1000 example_inventory).
  - lia.
  - apply (bool_decide_unpack _). by vm_compute.
Defined.

(** ** The order of the recommendations *)

Section Sort.

Context {A : Type} (lt : A -> A -> bool).

Hypothesis lt_asym : forall x y, lt x y = true -> lt y x = false.
Hypothesis lt_trans : forall x y z, lt x y = true -> lt y z = true -> lt x z = true.

Lemma insert_by_perm (x : A) (l : list A) : insert_by lt x l ≡ₚ x :: l.
Proof.
  induction l as [|y l IH]; cbn [insert_by]; [done|].
  destruct (lt x y); [done|]. rewrite IH. apply perm_swap.
Qed.

Lemma sort_by_perm (l : list A) : sort_by lt l ≡ₚ l.
Proof.
  unfold sort_by.
  assert (forall acc, fold_left (fun sorted x => insert_by lt x sorted) l acc ≡ₚ acc ++ l)
    as H.
  { induction l as [|x l IH]; intros acc; cbn [fold_left]; [by rewrite app_nil_r|].
    rewrite IH, insert_by_perm. cbn [app]. apply Permutation_middle. }
  apply (H []).
Qed.

(** No item precedes an item that is smaller. *)
Definition ascending_by (l : list A) : Prop :=
  forall i j x y,
    (i < j)%nat -> l !! i = Some x -> l !! j = Some y -> lt y x = false.

Lemma ascending_by_cons (x : A) (l : list A) :
  Forall (fun y => lt y x = false) l -> ascending_by l -> ascending_by (x :: l).
Proof.
  intros Hx Hl i j a b Hij Ha Hb. destruct j as [|j]; [lia|]. cbn in Hb.
  destruct i as [|i].
  - injection Ha as <-. rewrite Forall_forall in Hx. apply Hx.
    by apply list_elem_of_lookup_2 in Hb.
  - cbn in Ha. apply (Hl i j a b); (done || lia).
Qed.

Lemma ascending_by_inv (x : A) (l : list A) :
  ascending_by (x :: l) -> Forall (fun y => lt y x = false) l /\ ascending_by l.
Proof.
  intros H. split.
  - apply Forall_forall. intros y Hy. apply list_elem_of_lookup_1 in Hy as [j Hj].
    apply (H 0%nat (S j) x y); (done || lia).
  - intros i j a b Hij Ha Hb. apply (H (S i) (S j) a b); (done || lia).
Qed.

Lemma insert_by_ascending (x : A) (l : list A) :
  ascending_by l -> ascending_by (insert_by lt x l).
Proof.
  induction l as [|y l IH]; intros Hl; cbn [insert_by].
  - apply ascending_by_cons; [constructor | done].
  - apply ascending_by_inv in Hl as Hinv. destruct Hinv as [Hy Hl'].
    destruct (lt x y) eqn:Hxy.
    + apply ascending_by_cons; [|done]. constructor; [by apply lt_asym|].
      rewrite Forall_forall in Hy |- *. intros z Hz.
      destruct (lt z x) eqn:Hzx; [|done].
      rewrite <- (Hy z Hz). symmetry. by apply (lt_trans z x y).
    + apply ascending_by_cons; [|by apply IH].
      rewrite (insert_by_perm x l). by constructor.
Qed.

Lemma sort_by_ascending (l : list A) : ascending_by (sort_by lt l).
Proof.
  unfold sort_by.
  assert (forall acc, ascending_by acc ->
            ascending_by (fold_left (fun sorted x => insert_by lt x sorted) l acc)) as H.
  { induction l as [|x l IH]; intros acc Hacc; cbn [fold_left]; [done|].
    by apply IH, insert_by_ascending. }
  apply H. intros i j x y _ Hx. by rewrite lookup_nil in Hx.
Qed.

End Sort.

Lemma string_compare_refl (s : string) : String.compare s s = Eq.
Proof.
  pose proof (String.compare_antisym s s) as H.
  destruct (String.compare s s); (done || discriminate).
Qed.

Lemma ascii_compare_trans (a b c : Ascii.ascii) :
  Ascii.compare a b = Lt -> Ascii.compare b c = Lt -> Ascii.compare a c = Lt.
Proof.
  unfold Ascii.compare. rewrite !N.compare_lt_iff. apply N.lt_trans.
Qed.

Lemma string_compare_trans (a b c : string) :
  String.compare a b = Lt -> String.compare b c = Lt -> String.compare a c = Lt.
Proof.
  revert b c. induction a as [|x a IH]; intros [|y b] [|z c]; cbn; try done.
  destruct (Ascii.compare x y) eqn:Hxy; [|intros _|done].
  - apply Ascii.compare_eq_iff in Hxy as ->.
    destruct (Ascii.compare y z); [apply IH | done..].
  - destruct (Ascii.compare y z) eqn:Hyz; [|intros _|done].
    + apply Ascii.compare_eq_iff in Hyz as <-. by rewrite Hxy.
    + by rewrite (ascii_compare_trans _ _ _ Hxy Hyz).
Qed.

Lemma key_ltb_asym (k1 k2 : string * string) :
  key_ltb k1 k2 = true -> key_ltb k2 k1 = false.
Proof.
  unfold key_ltb, String.ltb.
  rewrite (String.compare_antisym k1.1 k2.1), (String.compare_antisym k1.2 k2.2).
  by destruct (String.compare k2.1 k1.1), (String.compare k2.2 k1.2).
Qed.

Lemma key_ltb_trans (k1 k2 k3 : string * string) :
  key_ltb k1 k2 = true -> key_ltb k2 k3 = true -> key_ltb k1 k3 = true.
Proof.
  unfold key_ltb, String.ltb.
  destruct (String.compare k1.1 k2.1) eqn:H12; [|intros _|done].
  - apply String.compare_eq_iff in H12. rewrite H12.
    destruct (String.compare k2.1 k3.1); [|done..].
    destruct (String.compare k1.2 k2.2) eqn:D12; [done| |done]. intros _.
    destruct (String.compare k2.2 k3.2) eqn:D23; [done| |done]. intros _.
    by rewrite (string_compare_trans _ _ _ D12 D23).
  - destruct (String.compare k2.1 k3.1) eqn:H23; [|intros _|done].
    + apply String.compare_eq_iff in H23. by rewrite <- H23, H12.
    + by rewrite (string_compare_trans _ _ _ H12 H23).
Qed.

(** The four priorities, and their place in the order of strings. *)
Definition priority_labels : list string := ["HIGH"; "LOW"; "MEDIUM"; "URGENT"]%string.

Definition label_rank (label : string) : nat :=
  default 4%nat (fst <$> list_find (fun l => l = label) priority_labels).

Lemma label_rank_order (p1 p2 : string) :
  p1 ∈ priority_labels -> p2 ∈ priority_labels ->
  String.compare p2 p1 <> Lt -> (label_rank p1 <= label_rank p2)%nat.
Proof.
  unfold priority_labels. rewrite !elem_of_cons, !elem_of_nil.
  intros [-> | [-> | [-> | [-> | []]]]] [-> | [-> | [-> | [-> | []]]]];
    vm_compute; (done || lia).
Qed.

Lemma priority_is_label partner category quantity days :
  _calculate_allocation_priority partner category quantity days ∈ priority_labels.
Proof.
  unfold _calculate_allocation_priority, priority_labels.
  case_bool_decide; destruct (days <=? 7)%Z, (days <=? 14)%Z;
    rewrite !elem_of_cons; tauto.
Qed.

(** ** The recommendations *)

Lemma fold_option_none {A B} (f : A -> B -> option A) (l : list B) :
  fold_left (fun acc b => acc ≫= fun a => f a b) l None = None.
Proof. by induction l. Qed.

Lemma fold_option_invariant {A B} (f : A -> B -> option A) (P : A -> Prop)
    (l : list B) (a a' : A) :
  (forall a b a', b ∈ l -> P a -> f a b = Some a' -> P a') ->
  P a ->
  fold_left (fun acc b => acc ≫= fun a => f a b) l (Some a) = Some a' ->
  P a'.
Proof.
  revert a. induction l as [|b l IH]; intros a Hf Ha; cbn [fold_left].
  - by intros [= <-].
  - cbn [mbind option_bind]. destruct (f a b) as [a1|] eqn:Hab.
    + apply IH; [|by apply (Hf a b); [apply list_elem_of_here|..]].
      intros a2 b2 a3 Hb2. apply Hf. by apply list_elem_of_further.
    + by rewrite fold_option_none.
Qed.

Lemma option_step_inv ci category demand_quantity partner_prefs opts w opts' :
  option_step ci category demand_quantity partner_prefs opts w = Some opts' ->
  opts' = opts ++ options_of ci category demand_quantity partner_prefs [w].
Proof.
  unfold option_step, options_of. cbn [flat_map]. rewrite app_nil_r.
  fold (stock_in ci category w).
  destruct (stock_in ci category w) as [a|]; [|rewrite app_nil_r; congruence].
  destruct (Qle_bool _ _); [|rewrite app_nil_r; congruence].
  cbn zeta. destruct (decide _); [done|]. by intros [= <-].
Qed.

Lemma option_loop_inv ci category demand_quantity partner_prefs ws opts opts' :
  fold_left
    (fun acc w =>
       acc ≫= fun warehouse_options =>
       option_step ci category demand_quantity partner_prefs warehouse_options w)
    ws (Some opts) = Some opts' ->
  opts' = opts ++ options_of ci category demand_quantity partner_prefs ws.
Proof.
  revert opts. induction ws as [|w ws IH]; intros opts; cbn [fold_left].
  - intros [= <-]. unfold options_of. cbn. by rewrite app_nil_r.
  - cbn [mbind option_bind].
    destruct (option_step _ _ _ _ opts w) as [opts1|] eqn:Hstep.
    + apply option_step_inv in Hstep as ->. intros H. apply IH in H as ->.
      rewrite <- app_assoc. by rewrite <- options_of_app.
    + by rewrite fold_option_none.
Qed.

Lemma find_optimal_inv category demand_quantity ci partner_prefs best :
  _find_optimal_warehouse_allocation category demand_quantity ci partner_prefs
  = Some (Some best) ->
  exists w a,
    w ∈ warehouses
    /\ category_stock ci w (product_type_of category) category = Some a
    /\ inject_Z demand_quantity * 0.1 <= inject_Z a
    /\ best = option_of ci category demand_quantity partner_prefs w a.
Proof.
  unfold _find_optimal_warehouse_allocation.
  destruct (fold_left _ _ _) as [opts|] eqn:Hloop; [|done].
  apply option_loop_inv in Hloop as ->. rewrite app_nil_l.
  cbn [mbind option_bind]. intros H.
  assert (py_max_by score
            (options_of ci category demand_quantity partner_prefs warehouses)
          = Some best) as Hbest by congruence.
  pose proof (proj1 (py_max_by_spec score
                       (options_of ci category demand_quantity partner_prefs warehouses)
                       best Hbest)) as Hin.
  by apply (options_of_elem ci category demand_quantity partner_prefs warehouses best)
    in Hin.
Qed.

(** What holds of every recommendation. *)
Definition sound_recommendation (ci : current_inventory_t)
    (partner_requirements : list (string * requirements_t))
    (r : recommendation_t) : Prop :=
  let details := product_details r in
  (exists requirements, (to_partner r, requirements) ∈ partner_requirements)
  /\ (exists prefs,
        (to_partner r, prefs) ∈ partner_preferences
        /\ partner_region r = region prefs)
  /\ from_warehouse r ∈ warehouses
  /\ (1000 <= total_quantity details)%Z
  /\ product_type details = product_type_of (pd_category details)
  /\ (exists a,
        category_stock ci (from_warehouse r) (product_type details)
          (pd_category details) = Some a
        /\ inject_Z (total_quantity details) * 0.1 <= inject_Z a
        /\ fulfillment_percentage details
           = Qmin 100 (inject_Z a / inject_Z (total_quantity details) * 100)
        /\ (rec_confidence r = "High"%string <-> (total_quantity details <= a)%Z))
  /\ 10 <= fulfillment_percentage details <= 100
  /\ Forall (fun e => (0 < quantity e)%Z) (size_breakdown details)
  /\ (parts_total (map quantity (size_breakdown details)) <= total_quantity details)%Z
  /\ priority r ∈ priority_labels
  /\ status r = "RECOMMENDED"%string.

Section Recommendations.

Variable days_until_ship : string -> string -> option Z.
Variable ci : current_inventory_t.
Variable partner_requirements : list (string * requirements_t).

Lemma category_step_sound partner prefs next_month delivery_info recs item recs' :
  (partner, prefs) ∈ partner_preferences ->
  (exists requirements, (partner, requirements) ∈ partner_requirements) ->
  Forall (sound_recommendation ci partner_requirements) recs ->
  category_step days_until_ship ci partner prefs next_month delivery_info recs item
  = Some recs' ->
  Forall (sound_recommendation ci partner_requirements) recs'.
Proof.
  intros Hprefs Hreq Hrecs. unfold category_step. cbn zeta.
  destruct (Z.ltb_spec item.2 1000) as [Hlt|Hge]; [by intros [= <-]|].
  destruct (_find_optimal_warehouse_allocation _ _ _ _) as [[best|]|] eqn:Hbest;
    cbn [mbind option_bind]; [| by intros [= <-] | done].
  apply find_optimal_inv in Hbest as (w & a & Hw & Ha & Hle & ->).
  destruct (partner_distribution partner prefs item.1 Hprefs) as (d & Hd & Hv).
  assert (0 <= item.2)%Z as Hnn by lia.
  destruct (size_breakdown_of_distribution item.2 d Hnn Hv) as (Hpos & Hsum & _).
  unfold _create_size_breakdown. rewrite Hd. cbn [mbind option_bind].
  rewrite size_breakdown_loop. cbn [app].
  destruct (days_until_ship partner item.1) as [days|]; [|done].
  cbn [mbind option_bind]. intros [= <-].
  apply Forall_app. split; [done|]. constructor; [|constructor].
  unfold sound_recommendation.
  cbn [product_details to_partner partner_region from_warehouse total_quantity
       product_type pd_category fulfillment_percentage size_breakdown priority
       status rec_confidence option_of warehouse available confidence].
  assert (0 < inject_Z item.2) as Hq.
  { change 0 with (inject_Z 0). rewrite <- Zlt_Qlt. lia. }
  split; [done|]. split; [by exists prefs|]. split; [done|]. split; [done|].
  split; [done|]. split.
  { exists a. split; [done|]. split; [done|]. split; [done|].
    destruct (Z.leb_spec item.2 a); split; (done || lia). }
  split.
  { split; [|apply Q.le_min_l]. apply Q.min_glb; [done|].
    assert (inject_Z a / inject_Z item.2 * 100 == inject_Z a * 100 / inject_Z item.2)
      as -> by (field; lra).
    apply Qle_shift_div_l; [done|]. lra. }
  split; [done|]. split; [done|]. split; [apply priority_is_label | done].
Qed.

Lemma partner_step_sound recs item recs' :
  item ∈ partner_requirements ->
  Forall (sound_recommendation ci partner_requirements) recs ->
  partner_step days_until_ship ci recs item = Some recs' ->
  Forall (sound_recommendation ci partner_requirements) recs'.
Proof.
  intros Hitem Hrecs. unfold partner_step. cbn zeta.
  destruct (dict_get item.1 partner_preferences) as [prefs|] eqn:Hprefs; [|done].
  apply dict_get_Some_elem in Hprefs. cbn [mbind option_bind].
  destruct (head (map fst _)) as [next_month|]; [|done]. cbn [mbind option_bind].
  destruct (head (delivery_timeline _)) as [delivery_info|]; [|done].
  cbn [mbind option_bind].
  destruct (dict_get next_month (category_breakdown item.2)) as [category_demands|];
    [|done].
  cbn [mbind option_bind].
  apply (fold_option_invariant
           (fun recs item' =>
              category_step days_until_ship ci item.1 prefs next_month delivery_info
                recs item')
           (Forall (sound_recommendation ci partner_requirements))); [|done].
  intros recs1 item' recs2 _ Hrecs1. apply category_step_sound; [done| |done].
  exists item.2. by destruct item.
Qed.

Lemma generated_recommendations out :
  generate_allocation_recommendations days_until_ship ci partner_requirements
  = Some out ->
  exists recs,
    out = sort_by (fun x y => key_ltb (sort_key x) (sort_key y)) recs
    /\ Forall (sound_recommendation ci partner_requirements) recs.
Proof.
  unfold generate_allocation_recommendations.
  destruct (fold_left _ _ _) as [recs|] eqn:Hloop; [|done].
  cbn [mbind option_bind]. intros [= <-]. exists recs. split; [done|].
  revert Hloop.
  apply (fold_option_invariant (partner_step days_until_ship ci)
           (Forall (sound_recommendation ci partner_requirements))); [|done].
  intros recs1 item recs2 Hitem Hrecs1. by apply partner_step_sound.
Qed.

End Recommendations.

Lemma label_rank_urgent (p1 p2 : string) :
  p2 ∈ priority_labels -> (label_rank p1 <= label_rank p2)%nat ->
  p1 = "URGENT"%string -> p2 = "URGENT"%string.
Proof.
  unfold priority_labels. rewrite !elem_of_cons, elem_of_nil.
  intros [-> | [-> | [-> | [-> | []]]]] Hle ->; vm_compute in Hle; (done || lia).
Qed.

Lemma label_rank_high (p1 p2 : string) :
  p1 ∈ priority_labels -> (label_rank p1 <= label_rank p2)%nat ->
  p2 = "HIGH"%string -> p1 = "HIGH"%string.
Proof.
  unfold priority_labels. rewrite !elem_of_cons, elem_of_nil.
  intros [-> | [-> | [-> | [-> | []]]]] Hle ->; vm_compute in Hle; (done || lia).
Qed.

(** X26. The recommendations are sorted by the priority as a string, so
    the urgent ones come last. Every recommendation carries one of the
    four priorities; in the list returned, the priorities follow the
    order HIGH, LOW, MEDIUM, URGENT of the strings: every recommendation
    after an URGENT one is URGENT, and every recommendation before a HIGH
    one is HIGH; recommendations of the same priority are in the order
    of their ship-by dates. *)
Theorem recommendations_sorted_by_label
    (days_until_ship : string -> string -> option Z)
    (current_inventory : current_inventory_t)
    (partner_requirements : list (string * requirements_t))
    (out : list recommendation_t) :
  generate_allocation_recommendations days_until_ship current_inventory
    partner_requirements = Some out ->
  (forall r, r ∈ out -> priority r ∈ priority_labels)
  /\ forall i j r1 r2,
       (i < j)%nat -> out !! i = Some r1 -> out !! j = Some r2 ->
       (label_rank (priority r1) <= label_rank (priority r2))%nat
       /\ (priority r1 = "URGENT"%string -> priority r2 = "URGENT"%string)
       /\ (priority r2 = "HIGH"%string -> priority r1 = "HIGH"%string)
       /\ (priority r1 = priority r2 ->
           String.ltb (tl_ship_by_date (timeline r2)) (tl_ship_by_date (timeline r1))
           = false).
Proof.
  intros Hgen.
  apply generated_recommendations in Hgen as (recs & -> & Hsound).
  assert (forall r,
            r ∈ sort_by (fun x y => key_ltb (sort_key x) (sort_key y)) recs ->
            priority r ∈ priority_labels) as Hlabel.
  { intros r Hr. rewrite sort_by_perm in Hr. rewrite Forall_forall in Hsound.
    apply (Hsound r Hr). }
  split; [done|]. intros i j r1 r2 Hij H1 H2.
  pose proof (sort_by_ascending (fun x y => key_ltb (sort_key x) (sort_key y))
                (fun x y => key_ltb_asym (sort_key x) (sort_key y))
                (fun x y z => key_ltb_trans (sort_key x) (sort_key y) (sort_key z))
                recs i j r1 r2 Hij H1 H2) as Hkey.
  pose proof (Hlabel r1 (list_elem_of_lookup_2 _ _ _ H1)) as L1.
  pose proof (Hlabel r2 (list_elem_of_lookup_2 _ _ _ H2)) as L2.
  unfold key_ltb, sort_key in Hkey. cbn [fst snd] in Hkey.
  assert (label_rank (priority r1) <= label_rank (priority r2))%nat as Hrank.
  { apply label_rank_order; [done..|].
    by destruct (String.compare (priority r2) (priority r1)). }
  split; [done|]. split; [by apply label_rank_urgent|].
  split; [by apply label_rank_high|].
  intros Heq. rewrite Heq, string_compare_refl in Hkey. done.
Qed.

Lemma recommendations_sorted_by_label_witness :
  (forall r, r ∈ example_recommendations -> priority r ∈ priority_labels)
  /\ forall i j r1 r2,
       (i < j)%nat ->
       example_recommendations !! i = Some r1 ->
       example_recommendations !! j = Some r2 ->
       (label_rank (priority r1) <= label_rank (priority r2))%nat
       /\ (priority r1 = "URGENT"%string -> priority r2 = "URGENT"%string)
       /\ (priority r2 = "HIGH"%string -> priority r1 = "HIGH"%string)
       /\ (priority r1 = priority r2 ->
           String.ltb (tl_ship_by_date (timeline r2)) (tl_ship_by_date (timeline r1))
           = false).
Proof.
  apply (recommendations_sorted_by_label example_clock example_inventory
           example_requirements).
  by vm_compute.
Defined.

(** X27. What every recommendation holds. A recommendation that
    [generate_allocation_recommendations] returns is for a partner of the
    requirements and of the table of preferences, and carries its region;
    it allocates at least 1000 units; its warehouse is one of the network
    whose stock of the category is at least a tenth of the quantity; the
    fulfillment percentage is that stock over the quantity, capped at
    100, so it lies between 10 and 100; the confidence is High exactly
    when the stock covers the quantity; the sizes have positive
    quantities that sum to at most the quantity; and the status is
    RECOMMENDED. *)
Theorem recommendations_sound
    (days_until_ship : string -> string -> option Z)
    (current_inventory : current_inventory_t)
    (partner_requirements : list (string * requirements_t))
    (out : list recommendation_t) :
  generate_allocation_recommendations days_until_ship current_inventory
    partner_requirements = Some out ->
  Forall
    (fun r =>
       let details := product_details r in
       (exists requirements, (to_partner r, requirements) ∈ partner_requirements)
       /\ (exists prefs,
             (to_partner r, prefs) ∈ partner_preferences
             /\ partner_region r = region prefs)
       /\ from_warehouse r ∈ warehouses
       /\ (1000 <= total_quantity details)%Z
       /\ product_type details = product_type_of (pd_category details)
       /\ (exists a,
             category_stock current_inventory (from_warehouse r)
               (product_type details) (pd_category details) = Some a
             /\ inject_Z (total_quantity details) * 0.1 <= inject_Z a
             /\ fulfillment_percentage details
                = Qmin 100 (inject_Z a / inject_Z (total_quantity details) * 100)
             /\ (rec_confidence r = "High"%string
                 <-> (total_quantity details <= a)%Z))
       /\ 10 <= fulfillment_percentage details <= 100
       /\ Forall (fun e => (0 < quantity e)%Z) (size_breakdown details)
       /\ (parts_total (map quantity (size_breakdown details))
           <= total_quantity details)%Z
       /\ status r = "RECOMMENDED"%string)
    out.
Proof.
  intros Hgen.
  apply generated_recommendations in Hgen as (recs & -> & Hsound).
  rewrite sort_by_perm. eapply Forall_impl; [exact Hsound|].
  intros r Hr. unfold sound_recommendation in Hr. cbn zeta in Hr |- *.
  destruct Hr as (H1 & H2 & H3 & H4 & H5 & H6 & H7 & H8 & H9 & _ & H11).
  done.
Qed.

Lemma recommendations_sound_witness :
  Forall
    (fun r =>
       let details := product_details r in
       (exists requirements, (to_partner r, requirements) ∈ example_requirements)
       /\ (exists prefs,
             (to_partner r, prefs) ∈ partner_preferences
             /\ partner_region r = region prefs)
       /\ from_warehouse r ∈ warehouses
       /\ (1000 <= total_quantity details)%Z
       /\ product_type details = product_type_of (pd_category details)
       /\ (exists a,
             category_stock example_inventory (from_warehouse r)
               (product_type details) (pd_category details) = Some a
             /\ inject_Z (total_quantity details) * 0.1 <= inject_Z a
             /\ fulfillment_percentage details
                = Qmin 100 (inject_Z a / inject_Z (total_quantity details) * 100)
             /\ (rec_confidence r = "High"%string
                 <-> (total_quantity details <= a)%Z))
       /\ 10 <= fulfillment_percentage details <= 100
       /\ Forall (fun e => (0 < quantity e)%Z) (size_breakdown details)
       /\ (parts_total (map quantity (size_breakdown details))
           <= total_quantity details)%Z
       /\ status r = "RECOMMENDED"%string)
    example_recommendations.
Proof.
  apply (recommendations_sound example_clock). by vm_compute.
Defined.

(** ** The shipping cost across the volume tiers *)

Lemma region_factor_bounds (m : list (string * Q)) (partner_region : string) :
  forallb (fun kv => Qle_bool 1.5 kv.2 && Qle_bool kv.2 3.8) m = true ->
  1.5 <= default 2.5 ((list_to_map m : gmap string Q) !! partner_region)
  /\ default 2.5 ((list_to_map m : gmap string Q) !! partner_region) <= 3.8.
Proof.
  intros Hm. destruct (_ !! partner_region) as [x|] eqn:Hx; cbn [default].
  - apply elem_of_list_to_map_2, list_elem_of_In in Hx.
    rewrite forallb_forall in Hm. specialize (Hm _ Hx). cbn [snd] in Hm.
    apply andb_prop in Hm as [H1 H2]. by rewrite !Qle_bool_iff in *.
  - split; by vm_compute.
Qed.

Lemma allocation_distance_factor_bounds (warehouse partner_region : string) :
  1.5 <= _get_distance_factor warehouse partner_region
  /\ _get_distance_factor warehouse partner_region <= 3.8.
Proof.
  unfold _get_distance_factor.
  destruct (distance_matrix !! warehouse) as [m|] eqn:Hm; cbn [default].
  - unfold distance_matrix in Hm. apply elem_of_list_to_map_2 in Hm.
    repeat (apply elem_of_cons in Hm as [Hm|Hm];
            [apply (f_equal snd) in Hm; cbn [snd] in Hm; rewrite Hm;
             by apply region_factor_bounds|]).
    by apply elem_of_nil in Hm.
  - rewrite lookup_empty. cbn [default]. split; by vm_compute.
Qed.

Lemma py_round_nd_bounds (x : Q) :
  x - 0.005 <= py_round_nd x 2 <= x + 0.005.
Proof.
  unfold py_round_nd. pose proof (py_round_bounds (x * pow10 2)) as [H1 H2].
  change (pow10 2) with 100 in *. split.
  - apply Qle_shift_div_l; [done|]. lra.
  - apply Qle_shift_div_r; [done|]. lra.
Qed.

(** X29. The shipping cost is not monotone in the quantity. Within a
    volume tier a larger quantity never costs less; but the discount
    applies to the whole shipment, so a shipment of more than 10,000 and
    up to 10,500 units costs less than one of 10,000, and a shipment of
    more than 5,000 and up to 5,500 units costs less than one of 5,000. *)
Theorem shipping_cost_drops_across_tiers (warehouse partner_region : string) :
  (forall q1 q2,
     volume_discount q1 = volume_discount q2 -> q1 <= q2 ->
     _estimate_shipping_cost q1 warehouse partner_region
     <= _estimate_shipping_cost q2 warehouse partner_region)
  /\ (forall q,
        10000 < q -> q <= 10500 ->
        _estimate_shipping_cost q warehouse partner_region
        < _estimate_shipping_cost 10000 warehouse partner_region)
  /\ (forall q,
        5000 < q -> q <= 5500 ->
        _estimate_shipping_cost q warehouse partner_region
        < _estimate_shipping_cost 5000 warehouse partner_region).
Proof.
  destruct (allocation_distance_factor_bounds warehouse partner_region) as [Hlo Hhi].
  unfold _estimate_shipping_cost, base_cost_per_unit. cbn zeta.
  set (d := _get_distance_factor warehouse partner_region) in *.
  split; [|split].
  - intros q1 q2 Hdisc Hle. apply py_round_nd_mono. rewrite Hdisc.
    assert (0 < volume_discount q2) as Hpos.
    { unfold volume_discount. destruct (Qgtb q2 10000), (Qgtb q2 5000); by vm_compute. }
    repeat apply Qmult_le_compat_r; lra.
  - intros q Hq1 Hq2.
    assert (volume_discount q = 0.85) as ->.
    { unfold volume_discount. by rewrite (proj2 (Qgtb_true q 10000) Hq1). }
    assert (volume_discount 10000 = 0.90) as -> by (by vm_compute).
    pose proof (py_round_nd_bounds (q * 2.50 * d * 0.85)) as [_ H1].
    pose proof (py_round_nd_bounds (10000 * 2.50 * d * 0.90)) as [H2 _].
    assert (q * d <= 10500 * d) as Hqd by (apply Qmult_le_compat_r; lra).
    lra.
  - intros q Hq1 Hq2.
    assert (volume_discount q = 0.90) as ->.
    { unfold volume_discount.
      rewrite (proj2 (Qgtb_false q 10000)) by lra.
      by rewrite (proj2 (Qgtb_true q 5000) Hq1). }
    assert (volume_discount 5000 = 1.0) as -> by (by vm_compute).
    pose proof (py_round_nd_bounds (q * 2.50 * d * 0.90)) as [_ H1].
    pose proof (py_round_nd_bounds (5000 * 2.50 * d * 1.0)) as [H2 _].
    assert (q * d <= 5500 * d) as Hqd by (apply Qmult_le_compat_r; lra).
    lra.
Qed.

End AllocationFacts.

Module AnalysisFacts.

Import Examples.

Import PyNum RollingForecast PyNumFacts RollingForecastFacts RunFacts.
Import CapacityOptimizer CapacityAnalysis.

(** ** The capacity analysis of a forecast *)












Section Analysis.

Variable np_polyfit_slope : list Q -> Q.
Variable np_std : list Q -> Q.
Variable capacities : list (string * Q).
Variable forecasts : results_t.




End Analysis.




End AnalysisFacts.

Module HighDemandFacts.

Import PyNum CapacityOptimizer PyNumFacts Heap HighDemandScenario ScenarioValues.
Import HighDemandValues BaselineFacts ScenarioRunFacts.

(** ** The demonstration scenario on the heap *)

Lemma subseteq_extends (h h' : heap) : h ⊆ h' -> extends h h'.
Proof.
  intros Hsub l Hl. apply elem_of_dom in Hl as [o Ho]. rewrite Ho.
  by apply (lookup_weaken h).
Qed.

(** *** The records of an analysis built by dictionary displays *)

Lemma new_data_owned (h0 h : heap) (v : warehouse_data) :
  extends h0 h ->
  exists l d h',
    new_data v h = Some (l, h')
    /\ h ⊆ h' /\ extends h0 h' /\ owned h0 h' l d v
    /\ forall x, x ∈ footprint l d -> x ∉ dom h.
Proof.
  intros He.
  set (h1 := <[fresh (dom h) := OInfo (warehouse_info v)]> h).
  set (h2 := <[fresh (dom h1) := OMetrics (utilization_metrics v)]> h1).
  set (h3 := <[fresh (dom h2) := OTrend (trend_analysis v)]> h2).
  set (h4 := <[fresh (dom h3) := ORisk (risk_assessment v)]> h3).
  set (h5 := <[fresh (dom h4) := OTimeline (timeline_data v)]> h4).
  set (d := {| r_info := fresh (dom h); r_metrics := fresh (dom h1);
               r_trend := fresh (dom h2); r_risk := fresh (dom h3);
               r_timeline := fresh (dom h4) |}).
  set (h6 := <[fresh (dom h5) :=
                 OData (r_info d) (r_metrics d) (r_trend d) (r_risk d)
                   (r_timeline d)]> h5).
  assert (S1 : h ⊆ h1) by apply alloc_subseteq.
  assert (S2 : h1 ⊆ h2) by apply alloc_subseteq.
  assert (S3 : h2 ⊆ h3) by apply alloc_subseteq.
  assert (S4 : h3 ⊆ h4) by apply alloc_subseteq.
  assert (S5 : h4 ⊆ h5) by apply alloc_subseteq.
  assert (S6 : h5 ⊆ h6) by apply alloc_subseteq.
  assert (T2 : h ⊆ h2) by (by etrans).
  assert (T3 : h ⊆ h3) by (by etrans).
  assert (T4 : h ⊆ h4) by (by etrans).
  assert (T5 : h ⊆ h5) by (by etrans).
  assert (T6 : h ⊆ h6) by (by etrans).
  assert (U4 : h4 ⊆ h6) by (by etrans).
  assert (U3 : h3 ⊆ h6) by (by etrans).
  assert (U2 : h2 ⊆ h6) by (by etrans).
  assert (U1 : h1 ⊆ h6) by (by etrans).
  assert (Hmono : forall h', h ⊆ h' -> fresh (dom h') ∉ dom h).
  { intros h' Hsub Hin. apply (is_fresh (dom h')).
    apply elem_of_dom in Hin as [o Ho]. apply elem_of_dom. exists o.
    by apply (lookup_weaken h). }
  assert (Hnew : forall x, x ∈ footprint (fresh (dom h5)) d -> x ∉ dom h).
  { intros x Hx. unfold footprint in Hx.
    cbn [r_info r_metrics r_trend r_risk r_timeline d] in Hx.
    rewrite !elem_of_cons, elem_of_nil in Hx.
    destruct Hx as [->|[->|[->|[->|[->|[->|[]]]]]]]; by apply Hmono. }
  exists (fresh (dom h5)), d, h6.
  split; [done|]. split; [done|].
  split; [by apply (extends_subseteq h0 h)|]. split; [|done].
  split; [|split].
  - unfold refs_at, h6. by rewrite lookup_insert_eq.
  - unfold holds. cbn [r_info r_metrics r_trend r_risk r_timeline d].
    split; [|split; [|split; [|split]]].
    + apply (lookup_weaken h1); [apply lookup_insert_eq | done].
    + apply (lookup_weaken h2); [apply lookup_insert_eq | done].
    + apply (lookup_weaken h3); [apply lookup_insert_eq | done].
    + apply (lookup_weaken h4); [apply lookup_insert_eq | done].
    + apply (lookup_weaken h5); [apply lookup_insert_eq | done].
  - intros x Hx Hin. apply (Hnew x Hx). by apply (extends_dom_subseteq h0 h).
Qed.

Lemma new_analysis_separate (h0 : heap) (v : capacity_analysis_t) (h : heap) :
  extends h0 h ->
  exists es h',
    new_analysis v h = Some (refs_of es, h')
    /\ h ⊆ h' /\ extends h0 h' /\ separate h0 h' es /\ values_of es = v
    /\ forall x, x ∈ footprints es -> x ∉ dom h.
Proof.
  revert h. induction v as [|[w d] v IH]; intros h He.
  - exists [], h. split; [done|]. split; [done|]. split; [done|].
    split; [split; [apply Forall_nil_2 | apply NoDup_nil_2]|].
    split; [done|]. intros x Hx. by apply elem_of_nil in Hx.
  - destruct (new_data_owned h0 h d He) as (l & dr & h1 & Hnew & S1 & He1 & Ho1 & Hf1).
    destruct (IH h1 He1) as (es & h2 & Hrest & S2 & He2 & [Hall Hnd] & Hvals & Hf2).
    exists ({| e_key := w; e_loc := l; e_refs := dr; e_value := d |} :: es), h2.
    split; [|split; [by etrans|split; [done|split; [|split]]]].
    + cbn [new_analysis]. rewrite (bind_some _ _ _ _ _ Hnew).
      rewrite (bind_some _ _ _ _ _ Hrest). done.
    + split.
      * apply Forall_cons. split; [|done]. cbn [e_loc e_refs e_value].
        apply (owned_extends h0 h1 h2); [done | by apply subseteq_extends].
      * unfold footprints. cbn [flat_map e_loc e_refs].
        apply NoDup_app. split; [|split; [|done]].
        -- destruct Ho1 as (Hl & Hv & _). by eapply footprint_distinct.
        -- intros x Hx Hin. apply (Hf2 x Hin).
           destruct Ho1 as (Hl & Hv & _). by eapply footprint_dom.
    + cbn [values_of map e_key e_value]. unfold values_of in Hvals. by rewrite Hvals.
    + intros x Hx. unfold footprints in Hx. cbn [flat_map e_loc e_refs] in Hx.
      apply elem_of_app in Hx as [Hx|Hx]; [by apply Hf1|].
      intros Hin. apply (Hf2 x Hx), elem_of_dom.
      apply elem_of_dom in Hin as [o Ho]. exists o. by apply (lookup_weaken h).
Qed.

(** *** The writes of the scenario, and what they leave alone *)

Section Writes.

Variable h0 : heap.

Lemma modify_trend_frame h l d v f :
  extends h0 h -> owned h0 h l d v ->
  exists h',
    modify_trend l f h = Some (tt, h')
    /\ extends h0 h' /\ owned h0 h' l d (on_trend f v)
    /\ forall x, x <> r_trend d -> h' !! x = h !! x.
Proof.
  intros He Ho.
  destruct (modify_trend_owned h0 h l d v f He Ho) as (h' & Hrun & He' & Ho').
  exists h'. split; [done|]. split; [done|]. split; [done|].
  assert (modify_trend l f h
          = Some (tt, <[r_trend d := OTrend (f (trend_analysis v))]> h)) as Hexact.
  { unfold modify_trend.
    rewrite (bind_some _ _ _ _ _ (load_data_owned _ _ _ _ _ Ho)).
    destruct Ho as (_ & (_ & _ & Ht & _) & _).
    assert (Hload : load_trend (r_trend d) h = Some (trend_analysis v, h))
      by (unfold load_trend; by rewrite Ht).
    by rewrite (bind_some _ _ _ _ _ Hload). }
  rewrite Hexact in Hrun. injection Hrun as <-.
  intros x Hx. by rewrite lookup_insert_ne.
Qed.

(** [data['risk_assessment'] = risk] gives the record a dictionary of its
    own for the risk and keeps its other references. *)
Lemma set_risk_shared h l d v risk :
  extends h0 h -> owned h0 h l d v ->
  exists h' r',
    set_risk l risk h = Some (tt, h')
    /\ extends h0 h'
    /\ owned h0 h' l
         {| r_info := r_info d; r_metrics := r_metrics d; r_trend := r_trend d;
            r_risk := r'; r_timeline := r_timeline d |}
         (with_risk risk v)
    /\ (r' ∉ dom h)
    /\ forall x, x <> l -> x <> r' -> h' !! x = h !! x.
Proof.
  intros He Ho. set (r' := fresh (dom h)).
  exists (<[l := OData (r_info d) (r_metrics d) (r_trend d) r' (r_timeline d)]>
            (<[r' := ORisk risk]> h)), r'.
  assert (Hr' : r' ∉ dom h) by apply is_fresh.
  assert (Hr0 : r' ∉ dom h0) by (by apply extends_alloc).
  split; [|split; [|split; [|split; [done|]]]].
  - unfold set_risk. rewrite (bind_some _ _ _ _ _ (load_data_owned _ _ _ _ _ Ho)). done.
  - apply extends_insert; [by apply extends_insert|].
    apply Ho. unfold footprint. set_solver.
  - destruct Ho as (Hl & (Hi & Hm & Ht & Hr & Htl) & Hfresh).
    assert (Hne : forall x o, h !! x = Some o -> x <> r').
    { intros x o Hx ->. apply Hr', elem_of_dom. by eexists. }
    unfold owned, refs_at, holds, footprint in *. destruct d as [i m t r tl]. cbn in *.
    pose proof (Hne _ _ Hl) as Nl. pose proof (Hne _ _ Hi) as Ni.
    pose proof (Hne _ _ Hm) as Nm. pose proof (Hne _ _ Ht) as Nt.
    pose proof (Hne _ _ Htl) as Ntl.
    assert (i <> l) as Dil by (intros ->; congruence).
    assert (m <> l) as Dml by (intros ->; congruence).
    assert (t <> l) as Dtl by (intros ->; congruence).
    assert (tl <> l) as Dtll by (intros ->; congruence).
    split; [by rewrite lookup_insert_eq|]. split.
    + split; [|split; [|split; [|split]]].
      * rewrite lookup_insert_ne by done. by rewrite lookup_insert_ne.
      * rewrite lookup_insert_ne by done. by rewrite lookup_insert_ne.
      * rewrite lookup_insert_ne by done. by rewrite lookup_insert_ne.
      * rewrite lookup_insert_ne by done. by rewrite lookup_insert_eq.
      * rewrite lookup_insert_ne by done. by rewrite lookup_insert_ne.
    + intros x Hx. rewrite !elem_of_cons, elem_of_nil in Hx.
      destruct Hx as [->|[->|[->|[->|[->|[->|[]]]]]]]; try done;
        apply Hfresh; set_solver.
  - intros x Hx1 Hx2. by rewrite !lookup_insert_ne.
Qed.

Lemma recalculate_frame h l d v :
  extends h0 h -> owned h0 h l d v ->
  exists h',
    recalculate_available_capacity l h = Some (tt, h')
    /\ extends h0 h' /\ owned h0 h' l d (recalculated v)
    /\ forall x, x <> r_info d -> h' !! x = h !! x.
Proof.
  intros He Ho. unfold recalculate_available_capacity.
  rewrite (bind_some _ _ _ _ _ (get_info_owned _ _ _ _ _ Ho)).
  destruct (modify_info_owned h0 h l d v
              (with_available_capacity
                 (max_capacity (warehouse_info v) - current_inventory (warehouse_info v)))
              He Ho) as (h1 & H1 & He1 & Ho1 & F1).
  rewrite (bind_some _ _ _ _ _ H1).
  rewrite (bind_some _ _ _ _ _ (get_info_owned _ _ _ _ _ Ho1)).
  destruct (modify_info_owned h0 h1 l d _
              (with_available_capacity_pct
                 (available_capacity (warehouse_info (on_info (with_available_capacity
                   (max_capacity (warehouse_info v) - current_inventory (warehouse_info v))) v))
                  / max_capacity (warehouse_info (on_info (with_available_capacity
                   (max_capacity (warehouse_info v) - current_inventory (warehouse_info v))) v))
                  * 100))
              He1 Ho1) as (h2 & H2 & He2 & Ho2 & F2).
  exists h2. split; [exact H2|]. split; [done|]. split; [exact Ho2|].
  intros x Hx. by rewrite F2, F1.
Qed.

End Writes.

(** *** One warehouse of the demonstration scenario *)

(** The heap [h] of a step that began in [h1]: of the objects of [h1] it
    changed at most the three written dictionaries of [d] and the record
    [ls]. *)
Definition chain (h1 h : heap) (ls : loc) (d : data_refs) : Prop :=
  dom h1 ⊆ dom h
  /\ forall x,
       x ∈ dom h1 -> x <> r_info d -> x <> r_metrics d -> x <> r_trend d ->
       x <> ls -> h !! x = h1 !! x.

Lemma chain_refl h1 ls d : chain h1 h1 ls d.
Proof. split; [done|]. by intros. Qed.

Lemma chain_write h1 h h' ls d a :
  chain h1 h ls d ->
  (forall x, x <> a -> h' !! x = h !! x) -> a ∈ dom h' ->
  a = r_info d \/ a = r_metrics d \/ a = r_trend d ->
  chain h1 h' ls d.
Proof.
  intros [Hdom Hfr] Hw Ha Hwhich. split.
  - intros x Hx. destruct (decide (x = a)) as [->|Hne]; [done|].
    apply elem_of_dom. rewrite (Hw x Hne). apply elem_of_dom. by apply Hdom.
  - intros x Hx N1 N2 N3 N4. rewrite Hw; [by apply Hfr|].
    intros ->. destruct Hwhich as [-> | [-> | ->]]; done.
Qed.

Lemma chain_risk h1 h h' ls d r' :
  chain h1 h ls d ->
  r' ∉ dom h -> (forall x, x <> ls -> x <> r' -> h' !! x = h !! x) ->
  ls ∈ dom h' -> r' ∈ dom h' ->
  chain h1 h' ls d.
Proof.
  intros [Hdom Hfr] Hr' Hw Hls Hr. split.
  - intros x Hx. destruct (decide (x = ls)) as [->|N1]; [done|].
    destruct (decide (x = r')) as [->|N2]; [done|].
    apply elem_of_dom. rewrite (Hw x N1 N2). apply elem_of_dom. by apply Hdom.
  - intros x Hx N1 N2 N3 N4. rewrite Hw; [by apply Hfr | done |].
    intros ->. by apply Hr', Hdom.
Qed.

Lemma owned_dom h0 h l d v x : owned h0 h l d v -> x ∈ footprint l d -> x ∈ dom h.
Proof. intros (Hl & Hv & _). by apply (footprint_dom h l d v). Qed.

(** The record of the scenario shares the dictionaries [d] of the
    baseline, but for the risk. *)
Definition shares (d d' : data_refs) : Prop :=
  r_info d' = r_info d /\ r_metrics d' = r_metrics d /\ r_trend d' = r_trend d
  /\ r_timeline d' = r_timeline d.

Lemma shallow_copy_owned h0 h lb d v :
  extends h0 h -> owned h0 h lb d v ->
  exists ls h1,
    shallow_copy lb h = Some (ls, h1)
    /\ (ls ∉ dom h) /\ h ⊆ h1 /\ extends h0 h1
    /\ owned h0 h1 lb d v /\ owned h0 h1 ls d v.
Proof.
  intros He Ho. exists (fresh (dom h)).
  exists (<[fresh (dom h) :=
             OData (r_info d) (r_metrics d) (r_trend d) (r_risk d) (r_timeline d)]> h).
  assert (Hls : fresh (dom h) ∉ dom h) by apply is_fresh.
  assert (Hsub : h ⊆ <[fresh (dom h) :=
             OData (r_info d) (r_metrics d) (r_trend d) (r_risk d) (r_timeline d)]> h)
    by apply alloc_subseteq.
  split; [|split; [done|split; [done|split; [|split]]]].
  - unfold shallow_copy.
    rewrite (bind_some _ _ _ _ _ (load_data_owned _ _ _ _ _ Ho)). done.
  - by apply (extends_subseteq h0 h).
  - apply (owned_extends h0 h); [done | by apply subseteq_extends].
  - pose proof (owned_extends h0 h _ lb d v Ho (subseteq_extends _ _ Hsub))
      as (_ & Hv & Hf).
    split; [|split; [done|]].
    + unfold refs_at. by rewrite lookup_insert_eq.
    + intros x Hx. unfold footprint in Hx. apply elem_of_cons in Hx as [->|Hx].
      * by apply extends_alloc.
      * apply Hf. unfold footprint. by apply list_elem_of_further.
Qed.

(** The value of the record of the scenario before the available capacity
    is recalculated. *)
Definition loaded_record (warehouse : string) (v : warehouse_data) : warehouse_data :=
  match simulated_load warehouse with
  | Some (factor, util, risk_args) =>
      let v1 :=
        on_metrics (with_final_utilization util)
          (on_info
             (with_current_inventory
                (inject_Z (py_round (max_capacity (warehouse_info v) * factor)))) v) in
      match risk_args with
      | Some (avg_util, max_util, slope) =>
          with_risk (_assess_capacity_risk avg_util max_util slope)
            (on_trend (with_trend_direction "Increasing") v1)
      | None => v1
      end
  | None => v
  end.

Lemma recalculated_loaded_record w v :
  recalculated (loaded_record w v) = high_demand_record w v.
Proof.
  unfold loaded_record, high_demand_record, loaded_data.
  by destruct (simulated_load w) as [[[factor util] [[[a m] sl]|]]|].
Qed.

Lemma loaded_data_fields w v :
  warehouse_info (loaded_data w v) = warehouse_info (high_demand_record w v)
  /\ utilization_metrics (loaded_data w v) = utilization_metrics (high_demand_record w v)
  /\ trend_analysis (loaded_data w v) = trend_analysis (high_demand_record w v)
  /\ risk_assessment (loaded_data w v) = risk_assessment v
  /\ timeline_data (loaded_data w v) = timeline_data v.
Proof.
  unfold high_demand_record, loaded_data.
  by destruct (simulated_load w) as [[[factor util] [[[a m] sl]|]]|].
Qed.

Lemma load_stage h0 w lb ls d v h1 :
  extends h0 h1 -> owned h0 h1 lb d v -> owned h0 h1 ls d v ->
  exists h2 d2,
    match simulated_load w with
    | Some (factor, util, risk_args) =>
        vi ← get_info lb;
        let new_inventory := max_capacity vi * factor in
        modify_info ls (with_current_inventory (inject_Z (py_round new_inventory)));;
        modify_metrics ls (with_final_utilization util);;
        match risk_args with
        | Some (avg_util, max_util, slope) =>
            modify_trend ls (with_trend_direction "Increasing");;
            set_risk ls (_assess_capacity_risk avg_util max_util slope)
        | None => mret tt
        end
    | None => mret tt
    end h1 = Some (tt, h2)
    /\ extends h0 h2
    /\ owned h0 h2 ls d2 (loaded_record w v)
    /\ chain h1 h2 ls d
    /\ shares d d2
    /\ (r_risk d2 = r_risk d \/ r_risk d2 ∉ dom h1).
Proof.
  intros He1 Hob Hos. unfold loaded_record.
  destruct (simulated_load w) as [[[factor util] risk_args]|].
  2: { exists h1, d. split; [done|]. split; [done|]. split; [done|].
       split; [apply chain_refl|]. split; [done | by left]. }
  rewrite (bind_some _ _ _ _ _ (get_info_owned _ _ _ _ _ Hob)). cbn zeta.
  destruct (modify_info_owned h0 h1 ls d v
              (with_current_inventory
                 (inject_Z (py_round (max_capacity (warehouse_info v) * factor))))
              He1 Hos) as (ha & Ha & Hea & Hoa & Fa).
  rewrite (bind_some _ _ _ _ _ Ha).
  destruct (modify_metrics_owned h0 ha ls d _ (with_final_utilization util) Hea Hoa)
    as (hb & Hb & Heb & Hob' & Fb).
  rewrite (bind_some _ _ _ _ _ Hb).
  assert (chain h1 ha ls d) as Ca.
  { apply (chain_write h1 h1 ha ls d (r_info d)); [apply chain_refl | done | | by left].
    apply (owned_dom h0 ha ls d _ _ Hoa). unfold footprint. set_solver. }
  assert (chain h1 hb ls d) as Cb.
  { apply (chain_write h1 ha hb ls d (r_metrics d)); [done | done | | right; by left].
    apply (owned_dom h0 hb ls d _ _ Hob'). unfold footprint. set_solver. }
  destruct risk_args as [[[a m] sl]|].
  2: { exists hb, d. split; [done|]. split; [done|]. split; [done|].
       split; [done|]. split; [done | by left]. }
  destruct (modify_trend_frame h0 hb ls d _ (with_trend_direction "Increasing") Heb Hob')
    as (hc & Hc & Hec & Hoc & Fc).
  rewrite (bind_some _ _ _ _ _ Hc).
  assert (chain h1 hc ls d) as Cc.
  { apply (chain_write h1 hb hc ls d (r_trend d)); [done | done | | right; by right].
    apply (owned_dom h0 hc ls d _ _ Hoc). unfold footprint. set_solver. }
  destruct (set_risk_shared h0 hc ls d _ (_assess_capacity_risk a m sl) Hec Hoc)
    as (hd & r' & Hd & Hed & Hod & Hr' & Fd).
  exists hd, {| r_info := r_info d; r_metrics := r_metrics d; r_trend := r_trend d;
                r_risk := r'; r_timeline := r_timeline d |}.
  split; [done|]. split; [done|]. split; [done|]. split; [|split; [done|]].
  - apply (chain_risk h1 hc hd ls d r'); [done..| |].
    + apply (owned_dom h0 hd ls _ _ _ Hod). unfold footprint. set_solver.
    + apply (owned_dom h0 hd ls _ _ _ Hod). unfold footprint. cbn. set_solver.
  - right. cbn. intros Hin. apply Hr'. by apply Cc.
Qed.

Lemma in_footprint (l : loc) (d : data_refs) :
  l ∈ footprint l d /\ r_info d ∈ footprint l d /\ r_metrics d ∈ footprint l d
  /\ r_trend d ∈ footprint l d /\ r_risk d ∈ footprint l d
  /\ r_timeline d ∈ footprint l d.
Proof. unfold footprint. rewrite !elem_of_cons. tauto. Qed.

Lemma high_demand_step h0 acc w lb h d v :
  extends h0 h -> owned h0 h lb d v ->
  exists ls d' h',
    scenario_step acc (w, lb) h = Some (dict_set w ls acc, h')
    /\ extends h0 h'
    /\ owned h0 h' lb d (loaded_data w v)
    /\ owned h0 h' ls d' (high_demand_record w v)
    /\ (forall x, x ∈ footprint ls d' -> x ∈ footprint lb d \/ x ∉ dom h)
    /\ forall x, x ∈ dom h -> x ∉ footprint lb d -> h' !! x = h !! x.
Proof.
  intros He Ho.
  destruct (shallow_copy_owned h0 h lb d v He Ho)
    as (ls & h1 & Hcopy & Hls & Hsub & He1 & Hob & Hos).
  unfold scenario_step. cbn [fst snd]. rewrite (bind_some _ _ _ _ _ Hcopy).
  destruct (load_stage h0 w lb ls d v h1 He1 Hob Hos)
    as (h2 & d2 & Hload & He2 & Ho2 & C2 & (Si & Sm & St & Stl) & Hrisk).
  rewrite (bind_some _ _ _ _ _ Hload).
  destruct (recalculate_frame h0 h2 ls d2 _ He2 Ho2) as (h3 & Hrec & He3 & Ho3 & F3).
  rewrite (bind_some _ _ _ _ _ Hrec). rewrite recalculated_loaded_record in Ho3.
  assert (chain h1 h3 ls d) as [Hdom Hfr].
  { apply (chain_write h1 h2 h3 ls d (r_info d)); [done | by rewrite <- Si | | by left].
    rewrite <- Si. apply (owned_dom h0 h3 ls d2 _ _ Ho3). apply in_footprint. }
  destruct (in_footprint lb d) as (Flb & Fi & Fm & Ft & Fr & Ftl).
  assert (forall x, x ∈ footprint lb d -> x ∈ dom h) as Hin.
  { intros x Hx. by apply (owned_dom h0 h lb d v). }
  assert (forall x, x ∈ dom h -> x ∈ dom h1 /\ x <> ls) as Hold.
  { intros x Hx. split.
    - apply elem_of_dom in Hx as [o Hx]. apply elem_of_dom. exists o.
      by apply (lookup_weaken h).
    - by intros ->. }
  assert (forall x, x ∈ dom h -> h1 !! x = h !! x) as H1.
  { intros x Hx. by apply subseteq_extends. }
  assert (forall x, x ∈ dom h ->
            x <> r_info d -> x <> r_metrics d -> x <> r_trend d ->
            h3 !! x = h !! x) as Hkeep.
  { intros x Hx D1 D2 D3. destruct (Hold x Hx) as [Hx1 Hxl].
    rewrite Hfr by done. by apply H1. }
  pose proof Ho as (Hl & (Hi & Hm & Ht & Hr & Htl) & Hfresh).
  unfold refs_at in Hl.
  exists ls, d2, h3. split; [done|]. split; [done|]. split; [|split; [done|split]].
  - destruct Ho3 as (Hl3 & (Hi3 & Hm3 & Ht3 & Hr3 & Htl3) & _).
    destruct (loaded_data_fields w v) as (Ei & Em & Et & Er & Etl).
    rewrite Si in Hi3. rewrite Sm in Hm3. rewrite St in Ht3.
    split; [|split; [|done]].
    + unfold refs_at. rewrite Hkeep; [done | by apply Hin | | |];
        intros E; rewrite E in Hl; congruence.
    + unfold holds. rewrite Ei, Em, Et, Er, Etl.
      split; [done|]. split; [done|]. split; [done|]. split.
      * rewrite Hkeep; [done | by apply Hin | | |];
          intros E; rewrite E in Hr; congruence.
      * rewrite Hkeep; [done | by apply Hin | | |];
          intros E; rewrite E in Htl; congruence.
  - intros x Hx. unfold footprint in Hx. rewrite Si, Sm, St, Stl in Hx.
    rewrite !elem_of_cons, elem_of_nil in Hx.
    destruct Hx as [-> | [-> | [-> | [-> | [Hx | [-> | []]]]]]];
      [by right | by left | by left | by left | | by left].
    destruct Hrisk as [E|E].
    + left. by rewrite Hx, E.
    + right. rewrite Hx. intros Hd. apply E. by apply Hold.
  - intros x Hx Hnot. apply Hkeep; [done|..]; by intros ->.
Qed.

(** *** The loop over the baseline *)

Definition loaded_entry (e : entry) : entry :=
  with_value (loaded_data (e_key e) (e_value e)) e.

(** The entry [s] of the scenario for the entry [e] of the baseline: its
    objects are objects of [e] or none of the baseline, whose objects are
    [F]. *)
Definition scenario_of (h0 h : heap) (F : list loc) (e s : entry) : Prop :=
  e_key s = e_key e
  /\ e_value s = high_demand_record (e_key e) (e_value e)
  /\ owned h0 h (e_loc s) (e_refs s) (e_value s)
  /\ forall x, x ∈ footprint (e_loc s) (e_refs s) ->
       x ∈ footprint (e_loc e) (e_refs e) \/ x ∉ F.

Lemma footprints_app es1 es2 : footprints (es1 ++ es2) = footprints es1 ++ footprints es2.
Proof. unfold footprints. apply flat_map_app. Qed.

Lemma footprints_loaded es : footprints (map loaded_entry es) = footprints es.
Proof.
  induction es as [|e es IH]; [done|]. unfold footprints in *. cbn [map flat_map].
  by rewrite IH.
Qed.

Lemma refs_of_loaded es : refs_of (map loaded_entry es) = refs_of es.
Proof. unfold refs_of. rewrite map_map. done. Qed.

Lemma footprint_in_footprints e es x :
  e ∈ es -> x ∈ footprint (e_loc e) (e_refs e) -> x ∈ footprints es.
Proof.
  intros He Hx. unfold footprints. apply list_elem_of_In, in_flat_map.
  exists e. split; by apply list_elem_of_In.
Qed.

Lemma footprints_disjoint A e B e' x :
  NoDup (footprints (A ++ e :: B)) -> e' ∈ A ++ B ->
  x ∈ footprint (e_loc e') (e_refs e') -> x ∉ footprint (e_loc e) (e_refs e).
Proof.
  rewrite footprints_app. unfold footprints at 2. cbn [flat_map].
  fold (footprints B). intros Hnd He' Hx Hin.
  apply NoDup_app in Hnd as (_ & HdA & HndB).
  apply NoDup_app in HndB as (_ & HdB & _).
  apply elem_of_app in He' as [He'|He'].
  - apply (HdA x (footprint_in_footprints e' A x He' Hx)).
    apply elem_of_app. by left.
  - apply (HdB x Hin). by apply (footprint_in_footprints e' B x).
Qed.

Lemma owned_kept h0 h h' l d v :
  owned h0 h l d v -> (forall x, x ∈ footprint l d -> h' !! x = h !! x) ->
  owned h0 h' l d v.
Proof.
  intros (Hl & (Hi & Hm & Ht & Hr & Htl) & Hfresh) Hk.
  destruct (in_footprint l d) as (Fl & Fi & Fm & Ft & Fr & Ftl).
  split; [|split; [|done]].
  - unfold refs_at in *. by rewrite Hk.
  - unfold holds. by rewrite !Hk.
Qed.

Lemma owned_all_read h0 h es :
  Forall (fun e => owned h0 h (e_loc e) (e_refs e) (e_value e)) es ->
  read_analysis h (refs_of es) = Some (values_of es).
Proof.
  induction 1 as [|e es He Hes IH]; [done|].
  cbn [refs_of values_of map read_analysis].
  rewrite (owned_read _ _ _ _ _ He). unfold refs_of, values_of in IH. by rewrite IH.
Qed.

Lemma Forall2_impl_in {A B} (P Q : A -> B -> Prop) (l : list A) (k : list B) :
  Forall2 P l k -> (forall x y, x ∈ l -> P x y -> Q x y) -> Forall2 Q l k.
Proof.
  induction 1 as [|x y l k Hxy _ IH]; intros Himp; [constructor|].
  constructor.
  - apply Himp; [apply list_elem_of_here | done].
  - apply IH. intros x' y' Hx'. apply Himp. by apply list_elem_of_further.
Qed.

Lemma high_demand_loop h0 (es pre post ss : list entry) (h : heap) :
  es = pre ++ post ->
  extends h0 h ->
  separate h0 h (map loaded_entry pre ++ post) ->
  Forall2 (scenario_of h0 h (footprints es)) pre ss ->
  NoDup (map e_key es) ->
  exists ss' h',
    for_each scenario_step (refs_of post) (refs_of ss) h = Some (refs_of ss', h')
    /\ extends h0 h'
    /\ separate h0 h' (map loaded_entry es)
    /\ Forall2 (scenario_of h0 h' (footprints es)) es ss'.
Proof.
  revert pre ss h. induction post as [|e post IH]; intros pre ss h -> He Hsep Hss Hnd.
  - rewrite app_nil_r in *. by exists ss, h.
  - pose proof Hsep as [Hall Hfp].
    assert (owned h0 h (e_loc e) (e_refs e) (e_value e)) as Hoe.
    { rewrite Forall_app, Forall_cons in Hall. by destruct Hall as (_ & ? & _). }
    destruct (high_demand_step h0 (refs_of ss) (e_key e) (e_loc e) h (e_refs e)
                (e_value e) He Hoe)
      as (ls & d' & h1 & Hstep & He1 & Hob & Hos & Hnew & Hfr).
    set (s := {| e_key := e_key e; e_loc := ls; e_refs := d';
                 e_value := high_demand_record (e_key e) (e_value e) |}).
    assert (Hkeys : map e_key ss = map e_key pre).
    { clear -Hss. induction Hss as [|e0 s0 pre' ss' (Hk & _) _ IH]; [done|].
      cbn [map]. by rewrite Hk, IH. }
    assert (Hset : dict_set (e_key e) ls (refs_of ss) = refs_of (ss ++ [s])).
    { rewrite refs_of_snoc. apply ScenarioFacts.dict_set_fresh.
      rewrite map_fst_refs_of, Hkeys. rewrite map_app in Hnd.
      apply NoDup_app in Hnd as (_ & Hdis & _). intros Hin.
      apply (Hdis _ Hin). cbn [map]. apply list_elem_of_here. }
    assert (HF : forall x, x ∈ footprints (pre ++ e :: post) -> x ∈ dom h).
    { intros x Hx. apply (footprints_dom h0 h _ x Hsep).
      by rewrite footprints_app, footprints_loaded, <- footprints_app. }
    assert (Hfp' : NoDup (footprints (pre ++ e :: post))).
    { by rewrite footprints_app, footprints_loaded, <- footprints_app in Hfp. }
    assert (Hother : forall e' x,
              e' ∈ pre ++ post -> x ∈ footprint (e_loc e') (e_refs e') ->
              h1 !! x = h !! x).
    { intros e' x He' Hx. apply Hfr.
      - apply HF. apply (footprint_in_footprints e'); [|done].
        apply elem_of_app in He' as [?|?]; apply elem_of_app; [by left|].
        right. by apply list_elem_of_further.
      - by apply (footprints_disjoint pre e post e' x). }
    destruct (IH (pre ++ [e]) (ss ++ [s]) h1) as (ss' & h2 & Hfor & He2 & Hsep2 & Hss2).
    + by rewrite <- app_assoc.
    + done.
    + rewrite map_app. cbn [map]. rewrite <- app_assoc. cbn [app]. split.
      * rewrite Forall_app, Forall_cons in Hall. destruct Hall as (Hpre & _ & Hpost).
        rewrite Forall_app, Forall_cons. split; [|split].
        -- rewrite Forall_forall in Hpre |- *. intros e1 He1'.
           pose proof (Hpre e1 He1') as Ho1.
           apply list_elem_of_fmap in He1' as (e0 & -> & He0).
           apply (owned_kept h0 h); [done|]. intros x Hx.
           apply (Hother e0 x); [apply elem_of_app; by left | done].
        -- done.
        -- rewrite Forall_forall in Hpost |- *. intros e1 He1'.
           apply (owned_kept h0 h); [by apply Hpost|]. intros x Hx.
           apply (Hother e1 x); [apply elem_of_app; by right | done].
      * rewrite footprints_app, footprints_loaded. unfold footprints at 2.
        cbn [flat_map loaded_entry with_value e_loc e_refs].
        fold (footprints post).
        rewrite footprints_app in Hfp'. unfold footprints at 2 in Hfp'.
        cbn [flat_map] in Hfp'. done.
    + apply Forall2_app.
      * apply (Forall2_impl_in _ _ _ _ Hss). intros e0 s0 He0 (Hk & Hv & Ho & Hf).
        split; [done|]. split; [done|]. split; [|done].
        apply (owned_kept h0 h); [done|]. intros x Hx. apply Hfr.
        -- by apply (owned_dom h0 h _ _ _ x Ho).
        -- destruct (Hf x Hx) as [Hin|Hout].
           ++ apply (footprints_disjoint pre e post e0 x); [done| |done].
              apply elem_of_app. by left.
           ++ intros Hine. apply Hout.
              apply (footprint_in_footprints e); [|done].
              apply elem_of_app. right. apply list_elem_of_here.
      * constructor; [|constructor].
        split; [done|]. split; [done|]. split; [done|].
        intros x Hx. destruct (Hnew x Hx) as [Hin|Hout]; [by left|].
        right. intros HxF. by apply Hout, HF.
    + done.
    + exists ss', h2. split; [|done].
      cbn [refs_of map for_each]. rewrite (bind_some _ _ _ _ _ Hstep).
      by rewrite Hset.
Qed.

Lemma values_of_loaded es :
  values_of (map loaded_entry es)
  = map (fun p => (p.1, loaded_data p.1 p.2)) (values_of es).
Proof. unfold values_of. rewrite !map_map. done. Qed.

Lemma values_of_scenario h0 h F es ss :
  Forall2 (scenario_of h0 h F) es ss ->
  values_of ss = map (fun p => (p.1, high_demand_record p.1 p.2)) (values_of es)
  /\ Forall (fun s => owned h0 h (e_loc s) (e_refs s) (e_value s)) ss.
Proof.
  induction 1 as [|e s es ss (Hk & Hv & Ho & _) _ [IH1 IH2]]; [done|].
  split; [|by constructor].
  cbn [values_of map fst snd]. rewrite Hk, Hv. f_equal. exact IH1.
Qed.

(** X30. The demonstration scenario of the optimiser writes into the
    baseline. For every analysis with distinct warehouse keys, built as
    [analyze_capacity_utilization] builds it, the run succeeds, and
    afterwards the baseline no longer reads as before: each of its records
    holds the load, the utilization, the trend and the available capacity
    that the scenario set for the warehouse. The scenario reads the same,
    but for the risk assessment of the two overloaded warehouses, the one
    dictionary that it replaces instead of updating. *)
Theorem high_demand_scenario_writes_baseline (h0 : heap) (v : capacity_analysis_t) :
  NoDup (map fst v) ->
  exists base h scenario h',
    new_analysis v h0 = Some (base, h)
    /\ read_analysis h base = Some v
    /\ simulate_high_demand_scenario base h = Some (scenario, h')
    /\ map fst scenario = map fst base
    /\ read_analysis h' scenario
       = Some (map (fun p => (p.1, high_demand_record p.1 p.2)) v)
    /\ read_analysis h' base
       = Some (map (fun p => (p.1, loaded_data p.1 p.2)) v).
Proof.
  intros Hnd.
  destruct (new_analysis_separate h0 v h0 (extends_refl h0))
    as (es & h & Hnew & _ & He & Hsep & Hvals & _).
  assert (NoDup (map e_key es)) as Hkeys.
  { rewrite <- Hvals in Hnd. unfold values_of in Hnd. by rewrite map_map in Hnd. }
  destruct (high_demand_loop h0 es [] es [] h eq_refl He Hsep) as
    (ss & h' & Hfor & He' & Hsep' & Hss); [constructor | done |].
  destruct (values_of_scenario _ _ _ _ _ Hss) as [Hsv Hso].
  exists (refs_of es), h, (refs_of ss), h'.
  split; [done|]. split; [by rewrite (separate_read h0 h es Hsep), Hvals|].
  split; [done|]. split; [|split].
  - rewrite !map_fst_refs_of. clear -Hss.
    induction Hss as [|e s es' ss' (Hk & _) _ IH]; [done|]. cbn [map]. by rewrite Hk, IH.
  - by rewrite (owned_all_read h0 h' ss Hso), Hsv, Hvals.
  - rewrite <- (refs_of_loaded es), (separate_read h0 h' _ Hsep').
    by rewrite values_of_loaded, Hvals.
Qed.

Lemma high_demand_scenario_writes_baseline_witness :
  exists base h scenario h',
    new_analysis Examples.example_analysis ∅ = Some (base, h)
    /\ read_analysis h base = Some Examples.example_analysis
    /\ simulate_high_demand_scenario base h = Some (scenario, h')
    /\ map fst scenario = map fst base
    /\ read_analysis h' scenario
       = Some (map (fun p => (p.1, high_demand_record p.1 p.2))
                 Examples.example_analysis)
    /\ read_analysis h' base
       = Some (map (fun p => (p.1, loaded_data p.1 p.2)) Examples.example_analysis).
Proof.
  apply (high_demand_scenario_writes_baseline ∅ Examples.example_analysis).
  apply (bool_decide_unpack _). by vm_compute.
Defined.

End HighDemandFacts.
